(* ===== verification/_CoqProject ===== *)
-Q . S2P
Prelude.v
Dom.v
JsNum.v
Css.v
Scramble.v
ScrambleDoc.v
Runtime.v
Config.v
Vite.v
Cursor.v
CursorDoc.v
CursorCss.v
Tilt.v
TiltDoc.v
Magnetic.v
LazyInit.v
Kinetic.v
KineticCss.v
Typewriter.v
Audio.v
Nav.v
Main.v
ScrollFx.v
ScrollDoc.v
ScrollPage.v
Transitions.v
TransitionCss.v
MicroCss.v
Particles.v
PageCss.v
