(* ===== verification/Prelude.v ===== *)
(** * Lumina interaction modules: a verification development

    The repository ships DOM-scripting modules for a marketing site
    ([src/src/js/main.js], [cursor.js], [tilt.js], [scroll-animations.js],
    the kinetic-typography module in [src/unnamed/part_001], the magnetic
    module in [src/unnamed/part_002]) and a design document with inline
    code ([src/unnamed/part_000]).  [main.js] imports the other modules
    and calls their [init*] functions once the DOM is ready, then
    [cursor.refresh()].  Each module owns its elements and talks to the
    others only through the DOM (body classes) and the host: event
    listeners, [requestAnimationFrame], [setTimeout], promises.  The
    module with real state and ordering concerns is the kinetic text
    engine: [TextScramble] (a per-character randomized transition driven
    by animation frames, reporting completion through a promise) and
    [WordRotator] (which chains [setText] calls through that promise and
    [setTimeout]).

    ** Files and what they model (in dependency order)

    - [Prelude.v] (this file): JavaScript strings as lists of UTF-16 code
      units ([jsstring]), indexing [s[i]] and the idiom [s[i] || ''], a
      state monad [St] and a state-and-exception monad [Exc] with their
      notations (scope [lumina_scope]), [report] (the host calling a
      listener and reporting what it throws), the interface
      [RandomSource] for [Math.random] (a class: the scrambler is proved
      against any source whose draws lie in [0,1), [park_miller] is a
      concrete instance for runs), powers of rationals with Bernoulli's
      inequality, and the hint databases [lumina] and [lumina_rw].
    - [Dom.v]: [classList] ([add], [remove], [contains]) and the timer
      queue ([setTimeout], [clearTimeout], earliest-due-first firing).
      The HTML rule that raises a timeout below 4ms to 4ms for timers
      nested more than 5 deep is applied where timers nest (the
      typewriter's interval); the other timers are armed from event
      listeners or promise reactions, at nesting level 0.
    - [JsNum.v]: numbers as finite rationals, [NaN] and infinities, with
      [+ - * /] (division by zero included), truthiness for [x || d],
      [Math.round], [parseFloat], [parseInt(s, 10)], [parseInt(s)] with
      no radix (a [0x] prefix reads hexadecimal), integer printing, and
      [fround], the single-precision rounding of a [Float32Array] element
      (round to nearest, ties to even, subnormals, overflow to
      [Infinity]).  Lemmas: printing an integer and reading it back with
      [parseInt] is the identity; a number between [-c] and [c] ([c] an
      integer up to [2^22]) is stored between [-c] and [c].
    - [Css.v], Module [Css]: what the browser does with a stylesheet:
      selectors (classes, attributes, [:hover], [:focus], [:active],
      [:placeholder-shown], [:nth-child], [:not], the descendant and
      next-sibling combinators, [::before] and [::after]) matched against
      an element in its document, specificity, the [transition],
      [animation] and [border] shorthands expanded into longhands, media
      conditions, and the cascade: the declaration of highest precedence
      (importance, [style] attribute, specificity, source order) is a
      fold over the candidates.  Theorems: the candidates' keys are
      distinct and the fold computes exactly the value of the one of
      highest precedence (the cascade's specification); a value
      a script writes into the [style] attribute wins over every normal
      rule; a property only universal rules declare [!important] has the
      same value on every element.
    - [Scramble.v], Module [TextScramble]: [src/unnamed/part_001] lines
      48-111, the queue built by [setText] ([build_queue],
      [setText_queue]) and one call of [update] ([update_task],
      [update_loop], [update_frame]) as state-monad functions of the
      random source.  Theorems: queue length, [from]/[to] of each task,
      start/end bounds, the branches of [update], completion exactly when
      every task is frozen, stored glyphs always from [chars], and an
      abstract per-task phase machine (pending, resolving, frozen) that
      [update] refines.
    - [ScrambleDoc.v], Module [ScrambleDoc]: the design document's
      [TextScramble] (section 4.3), the same queue and frame loops with
      a longer glyph set.  Theorem: from the same draws its session
      counts the same completed tasks at every frame as the shipped one
      (a simulation over tasks with the same fields and the same glyph
      presence), so both resolve at the same frame.
    - [Runtime.v], Module [Runtime]: the host event loop (frame
      callbacks, promises with reaction jobs and the microtask
      checkpoint, timers with a clock, reported exceptions) and the
      methods of [TextScramble] and [WordRotator] ([setText], [update],
      [next], [start], [stop], the constructor) on it, as an executable
      [run_event], with [reachable] worlds and their invariant [inv].
      Theorems: one frame chain at a time, the only possible error, every
      session completes within 78 frames, a superseded promise is never
      fulfilled, the rotator's index and delay, and [stop] during a
      transition does not stop the rotation (a divergence from the
      specification).
    - [Config.v], Module [Config]: the rotation branch of
      [initKineticText] ([split(',')], [trim], [parseInt(.., 10) || 3000])
      building a [Runtime] rotator; it never hits the empty-list error.
    - [Vite.v], Module [Vite]: [src/vite.config.js], the object given to
      [defineConfig] with [path.resolve] on its relative inputs.  Lemma:
      six entries with distinct names and distinct [index.html] files.
    - [Cursor.v], Module [Cursor]: [cursor.js], the [Cursor] fields and
      elements, every listener, [animate] on animation frames, the
      entrance timer, on a desktop or a touch device.  Theorems: no
      listener throws on a desktop and the loop never stops, the ring's
      lerp and its convergence ([1 / (1 + 0.15 n)]), no overshoot, the
      first move snaps, [mouseup] always resets to ['default'], hover
      listeners throw on touch devices after [refresh()], and the last
      listener of an element decides its state.
    - [CursorDoc.v], Module [CursorDoc]: the design document's
      [LuminaCursor] (section 1.2): its ring follows the implementation's
      lerp frame by frame, and a page without a ring element throws in
      the constructor, so the loop never starts while the hover listeners
      stay bound.
    - [CursorCss.v], Module [CursorCss]: cursor.css and the cursor's
      markup (sections 1.3, 1.4) with the [data-state] and inline
      transform [LuminaCursor] writes.  Theorems over every event
      sequence: the dot is never scaled away on hover (its inline
      transform outranks the rule), the label shows exactly in the text
      state, and the ring is centred on its point except in the media
      state.
    - [Tilt.v], Module [Tilt]: [tilt.js], [TiltElement] and [initTilt].
      Theorems: tilt within [maxTilt] and glare within the box, [NaN]
      angles on a collapsed box, the [onEnter] timeout that cuts the
      ease-back, and [destroy] leaving the listeners bound.
    - [TiltDoc.v], Module [TiltDoc]: the design document's [TiltElement]
      (section 6.3); it writes the implementation's angles.
    - [Magnetic.v], Module [Magnetic]: [src/unnamed/part_002],
      [MagneticElement] and [initMagnetic], with [Math.hypot] as the
      interface [Hypot] and its laws [HypotOk] (the proofs hold for every
      lawful [Math.hypot]; [hypot_max] runs the model), and Module
      [Magnetic.Doc], the design document's class (section 2.2).
      Theorems: the offset stays within [|strength| * triggerArea / 4]
      (the pull peaks half-way to the edge), the implementation and the
      document's class
      agree on every trace without [destroy] (a simulation, [agree]), and
      [destroy] freezes the element while its listeners keep running;
      the usage markup of section 2.3 gets the strengths it writes.
    - [LazyInit.v], Module [LazyInit]: the reduced-motion check and the
      [IntersectionObserver] of the design document (section 9); a batch
      is any list of entries for elements observed when the callback's
      task starts, several entries for one element included.  Theorems:
      a [TiltElement] or [ParticleBackground] is built only for a
      deferred element with a truthy attribute; an element that enters,
      leaves and re-enters the viewport before the callback runs gets
      two [TiltElement]s, since [unobserve] does not withdraw entries
      already queued.
    - [Kinetic.v], Module [Kinetic]: [splitText], [glitchText], the tweens
      [charCascade] and [elasticWave] ask GSAP for, the cascade, elastic
      and glitch branches of [initKineticText], and the document's
      [splitText] (section 4.2), [charCascade] and [elasticWave]
      (section 4.3).  Theorems: splitting keeps the trimmed
      text (words join back; characters show spaces as no-break spaces),
      another [type] empties the element, and the implementation is the
      document's version applied to the trimmed text.
    - [KineticCss.v], Module [KineticCss]: kinetic-text.css and its
      keyframes (section 4.4) over the elements [splitText] and
      [glitchText] create.  Theorem: every element a split creates is an
      [inline-block] box and every line wrapper clips; the usage line's
      glitch layers print its text in two disjoint bands.
    - [Typewriter.v], Module [Typewriter]: [Typewriter] of part_001, its
      [setTimeout] and [setInterval] as timers of [Dom.v], each with its
      HTML timer nesting level.  Theorem: [type()] terminates after
      exactly [n + 2] timer firings for a text of [n] code units,
      showing the text, with the promise resolved and no timer left, at
      [delay + (min n 4 + 1) * speed + (n - 4) * max 4 speed] (the 4ms
      clamp from the sixth tick on); two calls interleave their
      letters.
    - [Audio.v], Module [Audio]: the design document's [AudioFeedback]
      (section 8.1) with [localStorage] and the oscillators it schedules.
      Theorems: the sound setting survives a reload, and the first click
      on a control is silent.
    - [Nav.v], Module [Nav]: [main.js]'s mobile navigation (toggle,
      links, [Escape], resize), the smooth-scroll click listener and the
      preloader.  [querySelector(targetId)] looks up a plain [#ident];
      a selector that goes on after the identifier ([#a.b]) is a
      parameter of the page ([query_compound]).  Theorems: the menu's classes and [aria-expanded] stay
      in agreement, what each listener does, and the [SyntaxError] for
      ids that start with a digit.
    - [Main.v], Module [Main]: [main.js]'s [init()] in its order, the
      [DOMContentLoaded] branch and the preloader's [load] listener, over
      a page where the cursor and the navigation act on one shared
      [document.body.classList] (each module's step reads the shared list
      and writes it back).  Theorem: the modules do not interfere; the
      navigation keeps agreeing with the body and [cursor-ready] and
      [is-loaded] are never removed.
    - [ScrollFx.v], Module [ScrollFx]: [scroll-animations.js]'s progress
      bar, navigation scroll state, counter text, the hero timeline
      (where GSAP's position parameters place each tween), the tween of
      each [data-animate] reveal and of each parallax element.  Theorems:
      progress in [0,1], [is-scrolled] only at 80px or more, counter text
      between 0 and its target and exact at the end, and the hero
      timeline's length [2.2 + 0.15 (k - 1)] s for [k] title lines.
    - [ScrollDoc.v], Module [ScrollDoc]: the design document's
      [scroll-animations.js] (section 3.2): each [init*] function as the
      list of GSAP tweens it registers on a page of elements, and
      [initScrollAnimations] as their concatenation in call order.
      Theorems: the number of tweens registered, the horizontal section's
      [snap] ([Infinity] with one panel), and the counter target against
      the implementation's ([parseInt] without radix reads ["0x10"] as
      16); the usage markup of section 3.3 gets its six tweens.
    - [ScrollPage.v], Module [ScrollPage]: the shipped
      [initScrollAnimations] over a page: the hero timeline, the reveal
      loops in source order, parallax, progress, navigation and counters
      as the registrations they make.  Theorems: how many registrations
      a page gets; the shipped module and the document register counters
      on the same elements with the same targets unless a value has a
      [0x] prefix.
    - [Transitions.v], Module [Transitions]: the design document's Barba
      transitions (section 5.2): the wipe, clip and slide hooks in the
      exception monad, the transition rules, the views' [afterEnter] and
      the global [after] hook, and Barba's lifecycle (leave, enter, the
      page scripts) as an executable [run_event] in which a running tween
      ticks through arbitrary values of the property it animates.  It
      uses [ScrollDoc] for the scroll animations the [after] hook
      re-registers.  Theorems: the overlay is never visible (an invariant
      of the reachable states, from the CSS of section 5.3), the clip
      transition throws on a string trigger, and the page scripts throw
      [ReferenceError]s for names the module never imports.
    - [TransitionCss.v], Module [TransitionCss]: transitions.css, the
      markup of section 5.4, 3d-card.css and the Spline viewer's style.
      Theorems: the overlay's initial style in [Transitions.v] is the one
      the stylesheet computes; a flip card shows exactly one face.
    - [MicroCss.v], Module [MicroCss]: micro-interactions.css
      (section 7) with the keyframes of 7.5.  Theorems: the floating
      label rises exactly when its field is focused or filled, the
      border-draw button outlines four sides on hover, the ripple's press
      and release, the growing underline stays centred, the loading dots'
      stagger.
    - [Particles.v], Module [Particles]: the design document's
      [ParticleBackground] (section 6.5), with [Math.random] as the
      prelude's [RandomSource] and the [Float32Array] store as
      [JsNum.fround].  Theorems: [6000] coordinates in the closed
      [[-5, 5]] (a draw just below [5] is stored as [5]), the mouse
      mapped to [[-1, 1]], and the animation loop
      turning the cloud by a constant step per frame forever.
    - [PageCss.v], Module [PageCss]: the reduced-motion block
      (section 9.2) after the page's stylesheets.  Theorems over every
      element of every page: with the preference set, every element and
      its [::before]/[::after] transition and animate for 0.01ms, once;
      the cursor is the default one on devices whose pointer cannot hover
      and is coarse and hidden on every other device.

    ** Modelling choices

    - [Math.random()] is a draw of a rational in [0,1) from a
      [RandomSource]; [Math.floor(Math.random() * n)] is [Qfloor] of the
      exact product.  For [n = 40] and [n = 18] the rounded double
      product has the same floor range [0, n), which is all the theorems
      use; [0.28] is the rational 28/100.
    - Numbers are exact rationals: the cursor's lerp, the tilt angles,
      the magnetic offset and the progress factor are computed without
      double rounding, and without the overflow of a double to
      [Infinity] beyond [2^1024] (so no theorem claims that a
      coordinate stays finite for finite inputs).  The one rounding
      modelled is the [Float32Array] store of the particles.  Where a
      division by zero can happen ([tilt.js]) numbers carry [NaN] and the
      infinities ([JsNum.num]).
    - [el.innerHTML = output] stores [output]; [el.textContent] reads it
      back through the browser's HTML parser, a parameter
      ([text_content]) of the runtime; [Runtime.strip_spans] is the
      reading used on concrete inputs.
    - Style strings built from templates ([transform], [background]) are
      kept as the values interpolated into them.
    - [Math.hypot] is the class [Magnetic.Hypot] with the two laws the
      bound needs ([|a|] and [|b|] are at most [hypot a b]); the exact
      square root is not needed by any theorem.
    - The design document's code blocks are modelled as written there, in
      Modules or files of their own ([Doc], [CursorDoc], [TiltDoc],
      [splitText_doc], [ScrollDoc], [Transitions], [Particles]), and
      related to the shipped code by theorems where the two overlap.
    - Libraries the code only calls (GSAP, ScrollTrigger, Barba, Three.js)
      are reduced to what the code hands them and what it reads back:
      the tweens' targets and end values, Barba's [data], the values
      written to the Three.js objects.  Which of the matching transitions
      Barba runs is an input of a navigation.
    - Each world carries the host state a module touches: listeners
      bound, pending frame callbacks, timers with a clock, class lists.
      Events are explicit ([run_event]); a world is [reachable] from the
      module's initialisation by any event sequence.
    - Stylesheets are data: each rule keeps its selectors and its
      declarations as the source writes them (values as component-value
      trees).  A computed value is the cascaded one; inheritance and
      initial values are left out ([None]), and where a theorem needs an
      initial value it names it.  Transitions and animations are kept as
      their declared longhands (durations, delays, counts), not
      interpolated over time, except the linear glitch keyframes.  The
      user-action pseudo-classes hold of an element as given; an element
      the markup of the document does not show (the flip card, the form
      field, the loading dots) is built as its selectors require.
    - Fuel and bounds: no loop of the modelled code needs fuel (loops are
      structural over queues, lists and event sequences).  A scramble
      session ends within [max end + 1 <= 79] frames because every task's
      end is below 79 (two draws below 40); the theorems use 78 further
      frame events after a session started, which covers the worst case
      since the first frame runs inside [setText].  Integer printing uses
      the bit size of the number as fuel, which bounds its decimal digits.
      The typewriter is run by [fire_n n], [n] timer firings; its
      termination theorem gives the exact count [n + 2].

    ** Not modelled (see PROJECT.json): the time course of CSS
    transitions and animations (their declared durations and keyframes
    are modelled, the interpolation between them is the browser's); the
    interpolation GSAP and ScrollTrigger perform (only the tweens the
    code asks for, and where the hero timeline places them, are
    modelled); what Barba does after a hook throws; the Three.js
    rendering; double rounding and overflow; the Spline viewer (a
    third-party web component loaded by a script tag); the
    document's [wordRotator], the shipped [WordRotator] without [stop];
    [window.Lumina] (exports for the console); the keys [AudioFeedback.sounds]
    inherits from [Object.prototype]; and Vite and Rollup themselves
    (only the configuration object is modelled); and [initKineticText]
    over a whole page: each branch is modelled for one element, but the
    rotators of one page share [Math.random] and one event loop, whose
    interleaving the per-element worlds of [Runtime.v] do not model. *)

From Stdlib Require Import ZArith QArith Qround Qabs List Lia Lqa String Ascii.
Import ListNotations.

Declare Scope lumina_scope.
Delimit Scope lumina_scope with lumina.
Create HintDb lumina discriminated.
Create Rewrite HintDb lumina_rw.

(** ** JavaScript strings *)

(** A JavaScript string is a sequence of UTF-16 code units. *)
Definition jsstring := list Z.

(** ASCII literals as JavaScript strings. *)
Definition js (s : string) : jsstring :=
  map (fun a => Z.of_N (N_of_ascii a)) (list_ascii_of_string s).
Arguments js s%_string.

(** [s[i]]: the one-unit string at index [i], or [undefined]. *)
Definition js_at (s : jsstring) (i : nat) : option jsstring :=
  match nth_error s i with
  | Some c => Some [c]
  | None => None
  end.

(** [s[k]] for a number [k] (negative indices read [undefined]). *)
Definition js_at_z (s : jsstring) (k : Z) : option jsstring :=
  if (k <? 0)%Z then None else js_at s (Z.to_nat k).

(** JavaScript truthiness of a value that is a string or [undefined]. *)
Definition js_falsy (v : option jsstring) : bool :=
  match v with
  | None => true
  | Some [] => true
  | Some (_ :: _) => false
  end.

(** [v || '']. *)
Definition js_or_empty (v : option jsstring) : jsstring :=
  match v with
  | Some s => if js_falsy (Some s) then [] else s
  | None => []
  end.

(** Template-literal interpolation [`${v}`] of a string or [undefined]. *)
Definition js_interp (v : option jsstring) : jsstring :=
  match v with
  | Some s => s
  | None => js "undefined"
  end.

(** ** A state monad *)

Definition St (S A : Type) := S -> A * S.

Definition st_ret {S A} (a : A) : St S A := fun s => (a, s).
Definition st_bind {S A B} (m : St S A) (k : A -> St S B) : St S B :=
  fun s => let (a, s') := m s in k a s'.

Notation "x <- m ;; k" := (st_bind m (fun x => k))
  (at level 61, m at next level, right associativity) : lumina_scope.
Notation "'ret' a" := (st_ret a) (at level 10) : lumina_scope.

Open Scope lumina_scope.

(** [st_holds m P]: every run of [m] returns a value satisfying [P]. *)
Definition st_holds {S A} (m : St S A) (P : A -> Prop) : Prop :=
  forall s, P (fst (m s)).

(** ** A state and exception monad

    For methods that may throw: [Throw] carries the exception and the
    state at the throw, since side effects before it are kept. *)
Inductive outcome (S E A : Type) :=
| Ret (a : A) (s : S)
| Throw (e : E) (s : S).
Arguments Ret {S E A}.
Arguments Throw {S E A}.

Definition Exc (S E A : Type) := S -> outcome S E A.

Definition exc_ret {S E A} (a : A) : Exc S E A := fun s => Ret a s.
Definition exc_bind {S E A B} (m : Exc S E A) (k : A -> Exc S E B) : Exc S E B :=
  fun s => match m s with Ret a s' => k a s' | Throw e s' => Throw e s' end.
Definition exc_throw {S E A} (e : E) : Exc S E A := fun s => Throw e s.
Definition exc_get {S E} : Exc S E S := fun s => Ret s s.
Definition exc_put {S E} (s : S) : Exc S E unit := fun _ => Ret tt s.
Definition exc_modify {S E} (f : S -> S) : Exc S E unit := fun s => Ret tt (f s).

Notation "'let*' x := m 'in' k" := (exc_bind m (fun x => k))
  (at level 10, x name, m at level 100, k at level 200) : lumina_scope.
Notation "m ;;; k" := (exc_bind m (fun _ => k)) (at level 100, right associativity) : lumina_scope.

(** [l[i] = x] on a list updated in place (no change out of range). *)
Fixpoint list_set {A} (l : list A) (i : nat) (x : A) : list A :=
  match l, i with
  | [], _ => []
  | _ :: l', O => x :: l'
  | y :: l', S i' => y :: list_set l' i' x
  end.

(** ** [Math.random] *)

Class RandomSource (R : Type) := { math_random : R -> Q * R }.

(** What the host promises about [Math.random]: every draw is in [0,1). *)
Class RandomSourceOk (R : Type) `{RandomSource R} := {
  math_random_range : forall g, 0 <= fst (math_random g) /\ fst (math_random g) < 1
}.

(** [Math.floor(Math.random() * n)]. *)
Definition random_floor {R} `{RandomSource R} (n : Z) : St R Z :=
  fun g => let (r, g') := math_random g in (Qfloor (r * inject_Z n), g').

(** A concrete source (Park-Miller minimal standard generator) used to
    evaluate the model on concrete inputs. *)
Definition park_miller_modulus : Z := 2147483647%Z.

#[export] Instance park_miller : RandomSource Z := {
  math_random g :=
    let g' := ((16807 * g) mod park_miller_modulus)%Z in
    (Qmake g' (Z.to_pos park_miller_modulus), g')
}.

#[export] Instance park_miller_ok : RandomSourceOk Z.
Proof.
  constructor. intros g. unfold math_random, park_miller, fst, Qle, Qlt.
  cbn [Qnum Qden]. unfold park_miller_modulus.
  change (Z.pos (Z.to_pos 2147483647)) with 2147483647%Z.
  pose proof (Z.mod_pos_bound (16807 * g) 2147483647) as Hb. lia.
Qed.

(** ** Shared lemmas *)

Lemma st_holds_ret {S A} (a : A) (P : A -> Prop) : P a -> st_holds (S := S) (ret a) P.
Proof. intros Ha s. exact Ha. Qed.

Lemma st_holds_bind {S A B} (m : St S A) (k : A -> St S B) (Q : A -> Prop) (P : B -> Prop) :
  st_holds m Q -> (forall a, Q a -> st_holds (k a) P) -> st_holds (x <- m ;; k x) P.
Proof.
  intros Hm Hk s. unfold st_bind. specialize (Hm s).
  destruct (m s) as [a s']. now apply Hk.
Qed.

Lemma st_holds_bind_any {S A B} (m : St S A) (k : A -> St S B) (P : B -> Prop) :
  (forall a, st_holds (k a) P) -> st_holds (x <- m ;; k x) P.
Proof. intros Hk. apply st_holds_bind with (Q := fun _ => True); [now intros s | auto]. Qed.

Lemma st_holds_bind_ret {S A B} (a : A) (k : A -> St S B) (P : B -> Prop) :
  st_holds (k a) P -> st_holds (x <- ret a ;; k x) P.
Proof. intros Hk s. exact (Hk s). Qed.

Lemma st_holds_weaken {S A} (m : St S A) (P Q : A -> Prop) :
  st_holds m P -> (forall a, P a -> Q a) -> st_holds m Q.
Proof. intros Hm HPQ s. apply HPQ, Hm. Qed.

Lemma qfloor_mul_bound (r : Q) (n : Z) :
  0 <= r -> r < 1 -> (0 < n)%Z -> (0 <= Qfloor (r * inject_Z n) < n)%Z.
Proof.
  destruct r as [a d]. unfold Qle, Qlt, Qmult, inject_Z, Qfloor. simpl.
  intros H0 H1 Hn. rewrite Z.mul_1_r in *.
  split.
  - apply Z.div_pos; lia.
  - apply Z.div_lt_upper_bound; nia.
Qed.

Lemma random_floor_bound {R} `{RandomSourceOk R} (n : Z) (g : R) :
  (0 < n)%Z -> (0 <= fst (random_floor n g) < n)%Z.
Proof.
  intros Hn. unfold random_floor.
  pose proof (math_random_range g) as [Hr0 Hr1].
  destruct (math_random g) as [r g']. simpl in *.
  now apply qfloor_mul_bound.
Qed.

Lemma random_floor_holds {R} `{RandomSourceOk R} (n : Z) :
  (0 < n)%Z -> st_holds (random_floor n) (fun k => 0 <= k < n)%Z.
Proof. intros Hn g. now apply random_floor_bound. Qed.

Lemma js_at_length (s : jsstring) (i : nat) :
  (i < List.length s)%nat -> exists c, nth_error s i = Some c /\ js_at s i = Some [c].
Proof.
  intros Hi. unfold js_at. destruct (nth_error s i) as [c|] eqn:E.
  - eauto.
  - apply nth_error_None in E. lia.
Qed.

Lemma js_or_empty_at (s : jsstring) (i : nat) :
  js_or_empty (js_at s i) = match nth_error s i with Some c => [c] | None => [] end.
Proof. unfold js_at. destruct (nth_error s i); reflexivity. Qed.

Lemma js_or_empty_at_ge (s : jsstring) (i : nat) :
  (List.length s <= i)%nat -> js_or_empty (js_at s i) = [].
Proof.
  intros Hi. rewrite js_or_empty_at.
  now rewrite (proj2 (nth_error_None s i) Hi).
Qed.

#[export] Hint Resolve qfloor_mul_bound random_floor_bound st_holds_ret : lumina.
#[export] Hint Rewrite js_or_empty_at : lumina_rw.

Lemma list_set_length {A} (l : list A) (i : nat) (x : A) :
  List.length (list_set l i x) = List.length l.
Proof. revert i; induction l as [|y l IH]; intros [|i]; simpl; auto. Qed.

Lemma list_set_nth_eq {A} (l : list A) (i : nat) (x : A) :
  (i < List.length l)%nat -> nth_error (list_set l i x) i = Some x.
Proof. revert i; induction l as [|y l IH]; intros [|i] Hi; simpl in *; [lia | lia | reflexivity | apply IH; lia]. Qed.

Lemma list_set_nth_ne {A} (l : list A) (i j : nat) (x : A) :
  i <> j -> nth_error (list_set l i x) j = nth_error l j.
Proof.
  revert i j; induction l as [|y l IH]; intros [|i] [|j] Hij; simpl; auto; congruence.
Qed.

#[export] Hint Rewrite @list_set_length : lumina_rw.

(** Unfold one step of the state monad. *)
Ltac st_unfold := unfold st_bind, st_ret in *.

(** ** Strings compared, exceptions reported, powers *)

(** [a === b] on strings. *)
Definition js_eqb (a b : jsstring) : bool :=
  if list_eq_dec Z.eq_dec a b then true else false.

(** The host's call of an event listener: the listener's effects up to an
    uncaught exception stay, and the exception is reported ([add]). *)
Definition report {S E} (add : S -> E -> S) (m : Exc S E unit) (s : S) : S :=
  match m s with
  | Ret _ s' => s'
  | Throw e s' => add s' e
  end.

(** [q ^ n] for a natural exponent. *)
Fixpoint qpow (q : Q) (n : nat) : Q :=
  match n with
  | O => 1
  | S n' => q * qpow q n'
  end.

Lemma js_eqb_spec (a b : jsstring) : js_eqb a b = true <-> a = b.
Proof. unfold js_eqb. destruct (list_eq_dec Z.eq_dec a b); split; congruence. Qed.

Lemma js_eqb_refl (a : jsstring) : js_eqb a a = true.
Proof. now apply js_eqb_spec. Qed.

Lemma qpow_nonneg (q : Q) (n : nat) : 0 <= q -> 0 <= qpow q n.
Proof.
  intros Hq. induction n as [|n IH]; simpl; [discriminate |].
  now apply Qmult_le_0_compat.
Qed.

Lemma qpow_le_1 (q : Q) (n : nat) : 0 <= q -> q <= 1 -> qpow q n <= 1.
Proof.
  intros H0 H1. induction n as [|n IH]; simpl; [apply Qle_refl |].
  pose proof (qpow_nonneg q n H0). nra.
Qed.

(** Bernoulli's inequality, in the form [(1 - s)^n * (1 + n s) <= 1]. *)
Lemma qpow_bernoulli (s : Q) (n : nat) :
  0 <= s -> s <= 1 -> qpow (1 - s) n * (1 + inject_Z (Z.of_nat n) * s) <= 1.
Proof.
  intros H0 H1. induction n as [|n IH]; simpl qpow.
  - change (inject_Z (Z.of_nat 0)) with 0. lra.
  - rewrite Nat2Z.inj_succ, <- Z.add_1_r, inject_Z_plus.
    assert (Hp : 0 <= qpow (1 - s) n) by (apply qpow_nonneg; lra).
    assert (Hn : 0 <= inject_Z (Z.of_nat n)).
    { change 0 with (inject_Z 0). rewrite <- Zle_Qle. lia. }
    set (P := qpow (1 - s) n) in *. set (k := inject_Z (Z.of_nat n)) in *.
    assert (Hd : 0 <= P * (s * s * (k + 1))).
    { apply Qmult_le_0_compat; [exact Hp |]. apply Qmult_le_0_compat; [nra | lra]. }
    setoid_replace ((1 - s) * P * (1 + (k + inject_Z 1) * s))
      with (P * (1 + k * s) - P * (s * s * (k + 1))) by (simpl; ring).
    lra.
Qed.

(** A gap that shrinks geometrically by [1 - s] shrinks at least like
    [1 / (1 + n s)]. *)
Lemma gap_bound (d d' s : Q) (n : nat) :
  0 <= s -> s <= 1 -> d' == qpow (1 - s) n * d ->
  Qabs d' * (1 + inject_Z (Z.of_nat n) * s) <= Qabs d.
Proof.
  intros H0 H1 E. rewrite E, Qabs_Qmult, (Qabs_pos (qpow _ n)) by (apply qpow_nonneg; lra).
  pose proof (qpow_bernoulli s n H0 H1). pose proof (Qabs_nonneg d).
  setoid_replace (qpow (1 - s) n * Qabs d * (1 + inject_Z (Z.of_nat n) * s))
    with ((qpow (1 - s) n * (1 + inject_Z (Z.of_nat n) * s)) * Qabs d) by ring.
  nra.
Qed.

(** ** Lists *)

Lemma filter_none {A} (f : A -> bool) (l : list A) :
  (forall x, In x l -> f x = false) -> filter f l = [].
Proof. induction l as [|x l IH]; intros H; cbn; [reflexivity|]. rewrite H by (left; reflexivity). apply IH. intros y Hy. apply H. right. exact Hy. Qed.

Lemma filter_flat_map {A B} (f : B -> bool) (g : A -> list B) (l : list A) :
  filter f (flat_map g l) = flat_map (fun x => filter f (g x)) l.
Proof. induction l as [|x l IH]; cbn; [reflexivity|]. rewrite filter_app, IH. reflexivity. Qed.

Lemma flat_map_ext_in {A B} (f g : A -> list B) (l : list A) :
  (forall x, In x l -> f x = g x) -> flat_map f l = flat_map g l.
Proof. induction l as [|x l IH]; intros H; cbn; [reflexivity|]. rewrite H by (left; reflexivity). rewrite IH; [reflexivity|]. intros y Hy. apply H. right. exact Hy. Qed.

Lemma fold_inv {A B} (P : A -> Prop) (f : A -> B -> A) (l : list B) (w : A) :
  (forall w b, P w -> P (f w b)) -> P w -> P (fold_left f l w).
Proof. revert w. induction l as [|b l IH]; intros w Hf Hw; cbn; auto. Qed.

#[export] Hint Resolve js_eqb_refl qpow_nonneg : lumina.
