(* ===== verification/Dom.v ===== *)
(** * The DOM pieces the page scripts share

    [element.classList] ([add], [remove], [contains]) as a list of class
    names in insertion order, and the host's timer queue ([setTimeout]
    with a millisecond clock: the earliest due timer fires first, ties in
    the order they were set).  Used by the models of [cursor.js],
    [tilt.js] and [main.js]. *)

From Stdlib Require Import ZArith List Lia.
From S2P Require Import Prelude.
Import ListNotations.

Module Dom.

(** ** [classList] *)

Definition class_list := list jsstring.

(** [classList.contains(x)]. *)
Definition contains (c : class_list) (x : jsstring) : bool := existsb (js_eqb x) c.

(** [classList.add(x)]: no duplicate is added. *)
Definition add (c : class_list) (x : jsstring) : class_list :=
  if contains c x then c else c ++ [x].

(** [classList.remove(x)]. *)
Definition remove (c : class_list) (x : jsstring) : class_list :=
  filter (fun y => negb (js_eqb x y)) c.

(** ** Timers *)

Section Timers.
Variable A : Type.

(** A pending [setTimeout(callback, delay)]: its handle, due time and the
    callback, named by [A]. *)
Record timer := mk_timer { t_id : nat; t_due : Z; t_act : A }.

(** [setTimeout] at time [now]: a negative delay counts as 0. *)
Definition schedule (ts : list timer) (id : nat) (now delay : Z) (a : A) : list timer :=
  ts ++ [mk_timer id (now + Z.max 0 delay)%Z a].

(** [clearTimeout(id)]. *)
Definition cancel (ts : list timer) (id : nat) : list timer :=
  filter (fun t => negb (Nat.eqb (t_id t) id)) ts.

(** The timer that fires next: the least due time, the first set among
    equals. *)
Fixpoint earliest (ts : list timer) : option timer :=
  match ts with
  | [] => None
  | t :: ts' =>
      match earliest ts' with
      | Some u => if (t_due u <? t_due t)%Z then Some u else Some t
      | None => Some t
      end
  end.

(** The queue once timer [t] has fired. *)
Definition fired (ts : list timer) (t : timer) : list timer := cancel ts (t_id t).

End Timers.

Arguments mk_timer {A}.
Arguments t_id {A}.
Arguments t_due {A}.
Arguments t_act {A}.
Arguments schedule {A}.
Arguments cancel {A}.
Arguments earliest {A}.
Arguments fired {A}.

(** ** Lemmas *)

Lemma contains_add (c : class_list) (x : jsstring) : contains (add c x) x = true.
Proof.
  unfold add. destruct (contains c x) eqn:E; [exact E |].
  unfold contains. rewrite existsb_app. simpl. rewrite js_eqb_refl. apply Bool.orb_true_r.
Qed.

Lemma contains_add_other (c : class_list) (x y : jsstring) :
  x <> y -> contains (add c x) y = contains c y.
Proof.
  intros Hxy. unfold add. destruct (contains c x); [reflexivity |].
  unfold contains. rewrite existsb_app. simpl.
  destruct (js_eqb y x) eqn:E; [apply js_eqb_spec in E; congruence |].
  now rewrite !Bool.orb_false_r.
Qed.

Lemma contains_remove (c : class_list) (x : jsstring) : contains (remove c x) x = false.
Proof.
  unfold contains, remove. induction c as [|y c IH]; [reflexivity |]. simpl.
  destruct (js_eqb x y) eqn:E; simpl; [exact IH |]. rewrite E. exact IH.
Qed.

Lemma contains_remove_other (c : class_list) (x y : jsstring) :
  x <> y -> contains (remove c x) y = contains c y.
Proof.
  intros Hxy. unfold contains, remove. induction c as [|z c IH]; [reflexivity |]. simpl.
  destruct (js_eqb x z) eqn:E; simpl.
  - apply js_eqb_spec in E. subst z.
    destruct (js_eqb y x) eqn:F; [apply js_eqb_spec in F; congruence | exact IH].
  - now rewrite IH.
Qed.

Lemma add_contained (c : class_list) (x : jsstring) : contains c x = true -> add c x = c.
Proof. unfold add. now intros ->. Qed.

Lemma remove_absent (c : class_list) (x : jsstring) : contains c x = false -> remove c x = c.
Proof.
  unfold contains, remove. induction c as [|y c IH]; intros H; [reflexivity |].
  simpl in H |- *. apply Bool.orb_false_iff in H as [H1 H2].
  rewrite H1. simpl. now rewrite IH.
Qed.

Lemma earliest_in {A} (ts : list (timer A)) (t : timer A) : earliest ts = Some t -> In t ts.
Proof.
  induction ts as [|u ts IH]; simpl; [discriminate |].
  destruct (earliest ts) as [v|]; [destruct (t_due v <? t_due u)%Z |]; intros E;
    injection E as <-; auto.
Qed.

Lemma earliest_none {A} (ts : list (timer A)) : earliest ts = None <-> ts = [].
Proof.
  split; [| now intros ->]. destruct ts as [|u ts]; [reflexivity | simpl].
  destruct (earliest ts); [destruct (_ <? _)%Z |]; discriminate.
Qed.

Lemma earliest_min {A} (ts : list (timer A)) (t : timer A) :
  earliest ts = Some t -> Forall (fun u => (t_due t <= t_due u)%Z) ts.
Proof.
  revert t. induction ts as [|u ts IH]; intros t; simpl; [discriminate |].
  destruct (earliest ts) as [v|] eqn:Ev.
  - specialize (IH v eq_refl). destruct (t_due v <? t_due u)%Z eqn:Lt; intros E; injection E as <-.
    + apply Z.ltb_lt in Lt. constructor; [lia | exact IH].
    + apply Z.ltb_ge in Lt. constructor; [lia |].
      eapply Forall_impl; [| exact IH]. simpl. lia.
  - apply earliest_none in Ev. subst. intros E; injection E as <-. repeat constructor. lia.
Qed.

Lemma cancel_app {A} (ts us : list (timer A)) (id : nat) :
  cancel (ts ++ us) id = cancel ts id ++ cancel us id.
Proof. apply filter_app. Qed.

Lemma cancel_absent {A} (ts : list (timer A)) (id : nat) :
  Forall (fun t => t_id t <> id) ts -> cancel ts id = ts.
Proof.
  induction 1 as [|t ts Ht _ IH]; [reflexivity |]. simpl.
  apply Nat.eqb_neq in Ht. rewrite Ht. simpl. now rewrite IH.
Qed.

#[export] Hint Resolve contains_add contains_remove : lumina.
#[export] Hint Rewrite contains_add contains_remove : lumina_rw.

End Dom.
