(* ===== verification/JsNum.v ===== *)
(** * JavaScript numbers as the page scripts use them

    A number is a finite rational, [NaN] or a signed infinity: enough for
    the arithmetic of [tilt.js] and [scroll-animations.js], where a zero
    width or height divides by zero.  Finite values are exact rationals
    (rounding to doubles and the sign of zero are not modelled).  With
    them: the truthiness test behind [x || d], [Math.round],
    [parseFloat] and [parseInt(s, 10)] on the string the scripts read from
    [data-*] attributes, and the decimal printing of an integer. *)

From Stdlib Require Import String ZArith QArith Qround List Lia Lqa.
From S2P Require Import Prelude.
Import ListNotations.

Module JsNum.

Inductive num := Fin (q : Q) | NaN | Inf (pos : bool).

(** ** Arithmetic *)

Definition sign_of (q : Q) : option bool :=
  match Qnum q with Z0 => None | Zpos _ => Some true | Zneg _ => Some false end.

Definition add (a b : num) : num :=
  match a, b with
  | Fin x, Fin y => Fin (x + y)
  | Fin _, Inf s | Inf s, Fin _ => Inf s
  | Inf s, Inf t => if Bool.eqb s t then Inf s else NaN
  | _, _ => NaN
  end.

Definition neg (a : num) : num :=
  match a with Fin x => Fin (- x) | NaN => NaN | Inf s => Inf (negb s) end.

Definition sub (a b : num) : num := add a (neg b).

Definition mul (a b : num) : num :=
  match a, b with
  | Fin x, Fin y => Fin (x * y)
  | Fin x, Inf s | Inf s, Fin x =>
      match sign_of x with Some t => Inf (Bool.eqb s t) | None => NaN end
  | Inf s, Inf t => Inf (Bool.eqb s t)
  | _, _ => NaN
  end.

(** Division: a finite number over zero is an infinity of the
    numerator's sign, [0 / 0] is [NaN]. *)
Definition div (a b : num) : num :=
  match a, b with
  | Fin x, Fin y =>
      match sign_of y with
      | Some _ => Fin (x / y)
      | None => match sign_of x with Some s => Inf s | None => NaN end
      end
  | Fin _, Inf _ => Fin 0
  | Inf s, Fin y => match sign_of y with Some t => Inf (Bool.eqb s t) | None => Inf s end
  | _, _ => NaN
  end.

(** [0], [-0] and [NaN] are falsy. *)
Definition falsy (a : num) : bool :=
  match a with Fin x => Qeq_bool x 0 | NaN => true | Inf _ => false end.

(** [a || d]. *)
Definition or_default (a d : num) : num := if falsy a then d else a.

(** [Math.round]: the nearest integer, halves rounded up. *)
Definition round (a : num) : num :=
  match a with Fin x => Fin (inject_Z (Qfloor (x + (1 # 2)))) | _ => a end.

(** ** Reading numbers from strings *)

(** The white space and line terminators [parseFloat] and [parseInt]
    skip (the [StrWhiteSpaceChar] code units). *)
Definition is_ws (c : Z) : bool :=
  existsb (Z.eqb c) [9; 10; 11; 12; 13; 32; 160; 5760; 8232; 8233; 8239; 8287; 12288; 65279]%Z
  || ((8192 <=? c) && (c <=? 8202))%Z.

Fixpoint strip_ws (s : jsstring) : jsstring :=
  match s with
  | c :: r => if is_ws c then strip_ws r else s
  | [] => []
  end.

Definition is_digit (c : Z) : bool := ((48 <=? c) && (c <=? 57))%Z.

(** The longest prefix of decimal digits, as their values, and the rest. *)
Fixpoint digits (s : jsstring) : list Z * jsstring :=
  match s with
  | c :: r => if is_digit c then let (ds, rest) := digits r in ((c - 48)%Z :: ds, rest) else ([], s)
  | [] => ([], [])
  end.

Definition digits_value (ds : list Z) : Z := fold_left (fun acc d => acc * 10 + d)%Z ds 0%Z.

(** An optional sign: the factor and the rest. *)
Definition parse_sign (s : jsstring) : Z * jsstring :=
  match s with
  | c :: r => if Z.eqb c 43 then (1%Z, r) else if Z.eqb c 45 then ((-1)%Z, r) else (1%Z, s)
  | [] => (1%Z, [])
  end.

Fixpoint starts_with (p s : jsstring) : bool :=
  match p, s with
  | [], _ => true
  | c :: p', d :: s' => Z.eqb c d && starts_with p' s'
  | _, [] => false
  end.

(** The exponent part [e[+-]digits], 0 when there is none. *)
Definition exponent (s : jsstring) : Z :=
  match s with
  | c :: r =>
      if (Z.eqb c 101 || Z.eqb c 69)%bool then
        let (sg, r') := parse_sign r in
        match digits r' with
        | ([], _) => 0%Z
        | (ds, _) => (sg * digits_value ds)%Z
        end
      else 0%Z
  | [] => 0%Z
  end.

(** The longest prefix that is [digits [. digits] [exponent]] or
    [. digits [exponent]]. *)
Definition unsigned_decimal (s : jsstring) : option Q :=
  let (ip, r1) := digits s in
  let (fp, r2) := match r1 with
                  | 46%Z :: r => digits r
                  | _ => ([], r1)
                  end in
  match ip ++ fp with
  | [] => None
  | ds => Some (inject_Z (digits_value ds) / inject_Z (10 ^ Z.of_nat (List.length fp))
                * Qpower (inject_Z 10) (exponent r2))
  end.

(** [parseFloat(s)]. *)
Definition parseFloat (s : jsstring) : num :=
  let (sg, s2) := parse_sign (strip_ws s) in
  if starts_with (js "Infinity") s2 then Inf (Z.eqb sg 1)
  else match unsigned_decimal s2 with
       | Some q => Fin (inject_Z sg * q)
       | None => NaN
       end.

(** [parseInt(s, 10)]. *)
Definition parseInt10 (s : jsstring) : num :=
  let (sg, s2) := parse_sign (strip_ws s) in
  match digits s2 with
  | ([], _) => NaN
  | (ds, _) => Fin (inject_Z (sg * digits_value ds))
  end.

(** [parseInt(undefined, 10)] and [parseFloat(undefined)] read the string
    ["undefined"]: an absent attribute gives [NaN]. *)
Definition attr_number (parse : jsstring -> num) (v : option jsstring) : num :=
  parse (js_interp v).

(** [parseInt(s)] with no radix: after the sign, a [0x] or [0X] prefix
    selects base 16, anything else base 10. *)
Definition hex_value (c : Z) : option Z :=
  if is_digit c then Some (c - 48)%Z
  else if ((97 <=? c) && (c <=? 102))%Z then Some (c - 87)%Z
  else if ((65 <=? c) && (c <=? 70))%Z then Some (c - 55)%Z
  else None.

Fixpoint hex_digits (s : jsstring) : list Z * jsstring :=
  match s with
  | c :: r => match hex_value c with
              | Some d => let (ds, rest) := hex_digits r in (d :: ds, rest)
              | None => ([], s)
              end
  | [] => ([], [])
  end.

Definition radix_value (r : Z) (ds : list Z) : Z := fold_left (fun acc d => acc * r + d)%Z ds 0%Z.

Definition hex_prefixed (s : jsstring) : option jsstring :=
  match s with
  | 48%Z :: x :: r => if (Z.eqb x 120 || Z.eqb x 88)%bool then Some r else None
  | _ => None
  end.

Definition parseInt (s : jsstring) : num :=
  let (sg, s2) := parse_sign (strip_ws s) in
  match hex_prefixed s2 with
  | Some r => match hex_digits r with
              | ([], _) => NaN
              | (ds, _) => Fin (inject_Z (sg * radix_value 16 ds))
              end
  | None => match digits s2 with
            | ([], _) => NaN
            | (ds, _) => Fin (inject_Z (sg * digits_value ds))
            end
  end.

(** ** Printing integers *)

Fixpoint nat_digits (fuel : nat) (n : Z) (acc : jsstring) : jsstring :=
  match fuel with
  | O => acc
  | S f => if (n <? 10)%Z then (48 + n)%Z :: acc else nat_digits f (n / 10) ((48 + n mod 10)%Z :: acc)
  end.

(** [String(n)] for an integer [n]. *)
Definition z_to_string (n : Z) : jsstring :=
  match n with
  | Z0 => [48%Z]
  | Zpos p => nat_digits (Pos.size_nat p) (Zpos p) []
  | Zneg p => 45%Z :: nat_digits (Pos.size_nat p) (Zpos p) []
  end.

(** ** Storing into a [Float32Array]

    An element of a [Float32Array] holds the single-precision number
    nearest to the number written (IEEE 754 round to nearest, ties to
    even): 24 significant bits, exponents from [-126] (subnormals below,
    down to [2^-149]), [Infinity] from [2^128] on; [NaN] and the
    infinities are kept. *)

(** [n / d] rounded to the nearest integer, ties to the even one
    ([d > 0]). *)
Definition round_div_even (n d : Z) : Z :=
  let (q, r) := Z.div_eucl n d in
  match Z.compare (2 * r) d with
  | Lt => q
  | Gt => q + 1
  | Eq => if Z.even q then q else q + 1
  end.

(** The binary exponent [e] of [p / q] ([p, q > 0]):
    [2^e <= p / q < 2^(e+1)]. *)
Definition exponent2 (p q : Z) : Z :=
  let e0 := (Z.log2 p - Z.log2 q - 1)%Z in
  if (q * 2 ^ Z.max (e0 + 1) 0 <=? p * 2 ^ Z.max (- (e0 + 1)) 0)%Z then (e0 + 1)%Z else e0.

(** The single nearest to [p / q > 0]: its significand counted in units
    of [2^(max e (-126) - 23)], [2^-k] below. *)
Definition fround_pos (p q : Z) : num :=
  let k := (23 - Z.max (exponent2 p q) (-126))%Z in
  let n := round_div_even (p * 2 ^ Z.max k 0) (q * 2 ^ Z.max (- k) 0) in
  let v := Qmake (n * 2 ^ Z.max (- k) 0) (Z.to_pos (2 ^ Z.max k 0)) in
  if Qle_bool (inject_Z (2 ^ 128)) v then Inf true else Fin v.

(** [Math.fround], the value a [Float32Array] element keeps. *)
Definition fround (a : num) : num :=
  match a with
  | Fin x =>
      match Qnum x with
      | Z0 => Fin 0
      | Zpos p => fround_pos (Zpos p) (Zpos (Qden x))
      | Zneg p => neg (fround_pos (Zpos p) (Zpos (Qden x)))
      end
  | _ => a
  end.

(** ** Lemmas *)

Lemma digits_value_snoc (ds : list Z) (d : Z) :
  digits_value (ds ++ [d]) = (digits_value ds * 10 + d)%Z.
Proof. unfold digits_value. now rewrite fold_left_app. Qed.

Definition digit_units (ds : list Z) : jsstring := map (fun d => 48 + d)%Z ds.

Lemma digits_units (ds : list Z) (rest : jsstring) :
  Forall (fun d => 0 <= d <= 9)%Z ds ->
  match rest with c :: _ => is_digit c = false | [] => True end ->
  digits (digit_units ds ++ rest) = (ds, rest).
Proof.
  intros Hds Hr. unfold digit_units. induction Hds as [|d ds Hd _ IH]; cbn [map app digits].
  - destruct rest as [|c r]; [reflexivity |]. cbn [digits]. now rewrite Hr.
  - assert (E : is_digit (48 + d) = true) by (unfold is_digit; apply andb_true_intro; split; apply Z.leb_le; lia).
    rewrite E, IH. f_equal. f_equal. lia.
Qed.

Lemma digits_value_shift (acc : list Z) (a : Z) :
  fold_left (fun acc d => acc * 10 + d)%Z acc a =
  (a * 10 ^ Z.of_nat (List.length acc) + fold_left (fun acc d => acc * 10 + d)%Z acc 0)%Z.
Proof.
  revert a. induction acc as [|d l IHl]; intros a; cbn [fold_left List.length]; [lia |].
  rewrite (IHl (a * 10 + d)%Z), (IHl (0 * 10 + d)%Z). rewrite Nat2Z.inj_succ, Z.pow_succ_r by lia. lia.
Qed.

(** [nat_digits] with enough fuel prepends the decimal digits of [n]. *)
Lemma nat_digits_spec (f : nat) (n : Z) (acc : list Z) :
  (1 <= n < 10 ^ Z.of_nat f)%Z -> Forall (fun d => 0 <= d <= 9)%Z acc ->
  exists ds, nat_digits f n (digit_units acc) = digit_units ds /\
             Forall (fun d => 0 <= d <= 9)%Z ds /\ ds <> [] /\
             digits_value ds = (n * 10 ^ Z.of_nat (List.length acc) + digits_value acc)%Z.
Proof.
  revert n acc. induction f as [|f IH]; intros n acc Hn Hacc; [simpl in Hn; lia |].
  simpl nat_digits. destruct (n <? 10)%Z eqn:Lt.
  - apply Z.ltb_lt in Lt. exists (n :: acc). split; [reflexivity |].
    split; [constructor; [lia | exact Hacc] |]. split; [discriminate |].
    unfold digits_value. simpl. rewrite digits_value_shift. lia.
  - apply Z.ltb_ge in Lt.
    assert (Hq : (1 <= n / 10 < 10 ^ Z.of_nat f)%Z).
    { rewrite Nat2Z.inj_succ, Z.pow_succ_r in Hn by lia.
      split; [apply (Z.div_le_lower_bound n 10 1); lia | apply Z.div_lt_upper_bound; lia]. }
    assert (Hm : (0 <= n mod 10 <= 9)%Z) by (pose proof (Z.mod_pos_bound n 10); lia).
    destruct (IH (n / 10)%Z ((n mod 10)%Z :: acc) Hq (Forall_cons _ Hm Hacc)) as (ds & E & Hds & Hne & Hv).
    exists ds. split; [exact E |]. split; [exact Hds |]. split; [exact Hne |].
    rewrite Hv. unfold digits_value. cbn [fold_left List.length].
    rewrite (digits_value_shift acc (0 * 10 + n mod 10)%Z), Nat2Z.inj_succ, Z.pow_succ_r by lia.
    pose proof (Z.div_mod n 10). lia.
Qed.

Lemma size_nat_bound (p : positive) : (Zpos p < 10 ^ Z.of_nat (Pos.size_nat p))%Z.
Proof.
  induction p as [p IH | p IH |]; cbn [Pos.size_nat]; [| | reflexivity];
    rewrite Nat2Z.inj_succ, Z.pow_succ_r by lia; lia.
Qed.

Lemma is_ws_digit (d : Z) : (0 <= d <= 9)%Z -> is_ws (48 + d) = false.
Proof.
  intros Hd. unfold is_ws.
  assert (Hr : ((8192 <=? 48 + d) && (48 + d <=? 8202))%Z = false)
    by (apply andb_false_intro1, Z.leb_gt; lia).
  rewrite Hr, Bool.orb_false_r.
  assert (H : d = 0%Z \/ d = 1%Z \/ d = 2%Z \/ d = 3%Z \/ d = 4%Z \/ d = 5%Z \/ d = 6%Z \/ d = 7%Z \/ d = 8%Z \/ d = 9%Z)
    by lia.
  repeat destruct H as [-> | H]; [reflexivity .. | subst; reflexivity].
Qed.

(** The decimal digits of a positive number, with their value. *)
Lemma pos_digits (p : positive) :
  exists d ds, nat_digits (Pos.size_nat p) (Zpos p) [] = digit_units (d :: ds) /\
               Forall (fun d => 0 <= d <= 9)%Z (d :: ds) /\ digits_value (d :: ds) = Zpos p.
Proof.
  destruct (nat_digits_spec (Pos.size_nat p) (Zpos p) [] (conj (Pos2Z.pos_le_pos 1 p (Pos.le_1_l p)) (size_nat_bound p)) (Forall_nil _))
    as ([|d ds] & E & Hds & Hne & Hv); [contradiction |].
  exists d, ds. split; [exact E |]. split; [exact Hds |]. rewrite Hv. simpl. lia.
Qed.

Lemma read_digits (d : Z) (ds : list Z) (rest : jsstring) :
  Forall (fun d => 0 <= d <= 9)%Z (d :: ds) ->
  match rest with c :: _ => is_digit c = false | [] => True end ->
  parse_sign (strip_ws (digit_units (d :: ds) ++ rest)) = (1%Z, digit_units (d :: ds) ++ rest).
Proof.
  intros Hds Hr. inversion Hds as [|? ? Hd _]; subst.
  cbn [digit_units map app strip_ws]. rewrite (is_ws_digit d Hd). cbn [parse_sign].
  replace (Z.eqb (48 + d) 43) with false by (symmetry; apply Z.eqb_neq; lia).
  replace (Z.eqb (48 + d) 45) with false by (symmetry; apply Z.eqb_neq; lia). reflexivity.
Qed.

(** The decimal text of an integer, followed by anything that does
    not start with a digit, reads back as that integer with
    [parseInt(s, 10)]. *)
Theorem parseInt_z_to_string (n : Z) (rest : jsstring) :
  match rest with c :: _ => is_digit c = false | [] => True end ->
  parseInt10 (z_to_string n ++ rest) = Fin (inject_Z n).
Proof.
  intros Hr. unfold parseInt10, z_to_string. destruct n as [|p|p].
  - change ([48%Z] ++ rest) with (digit_units [0%Z] ++ rest).
    rewrite read_digits by (repeat constructor; lia || exact Hr).
    rewrite digits_units by (repeat constructor; lia || exact Hr). reflexivity.
  - destruct (pos_digits p) as (d & ds & -> & Hds & Hv).
    rewrite (read_digits d ds rest Hds Hr), (digits_units _ rest Hds Hr). now rewrite Z.mul_1_l, Hv.
  - destruct (pos_digits p) as (d & ds & -> & Hds & Hv). cbn [app strip_ws].
    replace (is_ws 45) with false by reflexivity. unfold parse_sign. cbn [Z.eqb Pos.eqb].
    rewrite (digits_units _ rest Hds Hr). now rewrite Hv.
Qed.

(** Without a [0x] prefix after the sign, [parseInt(s)] is
    [parseInt(s, 10)]. *)
Lemma parseInt_decimal (s : jsstring) :
  hex_prefixed (snd (parse_sign (strip_ws s))) = None -> parseInt s = parseInt10 s.
Proof.
  unfold parseInt, parseInt10. destruct (parse_sign (strip_ws s)) as [sg s2]. cbn [snd]. now intros ->.
Qed.

Lemma round_div_even_le (n d z : Z) : (0 < d)%Z -> (n <= z * d)%Z -> (round_div_even n d <= z)%Z.
Proof.
  intros Hd Hn. unfold round_div_even. pose proof (Z_div_mod n d ltac:(lia)) as Hm.
  destruct (Z.div_eucl n d) as [q r]. destruct Hm as [-> Hr].
  assert (q <= z)%Z by nia.
  destruct (Z.compare_spec (2 * r) d) as [E|E|E]; [destruct (Z.even q) | |]; nia.
Qed.

Lemma round_div_even_nonneg (n d : Z) : (0 <= n)%Z -> (0 < d)%Z -> (0 <= round_div_even n d)%Z.
Proof.
  intros Hn Hd. unfold round_div_even. pose proof (Z_div_mod n d ltac:(lia)) as Hm.
  destruct (Z.div_eucl n d) as [q r]. destruct Hm as [-> Hr].
  assert (0 <= q)%Z by nia.
  destruct (Z.compare (2 * r) d); [destruct (Z.even q) | |]; lia.
Qed.

Lemma exponent2_le (p q : Z) : (exponent2 p q <= Z.log2 p - Z.log2 q)%Z.
Proof. unfold exponent2. destruct (_ <=? _)%Z; lia. Qed.

(** A quotient at most [c <= 2^22] has an exponent of at most [23]: it
    is rounded to a multiple of [2^-k] with [k >= 0]. *)
Lemma exponent2_small (p q c : Z) :
  (0 < p)%Z -> (0 < q)%Z -> (0 < c <= 2 ^ 22)%Z -> (p <= c * q)%Z -> (exponent2 p q <= 23)%Z.
Proof.
  intros Hp Hq Hc Hpq. pose proof (exponent2_le p q).
  pose proof (Z.log2_le_mono _ _ Hpq). pose proof (Z.log2_mul_above c q ltac:(lia) ltac:(lia)).
  pose proof (Z.log2_le_mono _ _ (proj2 Hc)). rewrite Z.log2_pow2 in * by lia. lia.
Qed.

Lemma fround_pos_bound (p q c : Z) :
  (0 < p)%Z -> (0 < q)%Z -> (0 < c <= 2 ^ 22)%Z -> (p <= c * q)%Z ->
  exists v, fround_pos p q = Fin v /\ 0 <= v <= inject_Z c.
Proof.
  intros Hp Hq Hc Hpq. unfold fround_pos.
  pose proof (exponent2_small p q c Hp Hq Hc Hpq) as He.
  set (k := (23 - Z.max (exponent2 p q) (-126))%Z).
  assert (Hk : (0 <= k)%Z) by lia.
  rewrite (Z.max_l k 0), (Z.max_r (- k) 0), Z.pow_0_r, !Z.mul_1_r by lia.
  pose proof (Z.pow_pos_nonneg 2 k ltac:(lia) Hk) as H2k.
  pose proof (round_div_even_le (p * 2 ^ k) q (c * 2 ^ k) Hq ltac:(nia)) as Hle.
  pose proof (round_div_even_nonneg (p * 2 ^ k) q ltac:(nia) Hq) as Hge.
  set (n := round_div_even (p * 2 ^ k) q) in *.
  assert (Hv : 0 <= Qmake n (Z.to_pos (2 ^ k)) <= inject_Z c).
  { unfold Qle; cbn [Qnum Qden inject_Z]. rewrite Z2Pos.id by lia. lia. }
  destruct (Qle_bool _ _) eqn:Eo.
  - apply Qle_bool_iff in Eo. exfalso.
    assert (inject_Z (2 ^ 128) <= inject_Z c) by (eapply Qle_trans; [exact Eo | apply Hv]).
    rewrite <- Zle_Qle in *. assert (2 ^ 22 < 2 ^ 128)%Z by reflexivity. lia.
  - exists (Qmake n (Z.to_pos (2 ^ k))). split; [reflexivity | exact Hv].
Qed.

(** A number between [-c] and [c], [c] an integer at most [2^22], is
    stored in a [Float32Array] as a number between [-c] and [c]: the
    bounds themselves are singles, and rounding to nearest does not
    cross a single. *)
Lemma fround_bound (x : Q) (c : Z) :
  (0 < c <= 2 ^ 22)%Z -> - inject_Z c <= x <= inject_Z c ->
  exists v, fround (Fin x) = Fin v /\ - inject_Z c <= v <= inject_Z c.
Proof.
  intros Hc [Hlo Hhi]. destruct x as [[|p|p] d]; cbn [fround Qnum Qden].
  - exists 0. split; [reflexivity|]. split; [apply (Qopp_le_compat 0) |]; unfold Qle; cbn; lia.
  - unfold Qle in Hhi; cbn in Hhi.
    destruct (fround_pos_bound (Zpos p) (Zpos d) c ltac:(lia) ltac:(lia) Hc ltac:(lia)) as (v & -> & Hv).
    exists v. split; [reflexivity | lra].
  - unfold Qle in Hlo; cbn in Hlo.
    destruct (fround_pos_bound (Zpos p) (Zpos d) c ltac:(lia) ltac:(lia) Hc ltac:(lia)) as (v & -> & Hv).
    exists (- v). split; [reflexivity | lra].
Qed.

Lemma sign_of_none (q : Q) : sign_of q = None <-> q == 0.
Proof.
  unfold sign_of, Qeq. destruct q as [[|n|n] d]; cbn; split; intros H; try discriminate; try lia; reflexivity.
Qed.

Lemma div_fin (x y : Q) : ~ y == 0 -> div (Fin x) (Fin y) = Fin (x / y).
Proof.
  intros Hy. unfold div. destruct (sign_of y) eqn:E; [reflexivity |].
  apply sign_of_none in E. contradiction.
Qed.

(** Dividing by a zero gives no finite number. *)
Lemma div_zero_not_fin (a : num) (y : Q) (q : Q) : y == 0 -> div a (Fin y) <> Fin q.
Proof.
  intros Hy. apply sign_of_none in Hy. destruct a as [x| |s]; cbn; rewrite ?Hy; try discriminate.
  destruct (sign_of x); discriminate.
Qed.

(** A product with a number that is not finite is not finite. *)
Lemma mul_not_fin (a b : num) (q : Q) : (forall r, a <> Fin r) -> mul a b <> Fin q.
Proof.
  intros Ha. destruct a as [x| |s]; [now destruct (Ha x) | destruct b; discriminate |].
  destruct b as [y| |t]; cbn; try discriminate. destruct (sign_of y); discriminate.
Qed.

#[export] Hint Resolve div_fin : lumina.

Lemma parseInt_z_to_string_witness :
  is_digit 37 = false /\ parseInt10 (z_to_string 1200 ++ js "%") = Fin (inject_Z 1200).
Proof.
  assert (H : is_digit 37 = false) by reflexivity.
  split; [exact H |]. exact (parseInt_z_to_string 1200 (js "%") H).
Defined.

End JsNum.
