(* ===== verification/Css.v ===== *)
(** * CSS: selectors, shorthands and the cascade

    The stylesheets of the design document (cursor.css, kinetic-text.css,
    transitions.css, 3d-card.css, micro-interactions.css and the
    reduced-motion block) are modelled as data: rules with their media
    condition, selector list and declarations, each value kept as the
    component-value tree the source writes.  This file holds what a
    browser does with them: it matches selectors against an element in
    its document (class, attribute and pseudo-class selectors, the
    descendant and next-sibling combinators, [::before]/[::after]),
    expands the [transition], [animation] and [border] shorthands into
    longhands, and picks for each property the declaration of highest
    precedence: importance, then the [style] attribute, then
    specificity, then source order.  [computed_is_cascaded] shows the
    fold the model computes with yields exactly the value of the unique
    declaration of highest precedence; [computed_inline] and
    [computed_important_uniform] are the two facts the stylesheets'
    theorems use: a script's [style] attribute beats every normal rule,
    and a property only universal rules declare [!important] has one
    value on every element.  Inheritance and initial values are left out: [computed] is
    [None] where no declaration applies. *)

From Stdlib Require Import String List QArith Bool Arith Lia.
From S2P Require Import Prelude.
Import ListNotations.
#[local] Set Warnings "-register-all".

Declare Scope css_scope.
Delimit Scope css_scope with css.

Module Css.
Local Open Scope nat_scope.

(** ** Values *)

Inductive unit_ := UPx | UPct | UEm | UVh | UMs | US | UDeg | UNum.

(** A declared value as the source writes it: a dimension, an
    identifier, a quoted string, a hex colour, a function call, a
    space-separated or a comma-separated list. *)
Inductive value :=
| Dim (q : Q) (u : unit_)
| Kw (s : string)
| Str (s : string)
| Hash (s : string)
| Fn (f : string) (args : list value)
| Seq (vs : list value)
| Commas (vs : list value).

Definition px (q : Q) : value := Dim q UPx.
Definition pct (q : Q) : value := Dim q UPct.
Definition em (q : Q) : value := Dim q UEm.
Definition vh (q : Q) : value := Dim q UVh.
Definition ms (q : Q) : value := Dim q UMs.
Definition sec (q : Q) : value := Dim q US.
Definition deg (q : Q) : value := Dim q UDeg.
Definition num (q : Q) : value := Dim q UNum.
Definition var (name : string) : value := Fn "var" [Kw name].

(** ** Elements *)

Inductive pseudo_el := PBefore | PAfter | PVtOld (n : string) | PVtNew (n : string).

(** An element in its document: tag, classes, attributes, the
    declarations of its [style] attribute (set by scripts), the user
    action pseudo-classes that hold of it, its parent and its previous
    element sibling. *)
Inductive elem := El {
  tag : jsstring;
  classes : list jsstring;
  attrs : list (jsstring * jsstring);
  inline : list (jsstring * value);
  hovered : bool;
  focused : bool;
  pressed : bool;
  placeholder_shown : bool;
  parent : option elem;
  prev : option elem
}.

(** ** Selectors *)

Inductive simple :=
| SType (t : string)
| SUniv
| SClass (c : string)
| SAttr (a : string)
| SAttrEq (a v : string)
| SHover
| SFocus
| SActive
| SPlaceholderShown
| SNthChild (n : nat)
| SNot (s : simple).

Definition compound := list simple.

(** A complex selector: a compound, [A B] (descendant) or [A + B]
    (next sibling). *)
Inductive complex :=
| Sel (c : compound)
| Desc (a : complex) (c : compound)
| Adj (p : complex) (c : compound).

Definition selector := (complex * option pseudo_el)%type.

Definition get_attr (e : elem) (a : string) : option jsstring :=
  option_map snd (find (fun p => js_eqb (fst p) (js a)) (attrs e)).

(** The position of [e] among its siblings, from 1. *)
Fixpoint child_index (e : elem) : nat :=
  match prev e with Some q => S (child_index q) | None => 1 end.

Fixpoint simple_matches (s : simple) (e : elem) : bool :=
  match s with
  | SType t => js_eqb (tag e) (js t)
  | SUniv => true
  | SClass c => existsb (js_eqb (js c)) (classes e)
  | SAttr a => match get_attr e a with Some _ => true | None => false end
  | SAttrEq a v => match get_attr e a with Some x => js_eqb x (js v) | None => false end
  | SHover => hovered e
  | SFocus => focused e
  | SActive => pressed e
  | SPlaceholderShown => placeholder_shown e
  | SNthChild n => Nat.eqb (child_index e) n
  | SNot s => negb (simple_matches s e)
  end.

Definition compound_matches (c : compound) (e : elem) : bool :=
  forallb (fun s => simple_matches s e) c.

Fixpoint some_ancestor (f : elem -> bool) (e : elem) : bool :=
  match parent e with Some p => f p || some_ancestor f p | None => false end.

Fixpoint complex_matches (s : complex) (e : elem) : bool :=
  match s with
  | Sel c => compound_matches c e
  | Desc a c => compound_matches c e && some_ancestor (complex_matches a) e
  | Adj p c => compound_matches c e &&
                 match prev e with Some q => complex_matches p q | None => false end
  end.

Definition pe_eqb (a b : pseudo_el) : bool :=
  match a, b with
  | PBefore, PBefore | PAfter, PAfter => true
  | PVtOld x, PVtOld y | PVtNew x, PVtNew y => String.eqb x y
  | _, _ => false
  end.

Definition pe_opt_eqb (a b : option pseudo_el) : bool :=
  match a, b with
  | None, None => true
  | Some x, Some y => pe_eqb x y
  | _, _ => false
  end.

(** The selector targets element [e] ([pe = None]) or its pseudo-element
    [pe]. *)
Definition selector_matches (s : selector) (e : elem) (pe : option pseudo_el) : bool :=
  complex_matches (fst s) e && pe_opt_eqb (snd s) pe.

(** ** Specificity: (ids, classes/attributes/pseudo-classes, types/pseudo-elements) *)

Definition spec := (nat * nat * nat)%type.

Definition spec_add (a b : spec) : spec :=
  let '(a1, a2, a3) := a in let '(b1, b2, b3) := b in (a1 + b1, a2 + b2, a3 + b3)%nat.

Fixpoint simple_spec (s : simple) : spec :=
  match s with
  | SType _ => (0, 0, 1)
  | SUniv => (0, 0, 0)
  | SNot s => simple_spec s
  | _ => (0, 1, 0)
  end.

Definition compound_spec (c : compound) : spec :=
  fold_left (fun acc s => spec_add acc (simple_spec s)) c (0, 0, 0).

Fixpoint complex_spec (s : complex) : spec :=
  match s with
  | Sel c => compound_spec c
  | Desc a c | Adj a c => spec_add (complex_spec a) (compound_spec c)
  end.

Definition selector_spec (s : selector) : spec :=
  spec_add (complex_spec (fst s)) (match snd s with Some _ => (0, 0, 1) | None => (0, 0, 0) end).

(** ** Rules and media conditions *)

Inductive media := MAll | MHoverNoneCoarse | MReducedMotion | MSupportsVT.

(** What the device reports: whether its primary pointer can hover and
    is coarse, the reduced-motion preference, and support for
    [view-transition-name]. *)
Record env := mk_env {
  can_hover : bool;
  coarse_pointer : bool;
  reduced_motion : bool;
  supports_vt : bool
}.

Definition media_holds (m : media) (v : env) : bool :=
  match m with
  | MAll => true
  | MHoverNoneCoarse => negb (can_hover v) && coarse_pointer v
  | MReducedMotion => reduced_motion v
  | MSupportsVT => supports_vt v
  end.

Record decl := mk_decl { prop : string; val : value; important : bool }.

Record rule := mk_rule { media_of : media; selectors : list selector; decls : list decl }.

Definition sheet := list rule.

Definition dn (p : string) (v : value) : decl := mk_decl p v false.
Definition di (p : string) (v : value) : decl := mk_decl p v true.
Definition rule_ (sels : list selector) (ds : list decl) : rule := mk_rule MAll sels ds.

(** [.c], [.c::before] and the like. *)
Definition cls (c : string) : selector := (Sel [SClass c], None).
Definition cls_pe (c : string) (pe : pseudo_el) : selector := (Sel [SClass c], Some pe).
Definition univ (pe : option pseudo_el) : selector := (Sel [SUniv], pe).

(** ** Shorthands *)

Definition in_kws (k : string) (l : list string) : bool := existsb (String.eqb k) l.

Definition is_time (v : value) : bool :=
  match v with Dim _ UMs | Dim _ US => true | _ => false end.

Definition is_timing (v : value) : bool :=
  match v with
  | Kw k => in_kws k ["ease"; "linear"; "ease-in"; "ease-out"; "ease-in-out"; "step-start"; "step-end"]%string
  | Fn f _ => in_kws f ["cubic-bezier"; "steps"]%string
  | _ => false
  end.

Definition is_iteration (v : value) : bool :=
  match v with Dim _ UNum => true | Kw k => String.eqb k "infinite" | _ => false end.

Definition is_direction (v : value) : bool :=
  match v with
  | Kw k => in_kws k ["normal"; "reverse"; "alternate"; "alternate-reverse"]%string
  | _ => false
  end.

Definition is_fill (v : value) : bool :=
  match v with Kw k => in_kws k ["none"; "forwards"; "backwards"; "both"]%string | _ => false end.

Definition is_play_state (v : value) : bool :=
  match v with Kw k => in_kws k ["running"; "paused"]%string | _ => false end.

Definition is_line_style (v : value) : bool :=
  match v with
  | Kw k => in_kws k ["none"; "hidden"; "solid"; "dashed"; "dotted"; "double"]%string
  | _ => false
  end.

Definition is_length (v : value) : bool :=
  match v with Dim _ UPx | Dim _ UEm => true | _ => false end.

(** The comma-separated items of a value, each as its space-separated
    parts. *)
Definition parts (v : value) : list value := match v with Seq vs => vs | v => [v] end.
Definition items (v : value) : list (list value) :=
  match v with Commas vs => map parts vs | v => [parts v] end.

Definition first_or (d : value) (f : value -> bool) (vs : list value) : value :=
  match find f vs with Some x => x | None => d end.

Definition second_or (d : value) (f : value -> bool) (vs : list value) : value :=
  match filter f vs with _ :: x :: _ => x | _ => d end.

Definition list_value (vs : list value) : value :=
  match vs with [v] => v | vs => Commas vs end.

(** One item of [transition]: property (default [all]), duration, timing
    function, delay; the first time is the duration, the second the
    delay. *)
Definition transition_longhands (v : value) : list (string * value) :=
  let its := items v in
  let is_prop x := match x with Kw _ => negb (is_timing x) | _ => false end in
  [("transition-property", list_value (map (first_or (Kw "all") is_prop) its));
   ("transition-duration", list_value (map (first_or (sec 0) is_time) its));
   ("transition-timing-function", list_value (map (first_or (Kw "ease") is_timing) its));
   ("transition-delay", list_value (map (second_or (sec 0) is_time) its))]%string.

Definition animation_longhands (v : value) : list (string * value) :=
  let its := items v in
  let is_name x := match x with
                   | Kw _ => negb (is_timing x || is_iteration x || is_direction x || is_fill x || is_play_state x)
                   | _ => false
                   end in
  [("animation-name", list_value (map (first_or (Kw "none") is_name) its));
   ("animation-duration", list_value (map (first_or (sec 0) is_time) its));
   ("animation-timing-function", list_value (map (first_or (Kw "ease") is_timing) its));
   ("animation-delay", list_value (map (second_or (sec 0) is_time) its));
   ("animation-iteration-count", list_value (map (first_or (num 1) is_iteration) its));
   ("animation-direction", list_value (map (first_or (Kw "normal") is_direction) its));
   ("animation-fill-mode", list_value (map (first_or (Kw "none") is_fill) its));
   ("animation-play-state", list_value (map (first_or (Kw "running") is_play_state) its))]%string.

Definition sides : list string := ["top"; "right"; "bottom"; "left"]%string.

(** [border-<side>]: width, style and colour, each defaulting to its
    initial value. *)
Definition border_side_longhands (side : string) (v : value) : list (string * value) :=
  let ps := parts v in
  let is_color x := negb (is_length x || is_line_style x) in
  [("border-" ++ side ++ "-width", first_or (Kw "medium") is_length ps);
   ("border-" ++ side ++ "-style", first_or (Kw "none") is_line_style ps);
   ("border-" ++ side ++ "-color", first_or (Kw "currentcolor") is_color ps)]%string.

Definition expand_one (p : string) (v : value) : list (string * value) :=
  if String.eqb p "transition" then transition_longhands v
  else if String.eqb p "animation" then animation_longhands v
  else if String.eqb p "border" then flat_map (fun s => border_side_longhands s v) sides
  else match find (fun s => String.eqb p ("border-" ++ s)) sides with
       | Some s => border_side_longhands s v
       | None =>
           if String.eqb p "border-color" then map (fun s => ("border-" ++ s ++ "-color", v)%string) sides
           else [(p, v)]
       end.

(** A declaration as the longhands it sets, with its importance. *)
Definition expand (d : decl) : list decl :=
  map (fun pv => mk_decl (fst pv) (snd pv) (important d)) (expand_one (prop d) (val d)).

(** ** The cascade *)

(** The precedence of a declaration: importance, [style] attribute,
    specificity, then rule and declaration index. *)
Record key := mk_key {
  k_important : bool;
  k_inline : bool;
  k_spec : spec;
  k_rule : nat;
  k_decl : nat
}.

Definition key_code (k : key) : list nat :=
  let '(a, b, c) := k_spec k in
  [Nat.b2n (k_important k); Nat.b2n (k_inline k); a; b; c; k_rule k; k_decl k].

Fixpoint lex_ltb (l1 l2 : list nat) : bool :=
  match l1, l2 with
  | x :: r, y :: s => Nat.ltb x y || (Nat.eqb x y && lex_ltb r s)
  | _, _ => false
  end.

Definition key_ltb (k1 k2 : key) : bool := lex_ltb (key_code k1) (key_code k2).

Definition spec_max (a b : spec) : spec :=
  if lex_ltb (let '(x, y, z) := a in [x; y; z]) (let '(x, y, z) := b in [x; y; z]) then b else a.

(** The specificity of the most specific selector of the list that
    matches, if one does. *)
Definition best_spec (sels : list selector) (e : elem) (pe : option pseudo_el) : option spec :=
  fold_left (fun acc s =>
               if selector_matches s e pe then
                 Some (match acc with Some a => spec_max a (selector_spec s) | None => selector_spec s end)
               else acc) sels None.

Definition indexed {A} (l : list A) : list (nat * A) := combine (seq 0 (List.length l)) l.

(** The declarations of property [p] one rule gives the target. *)
Definition rule_cands (v : env) (e : elem) (pe : option pseudo_el) (p : string)
    (i : nat) (r : rule) : list (key * value) :=
  if media_holds (media_of r) v then
    match best_spec (selectors r) e pe with
    | Some s =>
        flat_map (fun jd =>
          map (fun d => (mk_key (important d) false s i (fst jd), val d))
              (filter (fun d => String.eqb (prop d) p) (expand (snd jd))))
          (indexed (decls r))
    | None => []
    end
  else [].

(** The [style] attribute applies to the element itself only; the
    scripts write longhands into it ([el.style.transform = ...],
    [el.style.setProperty('--char-index', i)]). *)
Definition inline_cands (e : elem) (pe : option pseudo_el) (p : string) : list (key * value) :=
  match pe with
  | None =>
      flat_map (fun jd => if js_eqb (fst (snd jd)) (js p)
                          then [(mk_key false true (0, 0, 0) 0 (fst jd), snd (snd jd))] else [])
        (indexed (inline e))
  | Some _ => []
  end.

Definition candidates (v : env) (sh : sheet) (e : elem) (pe : option pseudo_el) (p : string)
    : list (key * value) :=
  inline_cands e pe p ++ flat_map (fun ir => rule_cands v e pe p (fst ir) (snd ir)) (indexed sh).

Definition pick (best : option (key * value)) (c : key * value) : option (key * value) :=
  match best with
  | None => Some c
  | Some b => if key_ltb (fst b) (fst c) then Some c else Some b
  end.

Definition cascade (cs : list (key * value)) : option (key * value) := fold_left pick cs None.

(** The cascaded value of property [p] for the target. *)
Definition computed (v : env) (sh : sheet) (e : elem) (pe : option pseudo_el) (p : string)
    : option value :=
  option_map snd (cascade (candidates v sh e pe p)).

(** ** Precedence is a strict total order *)

(** A boolean strict order that is total: [precedes] never holds of
    equal keys, chains, and of two distinct keys one precedes the other. *)
Class Precedence {A} (precedes : A -> A -> bool) : Prop := {
  prec_irrefl : forall a, precedes a a = false;
  prec_chain : forall a b c, precedes a b = true -> precedes b c = true -> precedes a c = true;
  prec_connex : forall a b, precedes a b = false -> precedes b a = false -> a = b
}.

Definition key_leb (k1 k2 : key) : bool := negb (key_ltb k2 k1).

(** The candidates for a property that only universal rules declare
    [!important] with. *)
Definition imp_decl_of (p : string) (r : rule) : bool :=
  existsb (fun d => important d && String.eqb (prop d) p) (flat_map expand (decls r)).

Definition univ_selector (s : selector) : bool :=
  match fst s with Sel [SUniv] => true | _ => false end.

Definition important_universal (p : string) (sh : sheet) : bool :=
  forallb (fun r => negb (imp_decl_of p r) || forallb univ_selector (selectors r)) sh.

(** No rule declares [p] [!important]. *)
Definition no_important (p : string) (sh : sheet) : bool :=
  forallb (fun r => negb (imp_decl_of p r)) sh.

Definition is_important (c : key * value) : bool := k_important (fst c).

(** The specification of the cascade: a declaration of highest
    precedence among the candidates. *)
Definition is_cascaded (cs : list (key * value)) (c : key * value) : Prop :=
  In c cs /\ Forall (fun c' => key_leb (fst c') (fst c) = true) cs.

(** ** Lemmas *)

Lemma lex_antirefl (l : list nat) : lex_ltb l l = false.
Proof. induction l as [|x l IH]; cbn [lex_ltb]; [reflexivity|]. rewrite Nat.ltb_irrefl, Nat.eqb_refl, IH. reflexivity. Qed.

Lemma lex_trans (l1 l2 l3 : list nat) :
  lex_ltb l1 l2 = true -> lex_ltb l2 l3 = true -> lex_ltb l1 l3 = true.
Proof.
  revert l2 l3. induction l1 as [|x l1 IH]; intros [|y l2] [|z l3]; cbn [lex_ltb]; try discriminate.
  rewrite !orb_true_iff, !andb_true_iff, !Nat.ltb_lt, !Nat.eqb_eq.
  intros [H1|[-> H1]] [H2|[-> H2]]; [left; lia | left; lia | left; lia | right; eauto].
Qed.

Lemma lex_total (l1 l2 : list nat) :
  List.length l1 = List.length l2 -> lex_ltb l1 l2 = false -> lex_ltb l2 l1 = false -> l1 = l2.
Proof.
  revert l2. induction l1 as [|x l1 IH]; intros [|y l2]; cbn [lex_ltb length]; try discriminate; [reflexivity|].
  intros Hl. rewrite !orb_false_iff, !andb_false_iff, !Nat.ltb_ge, !Nat.eqb_neq.
  intros [H1 [H2|H2]] [H3 [H4|H4]]; try lia. f_equal; [lia | apply IH; auto].
Qed.

Lemma b2n_inj (a b : bool) : Nat.b2n a = Nat.b2n b -> a = b.
Proof. destruct a, b; cbn; congruence. Qed.

Lemma key_code_inj (k1 k2 : key) : key_code k1 = key_code k2 -> k1 = k2.
Proof.
  destruct k1 as [i1 n1 [[a1 b1] c1] r1 d1], k2 as [i2 n2 [[a2 b2] c2] r2 d2]; cbn.
  intros H; injection H; intros; subst. f_equal; apply b2n_inj; assumption.
Qed.

#[export] Instance key_precedence : Precedence key_ltb.
Proof.
  split; unfold key_ltb.
  - intros k. apply lex_antirefl.
  - intros k1 k2 k3. apply lex_trans.
  - intros k1 k2 H1 H2. apply key_code_inj, lex_total; [|assumption|assumption].
    destruct k1 as [? ? [[? ?] ?] ? ?], k2 as [? ? [[? ?] ?] ? ?]; reflexivity.
Qed.

Lemma key_leb_refl (k : key) : key_leb k k = true.
Proof. unfold key_leb. rewrite prec_irrefl. reflexivity. Qed.

Lemma key_ltb_leb (k1 k2 : key) : key_ltb k1 k2 = true -> key_leb k1 k2 = true.
Proof.
  unfold key_leb. intros H. destruct (key_ltb k2 k1) eqn:E; [|reflexivity].
  pose proof (prec_chain _ _ _ H E) as C. rewrite prec_irrefl in C. discriminate.
Qed.

Lemma key_leb_trans (k1 k2 k3 : key) :
  key_leb k1 k2 = true -> key_leb k2 k3 = true -> key_leb k1 k3 = true.
Proof.
  unfold key_leb. rewrite !negb_true_iff. intros H12 H23.
  destruct (key_ltb k3 k1) eqn:E31; [|reflexivity].
  destruct (key_ltb k2 k1) eqn:E21; [discriminate|].
  destruct (key_ltb k1 k2) eqn:E12.
  - rewrite (prec_chain _ _ _ E31 E12) in H23. discriminate.
  - rewrite (prec_connex _ _ E12 E21) in E31. congruence.
Qed.

(** A [!important] declaration outranks every normal one. *)
Lemma important_beats (k1 k2 : key) :
  k_important k1 = false -> k_important k2 = true -> key_ltb k1 k2 = true.
Proof.
  destruct k1 as [[] ? [[? ?] ?] ? ?], k2 as [[] ? [[? ?] ?] ? ?]; cbn; intros; try discriminate. reflexivity.
Qed.

Lemma fold_pick_max (cs : list (key * value)) (b : key * value) :
  exists r, fold_left pick cs (Some b) = Some r /\ (r = b \/ In r cs) /\
            key_leb (fst b) (fst r) = true /\ Forall (fun c => key_leb (fst c) (fst r) = true) cs.
Proof.
  revert b. induction cs as [|c cs IH]; intros b; cbn.
  - exists b. repeat split; auto using key_leb_refl.
  - destruct (key_ltb (fst b) (fst c)) eqn:E.
    + destruct (IH c) as (r & Hr & Hin & Hcr & Hall). exists r.
      repeat split; auto; [destruct Hin; subst; auto | eauto using key_leb_trans, key_ltb_leb].
    + destruct (IH b) as (r & Hr & Hin & Hbr & Hall). exists r.
      repeat split; auto; [destruct Hin; auto |].
      constructor; [|assumption]. eapply key_leb_trans; [|exact Hbr].
      unfold key_leb. rewrite E. reflexivity.
Qed.

Lemma cascade_none (cs : list (key * value)) : cascade cs = None <-> cs = [].
Proof.
  split; [|intros ->; reflexivity].
  destruct cs as [|c cs]; [reflexivity|]. unfold cascade. cbn.
  destruct (fold_pick_max cs c) as (r & -> & _). discriminate.
Qed.

Lemma cascade_max (cs : list (key * value)) (c : key * value) :
  cascade cs = Some c -> is_cascaded cs c.
Proof.
  destruct cs as [|c0 cs]; [discriminate|]. unfold cascade. cbn.
  destruct (fold_pick_max cs c0) as (r & -> & Hin & Hc0 & Hall). intros [= <-].
  split; [destruct Hin; [left|right]; auto | constructor; assumption].
Qed.

(** Two declarations of highest precedence have the same key. *)
Lemma is_cascaded_key (cs : list (key * value)) (c c' : key * value) :
  is_cascaded cs c -> is_cascaded cs c' -> fst c = fst c'.
Proof.
  intros [Hin Hall] [Hin' Hall']. rewrite Forall_forall in Hall, Hall'.
  specialize (Hall _ Hin'). specialize (Hall' _ Hin). unfold key_leb in *.
  apply prec_connex; apply negb_true_iff; assumption.
Qed.

Lemma pick_important (cs : list (key * value)) (b : key * value) :
  is_important b = true ->
  fold_left pick cs (Some b) = fold_left pick (filter is_important cs) (Some b).
Proof.
  revert b. induction cs as [|c cs IH]; intros b Hb; [reflexivity|]. cbn.
  destruct (is_important c) eqn:Ec; cbn.
  - destruct (key_ltb (fst b) (fst c)); apply IH; assumption.
  - assert (key_ltb (fst b) (fst c) = false) as ->.
    { destruct (key_ltb (fst b) (fst c)) eqn:E; [|reflexivity].
      pose proof (prec_chain _ _ _ E (important_beats _ _ Ec Hb)) as C.
      rewrite prec_irrefl in C. discriminate. }
    apply IH. assumption.
Qed.

(** Normal declarations do not matter once an [!important] one applies. *)
Lemma cascade_filter_important (cs : list (key * value)) :
  filter is_important cs <> [] -> cascade cs = cascade (filter is_important cs).
Proof.
  unfold cascade.
  assert (forall b, match b with Some b => is_important b = false | None => True end ->
                    filter is_important cs <> [] ->
                    fold_left pick cs b = fold_left pick (filter is_important cs) None) as H.
  { induction cs as [|c cs IH]; intros b Hb Hne; cbn in *; [congruence|].
    destruct (is_important c) eqn:Ec.
    - assert (pick b c = Some c) as ->.
      { destruct b as [b|]; [|reflexivity]. cbn. rewrite (important_beats _ _ Hb Ec). reflexivity. }
      apply pick_important. assumption.
    - apply IH; [|assumption]. destruct b as [b|]; cbn; [|assumption].
      destruct (key_ltb (fst b) (fst c)); assumption. }
  intros Hne. exact (H None I Hne).
Qed.

Lemma in_indexed {A} (l : list A) (x : nat * A) : In x (indexed l) -> In (snd x) l.
Proof. destruct x. apply in_combine_r. Qed.

Lemma inline_not_important (e : elem) (pe : option pseudo_el) (p : string) (c : key * value) :
  In c (inline_cands e pe p) -> is_important c = false.
Proof.
  destruct pe; cbn; [contradiction|]. rewrite in_flat_map.
  intros (jd & _ & Hc). destruct (js_eqb _ _); [destruct Hc as [<-|[]]|contradiction]. reflexivity.
Qed.

Lemma rule_cands_not_important (v : env) (e : elem) (pe : option pseudo_el) (p : string)
    (i : nat) (r : rule) (c : key * value) :
  imp_decl_of p r = false -> In c (rule_cands v e pe p i r) -> is_important c = false.
Proof.
  unfold rule_cands, imp_decl_of. intros Hno.
  destruct (media_holds (media_of r) v); [|contradiction].
  destruct (best_spec (selectors r) e pe) as [s|]; [|contradiction].
  rewrite in_flat_map. intros (jd & Hjd & Hc).
  apply in_map_iff in Hc as (d & <- & Hd). apply filter_In in Hd as [Hd Hp].
  apply Bool.not_true_iff_false. intros Himp.
  apply Bool.not_true_iff_false in Hno. apply Hno, existsb_exists.
  exists d. split; [apply in_flat_map; exists (snd jd); split; [apply in_indexed|]; assumption |].
  cbn in Himp. rewrite Himp, Hp. reflexivity.
Qed.

Lemma best_spec_univ (sels : list selector) (e e' : elem) (pe : option pseudo_el) :
  forallb univ_selector sels = true -> best_spec sels e pe = best_spec sels e' pe.
Proof.
  unfold best_spec. generalize (@None spec) as acc.
  induction sels as [|s sels IH]; intros acc H; cbn in *; [reflexivity|].
  apply andb_true_iff in H as [Hs H].
  destruct s as [[[|[] [|]]| |] pe0]; cbn in Hs; try discriminate. apply IH. assumption.
Qed.

(** The [!important] candidates for a property only universal rules
    declare [!important] do not depend on the element. *)
Lemma important_candidates_uniform (v : env) (sh : sheet) (e e' : elem)
    (pe : option pseudo_el) (p : string) :
  important_universal p sh = true ->
  filter is_important (candidates v sh e pe p) = filter is_important (candidates v sh e' pe p).
Proof.
  unfold candidates, important_universal. intros Hsh.
  rewrite !filter_app, (filter_none _ (inline_cands e pe p)), (filter_none _ (inline_cands e' pe p))
    by eauto using inline_not_important. cbn.
  rewrite !filter_flat_map. apply flat_map_ext_in. intros [i r] Hir.
  apply in_indexed in Hir. rewrite forallb_forall in Hsh. specialize (Hsh r Hir). cbn.
  destruct (imp_decl_of p r) eqn:Himp; cbn in Hsh.
  - unfold rule_cands. rewrite (best_spec_univ _ e e' pe Hsh). reflexivity.
  - rewrite !filter_none by eauto using rule_cands_not_important. reflexivity.
Qed.

Lemma computed_important_uniform (v : env) (sh : sheet) (e e' : elem)
    (pe : option pseudo_el) (p : string) :
  important_universal p sh = true ->
  filter is_important (candidates v sh e' pe p) <> [] ->
  computed v sh e pe p = computed v sh e' pe p.
Proof.
  intros Hsh Hne.
  assert (filter is_important (candidates v sh e pe p) <> []) as Hne'
    by (rewrite (important_candidates_uniform v sh e e' pe p Hsh); exact Hne).
  unfold computed. rewrite (cascade_filter_important _ Hne), (cascade_filter_important _ Hne'),
    (important_candidates_uniform v sh e e' pe p Hsh). reflexivity.
Qed.

Lemma inline_key (e : elem) (pe : option pseudo_el) (p : string) (c : key * value) :
  In c (inline_cands e pe p) -> k_inline (fst c) = true /\ k_important (fst c) = false.
Proof.
  destruct pe; cbn; [contradiction|]. rewrite in_flat_map.
  intros (jd & _ & Hc). destruct (js_eqb _ _); [destruct Hc as [<-|[]]|contradiction]. split; reflexivity.
Qed.

Lemma rule_key (v : env) (e : elem) (pe : option pseudo_el) (p : string) (i : nat) (r : rule)
    (c : key * value) :
  In c (rule_cands v e pe p i r) -> k_inline (fst c) = false.
Proof.
  unfold rule_cands. destruct (media_holds (media_of r) v); [|contradiction].
  destruct (best_spec (selectors r) e pe); [|contradiction].
  rewrite in_flat_map. intros (jd & _ & Hc). apply in_map_iff in Hc as (d & <- & _). reflexivity.
Qed.

(** The [style] attribute outranks every normal rule. *)
Lemma inline_beats (k1 k2 : key) :
  k_important k1 = false -> k_inline k1 = false -> k_important k2 = false -> k_inline k2 = true ->
  key_ltb k1 k2 = true.
Proof.
  destruct k1 as [[] [] [[? ?] ?] ? ?], k2 as [[] [] [[? ?] ?] ? ?]; cbn; intros; try discriminate. reflexivity.
Qed.

(** Where no rule declares [p] [!important], a value the script writes
    into the [style] attribute is the computed value. *)
Lemma computed_inline (v : env) (sh : sheet) (e : elem) (p : string) (x : value) :
  no_important p sh = true ->
  inline_cands e None p <> [] -> (forall c, In c (inline_cands e None p) -> snd c = x) ->
  computed v sh e None p = Some x.
Proof.
  intros Hno Hne Hx. unfold computed.
  destruct (cascade (candidates v sh e None p)) as [c|] eqn:Hc.
  - destruct (cascade_max _ _ Hc) as [Hin Hall]. cbn. f_equal. apply Hx.
    unfold candidates in Hin. apply in_app_or in Hin as [Hin|Hin]; [exact Hin|exfalso].
    destruct (inline_cands e None p) as [|c0 cs0] eqn:Hi; [congruence|].
    assert (In c0 (candidates v sh e None p)) as H0
      by (unfold candidates; rewrite Hi; left; reflexivity).
    rewrite Forall_forall in Hall. specialize (Hall _ H0). unfold key_leb in Hall.
    apply in_flat_map in Hin as ([i r] & Hir & Hin).
    destruct (inline_key e None p c0) as [Hi0 Hm0]; [rewrite Hi; left; reflexivity|].
    rewrite (inline_beats (fst c) (fst c0)) in Hall; [discriminate| | |assumption|assumption].
    + unfold no_important in Hno. rewrite forallb_forall in Hno.
      specialize (Hno r (in_indexed _ _ Hir)). apply negb_true_iff in Hno.
      exact (rule_cands_not_important v e None p i r c Hno Hin).
    + exact (rule_key v e None p i r c Hin).
  - apply cascade_none in Hc. unfold candidates in Hc. apply app_eq_nil in Hc as [Hc _]. contradiction.
Qed.

(** ** Candidates have distinct keys *)

Lemma expand_one_names (p : string) (v : value) : NoDup (map fst (expand_one p v)).
Proof.
  unfold expand_one.
  destruct (String.eqb p "transition"); [cbn; repeat constructor; cbn; intuition discriminate|].
  destruct (String.eqb p "animation"); [cbn; repeat constructor; cbn; intuition discriminate|].
  destruct (String.eqb p "border"); [cbn; repeat constructor; cbn; intuition discriminate|].
  destruct (find _ sides) as [side|] eqn:Hf.
  - apply find_some in Hf as [Hin _]. cbn in Hin.
    destruct Hin as [<-|[<-|[<-|[<-|[]]]]]; cbn; repeat constructor; cbn; intuition discriminate.
  - destruct (String.eqb p "border-color"); cbn; repeat constructor; cbn; intuition discriminate.
Qed.

Lemma nodup_filter_names (p : string) (ds : list decl) :
  NoDup (map prop ds) -> length (filter (fun d => String.eqb (prop d) p) ds) <= 1.
Proof.
  induction ds as [|d ds IH]; cbn; [lia|]. intros Hnd. inversion Hnd as [|? ? Hnotin Hnd']; subst.
  destruct (String.eqb (prop d) p) eqn:E; cbn; [|auto].
  apply String.eqb_eq in E. subst p.
  rewrite filter_none; [cbn; lia|]. intros d' Hd'. apply String.eqb_neq. intros Heq.
  apply Hnotin. rewrite <- Heq. apply in_map. exact Hd'.
Qed.

Lemma expand_names (d : decl) : NoDup (map prop (expand d)).
Proof. unfold expand. rewrite map_map. cbn. apply expand_one_names. Qed.

Lemma nodup_at_most_one {K B} (l : list (K * B)) : length l <= 1 -> NoDup (map fst l).
Proof. destruct l as [|x [|y l]]; cbn; intros; [constructor | repeat constructor; auto | lia]. Qed.

(** Keys that carry their position are distinct across positions. *)
Lemma nodup_indexed {A K B} (proj : K -> nat) (f : nat * A -> list (K * B)) (l : list A) (start : nat) :
  (forall ix, NoDup (map fst (f ix))) -> (forall ix c, In c (f ix) -> proj (fst c) = fst ix) ->
  NoDup (map fst (flat_map f (combine (seq start (List.length l)) l))).
Proof.
  revert start. induction l as [|x l IH]; intros start Hnd Hproj; cbn; [constructor|].
  rewrite map_app. apply NoDup_app; [apply Hnd | apply IH; assumption |].
  intros k Hk Hk'. apply in_map_iff in Hk as (c & <- & Hc). apply in_map_iff in Hk' as (c' & Hcc & Hc').
  apply in_flat_map in Hc' as ([j y] & Hjy & Hc'). apply Hproj in Hc, Hc'. cbn in Hc, Hc'.
  apply in_combine_l, in_seq in Hjy. rewrite Hcc in Hc'. lia.
Qed.

Lemma rule_cands_nodup (v : env) (e : elem) (pe : option pseudo_el) (p : string) (i : nat) (r : rule) :
  NoDup (map fst (rule_cands v e pe p i r)).
Proof.
  unfold rule_cands. destruct (media_holds _ _); [|constructor]. destruct (best_spec _ _ _) as [sp|]; [|constructor].
  apply (nodup_indexed k_decl); [|intros [j d] c Hc; apply in_map_iff in Hc as (d' & <- & _); reflexivity].
  intros [j d]. apply nodup_at_most_one. cbn. rewrite length_map.
  apply nodup_filter_names, expand_names.
Qed.

Lemma candidates_nodup (v : env) (sh : sheet) (e : elem) (pe : option pseudo_el) (p : string) :
  NoDup (map fst (candidates v sh e pe p)).
Proof.
  unfold candidates. rewrite map_app. apply NoDup_app.
  - destruct pe; [constructor|]. apply (nodup_indexed k_decl).
    + intros [j [n x]]. apply nodup_at_most_one. cbn. destruct (js_eqb _ _); cbn; lia.
    + intros [j [n x]] c Hc. cbn in Hc. destruct (js_eqb _ _); [destruct Hc as [<-|[]]; reflexivity | contradiction].
  - apply (nodup_indexed k_rule); [intros; apply rule_cands_nodup|].
    intros [i r] c Hc. unfold rule_cands in Hc. cbn in Hc.
    destruct (media_holds _ _); [|contradiction]. destruct (best_spec _ _ _); [|contradiction].
    apply in_flat_map in Hc as (jd & _ & Hc). apply in_map_iff in Hc as (d & <- & _). reflexivity.
  - intros k Hk Hk'. apply in_map_iff in Hk as (c & <- & Hc). apply in_map_iff in Hk' as (c' & Hcc & Hc').
    apply inline_key in Hc as [Hi _]. apply in_flat_map in Hc' as ([i r] & _ & Hc').
    apply rule_key in Hc'. congruence.
Qed.

Lemma nodup_fst_same {K B} (l : list (K * B)) (k : K) (x y : B) :
  NoDup (map fst l) -> In (k, x) l -> In (k, y) l -> x = y.
Proof.
  induction l as [|[k0 b0] l IH]; cbn; [contradiction|]. intros Hnd Hx Hy.
  inversion Hnd as [|? ? Hn Hnd']; subst.
  destruct Hx as [Ex|Hx], Hy as [Ey|Hy].
  - congruence.
  - injection Ex as -> ->. exfalso. apply Hn. exact (in_map fst _ _ Hy).
  - injection Ey as -> ->. exfalso. apply Hn. exact (in_map fst _ _ Hx).
  - exact (IH Hnd' Hx Hy).
Qed.

(** ** Properties *)

(** The computed value is the cascade's specification: it is the value
    of the declaration whose precedence (importance, [style] attribute,
    specificity, source order) no applicable declaration exceeds (the
    candidates' keys are distinct, so that declaration is unique), and
    it is absent exactly when no declaration applies. *)
Theorem computed_is_cascaded (v : env) (sh : sheet) (e : elem) (pe : option pseudo_el) (p : string) :
  (forall x, computed v sh e pe p = Some x <-> exists k, is_cascaded (candidates v sh e pe p) (k, x)) /\
  (computed v sh e pe p = None <-> candidates v sh e pe p = []).
Proof.
  unfold computed. split.
  - intros x. split.
    + destruct (cascade _) as [[k y]|] eqn:Hc; cbn; intros H; [injection H as <-|discriminate].
      exists k. apply cascade_max. exact Hc.
    + intros [k Hk]. destruct (cascade _) as [[k' y]|] eqn:Hc.
      * apply cascade_max in Hc. pose proof (is_cascaded_key _ _ _ Hk Hc) as E. cbn in E. subst k'.
        cbn. f_equal. eapply nodup_fst_same; [apply candidates_nodup | apply Hc | apply Hk].
      * apply cascade_none in Hc. destruct Hk as [Hin _]. rewrite Hc in Hin. contradiction.
  - rewrite <- cascade_none. destruct (cascade _); cbn; split; congruence.
Qed.

End Css.
