(* ===== verification/Scramble.v ===== *)
(** * The text-scramble transition ([TextScramble], src/unnamed/part_001)

    The data of one transition (the queue of per-character tasks), the
    loop of [setText] that builds it, and the loop of one [update] call
    that renders a frame, as state-monad functions of a [RandomSource].
    The scheduling around them ([requestAnimationFrame], the promise) is
    in [Runtime.v]. *)

From Stdlib Require Import String ZArith QArith Qround List Lia.
From S2P Require Import Prelude.
Import ListNotations.

Module TextScramble.

(** [this.chars = '!<>-_\\/[]{}—=+*^?#'] (the dash is U+2014). *)
Definition chars : jsstring := js "!<>-_\/[]{}" ++ [8212%Z] ++ js "=+*^?#".

(** A queue entry [{ from, to, start, end }], with the [char] property
    that [update] adds later ([None] while it is absent). *)
Record task := mk_task {
  from : jsstring;
  to : jsstring;
  start : Z;
  end_ : Z;
  char : option jsstring
}.

Definition set_char (t : task) (c : option jsstring) : task :=
  mk_task (from t) (to t) (start t) (end_ t) c.

Section WithRandom.
Context {R : Type} `{RandomSource R}.

(** The body of [setText]'s loop, for [i] and the [k] iterations left:
    two draws per position, [start] first. *)
Fixpoint build_queue (oldText newText : jsstring) (i k : nat) : St R (list task) :=
  match k with
  | O => ret []
  | S k' =>
      start <- random_floor 40 ;;
      e <- random_floor 40 ;;
      rest <- build_queue oldText newText (S i) k' ;;
      ret (mk_task (js_or_empty (js_at oldText i)) (js_or_empty (js_at newText i))
             start (start + e)%Z None :: rest)
  end.

(** [const length = Math.max(oldText.length, newText.length)] and the loop
    [for (let i = 0; i < length; i++)]. *)
Definition setText_queue (oldText newText : jsstring) : St R (list task) :=
  build_queue oldText newText 0 (Nat.max (List.length oldText) (List.length newText)).

(** [Math.random()] as a monadic action. *)
Definition random : St R Q := math_random.

(** [this.chars[Math.floor(Math.random() * this.chars.length)]]. *)
Definition random_char : St R (option jsstring) :=
  k <- random_floor (Z.of_nat (List.length chars)) ;;
  ret (js_at_z chars k).

(** [`<span class="scramble-char">${char}</span>`]. *)
Definition scramble_span (c : option jsstring) : jsstring :=
  js "<span class=" ++ [34%Z] ++ js "scramble-char" ++ [34%Z] ++ js ">"
  ++ js_interp c ++ js "</span>".

(** One iteration of [update]'s loop on the task at hand: the new task,
    the piece appended to [output], and whether [complete] is incremented. *)
Definition update_task (frame : Z) (t : task) : St R (task * jsstring * bool) :=
  if (end_ t <=? frame)%Z then ret (t, to t, true)
  else if (start t <=? frame)%Z then
    redraw <- (if js_falsy (char t) then ret true
               else r <- random ;;
                    ret (if Qlt_le_dec r (28 # 100) then true else false)) ;;
    if redraw then
      c <- random_char ;;
      ret (set_char t c, scramble_span c, false)
    else ret (t, scramble_span (char t), false)
  else ret (t, from t, false).

(** [update]'s loop over [this.queue], with its accumulators [output]
    and [complete]. *)
Fixpoint update_loop (frame : Z) (q : list task) (output : jsstring) (complete : nat)
  : St R (list task * jsstring * nat) :=
  match q with
  | [] => ret ([], output, complete)
  | t :: q' =>
      r <- update_task frame t ;;
      let '(t', piece, fin) := r in
      rest <- update_loop frame q' (output ++ piece) (if fin then S complete else complete) ;;
      let '(q'', out, cmp) := rest in
      ret (t' :: q'', out, cmp)
  end.

(** The loop as [update] starts it: [let output = ''; let complete = 0]. *)
Definition update_frame (frame : Z) (q : list task) : St R (list task * jsstring * nat) :=
  update_loop frame q [] 0.

End WithRandom.

(** ** Specifications *)

(** The bounds [setText] gives each task: [start] in [0,40) and [end] in
    [start, start + 40). *)
Definition task_bounds (t : task) : Prop :=
  (0 <= start t < 40 /\ start t <= end_ t < start t + 40)%Z.

(** What [char] can hold: absent, or one glyph of [chars]. *)
Definition char_ok (v : option jsstring) : Prop :=
  v = None \/ exists c, v = Some [c] /\ In c chars.

(** The phase of a task at a frame (design notes: pending, resolving,
    frozen), in the order [update] tests them. *)
Inductive phase := Pending | Resolving | Frozen.

Definition phase_at (frame : Z) (t : task) : phase :=
  if (end_ t <=? frame)%Z then Frozen
  else if (start t <=? frame)%Z then Resolving
  else Pending.

(** The abstract step of one task in one frame: a frozen task emits [to]
    and counts as complete; a resolving task shows some glyph of [chars],
    remembered in [char]; a pending task emits [from]. *)
Inductive task_step (frame : Z) : task -> task -> jsstring -> bool -> Prop :=
| step_frozen t :
    phase_at frame t = Frozen -> task_step frame t t (to t) true
| step_resolving t c :
    phase_at frame t = Resolving -> In c chars ->
    task_step frame t (set_char t (Some [c])) (scramble_span (Some [c])) false
| step_pending t :
    phase_at frame t = Pending -> task_step frame t t (from t) false.

(** One frame over the whole queue: the tasks after the frame, the text
    rendered, and the number of complete tasks. *)
Inductive frame_steps (frame : Z) : list task -> list task -> jsstring -> nat -> Prop :=
| frame_nil : frame_steps frame [] [] [] 0
| frame_cons t t' piece fin q q' out n :
    task_step frame t t' piece fin -> frame_steps frame q q' out n ->
    frame_steps frame (t :: q) (t' :: q') (piece ++ out) (if fin then S n else n).

(** The frame at which the last task freezes. *)
(** The fields of a task that no frame changes. *)
Definition task_fields (t : task) : jsstring * jsstring * Z * Z :=
  (from t, to t, start t, end_ t).

Definition max_end (q : list task) : Z := fold_right (fun t m => Z.max (end_ t) m) 0%Z q.

(** ** The queue built by [setText] *)

Section QueueProps.
Context {R : Type} `{RandomSourceOk R}.

Lemma build_queue_shape (oldText newText : jsstring) (i k : nat) :
  st_holds (build_queue oldText newText i k) (fun q =>
    List.length q = k /\
    forall j t, nth_error q j = Some t ->
      from t = js_or_empty (js_at oldText (i + j)) /\
      to t = js_or_empty (js_at newText (i + j)) /\ char t = None).
Proof.
  revert i. induction k as [|k IH]; intros i; simpl.
  - apply st_holds_ret. split; [reflexivity | intros [|j] t Hj; discriminate].
  - apply st_holds_bind_any. intros st. apply st_holds_bind_any. intros e.
    eapply st_holds_bind; [apply IH |]. intros rest [Hlen Hnth].
    apply st_holds_ret. split; [simpl; congruence |].
    intros [|j] t Hj; simpl in Hj.
    + injection Hj as <-. rewrite Nat.add_0_r. auto.
    + rewrite Nat.add_succ_r. apply (Hnth j t Hj).
Qed.

Lemma build_queue_bounded (oldText newText : jsstring) (i k : nat) :
  st_holds (build_queue oldText newText i k) (Forall task_bounds).
Proof.
  revert i. induction k as [|k IH]; intros i; simpl.
  - apply st_holds_ret. constructor.
  - eapply st_holds_bind; [apply random_floor_holds; lia |]. intros st Hst.
    eapply st_holds_bind; [apply random_floor_holds; lia |]. intros e He.
    eapply st_holds_bind; [apply IH |]. intros rest Hrest.
    apply st_holds_ret. constructor; [unfold task_bounds; simpl in *; lia | exact Hrest].
Qed.

(** A list of one-unit-or-empty strings that reads [s] position by
    position, and is at least as long as [s], concatenates to [s]. *)
Lemma concat_reads (s : jsstring) (l : list jsstring) :
  (List.length s <= List.length l)%nat ->
  (forall j x, nth_error l j = Some x -> x = js_or_empty (js_at s j)) ->
  concat l = s.
Proof.
  revert l. induction s as [|a s IH]; intros l Hlen Hl.
  - induction l as [|x l IHl]; [reflexivity |].
    simpl. rewrite (Hl 0%nat x eq_refl). simpl. apply IHl; [simpl; lia |].
    intros j y Hj. rewrite (Hl (S j) y Hj). destruct j; reflexivity.
  - destruct l as [|x l]; simpl in Hlen; [lia |].
    rewrite (Hl 0%nat x eq_refl). simpl. f_equal. apply IH; [lia |].
    intros j y Hj. exact (Hl (S j) y Hj).
Qed.

(** The queue has one task per position of the longer text. *)
Theorem setText_queue_length (oldText newText : jsstring) (g : R) :
  List.length (fst (setText_queue oldText newText g)) =
  Nat.max (List.length oldText) (List.length newText).
Proof. apply (build_queue_shape oldText newText 0). Qed.

(** Task [i] goes from [oldText[i] || ''] to [newText[i] || ''] and
    starts without a glyph. *)
Theorem setText_queue_nth (oldText newText : jsstring) (g : R) (i : nat) (t : task) :
  nth_error (fst (setText_queue oldText newText g)) i = Some t ->
  from t = js_or_empty (js_at oldText i) /\ to t = js_or_empty (js_at newText i) /\
  char t = None.
Proof. apply (build_queue_shape oldText newText 0). Qed.

(** Every task starts in [0,40) and ends in [start, start + 40), so
    every task ends before frame 79. *)
Theorem setText_queue_bounds (oldText newText : jsstring) (g : R) :
  Forall task_bounds (fst (setText_queue oldText newText g)).
Proof. apply build_queue_bounded. Qed.

Lemma setText_queue_spells (oldText newText : jsstring) (g : R) :
  concat (map to (fst (setText_queue oldText newText g))) = newText /\
  concat (map from (fst (setText_queue oldText newText g))) = oldText.
Proof.
  pose proof (build_queue_shape oldText newText 0
                (Nat.max (List.length oldText) (List.length newText)) g) as [Hlen Hnth].
  fold (setText_queue oldText newText) in Hlen, Hnth.
  split; apply concat_reads;
    try (rewrite length_map; unfold setText_queue in *; lia);
    intros j x Hj; rewrite nth_error_map in Hj;
    destruct (nth_error _ j) as [t|] eqn:Ht; try discriminate;
    injection Hj as <-; apply (Hnth j t Ht).
Qed.

Lemma setText_queue_chars (oldText newText : jsstring) (g : R) :
  Forall (fun t => char_ok (char t)) (fst (setText_queue oldText newText g)).
Proof.
  pose proof (build_queue_shape oldText newText 0
                (Nat.max (List.length oldText) (List.length newText)) g) as [_ Hnth].
  apply Forall_forall. intros t Ht. apply In_nth_error in Ht as [j Hj].
  destruct (Hnth j t Hj) as (_ & _ & Hc). left. exact Hc.
Qed.

(** The targets of the queue, in order, spell the new text. *)
Theorem setText_queue_targets (oldText newText : jsstring) (g : R) :
  concat (map to (fst (setText_queue oldText newText g))) = newText.
Proof. apply setText_queue_spells. Qed.

End QueueProps.

(** ** One call of [update] *)

Section FrameProps.
Context {R : Type} `{RandomSourceOk R}.

Lemma chars_length : List.length chars = 18%nat.
Proof. reflexivity. Qed.

Lemma random_char_glyph : st_holds random_char (fun v => exists c, v = Some [c] /\ In c chars).
Proof.
  unfold random_char. rewrite chars_length.
  eapply st_holds_bind; [apply random_floor_holds; lia |]. intros k Hk.
  apply st_holds_ret. unfold js_at_z. simpl in Hk.
  destruct (Z.ltb_spec k 0) as [Hneg | _]; [lia |].
  destruct (js_at_length chars (Z.to_nat k)) as [c [Hn Ha]]; [rewrite chars_length; lia |].
  exists c. split; [exact Ha | eapply nth_error_In; eauto].
Qed.

Lemma set_char_same (t : task) (c : option jsstring) : char t = c -> set_char t c = t.
Proof. destruct t; simpl; intros ->; reflexivity. Qed.

Lemma step_resolving_keep (frame : Z) (t : task) (c : Z) :
  phase_at frame t = Resolving -> char t = Some [c] -> In c chars ->
  task_step frame t t (scramble_span (Some [c])) false.
Proof.
  intros Hph Hc Hin. rewrite <- (set_char_same t (Some [c]) Hc) at 2.
  now apply step_resolving.
Qed.

Lemma update_task_step (frame : Z) (t : task) :
  char_ok (char t) ->
  st_holds (update_task frame t) (fun r => let '(t', p, f) := r in task_step frame t t' p f).
Proof.
  intros Hok. unfold update_task.
  destruct (end_ t <=? frame)%Z eqn:E1.
  { apply st_holds_ret. apply step_frozen. unfold phase_at. now rewrite E1. }
  destruct (start t <=? frame)%Z eqn:E2.
  2: { apply st_holds_ret. apply step_pending. unfold phase_at. now rewrite E1, E2. }
  assert (Hph : phase_at frame t = Resolving) by (unfold phase_at; now rewrite E1, E2).
  assert (Hdraw : st_holds (c <- random_char ;; ret (set_char t c, scramble_span c, false))
                    (fun r => let '(t', p, f) := r in task_step frame t t' p f)).
  { eapply st_holds_bind; [apply random_char_glyph |]. intros v [c [-> Hc]].
    apply st_holds_ret. now apply step_resolving. }
  destruct (js_falsy (char t)) eqn:F.
  - apply st_holds_bind_ret. exact Hdraw.
  - apply st_holds_bind_any. intros [|]; [exact Hdraw |].
    destruct Hok as [Hn | [c [Hc Hin]]]; [rewrite Hn in F; discriminate |].
    apply st_holds_ret. rewrite Hc. now apply step_resolving_keep.
Qed.

Lemma update_loop_steps (frame : Z) (q : list task) (output : jsstring) (complete : nat) :
  Forall (fun t => char_ok (char t)) q ->
  st_holds (update_loop frame q output complete) (fun r => let '(q', o, n) := r in
    exists out m, frame_steps frame q q' out m /\ o = output ++ out /\ n = (complete + m)%nat).
Proof.
  revert output complete. induction q as [|t q IH]; intros output complete Hok; simpl.
  - apply st_holds_ret. exists [], 0%nat. split; [constructor |]. split; [symmetry; apply app_nil_r | lia].
  - inversion Hok as [|? ? Ht Hq]; subst.
    eapply st_holds_bind; [now apply update_task_step |]. intros [[t' p] f] Hstep.
    eapply st_holds_bind; [now apply IH |]. intros [[q' o] n] (out & m & Hfs & Ho & Hn).
    apply st_holds_ret. exists (p ++ out), (if f then S m else m).
    split; [now constructor |]. split; [subst o; now rewrite <- app_assoc | destruct f; lia].
Qed.

(** C5: one call of [update] refines the abstract frame: the queue it
    leaves, the text it writes and the count it compares are those of a
    [frame_steps] of the phase machine, for every random draw. *)
Theorem update_frame_refines (frame : Z) (q : list task) (g : R) :
  Forall (fun t => char_ok (char t)) q ->
  let '(q', output, complete) := fst (update_frame frame q g) in
  frame_steps frame q q' output complete.
Proof.
  intros Hok. pose proof (update_loop_steps frame q [] 0 Hok g) as Hs.
  unfold update_frame. cbv beta in Hs.
  destruct (fst (update_loop frame q [] 0 g)) as [[q' o] n].
  destruct Hs as (out & m & Hfs & -> & ->). exact Hfs.
Qed.

End FrameProps.

(** ** Consequences of the frame relation *)

Lemma phase_frozen_iff (frame : Z) (t : task) : phase_at frame t = Frozen <-> (end_ t <= frame)%Z.
Proof.
  unfold phase_at. destruct (Z.leb_spec (end_ t) frame); [tauto |].
  destruct (start t <=? frame)%Z; split; intros; try discriminate; lia.
Qed.

Lemma task_step_fin (frame : Z) (t t' : task) (p : jsstring) (fin : bool) :
  task_step frame t t' p fin -> (fin = true <-> phase_at frame t = Frozen).
Proof. intros Hs; inversion Hs; subst; split; congruence. Qed.

Lemma task_step_fields (frame : Z) (t t' : task) (p : jsstring) (fin : bool) :
  task_step frame t t' p fin -> task_fields t' = task_fields t.
Proof. intros Hs; inversion Hs; reflexivity. Qed.

Lemma task_step_char_ok (frame : Z) (t t' : task) (p : jsstring) (fin : bool) :
  task_step frame t t' p fin -> char_ok (char t) -> char_ok (char t').
Proof. intros Hs Hok; inversion Hs; subst; auto. right. exists c. simpl. auto. Qed.

Lemma frame_steps_le (frame : Z) q q' out n :
  frame_steps frame q q' out n -> (n <= List.length q)%nat.
Proof. induction 1 as [|? ? ? [|] ? ? ? ? _ _ IH]; simpl; lia. Qed.

Lemma frame_steps_complete (frame : Z) q q' out n :
  frame_steps frame q q' out n ->
  (n = List.length q <-> Forall (fun t => (end_ t <= frame)%Z) q).
Proof.
  induction 1 as [|t t' p fin q q' out n Hs Hfs IH]; simpl.
  - split; auto.
  - rewrite Forall_cons_iff, <- phase_frozen_iff, <- (task_step_fin _ _ _ _ _ Hs).
    pose proof (frame_steps_le _ _ _ _ _ Hfs).
    destruct fin; [rewrite <- IH; intuition lia |].
    split; [lia | intros [? _]; discriminate].
Qed.

Lemma frame_steps_preserve (frame : Z) q q' out n :
  frame_steps frame q q' out n -> Forall (fun t => char_ok (char t)) q ->
  Forall (fun t => char_ok (char t)) q' /\ map task_fields q' = map task_fields q.
Proof.
  induction 1 as [|t t' p fin q q' out n Hs Hfs IH]; intros Hok; [auto |].
  inversion Hok as [|? ? Ht Hq]; subst. destruct (IH Hq) as [Hq' Hm].
  split; [constructor; eauto using task_step_char_ok |].
  simpl. now rewrite Hm, (task_step_fields _ _ _ _ _ Hs).
Qed.

Lemma fields_bounds (q q' : list task) :
  map task_fields q' = map task_fields q -> Forall task_bounds q -> Forall task_bounds q'.
Proof.
  revert q. induction q' as [|t' q' IH]; intros [|t q] Hm Hb; cbn [map] in Hm; try discriminate; auto.
  injection Hm as _ _ E3 E4 Hq. inversion Hb as [|? ? Hbt Hbq]; subst.
  constructor; [| now apply (IH q)].
  unfold task_bounds in *. now rewrite E3, E4.
Qed.

Lemma map_from_to_fields (q q' : list task) :
  map task_fields q' = map task_fields q -> map from q' = map from q /\ map to q' = map to q.
Proof.
  revert q. induction q' as [|t' q' IH]; intros [|t q] Hm; cbn [map] in Hm; try discriminate; auto.
  injection Hm as E1 E2 _ _ Hq. cbn [map]. destruct (IH q Hq) as [-> ->]. now rewrite E1, E2.
Qed.

Lemma max_end_fields (q q' : list task) :
  map task_fields q' = map task_fields q -> max_end q' = max_end q.
Proof.
  revert q. induction q' as [|t' q' IH]; intros [|t q] Hm; cbn [map] in Hm; try discriminate; auto.
  injection Hm as _ _ _ E4 Hq. simpl.
  now rewrite E4, (IH q Hq).
Qed.

Lemma max_end_nonneg (q : list task) : (0 <= max_end q)%Z.
Proof. induction q; simpl; lia. Qed.

Lemma max_end_frozen (q : list task) : Forall (fun t => (end_ t <= max_end q)%Z) q.
Proof.
  induction q as [|t q IH]; simpl; constructor; [lia |].
  eapply Forall_impl; [| exact IH]. simpl. lia.
Qed.

Lemma max_end_not_frozen (q : list task) (f : Z) :
  ~ Forall (fun t => (end_ t <= f)%Z) q -> (f < max_end q)%Z.
Proof.
  induction q as [|t q IH]; intros Hn; simpl; [now exfalso; apply Hn |].
  destruct (Z.le_gt_cases (end_ t) f) as [Hle | Hgt]; [| lia].
  assert (Hq : ~ Forall (fun t => (end_ t <= f)%Z) q) by (intros Hq; apply Hn; now constructor).
  specialize (IH Hq). lia.
Qed.

Lemma max_end_bounded (q : list task) : Forall task_bounds q -> (max_end q <= 78)%Z.
Proof.
  induction 1 as [|t q Ht _ IH]; simpl; [lia |]. unfold task_bounds in Ht. lia.
Qed.

Section FrameTheorems.
Context {R : Type} `{RandomSourceOk R}.

Lemma update_loop_frozen (frame : Z) (q : list task) (output : jsstring) (complete : nat) (g : R) :
  Forall (fun t => (end_ t <= frame)%Z) q ->
  update_loop frame q output complete g =
  ((q, output ++ concat (map to q), (complete + List.length q)%nat), g).
Proof.
  revert output complete. induction q as [|t q IH]; intros output complete Hq; simpl.
  - unfold st_ret. now rewrite app_nil_r, Nat.add_0_r.
  - inversion Hq as [|? ? Ht Hq']; subst. unfold update_task.
    destruct (Z.leb_spec (end_ t) frame) as [_ | Hlt]; [| lia].
    unfold st_bind, st_ret. rewrite IH by exact Hq'.
    now rewrite app_assoc, Nat.add_succ_r.
Qed.

Lemma update_loop_pending (frame : Z) (q : list task) (output : jsstring) (complete : nat) (g : R) :
  Forall (fun t => (frame < start t /\ frame < end_ t)%Z) q ->
  update_loop frame q output complete g = ((q, output ++ concat (map from q), complete), g).
Proof.
  revert output complete. induction q as [|t q IH]; intros output complete Hq; simpl.
  - unfold st_ret. now rewrite app_nil_r.
  - inversion Hq as [|? ? [Hs He] Hq']; subst. unfold update_task.
    destruct (Z.leb_spec (end_ t) frame) as [Hle | _]; [lia |].
    destruct (Z.leb_spec (start t) frame) as [Hle | _]; [lia |].
    unfold st_bind, st_ret. rewrite IH by exact Hq'. now rewrite app_assoc.
Qed.

Lemma update_frame_spec (frame : Z) (q q' : list task) (out : jsstring) (n : nat) (g g' : R) :
  Forall (fun t => char_ok (char t)) q ->
  update_frame frame q g = ((q', out, n), g') -> frame_steps frame q q' out n.
Proof.
  intros Hok E. pose proof (update_loop_steps frame q [] 0 Hok g) as Hs.
  unfold update_frame in E. rewrite E in Hs. cbn in Hs.
  destruct Hs as (o & m & Hfs & -> & ->). exact Hfs.
Qed.

(** [update] counts every task complete exactly when every task's
    [end] has been reached, so [complete === this.queue.length] holds
    exactly at those frames. *)
Theorem update_frame_complete_iff (frame : Z) (q : list task) (g : R) :
  Forall (fun t => char_ok (char t)) q ->
  (snd (fst (update_frame frame q g)) = List.length q <->
   Forall (fun t => (end_ t <= frame)%Z) q).
Proof.
  intros Hok. pose proof (update_frame_refines frame q g Hok) as Hfs.
  destruct (fst (update_frame frame q g)) as [[q' o] n].
  exact (frame_steps_complete _ _ _ _ _ Hfs).
Qed.

(** Once every task is frozen, [update] draws nothing, leaves the
    queue as it is, writes the concatenation of the targets, and counts
    every task complete. *)
Theorem update_frame_frozen (frame : Z) (q : list task) (g : R) :
  Forall (fun t => (end_ t <= frame)%Z) q ->
  update_frame frame q g = ((q, concat (map to q), List.length q), g).
Proof. intros Hq. unfold update_frame. now rewrite update_loop_frozen. Qed.

(** While no task has started, [update] draws nothing and writes the
    old characters ([from]) back. *)
Theorem update_frame_pending (frame : Z) (q : list task) (g : R) :
  Forall (fun t => (frame < start t /\ frame < end_ t)%Z) q ->
  update_frame frame q g = ((q, concat (map from q), 0%nat), g).
Proof. intros Hq. unfold update_frame. now rewrite update_loop_pending. Qed.

(** [update] keeps every task's [from], [to], [start] and [end], and
    every glyph it stores in [char] is one of [chars]. *)
Theorem update_frame_invariant (frame : Z) (q : list task) (g : R) :
  Forall (fun t => char_ok (char t)) q ->
  Forall (fun t => char_ok (char t)) (fst (fst (fst (update_frame frame q g)))) /\
  map task_fields (fst (fst (fst (update_frame frame q g)))) = map task_fields q.
Proof.
  intros Hok. pose proof (update_frame_refines frame q g Hok) as Hfs.
  destruct (fst (update_frame frame q g)) as [[q' o] n]. simpl.
  exact (frame_steps_preserve _ _ _ _ _ Hfs Hok).
Qed.

End FrameTheorems.

(** ** The theorems at concrete inputs (source: [park_miller] seeded with 7) *)

Lemma setText_queue_length_witness :
  List.length (fst (setText_queue (js "AB") (js "C") 7%Z)) = 2%nat.
Proof. exact (setText_queue_length (js "AB") (js "C") 7%Z). Defined.

Lemma setText_queue_bounds_witness :
  Forall task_bounds (fst (setText_queue (js "AB") (js "C") 7%Z)).
Proof. exact (setText_queue_bounds (js "AB") (js "C") 7%Z). Defined.

Lemma setText_queue_targets_witness :
  concat (map to (fst (setText_queue (js "Hello") (js "Design") 7%Z))) = js "Design".
Proof. exact (setText_queue_targets (js "Hello") (js "Design") 7%Z). Defined.

Lemma setText_queue_nth_witness :
  nth_error (fst (setText_queue (js "AB") (js "C") 7%Z)) 1 = Some (mk_task [66%Z] [] 11 19 None) /\
  (from (mk_task [66%Z] [] 11 19 None) = js_or_empty (js_at (js "AB") 1) /\
   to (mk_task [66%Z] [] 11 19 None) = js_or_empty (js_at (js "C") 1) /\
   char (mk_task [66%Z] [] 11 19 None) = None).
Proof.
  split; [vm_compute; reflexivity |].
  apply (setText_queue_nth (js "AB") (js "C") 7%Z 1). vm_compute. reflexivity.
Defined.

Lemma update_frame_refines_witness :
  Forall (fun t => char_ok (char t)) [mk_task [65%Z] [67%Z] 0 36 None; mk_task [66%Z] [] 11 19 None] /\
  let '(q', output, complete) :=
    fst (update_frame 15 [mk_task [65%Z] [67%Z] 0 36 None; mk_task [66%Z] [] 11 19 None] 3%Z) in
  frame_steps 15 [mk_task [65%Z] [67%Z] 0 36 None; mk_task [66%Z] [] 11 19 None] q' output complete.
Proof.
  assert (Hok : Forall (fun t => char_ok (char t))
                  [mk_task [65%Z] [67%Z] 0 36 None; mk_task [66%Z] [] 11 19 None])
    by (repeat constructor; left; reflexivity).
  split; [exact Hok | exact (update_frame_refines 15 _ 3%Z Hok)].
Defined.

Lemma update_frame_complete_iff_witness :
  Forall (fun t => char_ok (char t)) [mk_task [65%Z] [67%Z] 0 36 None; mk_task [66%Z] [] 11 19 None] /\
  (snd (fst (update_frame 40 [mk_task [65%Z] [67%Z] 0 36 None; mk_task [66%Z] [] 11 19 None] 3%Z)) =
     List.length [mk_task [65%Z] [67%Z] 0 36 None; mk_task [66%Z] [] 11 19 None] <->
   Forall (fun t => (end_ t <= 40)%Z) [mk_task [65%Z] [67%Z] 0 36 None; mk_task [66%Z] [] 11 19 None]).
Proof.
  assert (Hok : Forall (fun t => char_ok (char t))
                  [mk_task [65%Z] [67%Z] 0 36 None; mk_task [66%Z] [] 11 19 None])
    by (repeat constructor; left; reflexivity).
  split; [exact Hok | exact (update_frame_complete_iff 40 _ 3%Z Hok)].
Defined.

Lemma update_frame_frozen_witness :
  Forall (fun t => (end_ t <= 36)%Z) [mk_task [65%Z] [67%Z] 0 36 None; mk_task [66%Z] [] 11 19 None] /\
  update_frame 36 [mk_task [65%Z] [67%Z] 0 36 None; mk_task [66%Z] [] 11 19 None] 3%Z =
  (([mk_task [65%Z] [67%Z] 0 36 None; mk_task [66%Z] [] 11 19 None],
    concat (map to [mk_task [65%Z] [67%Z] 0 36 None; mk_task [66%Z] [] 11 19 None]),
    List.length [mk_task [65%Z] [67%Z] 0 36 None; mk_task [66%Z] [] 11 19 None]), 3%Z).
Proof.
  assert (Hq : Forall (fun t => (end_ t <= 36)%Z)
                 [mk_task [65%Z] [67%Z] 0 36 None; mk_task [66%Z] [] 11 19 None])
    by (repeat constructor; simpl; lia).
  split; [exact Hq | exact (update_frame_frozen 36 _ 3%Z Hq)].
Defined.

Lemma update_frame_pending_witness :
  Forall (fun t => (2 < start t /\ 2 < end_ t)%Z) [mk_task [65%Z] [67%Z] 3 10 None; mk_task [66%Z] [] 5 8 None] /\
  update_frame 2 [mk_task [65%Z] [67%Z] 3 10 None; mk_task [66%Z] [] 5 8 None] 3%Z =
  (([mk_task [65%Z] [67%Z] 3 10 None; mk_task [66%Z] [] 5 8 None],
    concat (map from [mk_task [65%Z] [67%Z] 3 10 None; mk_task [66%Z] [] 5 8 None]), 0%nat), 3%Z).
Proof.
  assert (Hq : Forall (fun t => (2 < start t /\ 2 < end_ t)%Z)
                 [mk_task [65%Z] [67%Z] 3 10 None; mk_task [66%Z] [] 5 8 None])
    by (repeat constructor; simpl; lia).
  split; [exact Hq | exact (update_frame_pending 2 _ 3%Z Hq)].
Defined.

Lemma update_frame_invariant_witness :
  Forall (fun t => char_ok (char t)) [mk_task [65%Z] [67%Z] 0 36 None; mk_task [66%Z] [] 11 19 None] /\
  Forall (fun t => char_ok (char t))
    (fst (fst (fst (update_frame 15 [mk_task [65%Z] [67%Z] 0 36 None; mk_task [66%Z] [] 11 19 None] 3%Z)))) /\
  map task_fields
    (fst (fst (fst (update_frame 15 [mk_task [65%Z] [67%Z] 0 36 None; mk_task [66%Z] [] 11 19 None] 3%Z)))) =
  map task_fields [mk_task [65%Z] [67%Z] 0 36 None; mk_task [66%Z] [] 11 19 None].
Proof.
  assert (Hok : Forall (fun t => char_ok (char t))
                  [mk_task [65%Z] [67%Z] 0 36 None; mk_task [66%Z] [] 11 19 None])
    by (repeat constructor; left; reflexivity).
  split; [exact Hok | exact (update_frame_invariant 15 _ 3%Z Hok)].
Defined.

End TextScramble.
