(* ===== verification/ScrambleDoc.v ===== *)
(** * The design document's text scramble ([TextScramble], section 4.3,
      src/unnamed/part_000)

    The document's class builds its queue with the same loop as the
    shipped one ([Scramble.v]) and renders a frame with the same loop,
    but draws its glyphs from a longer set, ['!<>-_\\/[]{}—=+*^?#'] followed
    by eight underscores.  The queue and the frame are modelled as in
    [Scramble.v], against any [RandomSource]; the theorem is a simulation:
    given the same draws, the document's [update] keeps the same task
    fields, draws the same number of values, counts the same completed
    tasks and writes the same text wherever no task is mid-scramble. *)

From Stdlib Require Import String ZArith QArith Qround List Lia.
From S2P Require Import Prelude Scramble.
Import ListNotations.

Module ScrambleDoc.

Import TextScramble.

(** [this.chars = '!<>-_\\/[]{}—=+*^?#________']. *)
Definition chars : jsstring := js "!<>-_\/[]{}" ++ [8212%Z] ++ js "=+*^?#________".

Section WithRandom.
Context {R : Type} `{RandomSource R}.

(** [setText]'s queue: [Math.max] of the lengths, two draws per
    position, [start] first. *)
Definition setText_queue (oldText newText : jsstring) : St R (list task) :=
  build_queue oldText newText 0 (Nat.max (List.length oldText) (List.length newText)).

(** [this.chars[Math.floor(Math.random() * this.chars.length)]]. *)
Definition random_char : St R (option jsstring) :=
  k <- random_floor (Z.of_nat (List.length chars)) ;;
  ret (js_at_z chars k).

(** One iteration of [update]'s loop. *)
Definition update_task (frame : Z) (t : task) : St R (task * jsstring * bool) :=
  if (end_ t <=? frame)%Z then ret (t, to t, true)
  else if (start t <=? frame)%Z then
    redraw <- (if js_falsy (char t) then ret true
               else r <- random ;;
                    ret (if Qlt_le_dec r (28 # 100) then true else false)) ;;
    if redraw then
      c <- random_char ;;
      ret (set_char t c, scramble_span c, false)
    else ret (t, scramble_span (char t), false)
  else ret (t, from t, false).

Fixpoint update_loop (frame : Z) (q : list task) (output : jsstring) (complete : nat)
  : St R (list task * jsstring * nat) :=
  match q with
  | [] => ret ([], output, complete)
  | t :: q' =>
      r <- update_task frame t ;;
      let '(t', piece, fin) := r in
      rest <- update_loop frame q' (output ++ piece) (if fin then S complete else complete) ;;
      let '(q'', out, cmp) := rest in
      ret (t' :: q'', out, cmp)
  end.

(** [update()]'s loop, from [output = ''] and [complete = 0]. *)
Definition update_frame (frame : Z) (q : list task) : St R (list task * jsstring * nat) :=
  update_loop frame q [] 0.

(** The frames of a session: [update] at frames [frame], [frame + 1],
    ..., each on the queue the previous one left, with the text it writes
    and the number of tasks it counts complete ([update] requests the
    next frame while that number is below the queue's length). *)
Fixpoint frame_trace (upd : Z -> list task -> St R (list task * jsstring * nat)) (n : nat) (frame : Z)
  (q : list task) : St R (list (jsstring * nat)) :=
  match n with
  | O => ret []
  | S k =>
      r <- upd frame q ;;
      let '(q', out, cmp) := r in
      rest <- frame_trace upd k (frame + 1)%Z q' ;;
      ret ((out, cmp) :: rest)
  end.

End WithRandom.

(** Two tasks the two classes can hold at the same point of a session:
    the same fields, and a glyph in both or in neither. *)
Definition similar (t1 t2 : task) : Prop :=
  task_fields t1 = task_fields t2 /\ js_falsy (char t1) = js_falsy (char t2).

(** ** Lemmas *)

Section Props.
Context {R : Type} `{RandomSourceOk R}.

(** A draw from a non-empty glyph set is a one-unit string. *)
Lemma glyph_truthy (s : jsstring) (r : Q) :
  0 <= r -> r < 1 -> (0 < List.length s)%nat ->
  js_falsy (js_at_z s (Qfloor (r * inject_Z (Z.of_nat (List.length s))))) = false.
Proof.
  intros Hr0 Hr1 Hs. pose proof (qfloor_mul_bound r (Z.of_nat (List.length s)) Hr0 Hr1 ltac:(lia)) as Hk.
  unfold js_at_z. destruct (Z.ltb_spec (Qfloor (r * inject_Z (Z.of_nat (List.length s)))) 0) as [Hn | _]; [lia |].
  destruct (js_at_length s (Z.to_nat (Qfloor (r * inject_Z (Z.of_nat (List.length s)))))) as (c & _ & ->); [lia |].
  reflexivity.
Qed.

Lemma random_chars_truthy (g : R) :
  snd (random_char g) = snd (TextScramble.random_char g) /\
  js_falsy (fst (random_char g)) = false /\ js_falsy (fst (TextScramble.random_char g)) = false.
Proof.
  unfold random_char, TextScramble.random_char, random_floor. st_unfold.
  pose proof (math_random_range g) as [Hr0 Hr1]. destruct (math_random g) as [r g']. cbn [fst snd] in *.
  split; [reflexivity | split; apply glyph_truthy; auto; cbv; lia].
Qed.

Ltac sim_glyph g :=
  let Eg := fresh "Eg" in let E1 := fresh "E1" in let E2 := fresh "E2" in
  destruct (random_chars_truthy g) as (Eg & E1 & E2);
  destruct (random_char g), (TextScramble.random_char g); cbn in *;
  unfold similar, task_fields; cbn; rewrite ?E1, ?E2; subst; tauto.

(** One task, one frame: the same draws, similar tasks after, the same
    completion, and the same piece of text unless the task is
    mid-scramble. *)
Lemma update_task_sim (frame : Z) (t1 t2 : task) (g : R) :
  similar t1 t2 ->
  snd (update_task frame t1 g) = snd (TextScramble.update_task frame t2 g) /\
  similar (fst (fst (fst (update_task frame t1 g)))) (fst (fst (fst (TextScramble.update_task frame t2 g)))) /\
  snd (fst (update_task frame t1 g)) = snd (fst (TextScramble.update_task frame t2 g)) /\
  (phase_at frame t1 <> Resolving ->
     snd (fst (fst (update_task frame t1 g))) = snd (fst (fst (TextScramble.update_task frame t2 g)))).
Proof.
  destruct t1 as [f1 to1 s1 e1 c1], t2 as [f2 to2 s2 e2 c2]. unfold similar, task_fields. cbn.
  intros [Hf Hc]. injection Hf as <- <- <- <-.
  unfold update_task, TextScramble.update_task, phase_at. cbn [end_ start to from char].
  destruct (e1 <=? frame)%Z eqn:E; [cbn; auto |]. destruct (s1 <=? frame)%Z eqn:S; [| cbn; auto].
  assert (Hr : phase_at frame (mk_task f1 to1 s1 e1 c1) <> Resolving -> False)
    by (unfold phase_at; cbn [end_ start]; rewrite E, S; auto).
  rewrite <- Hc. st_unfold. destruct (js_falsy c1) eqn:Ec; [sim_glyph g |].
  unfold random. destruct (math_random g) as [r g']. cbn [fst snd].
  destruct (Qlt_le_dec r (28 # 100)); [sim_glyph g' |].
  cbn. unfold similar, task_fields. cbn. rewrite Ec, <- Hc. tauto.
Qed.

Lemma update_loop_sim (frame : Z) (q1 q2 : list task) (out1 out2 : jsstring) (n : nat) (g : R) :
  Forall2 similar q1 q2 ->
  snd (update_loop frame q1 out1 n g) = snd (TextScramble.update_loop frame q2 out2 n g) /\
  Forall2 similar (fst (fst (fst (update_loop frame q1 out1 n g))))
                  (fst (fst (fst (TextScramble.update_loop frame q2 out2 n g)))) /\
  snd (fst (update_loop frame q1 out1 n g)) = snd (fst (TextScramble.update_loop frame q2 out2 n g)) /\
  (Forall (fun t => phase_at frame t <> Resolving) q1 -> out1 = out2 ->
     snd (fst (fst (update_loop frame q1 out1 n g))) = snd (fst (fst (TextScramble.update_loop frame q2 out2 n g)))).
Proof.
  intros Hq. revert out1 out2 n g. induction Hq as [|t1 t2 q1 q2 Ht Hq IH]; intros out1 out2 n g.
  - cbn. repeat split; [constructor | intros _ ->; reflexivity].
  - cbn [update_loop TextScramble.update_loop]. st_unfold.
    destruct (update_task_sim frame t1 t2 g Ht) as (Eg & Hs & Ef & Ep).
    destruct (update_task frame t1 g) as [[[t1' p1] f1] g1], (TextScramble.update_task frame t2 g) as [[[t2' p2] f2] g2].
    cbn [fst snd] in *. subst g2 f2.
    destruct (IH (out1 ++ p1) (out2 ++ p2) (if f1 then S n else n) g1) as (Eg' & Hs' & Ef' & Ep').
    destruct (update_loop frame q1 (out1 ++ p1) (if f1 then S n else n) g1) as [[[q1' o1] c1] g1'],
             (TextScramble.update_loop frame q2 (out2 ++ p2) (if f1 then S n else n) g1) as [[[q2' o2] c2] g2'].
    cbn [fst snd] in *. split; [exact Eg' | split; [constructor; assumption | split; [exact Ef' |]]].
    intros Hr ->. inversion Hr as [|? ? Hr1 Hr2]; subst. apply Ep'; [exact Hr2 | now rewrite Ep].
Qed.

Lemma similar_refl (t : task) : similar t t.
Proof. split; reflexivity. Qed.

Lemma frame_trace_sim (n : nat) (frame : Z) (q1 q2 : list task) (g : R) :
  Forall2 similar q1 q2 ->
  snd (frame_trace update_frame n frame q1 g) = snd (frame_trace TextScramble.update_frame n frame q2 g) /\
  map snd (fst (frame_trace update_frame n frame q1 g)) =
    map snd (fst (frame_trace TextScramble.update_frame n frame q2 g)).
Proof.
  revert frame q1 q2 g. induction n as [|n IH]; intros frame q1 q2 g Hq; [split; reflexivity |].
  cbn [frame_trace]. st_unfold.
  destruct (update_loop_sim frame q1 q2 [] [] 0 g Hq) as (Eg & Hs & Ec & _).
  change (update_loop frame q1 [] 0 g) with (update_frame frame q1 g) in *.
  change (TextScramble.update_loop frame q2 [] 0 g) with (TextScramble.update_frame frame q2 g) in *.
  destruct (update_frame frame q1 g) as [[[q1' o1] c1] g1],
           (TextScramble.update_frame frame q2 g) as [[[q2' o2] c2] g2].
  cbn [fst snd] in *. subst g2 c2.
  destruct (IH (frame + 1)%Z q1' q2' g1 Hs) as [Eg' Ec'].
  destruct (frame_trace update_frame n (frame + 1)%Z q1' g1),
           (frame_trace TextScramble.update_frame n (frame + 1)%Z q2' g1).
  cbn in *. split; [exact Eg' | now rewrite Ec'].
Qed.

Lemma similar_diag (q : list task) : Forall2 similar q q.
Proof. induction q as [|t q IH]; constructor; [apply similar_refl | exact IH]. Qed.

(** ** Properties *)

(** C9: a session of the document's [TextScramble] and one of the
    shipped class, started by [setText] from the same draws, count the
    same completed tasks at every frame and consume the same draws: the
    document's session resolves its promise at exactly the frame the
    shipped one does, only the glyphs shown in between differ. *)
Theorem session_matches_implementation (oldText newText : jsstring) (n : nat) (g : R) :
  let q := fst (setText_queue oldText newText g) in
  let g1 := snd (setText_queue oldText newText g) in
  map snd (fst (frame_trace update_frame n 0 q g1)) =
    map snd (fst (frame_trace TextScramble.update_frame n 0 (fst (TextScramble.setText_queue oldText newText g))
                              (snd (TextScramble.setText_queue oldText newText g)))) /\
  snd (frame_trace update_frame n 0 q g1) =
    snd (frame_trace TextScramble.update_frame n 0 (fst (TextScramble.setText_queue oldText newText g))
                     (snd (TextScramble.setText_queue oldText newText g))).
Proof.
  cbv zeta. change (TextScramble.setText_queue oldText newText g) with (setText_queue oldText newText g).
  destruct (frame_trace_sim n 0 _ _ (snd (setText_queue oldText newText g)) (similar_diag (fst (setText_queue oldText newText g))))
    as [E1 E2].
  split; [exact E2 | exact E1].
Qed.

End Props.

(** The document's glyph set draws an underscore 9 times in 26, the
    shipped one once in 18. *)
Example underscore_weight :
  count_occ Z.eq_dec chars 95%Z = 9%nat /\ List.length chars = 26%nat /\
  count_occ Z.eq_dec TextScramble.chars 95%Z = 1%nat /\ List.length TextScramble.chars = 18%nat.
Proof. repeat split; reflexivity. Qed.

(** ** The theorem at a concrete input *)

Lemma session_matches_implementation_witness :
  let q := fst (setText_queue (R := Z) (js "ab") (js "cd") 42%Z) in
  let g1 := snd (setText_queue (R := Z) (js "ab") (js "cd") 42%Z) in
  map snd (fst (frame_trace update_frame 40 0 q g1)) =
    map snd (fst (frame_trace TextScramble.update_frame 40 0 (fst (TextScramble.setText_queue (js "ab") (js "cd") 42%Z))
                              (snd (TextScramble.setText_queue (js "ab") (js "cd") 42%Z)))) /\
  snd (frame_trace update_frame 40 0 q g1) =
    snd (frame_trace TextScramble.update_frame 40 0 (fst (TextScramble.setText_queue (js "ab") (js "cd") 42%Z))
                     (snd (TextScramble.setText_queue (js "ab") (js "cd") 42%Z))).
Proof. exact (session_matches_implementation (js "ab") (js "cd") 40 42%Z). Defined.

End ScrambleDoc.
