(* ===== verification/Runtime.v ===== *)
(** * The kinetic text engine in its event loop (src/unnamed/part_001)

    The host the module runs in: animation-frame callbacks
    ([requestAnimationFrame], [cancelAnimationFrame]), promises with
    their reaction jobs and the microtask checkpoint, timers
    ([setTimeout], [clearTimeout]) and a millisecond clock, and uncaught
    exceptions reported by the loop.  On it, the methods of
    [TextScramble] ([setText], [update]) and [WordRotator] ([next],
    [start], [stop], the constructor), and the events that drive them.
    One element with its scrambler, and at most one rotator owning that
    scrambler, as in [initKineticText]. *)

From Stdlib Require Import String ZArith QArith List Lia.
From S2P Require Import Prelude Scramble.
Import ListNotations.
Import TextScramble.

Module Runtime.

(** ** A concrete HTML reading for runs on concrete inputs

    [textContent] of the markup [update] writes when the texts contain
    neither [<] nor [&]: the scramble spans' tags are dropped. *)
Definition span_open : jsstring := js "<span class=" ++ [34%Z] ++ js "scramble-char" ++ [34%Z] ++ js ">".
Definition span_close : jsstring := js "</span>".

Fixpoint is_prefix (p s : jsstring) : bool :=
  match p, s with
  | [], _ => true
  | a :: p', b :: s' => Z.eqb a b && is_prefix p' s'
  | _ :: _, [] => false
  end.

Fixpoint strip_spans_fuel (fuel : nat) (s : jsstring) : jsstring :=
  match fuel with
  | O => s
  | S fuel' =>
      match s with
      | [] => []
      | c :: s' =>
          if is_prefix span_open s then strip_spans_fuel fuel' (skipn (List.length span_open) s)
          else if is_prefix span_close s then strip_spans_fuel fuel' (skipn (List.length span_close) s)
          else c :: strip_spans_fuel fuel' s'
      end
  end.

Definition strip_spans (s : jsstring) : jsstring := strip_spans_fuel (List.length s) s.


Section Host.
Context {R : Type} `{RandomSource R}.

(** [el.textContent] of an element whose [innerHTML] is the argument:
    the browser's HTML parser. *)
Variable text_content : jsstring -> jsstring.

(** The fields of a [TextScramble] instance. *)
Record scrambler := mk_scrambler {
  queue : list task;
  frame : Z;
  frameRequest : option nat;
  resolve : option nat   (* the resolver of promise number n, or null *)
}.

(** The fields of a [WordRotator] instance ([options.interval] inlined). *)
Record rotator := mk_rotator {
  words : list jsstring;
  interval : Z;
  currentIndex : nat;
  timeoutId : option nat
}.

(** The one reaction the module attaches to a promise:
    [() => { this.timeoutId = setTimeout(() => this.next(), interval) }]. *)
Inductive reaction := ReactNext.

Record promise := mk_promise { fulfilled : bool; reactions : list reaction }.

(** The exceptions the module can throw: reading [newText.length] of
    [undefined], and calling [this.resolve] while it is [null]. *)
Inductive js_error := ReadLengthOfUndefined | CallNotAFunction.

(** The world: the element, the scrambler, the rotator, the host's
    queues and the random source.  [frames] holds the pending animation
    frame handles (each runs [this.update]); [timers] the pending
    timeouts as (handle, due time) (each runs [this.next()]); [jobs] the
    microtask queue; [promises] the promises by number. *)
Record world := mk_world {
  el : jsstring;
  sc : scrambler;
  rot : option rotator;
  frames : list nat;
  timers : list (nat * Z);
  jobs : list reaction;
  promises : list promise;
  next_handle : nat;
  now : Z;
  rng : R;
  errors : list js_error
}.

Definition M (A : Type) := Exc world js_error A.

(** ** Field updates *)

Definition set_el (w : world) (x : jsstring) : world :=
  mk_world x (sc w) (rot w) (frames w) (timers w) (jobs w) (promises w) (next_handle w) (now w) (rng w) (errors w).
Definition set_sc (w : world) (x : scrambler) : world :=
  mk_world (el w) x (rot w) (frames w) (timers w) (jobs w) (promises w) (next_handle w) (now w) (rng w) (errors w).
Definition set_rot (w : world) (x : option rotator) : world :=
  mk_world (el w) (sc w) x (frames w) (timers w) (jobs w) (promises w) (next_handle w) (now w) (rng w) (errors w).
Definition set_frames (w : world) (x : list nat) : world :=
  mk_world (el w) (sc w) (rot w) x (timers w) (jobs w) (promises w) (next_handle w) (now w) (rng w) (errors w).
Definition set_timers (w : world) (x : list (nat * Z)) : world :=
  mk_world (el w) (sc w) (rot w) (frames w) x (jobs w) (promises w) (next_handle w) (now w) (rng w) (errors w).
Definition set_jobs (w : world) (x : list reaction) : world :=
  mk_world (el w) (sc w) (rot w) (frames w) (timers w) x (promises w) (next_handle w) (now w) (rng w) (errors w).
Definition set_promises (w : world) (x : list promise) : world :=
  mk_world (el w) (sc w) (rot w) (frames w) (timers w) (jobs w) x (next_handle w) (now w) (rng w) (errors w).
Definition set_next_handle (w : world) (x : nat) : world :=
  mk_world (el w) (sc w) (rot w) (frames w) (timers w) (jobs w) (promises w) x (now w) (rng w) (errors w).
Definition set_now (w : world) (x : Z) : world :=
  mk_world (el w) (sc w) (rot w) (frames w) (timers w) (jobs w) (promises w) (next_handle w) x (rng w) (errors w).
Definition set_rng (w : world) (x : R) : world :=
  mk_world (el w) (sc w) (rot w) (frames w) (timers w) (jobs w) (promises w) (next_handle w) (now w) x (errors w).
Definition set_errors (w : world) (x : list js_error) : world :=
  mk_world (el w) (sc w) (rot w) (frames w) (timers w) (jobs w) (promises w) (next_handle w) (now w) (rng w) x.

Definition with_queue (s : scrambler) (q : list task) : scrambler :=
  mk_scrambler q (frame s) (frameRequest s) (resolve s).
Definition with_frame (s : scrambler) (f : Z) : scrambler :=
  mk_scrambler (queue s) f (frameRequest s) (resolve s).
Definition with_frameRequest (s : scrambler) (h : option nat) : scrambler :=
  mk_scrambler (queue s) (frame s) h (resolve s).
Definition with_resolve (s : scrambler) (p : option nat) : scrambler :=
  mk_scrambler (queue s) (frame s) (frameRequest s) p.
Definition with_currentIndex (r : rotator) (i : nat) : rotator :=
  mk_rotator (words r) (interval r) i (timeoutId r).
Definition with_timeoutId (r : rotator) (h : option nat) : rotator :=
  mk_rotator (words r) (interval r) (currentIndex r) h.

Definition modify_sc (f : scrambler -> scrambler) : M unit :=
  exc_modify (fun w => set_sc w (f (sc w))).
Definition modify_rot (f : rotator -> rotator) : M unit :=
  exc_modify (fun w => set_rot w (option_map f (rot w))).

(** ** Host primitives *)

Definition requestAnimationFrame : M nat :=
  fun w => Ret (next_handle w)
                (set_next_handle (set_frames w (frames w ++ [next_handle w])) (S (next_handle w))).

Definition remove_handle (h : nat) (l : list nat) : list nat :=
  filter (fun x => negb (Nat.eqb x h)) l.

(** [cancelAnimationFrame(h)]; [null] cancels nothing. *)
Definition cancelAnimationFrame (h : option nat) : M unit :=
  match h with
  | None => exc_ret tt
  | Some h => exc_modify (fun w => set_frames w (remove_handle h (frames w)))
  end.

(** [setTimeout(cb, delay)]: a negative delay counts as 0. *)
Definition setTimeout (delay : Z) : M nat :=
  fun w => Ret (next_handle w)
                (set_next_handle (set_timers w (timers w ++ [(next_handle w, now w + Z.max 0 delay)%Z]))
                   (S (next_handle w))).

Definition clearTimeout (h : option nat) : M unit :=
  match h with
  | None => exc_ret tt
  | Some h => exc_modify (fun w => set_timers w (filter (fun t => negb (Nat.eqb (fst t) h)) (timers w)))
  end.

(** [new Promise(resolve => this.resolve = resolve)]: a pending promise. *)
Definition new_promise : M nat :=
  fun w => Ret (List.length (promises w)) (set_promises w (promises w ++ [mk_promise false []])).

(** Calling a promise's resolver: a pending promise is fulfilled and its
    reactions are queued as jobs; a settled one is left as it is. *)
Definition resolve_promise (p : nat) : M unit :=
  fun w => match nth_error (promises w) p with
           | Some (mk_promise false rs) =>
               Ret tt (set_jobs (set_promises w (list_set (promises w) p (mk_promise true [])))
                         (jobs w ++ rs))
           | _ => Ret tt w
           end.

(** [promise.then(r)]: queued at once on a fulfilled promise. *)
Definition then_ (p : nat) (r : reaction) : M unit :=
  fun w => match nth_error (promises w) p with
           | Some (mk_promise true _) => Ret tt (set_jobs w (jobs w ++ [r]))
           | Some (mk_promise false rs) =>
               Ret tt (set_promises w (list_set (promises w) p (mk_promise false (rs ++ [r]))))
           | None => Ret tt w
           end.

(** Running [Math.random]-using code on the world's random source. *)
Definition with_rng {A} (m : St R A) : M A :=
  fun w => let (a, g) := m (rng w) in Ret a (set_rng w g).

(** ** [TextScramble] *)

(** [update()]: render one frame, then either fulfil the session's
    promise or schedule the next frame. *)
Definition update : M unit :=
  let* w := exc_get in
  let s := sc w in
  let* r := with_rng (update_frame (frame s) (queue s)) in
  let '(q', output, complete) := r in
  exc_modify (fun w => set_el (set_sc w (with_queue (sc w) q')) output) ;;;
  if Nat.eqb complete (List.length q') then
    match resolve s with
    | Some p => resolve_promise p
    | None => exc_throw CallNotAFunction
    end
  else
    let* h := requestAnimationFrame in
    modify_sc (fun s => with_frame (with_frameRequest s (Some h)) (frame s + 1)%Z).

(** [setText(newText)]; [newText] is [undefined] when a rotator indexes
    past its words. *)
Definition setText (newText : option jsstring) : M nat :=
  let* w := exc_get in
  let oldText := text_content (el w) in
  match newText with
  | None => exc_throw ReadLengthOfUndefined
  | Some nt =>
      let* p := new_promise in
      modify_sc (fun s => with_resolve s (Some p)) ;;;
      let* q := with_rng (setText_queue oldText nt) in
      modify_sc (fun s => with_queue s q) ;;;
      let* w := exc_get in
      cancelAnimationFrame (frameRequest (sc w)) ;;;
      modify_sc (fun s => with_frame s 0%Z) ;;;
      update ;;;
      exc_ret p
  end.

(** ** [WordRotator] *)

(** [next()]: start the transition to the current word, chain the next
    step on its promise, and advance the index at once. *)
Definition next : M unit :=
  let* w := exc_get in
  match rot w with
  | None => exc_ret tt
  | Some r =>
      let* p := setText (nth_error (words r) (currentIndex r)) in
      then_ p ReactNext ;;;
      modify_rot (fun r => with_currentIndex r (Nat.modulo (currentIndex r + 1) (List.length (words r))))
  end.

Definition start : M unit := next.

(** [stop()]: [clearTimeout(this.timeoutId)]. *)
Definition stop : M unit :=
  let* w := exc_get in
  match rot w with
  | None => exc_ret tt
  | Some r => clearTimeout (timeoutId r)
  end.

(** The reaction job [() => { this.timeoutId = setTimeout(...) }]. *)
Definition run_reaction (x : reaction) : M unit :=
  match x with
  | ReactNext =>
      let* w := exc_get in
      match rot w with
      | None => exc_ret tt
      | Some r =>
          let* h := setTimeout (interval r) in
          modify_rot (fun r => with_timeoutId r (Some h))
      end
  end.

Definition fresh_scrambler : scrambler := mk_scrambler [] 0%Z None None.

(** [new WordRotator(element, words, options)]: [interval] defaults to
    3000, a fresh [TextScramble] on the element, then [this.start()]. *)
Definition WordRotator_new (ws : list jsstring) (options_interval : option Z) : M unit :=
  exc_modify (fun w =>
    set_sc (set_rot w (Some (mk_rotator ws (match options_interval with
                                            | Some i => i
                                            | None => 3000%Z
                                            end) 0 None)))
           fresh_scrambler) ;;;
  start.

(** ** The event loop *)

(** A task: an uncaught exception is reported and the task's earlier
    effects are kept. *)
Definition run_task (m : M unit) (w : world) : world :=
  match m w with
  | Ret _ w' => w'
  | Throw e w' => set_errors w' (errors w' ++ [e])
  end.

(** The microtask checkpoint: run the queued jobs in order (a job of this
    module queues no further job). *)
Definition checkpoint (w : world) : world :=
  fold_left (fun w x => run_task (run_reaction x) w) (jobs w) (set_jobs w []).

Definition callback (m : M unit) (w : world) : world := checkpoint (run_task m w).

(** One animation frame: each callback registered before the frame runs
    unless it was cancelled meanwhile; each one is [this.update]. *)
Definition run_frame_handle (w : world) (h : nat) : world :=
  if existsb (Nat.eqb h) (frames w)
  then callback update (set_frames w (remove_handle h (frames w)))
  else w.

Definition run_frame (w : world) : world := fold_left run_frame_handle (frames w) w.

(** The timer due first (the earliest registered among equals). *)
Fixpoint earliest (ts : list (nat * Z)) : option (nat * Z) :=
  match ts with
  | [] => None
  | t :: ts' =>
      match earliest ts' with
      | Some t' => if (snd t' <? snd t)%Z then Some t' else Some t
      | None => Some t
      end
  end.

(** The clock moves to the due time of the timer that fires; its
    callback is [() => this.next()]. *)
Definition run_timer (w : world) : world :=
  match earliest (timers w) with
  | None => w
  | Some (h, due) =>
      callback next (set_now (set_timers w (filter (fun t => negb (Nat.eqb (fst t) h)) (timers w)))
                       (Z.max (now w) due))
  end.

(** What can happen next: a display frame, a timer, or a script calling
    [setText], [start] or [stop]. *)
Inductive event := EvFrame | EvTimer | EvSetText (s : jsstring) | EvStart | EvStop.

Definition run_event (ev : event) (w : world) : world :=
  match ev with
  | EvFrame => run_frame w
  | EvTimer => run_timer w
  | EvSetText s => callback (let* _ := setText (Some s) in exc_ret tt) w
  | EvStart => callback start w
  | EvStop => callback stop w
  end.

Definition run_events (evs : list event) (w : world) : world :=
  fold_left (fun w ev => run_event ev w) evs w.

(** An element showing [content] with a fresh [TextScramble]. *)
Definition init_world (content : jsstring) (g : R) : world :=
  mk_world content fresh_scrambler None [] [] [] [] 1 0%Z g [].

(** An element on which [new WordRotator(el, ws, options)] ran. *)
Definition init_rotator (content : jsstring) (ws : list jsstring) (iv : option Z) (g : R) : world :=
  callback (WordRotator_new ws iv) (init_world content g).

(** The worlds the program can reach. *)
Inductive reachable : world -> Prop :=
| reach_scrambler content g : reachable (init_world content g)
| reach_rotator content ws iv g : reachable (init_rotator content ws iv g)
| reach_step w ev : reachable w -> reachable (run_event ev w).

(** ** Invariant of the reachable worlds *)

(** The promise of the session in progress or last run. *)
Definition current_promise (w : world) : option promise :=
  match resolve (sc w) with
  | Some p => nth_error (promises w) p
  | None => None
  end.

Definition pending (w : world) (p : nat) : Prop :=
  exists rs, nth_error (promises w) p = Some (mk_promise false rs).

Record inv (w : world) : Prop := {
  (* between events the microtask queue is empty *)
  inv_jobs : jobs w = [];
  (* [this.resolve] is null before the first [setText], then the
     resolver of the last promise created *)
  inv_current : (resolve (sc w) = None /\ promises w = []) \/
                (promises w <> [] /\ resolve (sc w) = Some (pred (List.length (promises w))));
  (* at most one frame callback, and it is [this.frameRequest] *)
  inv_frames : frames w = [] \/ exists h, frames w = [h] /\ frameRequest (sc w) = Some h;
  (* a frame callback is pending exactly while the session's promise is *)
  inv_flight : frames w <> [] <-> exists p, resolve (sc w) = Some p /\ pending w p;
  inv_bounds : Forall task_bounds (queue (sc w));
  inv_chars : Forall (fun t => char_ok (char t)) (queue (sc w));
  inv_frame : frames w <> [] -> (1 <= frame (sc w) <= max_end (queue (sc w)))%Z;
  inv_index : forall r, rot w = Some r ->
                words r = [] \/ (currentIndex r < List.length (words r))%nat;
  inv_errors : Forall (eq ReadLengthOfUndefined) (errors w) /\
               (errors w <> [] -> exists r, rot w = Some r /\ words r = [])
}.

(** Two worlds that differ at most in the timers, the handle counter, the
    rotator's [timeoutId] and the job queue. *)
Definition same_core (w w' : world) : Prop :=
  el w' = el w /\ sc w' = sc w /\ frames w' = frames w /\ promises w' = promises w /\
  errors w' = errors w /\ rng w' = rng w /\
  option_map (fun r => (words r, interval r, currentIndex r)) (rot w') =
  option_map (fun r => (words r, interval r, currentIndex r)) (rot w).

(** The world after [requestAnimationFrame(this.update); this.frame++]. *)
Definition scheduled (w : world) : world :=
  set_sc (set_next_handle (set_frames w (frames w ++ [next_handle w])) (S (next_handle w)))
    (with_frame (with_frameRequest (sc w) (Some (next_handle w))) (frame (sc w) + 1)%Z).

(** The world [update] leaves once it has written a frame. *)
Definition written (w : world) (q : list task) (out : jsstring) (g : R) : world :=
  set_el (set_sc (set_rng w g) (with_queue (sc w) q)) out.

Context `{!RandomSourceOk R}.

(** ** Equations of the methods *)

Lemma update_eq (w : world) (q' : list task) (out : jsstring) (n : nat) (g' : R) :
  update_frame (frame (sc w)) (queue (sc w)) (rng w) = ((q', out, n), g') ->
  update w = if Nat.eqb n (List.length q') then
               match resolve (sc w) with
               | Some p => resolve_promise p (written w q' out g')
               | None => Throw CallNotAFunction (written w q' out g')
               end
             else Ret tt (scheduled (written w q' out g')).
Proof.
  intros E. unfold update, with_rng, exc_bind, exc_get, exc_modify, modify_sc.
  rewrite E. destruct (Nat.eqb n _); [destruct (resolve (sc w)); reflexivity | reflexivity].
Qed.

Lemma resolve_pending_eq (w : world) (p : nat) (rs : list reaction) :
  nth_error (promises w) p = Some (mk_promise false rs) ->
  resolve_promise p w =
  Ret tt (set_jobs (set_promises w (list_set (promises w) p (mk_promise true []))) (jobs w ++ rs)).
Proof. intros E. unfold resolve_promise. now rewrite E. Qed.

Lemma same_core_refl (w : world) : same_core w w.
Proof. repeat split. Qed.

Lemma same_core_trans (w1 w2 w3 : world) : same_core w1 w2 -> same_core w2 w3 -> same_core w1 w3.
Proof. unfold same_core. intuition congruence. Qed.

Lemma run_reaction_core (x : reaction) (w : world) :
  same_core w (run_task (run_reaction x) w) /\ jobs (run_task (run_reaction x) w) = jobs w.
Proof.
  destruct x. unfold run_task, run_reaction, exc_bind, exc_get, exc_ret, setTimeout, modify_rot, exc_modify.
  destruct (rot w) as [r|] eqn:Hr; cbn; unfold same_core; cbn; rewrite ?Hr; repeat split.
Qed.

Lemma checkpoint_core (w : world) : same_core w (checkpoint w) /\ jobs (checkpoint w) = [].
Proof.
  unfold checkpoint.
  assert (Hgen : forall js w0, same_core w w0 -> jobs w0 = [] ->
            same_core w (fold_left (fun w x => run_task (run_reaction x) w) js w0) /\
            jobs (fold_left (fun w x => run_task (run_reaction x) w) js w0) = []).
  { induction js as [|x js IH]; intros w0 Hc Hj; simpl; [auto |].
    destruct (run_reaction_core x w0) as [Hc' Hj'].
    apply IH; [eapply same_core_trans; eauto | congruence]. }
  apply Hgen; [unfold same_core; repeat split | reflexivity].
Qed.

Lemma checkpoint_idle (w : world) : jobs w = [] -> checkpoint w = w.
Proof. intros Hj. unfold checkpoint. rewrite Hj. destruct w; simpl in *; now subst. Qed.

(** ** Preservation of the invariant *)

Lemma rot_core (w w' : world) :
  option_map (fun r => (words r, interval r, currentIndex r)) (rot w') =
  option_map (fun r => (words r, interval r, currentIndex r)) (rot w) ->
  forall r', rot w' = Some r' ->
  exists r, rot w = Some r /\ words r' = words r /\ currentIndex r' = currentIndex r.
Proof.
  intros Hrot r' Hr'. rewrite Hr' in Hrot. destruct (rot w) as [r|]; [| discriminate].
  injection Hrot as E1 _ E3. eauto.
Qed.

Lemma inv_core (w w' : world) :
  inv (set_jobs w []) -> same_core w w' -> jobs w' = [] -> inv w'.
Proof.
  intros [_ Hcur Hfrm Hfl Hb Hc Hf Hidx [Herr Herr']] Hcore Hj.
  destruct Hcore as (Hel & Hsc & Hfr & Hpr & Her & Hrng & Hrot). cbn in *.
  constructor; unfold pending; rewrite ?Hsc, ?Hfr, ?Hpr, ?Her; auto.
  - intros r' Hr'. destruct (rot_core _ _ Hrot r' Hr') as (r & Hr & -> & ->). auto.
  - split; [exact Herr |]. intros Hne. destruct (Herr' Hne) as (r & Hr & Hw).
    rewrite Hr in Hrot. destruct (rot w') as [r'|]; [| discriminate].
    injection Hrot as E1 _ _. exists r'. split; [reflexivity | congruence].
Qed.

Lemma pending_set (l : list promise) (p : nat) (x : promise) (rs : list reaction) :
  nth_error l p = Some (mk_promise false rs) ->
  nth_error (list_set l p x) p = Some x.
Proof. intros E. apply list_set_nth_eq. apply nth_error_Some. congruence. Qed.

Lemma update_inv (w : world) (rs : list reaction) :
  frames w = [] -> jobs w = [] -> promises w <> [] ->
  resolve (sc w) = Some (pred (List.length (promises w))) ->
  nth_error (promises w) (pred (List.length (promises w))) = Some (mk_promise false rs) ->
  Forall task_bounds (queue (sc w)) -> Forall (fun t => char_ok (char t)) (queue (sc w)) ->
  (0 <= frame (sc w))%Z ->
  (forall r, rot w = Some r -> words r = [] \/ (currentIndex r < List.length (words r))%nat) ->
  Forall (eq ReadLengthOfUndefined) (errors w) /\ (errors w <> [] -> exists r, rot w = Some r /\ words r = []) ->
  exists w2, update w = Ret tt w2 /\ inv (checkpoint w2) /\ (jobs w2 = [] \/ jobs w2 = rs) /\
    List.length (promises w2) = List.length (promises w) /\ resolve (sc w2) = resolve (sc w) /\
    rot w2 = rot w /\ timers w2 = timers w /\ now w2 = now w /\
    (forall i, i <> pred (List.length (promises w)) -> nth_error (promises w2) i = nth_error (promises w) i) /\
    map task_fields (queue (sc w2)) = map task_fields (queue (sc w)).
Proof.
  intros Hfr Hj Hne Hres Hp Hb Hc Hf0 Hidx Herr.
  set (p := pred (List.length (promises w))) in *.
  destruct (update_frame (frame (sc w)) (queue (sc w)) (rng w)) as [[[q' out] n] g'] eqn:E.
  pose proof (update_frame_spec _ _ _ _ _ _ _ Hc E) as Hfs.
  destruct (frame_steps_preserve _ _ _ _ _ Hfs Hc) as [Hc' Hm].
  pose proof (frame_steps_complete _ _ _ _ _ Hfs) as Hcomp.
  assert (Hlen : List.length q' = List.length (queue (sc w))).
  { apply (f_equal (@List.length _)) in Hm. now rewrite !length_map in Hm. }
  rewrite (update_eq w q' out n g' E), Hres.
  destruct (Nat.eqb_spec n (List.length q')) as [Hn | Hn].
  - rewrite (resolve_pending_eq _ p rs) by exact Hp.
    eexists. split; [reflexivity |].
    split; [| split; [right; cbn; now rewrite Hj | cbn; rewrite list_set_length; repeat split; auto]].
    2: { intros i Hi. now apply list_set_nth_ne. }
    destruct (checkpoint_core
      (set_jobs (set_promises (written w q' out g') (list_set (promises w) p (mk_promise true []))) (jobs w ++ rs)))
      as [Hcore Hj2].
    eapply inv_core; [| exact Hcore | exact Hj2].
    constructor; cbn; auto.
    + right. rewrite list_set_length. split; [| exact Hres].
      intros Hnil. apply Hne, length_zero_iff_nil.
      rewrite <- (list_set_length (promises w) p (mk_promise true [])). now rewrite Hnil.
    + split; [intros Hx; now exfalso | intros (p' & Hp' & rs' & Hrs')].
      rewrite Hres in Hp'. injection Hp' as <-. cbn in Hrs'. rewrite (pending_set _ _ _ rs Hp) in Hrs'. discriminate.
    + eapply fields_bounds; eauto.
    + intros Hx; now exfalso.
  - eexists. split; [reflexivity |]. split; [| split; [left; exact Hj | cbn; repeat split; auto]].
    rewrite checkpoint_idle by exact Hj.
    constructor; cbn; auto.
    + rewrite Hfr. right. eexists. split; reflexivity.
    + split; [intros _; exists p; split; [exact Hres | exists rs; exact Hp] | rewrite Hfr; discriminate].
    + eapply fields_bounds; eauto.
    + intros _. cbn. fold (max_end q'). rewrite (max_end_fields _ _ Hm).
      assert (~ Forall (fun t => (end_ t <= frame (sc w))%Z) (queue (sc w))) as Hnf
        by (rewrite <- Hcomp; lia).
      pose proof (max_end_not_frozen _ _ Hnf). lia.
Qed.

Lemma run_frame_single (w : world) (h : nat) :
  frames w = [h] -> run_event EvFrame w = callback update (set_frames w []).
Proof.
  intros E. unfold run_event, run_frame. rewrite E. cbn [fold_left]. unfold run_frame_handle.
  rewrite E. cbn [existsb]. rewrite Nat.eqb_refl. cbn [orb]. unfold remove_handle.
  cbn [filter]. now rewrite Nat.eqb_refl.
Qed.

Lemma run_frame_idle (w : world) : frames w = [] -> run_event EvFrame w = w.
Proof. intros E. unfold run_event, run_frame. now rewrite E. Qed.

Lemma inv_in_flight (w : world) :
  inv w -> frames w <> [] ->
  promises w <> [] /\ exists rs,
    resolve (sc w) = Some (pred (List.length (promises w))) /\
    nth_error (promises w) (pred (List.length (promises w))) = Some (mk_promise false rs).
Proof.
  intros Hi Hne. destruct (proj1 (inv_flight w Hi) Hne) as (p & Hp & rs & Hrs).
  destruct (inv_current w Hi) as [[Hn _] | [Hne' Hp']]; [congruence |].
  rewrite Hp in Hp'. injection Hp' as ->. split; [exact Hne' | eauto].
Qed.

Lemma frame_inv (w : world) : inv w -> inv (run_event EvFrame w).
Proof.
  intros Hi. destruct (inv_frames w Hi) as [E | (h & E & Hreq)].
  - now rewrite run_frame_idle.
  - rewrite (run_frame_single w h E).
    destruct (inv_in_flight w Hi) as [Hne (rs & Hres & Hp)]; [congruence |].
    pose proof (inv_frame w Hi) as Hf. rewrite E in Hf.
    destruct (update_inv (set_frames w []) rs) as (w2 & Hu & Hi2 & _); cbn; auto.
    + apply (inv_jobs w Hi).
    + apply (inv_bounds w Hi).
    + apply (inv_chars w Hi).
    + assert ([h] <> []) as Hx by discriminate. specialize (Hf Hx). lia.
    + apply (inv_index w Hi).
    + apply (inv_errors w Hi).
    + unfold callback, run_task. now rewrite Hu.
Qed.

(** [setText(newText)] with a string: a fresh pending promise becomes the
    session's, the queue is built from the text on screen, the frame
    callback is cancelled, the frame reset, and [update] runs. *)
Lemma setText_run (w : world) (nt : jsstring) {A} (k : nat -> M A) :
  exc_bind (setText (Some nt)) k w =
  exc_bind update (fun _ => k (List.length (promises w)))
    (mk_world (el w)
       (mk_scrambler (fst (setText_queue (text_content (el w)) nt (rng w))) 0
          (frameRequest (sc w)) (Some (List.length (promises w))))
       (rot w)
       (match frameRequest (sc w) with Some h => remove_handle h (frames w) | None => frames w end)
       (timers w) (jobs w) (promises w ++ [mk_promise false []]) (next_handle w) (now w)
       (snd (setText_queue (text_content (el w)) nt (rng w))) (errors w)).
Proof.
  destruct w as [e0 [q0 f0 fr0 rs0] r0 fs0 ts0 js0 ps0 nh0 n0 g0 er0].
  unfold setText, exc_bind, exc_get, new_promise, modify_sc, exc_modify, with_rng,
    cancelAnimationFrame, exc_ret.
  cbn -[update setText_queue].
  destruct (setText_queue (text_content e0) nt g0) as [q g']. cbn -[update].
  destruct fr0; cbn -[update];
    lazymatch goal with
    | |- ?L = ?Rhs =>
        lazymatch L with context [update ?W1] =>
        lazymatch Rhs with context [update ?W2] =>
          replace W1 with W2 by reflexivity; destruct (update W2); reflexivity
        end end
    end.
Qed.

Lemma setText_inv (w : world) (nt : jsstring) {A} (k : nat -> M A) :
  inv w ->
  exists w2, exc_bind (setText (Some nt)) k w = k (List.length (promises w)) w2 /\ inv w2 /\
    promises w2 <> [] /\ List.length (promises w2) = S (List.length (promises w)) /\
    resolve (sc w2) = Some (List.length (promises w)) /\ rot w2 = rot w /\
    timers w2 = timers w /\ now w2 = now w /\
    (forall i, (i < List.length (promises w))%nat -> nth_error (promises w2) i = nth_error (promises w) i) /\
    concat (map to (queue (sc w2))) = nt.
Proof.
  intros Hi. rewrite setText_run.
  set (q := fst (setText_queue (text_content (el w)) nt (rng w))).
  pose proof (build_queue_bounded (text_content (el w)) nt 0
                (Nat.max (List.length (text_content (el w))) (List.length nt)) (rng w)) as Hb.
  pose proof (build_queue_shape (text_content (el w)) nt 0
                (Nat.max (List.length (text_content (el w))) (List.length nt)) (rng w)) as [_ Hn].
  fold (setText_queue (text_content (el w)) nt) in Hb, Hn. fold q in Hb, Hn.
  lazymatch goal with |- context [exc_bind update _ ?W] => set (W1 := W) end.
  assert (Hfr : frames W1 = []).
  { unfold W1; cbn. destruct (inv_frames w Hi) as [-> | (h & -> & ->)]; [now destruct (frameRequest (sc w)) |].
    unfold remove_handle. cbn. now rewrite Nat.eqb_refl. }
  assert (Hlen : pred (List.length (promises W1)) = List.length (promises w))
    by (unfold W1; cbn; rewrite length_app; simpl; lia).
  destruct (update_inv W1 []) as (w2 & Hu & Hi2 & Hj2 & Hl2 & Hr2 & Hrot2 & Ht2 & Hn2 & Hold & Hq2); auto.
  - apply (inv_jobs w Hi).
  - unfold W1; cbn. intros Hx. apply app_eq_nil in Hx. now destruct Hx.
  - rewrite Hlen. reflexivity.
  - rewrite Hlen. unfold W1; cbn. now rewrite nth_error_app2, Nat.sub_diag by lia.
  - apply Forall_forall. intros t Ht. apply In_nth_error in Ht as [j Hj].
    destruct (Hn j t Hj) as (_ & _ & Hc). left. exact Hc.
  - unfold W1; cbn; lia.
  - apply (inv_index w Hi).
  - apply (inv_errors w Hi).
  - exists w2. unfold exc_bind. rewrite Hu. split; [reflexivity |].
    assert (Hj : jobs w2 = []) by (destruct Hj2; auto).
    rewrite checkpoint_idle in Hi2 by exact Hj.
    unfold W1 in Hl2, Hr2, Hrot2, Ht2, Hn2; cbn in Hl2, Hr2, Hrot2, Ht2, Hn2.
    rewrite length_app in Hl2. simpl in Hl2.
    split; [exact Hi2 |]. split; [intros Hx; rewrite Hx in Hl2; simpl in Hl2; lia |].
    split; [lia |]. split; [exact Hr2 |]. split; [exact Hrot2 |]. split; [assumption |]. split; [assumption |].
    split; [intros i Hlt; rewrite Hold by (rewrite Hlen; lia); unfold W1; cbn; now apply nth_error_app1 |].
    unfold W1 in Hq2; cbn in Hq2. rewrite (proj2 (map_from_to_fields _ _ Hq2)).
    apply setText_queue_spells.
Qed.

Lemma inv_fields (w w' : world) :
  inv w -> jobs w' = [] -> sc w' = sc w -> rot w' = rot w -> frames w' = frames w ->
  promises w' = promises w -> errors w' = errors w -> inv w'.
Proof.
  intros [_ Hcur Hfrm Hfl Hb Hc Hf Hidx Herr] Hj Hsc Hrot Hfr Hpr Her.
  constructor; unfold pending; rewrite ?Hsc, ?Hrot, ?Hfr, ?Hpr, ?Her; auto.
Qed.

Lemma inv_add_reaction (w : world) (p : nat) (rs : list reaction) (x : reaction) :
  inv w -> nth_error (promises w) p = Some (mk_promise false rs) ->
  inv (set_promises w (list_set (promises w) p (mk_promise false (rs ++ [x])))).
Proof.
  intros [Hj Hcur Hfrm Hfl Hb Hc Hf Hidx Herr] Hp.
  assert (Hpend : forall p', pending (set_promises w (list_set (promises w) p (mk_promise false (rs ++ [x])))) p' <->
                              pending w p').
  { intros p'. unfold pending. cbn. destruct (Nat.eq_dec p p') as [<- | Hne].
    - rewrite (pending_set _ _ _ rs Hp), Hp. split; eauto.
    - now rewrite list_set_nth_ne. }
  constructor; cbn; auto.
  - rewrite list_set_length. destruct Hcur as [[? Hn] | [Hn ?]]; [left | right]; split; auto.
    + now rewrite Hn.
    + intros Hx. apply Hn, length_zero_iff_nil. rewrite <- (list_set_length (promises w) p (mk_promise false (rs ++ [x]))). now rewrite Hx.
  - rewrite Hfl. split; intros (p' & Hp' & Hq); exists p'; split; auto; now apply Hpend.
Qed.

Lemma inv_advance (w : world) (r : rotator) :
  inv w -> rot w = Some r -> words r <> [] ->
  inv (set_rot w (Some (with_currentIndex r (Nat.modulo (currentIndex r + 1) (List.length (words r)))))).
Proof.
  intros Hi Hr Hw. destruct Hi as [Hj Hcur Hfrm Hfl Hb Hc Hf Hidx [Herr Herr']].
  constructor; cbn; auto.
  - intros r' Hr'. injection Hr' as <-. right. cbn. apply Nat.mod_upper_bound.
    intros Hl. apply Hw, length_zero_iff_nil, Hl.
  - split; [exact Herr |]. intros Hne. destruct (Herr' Hne) as (r0 & Hr0 & Hw0).
    rewrite Hr in Hr0. injection Hr0 as <-. congruence.
Qed.

Lemma next_run (w : world) :
  next w = match rot w with
           | None => Ret tt w
           | Some r =>
               exc_bind (setText (nth_error (words r) (currentIndex r)))
                 (fun p => then_ p ReactNext ;;;
                           modify_rot (fun r => with_currentIndex r
                             (Nat.modulo (currentIndex r + 1) (List.length (words r))))) w
           end.
Proof. unfold next, exc_bind, exc_get. destruct (rot w); reflexivity. Qed.

Lemma next_inv (w : world) : inv w -> inv (callback next w).
Proof.
  intros Hi. unfold callback, run_task. rewrite next_run.
  destruct (rot w) as [r|] eqn:Hr.
  2: { unfold run_task. now rewrite checkpoint_idle by apply (inv_jobs w Hi). }
  destruct (nth_error (words r) (currentIndex r)) as [word|] eqn:Ew.
  - destruct (setText_inv w word (fun p => then_ p ReactNext ;;;
        modify_rot (fun r => with_currentIndex r (Nat.modulo (currentIndex r + 1) (List.length (words r))))) Hi)
      as (w2 & Hrun & Hi2 & Hne2 & Hl2 & Hres2 & Hrot2 & _).
    rewrite Hrun.
    assert (Hwne : words r <> []) by (intros Hx; rewrite Hx in Ew; destruct (currentIndex r); discriminate).
    assert (Hlt : (List.length (promises w) < List.length (promises w2))%nat) by lia.
    apply nth_error_Some in Hlt. destruct (nth_error (promises w2) (List.length (promises w))) as [[[|] rs]|] eqn:Ep;
      [| | contradiction].
    + unfold exc_bind, then_. rewrite Ep. unfold modify_rot, exc_modify, run_task.
      lazymatch goal with |- inv (checkpoint ?W) =>
        destruct (checkpoint_core W) as [Hcore Hj3]; eapply inv_core; [| exact Hcore | exact Hj3]
      end.
      cbn. rewrite Hrot2, Hr. cbn.
      apply (inv_fields (set_rot w2 (Some (with_currentIndex r (Nat.modulo (currentIndex r + 1) (List.length (words r)))))));
        [apply inv_advance; [exact Hi2 | congruence | exact Hwne] | ..]; reflexivity.
    + unfold exc_bind, then_. rewrite Ep. unfold modify_rot, exc_modify, run_task.
      rewrite checkpoint_idle by (cbn; apply (inv_jobs w2 Hi2)).
      cbn. rewrite Hrot2, Hr. cbn.
      apply (inv_advance (set_promises w2 (list_set (promises w2) (List.length (promises w)) (mk_promise false (rs ++ [ReactNext])))) r);
        [now apply inv_add_reaction | cbn; congruence | exact Hwne].
  - unfold exc_bind, setText, exc_get, run_task. cbn -[checkpoint].
    rewrite checkpoint_idle by (cbn; apply (inv_jobs w Hi)).
    assert (Hwe : words r = []).
    { destruct (inv_index w Hi r Hr) as [? | Hlt]; [assumption |].
      apply nth_error_None in Ew. lia. }
    destruct Hi as [Hj Hcur Hfrm Hfl Hb Hc Hf Hidx [Herr Herr']].
    constructor; cbn; auto. split.
    + apply Forall_app. split; auto.
    + intros _. exists r. auto.
Qed.

Lemma run_task_ret_bind (m : M nat) (w : world) :
  run_task (let* _ := m in exc_ret tt) w =
  match m w with Ret _ w' => w' | Throw e w' => set_errors w' (errors w' ++ [e]) end.
Proof. unfold run_task, exc_bind. destruct (m w); reflexivity. Qed.

Lemma event_inv (w : world) (ev : event) : inv w -> inv (run_event ev w).
Proof.
  intros Hi. destruct ev as [| | nt | |].
  - now apply frame_inv.
  - unfold run_event, run_timer. destruct (earliest (timers w)) as [[h due]|]; [| exact Hi].
    apply next_inv. eapply inv_fields; eauto; apply (inv_jobs w Hi).
  - unfold run_event, callback, run_task.
    destruct (setText_inv w nt (fun _ => exc_ret tt) Hi) as (w2 & Hrun & Hi2 & _).
    rewrite Hrun. unfold exc_ret. now rewrite checkpoint_idle by apply (inv_jobs w2 Hi2).
  - now apply next_inv.
  - unfold run_event, callback, stop, run_task, exc_bind, exc_get.
    destruct (rot w) as [r|]; [destruct (timeoutId r) |]; cbn -[checkpoint];
      (rewrite checkpoint_idle by (cbn; apply (inv_jobs w Hi)));
      try exact Hi; eapply inv_fields; eauto; apply (inv_jobs w Hi).
Qed.

Lemma init_world_inv (content : jsstring) (g : R) : inv (init_world content g).
Proof.
  constructor; cbn; auto.
  - split; [intros Hx; now exfalso | intros (p & Hp & _); discriminate].
  - intros Hx; now exfalso.
  - intros r Hr; discriminate.
  - split; [constructor | intros Hx; now exfalso].
Qed.

(** The world the constructor hands to its first [next()]. *)
Lemma init_rotator_unfold (content : jsstring) (ws : list jsstring) (iv : option Z) (g : R) :
  init_rotator content ws iv g =
  callback next (set_sc (set_rot (init_world content g)
                  (Some (mk_rotator ws (match iv with Some i => i | None => 3000%Z end) 0 None)))
                  fresh_scrambler).
Proof. reflexivity. Qed.

Lemma created_inv (content : jsstring) (ws : list jsstring) (i : Z) (g : R) :
  inv (set_sc (set_rot (init_world content g) (Some (mk_rotator ws i 0 None))) fresh_scrambler).
Proof.
  pose proof (init_world_inv content g) as Hi.
  constructor; cbn; auto.
  - split; [intros Hx; now exfalso | intros (p & Hp & _); discriminate].
  - intros Hx; now exfalso.
  - intros r Hr. injection Hr as <-. cbn. destruct ws; [left | right; cbn]; auto; lia.
  - split; [constructor | intros Hx; now exfalso].
Qed.

Lemma init_rotator_inv (content : jsstring) (ws : list jsstring) (iv : option Z) (g : R) :
  inv (init_rotator content ws iv g).
Proof. rewrite init_rotator_unfold. apply next_inv, created_inv. Qed.

Lemma reachable_inv (w : world) : reachable w -> inv w.
Proof.
  induction 1; [apply init_world_inv | apply init_rotator_inv | now apply event_inv].
Qed.

(** ** The rotator's timers *)

Lemma run_reaction_next (w : world) (r : rotator) :
  rot w = Some r ->
  run_task (run_reaction ReactNext) w =
  set_rot (set_next_handle (set_timers w (timers w ++ [(next_handle w, now w + Z.max 0 (interval r))%Z]))
             (S (next_handle w)))
    (Some (with_timeoutId r (Some (next_handle w)))).
Proof.
  intros Hr. unfold run_task, run_reaction, exc_bind, exc_get, setTimeout, modify_rot, exc_modify.
  rewrite Hr. cbn [rot set_next_handle set_timers]. rewrite Hr. reflexivity.
Qed.

Lemma run_reaction_timers (x : reaction) (w : world) :
  exists l, timers (run_task (run_reaction x) w) = timers w ++ l /\
    (rot w <> None -> l <> [] /\ rot (run_task (run_reaction x) w) <> None).
Proof.
  destruct x. destruct (rot w) as [r|] eqn:Hr.
  - rewrite (run_reaction_next w r Hr). eexists. split; [reflexivity |].
    intros _. split; discriminate.
  - exists []. rewrite app_nil_r.
    unfold run_task, run_reaction, exc_bind, exc_get. rewrite Hr. split; [reflexivity | now intros Hx].
Qed.

Lemma checkpoint_timers (w : world) :
  exists l, timers (checkpoint w) = timers w ++ l /\ (rot w <> None -> jobs w <> [] -> l <> []).
Proof.
  unfold checkpoint.
  assert (Hgen : forall js w0, exists l,
            timers (fold_left (fun w x => run_task (run_reaction x) w) js w0) = timers w0 ++ l /\
            (rot w0 <> None -> js <> [] -> l <> [])).
  { induction js as [|x js IH]; intros w0; simpl.
    - exists []. rewrite app_nil_r. split; [reflexivity | now intros _ Hx].
    - destruct (run_reaction_timers x w0) as (l1 & Ht1 & Hl1).
      destruct (IH (run_task (run_reaction x) w0)) as (l2 & Ht2 & _).
      exists (l1 ++ l2). rewrite Ht2, Ht1, app_assoc. split; [reflexivity |].
      intros Hr _ Hx. apply app_eq_nil in Hx. destruct Hx as [Hx _]. now apply (proj1 (Hl1 Hr)). }
  destruct (Hgen (jobs w) (set_jobs w [])) as (l & Ht & Hl). exists l. split; [exact Ht | exact Hl].
Qed.

Lemma earliest_some (ts : list (nat * Z)) : ts <> [] -> exists t, earliest ts = Some t.
Proof.
  destruct ts as [|t ts]; [now intros Hx |]. intros _. simpl.
  destruct (earliest ts) as [t'|]; [destruct (snd t' <? snd t)%Z |]; eauto.
Qed.

(** [next()] on a rotator with words starts a new session to the current
    word and advances the index. *)
Lemma next_new_session (w : world) (r : rotator) (word : jsstring) :
  inv w -> rot w = Some r -> nth_error (words r) (currentIndex r) = Some word ->
  let w' := callback next w in
  List.length (promises w') = S (List.length (promises w)) /\
  resolve (sc w') = Some (List.length (promises w)) /\
  concat (map to (queue (sc w'))) = word /\
  option_map (fun r => (words r, interval r, currentIndex r)) (rot w') =
    Some (words r, interval r, Nat.modulo (currentIndex r + 1) (List.length (words r))).
Proof.
  intros Hi Hr Ew w'. subst w'. unfold callback, run_task. rewrite next_run, Hr, Ew.
  destruct (setText_inv w word (fun p => then_ p ReactNext ;;;
        modify_rot (fun r => with_currentIndex r (Nat.modulo (currentIndex r + 1) (List.length (words r))))) Hi)
    as (w2 & Hrun & Hi2 & _ & Hl2 & Hres2 & Hrot2 & _ & _ & _ & Hto2).
  rewrite Hrun. unfold exc_bind, then_, modify_rot, exc_modify.
  destruct (nth_error (promises w2) (List.length (promises w))) as [[[|] rs]|] eqn:Ep;
    lazymatch goal with |- context [checkpoint ?W] =>
      destruct (checkpoint_core W) as [(_ & Hsc & _ & Hpr & _ & _ & Hrot) _];
      rewrite Hsc, Hpr, Hrot
    end; cbn; rewrite ?list_set_length, Hrot2, Hr; cbn; auto.
Qed.

(** A rotator built with words keeps them. *)
Lemma init_rotator_words (content : jsstring) (ws : list jsstring) (iv : option Z) (g : R) :
  ws <> [] -> option_map words (rot (init_rotator content ws iv g)) = Some ws.
Proof.
  intros Hne. rewrite init_rotator_unfold. destruct ws as [|w0 ws']; [contradiction |].
  pose proof (next_new_session _ (mk_rotator (w0 :: ws') (match iv with Some i => i | None => 3000%Z end) 0 None) w0
                (created_inv content (w0 :: ws') _ g) eq_refl eq_refl) as (_ & _ & _ & Hw).
  revert Hw. generalize (callback next (set_sc (set_rot (init_world content g)
    (Some (mk_rotator (w0 :: ws') (match iv with Some i => i | None => 3000%Z end) 0 None))) fresh_scrambler)).
  intros w' Hw. destruct (rot w'); [| discriminate]. cbn in Hw |- *. now injection Hw as -> _ _.
Qed.

(** ** Sessions run to completion *)

Lemma update_frame_all_frozen (frame : Z) (q : list task) (g : R) :
  Forall (fun t => (end_ t <= frame)%Z) q ->
  update_frame frame q g = ((q, concat (map to q), List.length q), g).
Proof. intros Hq. unfold update_frame. now rewrite update_loop_frozen. Qed.

Lemma update_done (w : world) (p : nat) (rs : list reaction) :
  resolve (sc w) = Some p -> nth_error (promises w) p = Some (mk_promise false rs) ->
  Forall (fun t => (end_ t <= frame (sc w))%Z) (queue (sc w)) ->
  update w = Ret tt (set_jobs (set_promises (set_el w (concat (map to (queue (sc w)))))
                                 (list_set (promises w) p (mk_promise true [])))
                       (jobs w ++ rs)).
Proof.
  intros Hres Hp Hq.
  rewrite (update_eq w _ _ _ _ (update_frame_all_frozen _ _ (rng w) Hq)), Nat.eqb_refl, Hres.
  rewrite (resolve_pending_eq _ p rs) by exact Hp.
  destruct w as [e0 [q0 f0 fr0 rs0] r0 fs0 ts0 js0 ps0 nh0 n0 g0 er0]. reflexivity.
Qed.

Lemma update_more (w : world) :
  Forall (fun t => char_ok (char t)) (queue (sc w)) ->
  ~ Forall (fun t => (end_ t <= frame (sc w))%Z) (queue (sc w)) ->
  exists q' out g', update w = Ret tt (scheduled (written w q' out g')) /\
    map task_fields q' = map task_fields (queue (sc w)).
Proof.
  intros Hc Hnf.
  destruct (update_frame (frame (sc w)) (queue (sc w)) (rng w)) as [[[q' out] n] g'] eqn:E.
  pose proof (update_frame_spec _ _ _ _ _ _ _ Hc E) as Hfs.
  destruct (frame_steps_preserve _ _ _ _ _ Hfs Hc) as [_ Hm].
  pose proof (frame_steps_complete _ _ _ _ _ Hfs) as Hcomp.
  assert (Hlen : List.length q' = List.length (queue (sc w))).
  { apply (f_equal (@List.length _)) in Hm. now rewrite !length_map in Hm. }
  exists q', out, g'. rewrite (update_eq w q' out n g' E).
  destruct (Nat.eqb_spec n (List.length q')) as [Hn | Hn]; [| split; auto].
  exfalso. apply Hnf, Hcomp. congruence.
Qed.

Lemma run_events_cons (ev : event) (evs : list event) (w : world) :
  run_events (ev :: evs) w = run_events evs (run_event ev w).
Proof. reflexivity. Qed.

Lemma run_events_idle (w : world) (n : nat) :
  frames w = [] -> run_events (repeat EvFrame n) w = w.
Proof.
  intros E. induction n as [|n IH]; [reflexivity |].
  change (run_events (repeat EvFrame (S n)) w) with (run_events (repeat EvFrame n) (run_event EvFrame w)).
  now rewrite run_frame_idle.
Qed.

Lemma frame_done_step (w : world) (h : nat) (rs : list reaction) :
  frames w = [h] -> resolve (sc w) = Some (pred (List.length (promises w))) ->
  nth_error (promises w) (pred (List.length (promises w))) = Some (mk_promise false rs) ->
  Forall (fun t => (end_ t <= frame (sc w))%Z) (queue (sc w)) ->
  run_event EvFrame w =
  checkpoint (set_jobs (set_promises (set_el (set_frames w []) (concat (map to (queue (sc w)))))
                          (list_set (promises w) (pred (List.length (promises w))) (mk_promise true [])))
                (jobs w ++ rs)).
Proof.
  intros E Hres Hp Hfz. rewrite (run_frame_single w h E). unfold callback, run_task.
  now rewrite (update_done (set_frames w []) _ rs Hres Hp Hfz).
Qed.

Lemma frame_more_step (w : world) (h : nat) :
  inv w -> frames w = [h] ->
  ~ Forall (fun t => (end_ t <= frame (sc w))%Z) (queue (sc w)) ->
  exists q' out g', run_event EvFrame w = scheduled (written (set_frames w []) q' out g') /\
    map task_fields q' = map task_fields (queue (sc w)).
Proof.
  intros Hi E Hnf. destruct (update_more (set_frames w []) (inv_chars w Hi) Hnf) as (q' & out & g' & Hu & Hm).
  exists q', out, g'. split; [| exact Hm].
  rewrite (run_frame_single w h E). unfold callback, run_task. rewrite Hu.
  apply checkpoint_idle. cbn. apply (inv_jobs w Hi).
Qed.

(** From a world whose session is in progress, [n] frames more than the
    frames left complete it. *)
Lemma frames_complete (n : nat) (w : world) :
  inv w -> frames w <> [] ->
  (max_end (queue (sc w)) - frame (sc w) < Z.of_nat n)%Z ->
  frames (run_events (repeat EvFrame n) w) = [] /\
  el (run_events (repeat EvFrame n) w) = concat (map to (queue (sc w))) /\
  List.length (promises (run_events (repeat EvFrame n) w)) = List.length (promises w) /\
  nth_error (promises (run_events (repeat EvFrame n) w)) (pred (List.length (promises w))) =
    Some (mk_promise true []).
Proof.
  revert w. induction n as [|n IH]; intros w Hi Hne Hlt.
  { pose proof (inv_frame w Hi Hne). lia. }
  destruct (inv_frames w Hi) as [E | (h & E & Hreq)]; [contradiction |].
  destruct (inv_in_flight w Hi Hne) as [Hpne (rs & Hres & Hp)].
  cbn [repeat]. rewrite run_events_cons.
  destruct (Forall_dec _ (fun t => Z_le_dec (end_ t) (frame (sc w))) (queue (sc w))) as [Hfz | Hnf].
  - rewrite (frame_done_step w h rs E Hres Hp Hfz).
    lazymatch goal with |- context [checkpoint ?W] =>
      destruct (checkpoint_core W) as [(Hel & Hsc & Hfr & Hpr & _) _]; rewrite run_events_idle by (rewrite Hfr; reflexivity)
    end.
    rewrite Hel, Hfr, Hpr. cbn. rewrite list_set_length. split; [reflexivity | split; [reflexivity | split; [reflexivity |]]].
    apply (pending_set _ _ _ rs Hp).
  - destruct (frame_more_step w h Hi E Hnf) as (q' & out & g' & Hw1 & Hm).
    pose proof (event_inv w EvFrame Hi) as Hi1. rewrite Hw1 in Hi1 |- *.
    cbn in Hm. destruct (IH _ Hi1) as (Hfr & Hel & Hl & Hn); cbn.
    + discriminate.
    + fold (max_end q'). rewrite (max_end_fields _ _ Hm). lia.
    + cbn in Hel, Hl, Hn. rewrite Hel, (proj2 (map_from_to_fields _ _ Hm)). auto.
Qed.

(** The frames that complete a session leave the rotator (up to its
    [timeoutId]) as it was, and only add timers: at least one when the
    session's promise had a reaction and a rotator exists. *)
Lemma frames_complete_timers (n : nat) (w : world) (rs : list reaction) :
  inv w -> frames w <> [] ->
  (max_end (queue (sc w)) - frame (sc w) < Z.of_nat n)%Z ->
  nth_error (promises w) (pred (List.length (promises w))) = Some (mk_promise false rs) ->
  option_map (fun r => (words r, interval r, currentIndex r)) (rot (run_events (repeat EvFrame n) w)) =
    option_map (fun r => (words r, interval r, currentIndex r)) (rot w) /\
  exists l, timers (run_events (repeat EvFrame n) w) = timers w ++ l /\
    (rot w <> None -> rs <> [] -> l <> []).
Proof.
  revert w. induction n as [|n IH]; intros w Hi Hne Hlt Hp0.
  { pose proof (inv_frame w Hi Hne). lia. }
  destruct (inv_frames w Hi) as [E | (h & E & Hreq)]; [contradiction |].
  destruct (inv_in_flight w Hi Hne) as [Hpne (rs' & Hres & Hp)].
  rewrite Hp0 in Hp. injection Hp as <-.
  cbn [repeat]. rewrite run_events_cons.
  destruct (Forall_dec _ (fun t => Z_le_dec (end_ t) (frame (sc w))) (queue (sc w))) as [Hfz | Hnf].
  - rewrite (frame_done_step w h rs E Hres Hp0 Hfz).
    lazymatch goal with |- context [checkpoint ?W] =>
      destruct (checkpoint_core W) as [(_ & _ & Hfr & _ & _ & _ & Hrot) _];
      destruct (checkpoint_timers W) as (l & Ht & Hl);
      rewrite run_events_idle by (rewrite Hfr; reflexivity)
    end.
    rewrite Hrot, Ht. cbn. split; [reflexivity |]. exists l. split; [reflexivity |].
    intros Hr Hrs. apply Hl; [exact Hr |]. cbn. rewrite (inv_jobs w Hi). exact Hrs.
  - destruct (frame_more_step w h Hi E Hnf) as (q' & out & g' & Hw1 & Hm).
    pose proof (event_inv w EvFrame Hi) as Hi1. rewrite Hw1 in Hi1 |- *.
    cbn in Hm. set (W1 := scheduled (written (set_frames w []) q' out g')) in *.
    assert (Hne1 : frames W1 <> []) by (unfold W1; cbn; discriminate).
    assert (Hlt1 : (max_end (queue (sc W1)) - frame (sc W1) < Z.of_nat n)%Z).
    { unfold W1; cbn. fold (max_end q'). rewrite (max_end_fields _ _ Hm). lia. }
    destruct (IH W1 Hi1 Hne1 Hlt1 Hp0) as (Hrot & l & Ht & Hl).
    unfold W1 in Hrot, Ht, Hl; cbn in Hrot, Ht, Hl. split; [exact Hrot |]. exists l. auto.
Qed.

Lemma setText_event (w : world) (s : jsstring) :
  inv w ->
  let w1 := run_event (EvSetText s) w in
  inv w1 /\ concat (map from (queue (sc w1))) = text_content (el w) /\
  concat (map to (queue (sc w1))) = s /\
  List.length (promises w1) = S (List.length (promises w)) /\
  resolve (sc w1) = Some (List.length (promises w)) /\
  (frames w1 = [] -> el w1 = s /\ nth_error (promises w1) (List.length (promises w)) = Some (mk_promise true [])) /\
  (frames w1 <> [] -> frame (sc w1) = 1%Z).
Proof.
  intros Hi w1. pose proof (event_inv w (EvSetText s) Hi) as Hi1. fold w1 in Hi1.
  split; [exact Hi1 |].
  assert (Hw1 : w1 = callback update
    (mk_world (el w)
       (mk_scrambler (fst (setText_queue (text_content (el w)) s (rng w))) 0
          (frameRequest (sc w)) (Some (List.length (promises w))))
       (rot w)
       (match frameRequest (sc w) with Some h => remove_handle h (frames w) | None => frames w end)
       (timers w) (jobs w) (promises w ++ [mk_promise false []]) (next_handle w) (now w)
       (snd (setText_queue (text_content (el w)) s (rng w))) (errors w))).
  { unfold w1, run_event, callback, run_task. rewrite setText_run. unfold exc_bind.
    lazymatch goal with |- context [update ?W] => destruct (update W) end; reflexivity. }
  clearbody w1. subst w1.
  lazymatch goal with |- context [callback update ?W] => set (W1 := W) end.
  set (q := fst (setText_queue (text_content (el w)) s (rng w))) in *.
  destruct (setText_queue_spells (text_content (el w)) s (rng w)) as [Hto Hfrom]. fold q in Hto, Hfrom.
  assert (Hp : nth_error (promises W1) (List.length (promises w)) = Some (mk_promise false [])).
  { unfold W1; cbn. now rewrite nth_error_app2, Nat.sub_diag by lia. }
  unfold callback, run_task.
  destruct (Forall_dec _ (fun t => Z_le_dec (end_ t) 0) q) as [Hfz | Hnf].
  - rewrite (update_done W1 _ [] eq_refl Hp Hfz).
    rewrite checkpoint_idle by (cbn; rewrite app_nil_r; apply (inv_jobs w Hi)).
    cbn. rewrite list_set_length, length_app, list_set_nth_eq by (rewrite length_app; simpl; lia).
    assert (Hfr1 : match frameRequest (sc w) with
                   | Some h => remove_handle h (frames w) | None => frames w end = []).
    { destruct (inv_frames w Hi) as [-> | (h & -> & ->)]; [now destruct (frameRequest (sc w)) |].
      unfold remove_handle. cbn. now rewrite Nat.eqb_refl. }
    simpl. repeat split; auto; [lia | intros Hx; exfalso; exact (Hx Hfr1)].
  - destruct (update_more W1 (setText_queue_chars _ _ _) Hnf) as (q' & out & g' & Hu & Hm).
    rewrite Hu, checkpoint_idle by (cbn; apply (inv_jobs w Hi)).
    cbn in Hm |- *. destruct (map_from_to_fields _ _ Hm) as [Ef Et].
    rewrite Ef, Et, length_app. simpl.
    split; [auto |]. split; [auto |]. split; [lia |]. split; [reflexivity |].
    split; [intros Hx; exfalso; apply app_eq_nil in Hx; destruct Hx as [_ Hx]; discriminate |].
    intros _. reflexivity.
Qed.

Lemma checkpoint_promises (w : world) : promises (checkpoint w) = promises w.
Proof. apply (checkpoint_core w). Qed.

Lemma next_keeps_old (w : world) :
  inv w ->
  (List.length (promises w) <= List.length (promises (callback next w)))%nat /\
  forall i, (i < List.length (promises w))%nat ->
    nth_error (promises (callback next w)) i = nth_error (promises w) i.
Proof.
  intros Hi. unfold callback, run_task. rewrite next_run, checkpoint_promises.
  destruct (rot w) as [r|] eqn:Hr; [| split; auto].
  destruct (nth_error (words r) (currentIndex r)) as [word|] eqn:Ew.
  - destruct (setText_inv w word (fun p => then_ p ReactNext ;;;
        modify_rot (fun r => with_currentIndex r (Nat.modulo (currentIndex r + 1) (List.length (words r))))) Hi)
      as (w2 & Hrun & _ & _ & Hl2 & _ & _ & _ & _ & Hold & _).
    rewrite Hrun. unfold exc_bind, then_, modify_rot, exc_modify.
    destruct (nth_error (promises w2) (List.length (promises w))) as [[[|] rs]|] eqn:Ep; cbn;
      rewrite ?list_set_length; (split; [lia |]); intros i Hlt;
      rewrite ?list_set_nth_ne by lia; auto.
  - cbn. split; auto.
Qed.

Lemma event_keeps_old (w : world) (ev : event) :
  inv w ->
  (List.length (promises w) <= List.length (promises (run_event ev w)))%nat /\
  forall i, (S i < List.length (promises w))%nat ->
    nth_error (promises (run_event ev w)) i = nth_error (promises w) i.
Proof.
  intros Hi. destruct ev as [| | nt | |].
  - destruct (inv_frames w Hi) as [E | (h & E & Hreq)]; [rewrite run_frame_idle by exact E; auto |].
    rewrite (run_frame_single w h E). assert (Hne : frames w <> []) by (rewrite E; discriminate).
    destruct (inv_in_flight w Hi Hne) as [Hpne (rs & Hres & Hp)].
    destruct (update_inv (set_frames w []) rs) as (w2 & Hu & _ & _ & Hl2 & _ & _ & _ & _ & Hold & _); cbn; auto;
      try apply (inv_jobs w Hi); try apply (inv_bounds w Hi); try apply (inv_chars w Hi);
      try apply (inv_index w Hi); try apply (inv_errors w Hi).
    + pose proof (inv_frame w Hi Hne). lia.
    + unfold callback, run_task. rewrite Hu, checkpoint_promises. cbn in Hl2, Hold.
      split; [lia | intros i Hlt; apply Hold; lia].
  - unfold run_event, run_timer. destruct (earliest (timers w)) as [[h due]|]; [| auto].
    lazymatch goal with |- context [callback next ?W] =>
      destruct (next_keeps_old W) as [Hl Hold]; [eapply inv_fields; eauto; apply (inv_jobs w Hi) |]
    end.
    change (promises (set_now (set_timers w (filter (fun t => negb (Nat.eqb (fst t) h)) (timers w))) (Z.max (now w) due)))
      with (promises w) in Hl, Hold.
    split; [exact Hl | intros i Hlt; apply Hold; lia].
  - unfold run_event, callback, run_task.
    destruct (setText_inv w nt (fun _ => exc_ret tt) Hi) as (w2 & Hrun & _ & _ & Hl2 & _ & _ & _ & _ & Hold & _).
    rewrite Hrun. unfold exc_ret. rewrite checkpoint_promises.
    split; [lia | intros i Hlt; apply Hold; lia].
  - destruct (next_keeps_old w Hi) as [Hl Hold]. split; [exact Hl | intros i Hlt; apply Hold; lia].
  - unfold run_event, callback, stop, run_task, exc_bind, exc_get.
    destruct (rot w) as [r|]; [destruct (timeoutId r) |]; cbn -[checkpoint]; rewrite checkpoint_promises; auto.
Qed.

(** ** Properties of the scrambler in its event loop *)

(** C10: in every reachable world at most one animation-frame callback is
    pending, it is the scrambler's [frameRequest], and it is pending
    exactly while the current session's promise is pending. *)
Theorem reachable_single_frame_chain (w : world) :
  reachable w ->
  (frames w = [] \/ exists h, frames w = [h] /\ frameRequest (sc w) = Some h) /\
  (frames w <> [] <-> exists p, resolve (sc w) = Some p /\ pending w p).
Proof. intros Hr. pose proof (reachable_inv w Hr) as Hi. split; [apply Hi | apply Hi]. Qed.

(** C11: the module never calls a null [this.resolve]; the only error it
    ever reports is reading the length of [undefined], and only for a
    rotator with no words. *)
Theorem reachable_errors (w : world) :
  reachable w ->
  Forall (eq ReadLengthOfUndefined) (errors w) /\
  (errors w <> [] -> exists r, rot w = Some r /\ words r = []).
Proof. intros Hr. apply (reachable_inv w Hr). Qed.

(** C12: a session in progress completes within 78 more frames: no frame
    callback is left, the element shows the targets of the queue, and the
    session's promise is fulfilled. *)
Theorem session_completes (w : world) :
  reachable w -> frames w <> [] ->
  frames (run_events (repeat EvFrame 78) w) = [] /\
  el (run_events (repeat EvFrame 78) w) = concat (map to (queue (sc w))) /\
  nth_error (promises (run_events (repeat EvFrame 78) w)) (pred (List.length (promises w))) =
    Some (mk_promise true []).
Proof.
  intros Hr Hne. pose proof (reachable_inv w Hr) as Hi.
  pose proof (inv_frame w Hi Hne). pose proof (max_end_bounded _ (inv_bounds w Hi)).
  assert (Hlt : (max_end (queue (sc w)) - frame (sc w) < Z.of_nat 78)%Z) by lia.
  destruct (frames_complete 78 w Hi Hne Hlt) as (? & ? & _ & ?). auto.
Qed.

(** [setText(s)] followed by 78 frames leaves [s] on the element and
    the promise it returned fulfilled, whatever was running before. *)
Theorem setText_completes (w : world) (s : jsstring) :
  reachable w ->
  el (run_events (EvSetText s :: repeat EvFrame 78) w) = s /\
  nth_error (promises (run_events (EvSetText s :: repeat EvFrame 78) w)) (List.length (promises w)) =
    Some (mk_promise true []).
Proof.
  intros Hr. pose proof (reachable_inv w Hr) as Hi. rewrite run_events_cons.
  destruct (setText_event w s Hi) as (Hi1 & _ & Hto & Hl1 & _ & Hdone & Hflight).
  revert Hi1 Hto Hl1 Hdone Hflight. generalize (run_event (EvSetText s) w) as w1.
  intros w1 Hi1 Hto Hl1 Hdone Hflight.
  destruct (list_eq_dec Nat.eq_dec (frames w1) []) as [E | Hne].
  - rewrite run_events_idle by exact E. exact (Hdone E).
  - pose proof (Hflight Hne). pose proof (max_end_bounded _ (inv_bounds w1 Hi1)).
    assert (Hlt : (max_end (queue (sc w1)) - frame (sc w1) < Z.of_nat 78)%Z) by lia.
    pose proof (frames_complete 78 w1 Hi1 Hne Hlt) as Hfc.
    split; [rewrite (proj1 (proj2 Hfc)); exact Hto |].
    pose proof (proj2 (proj2 (proj2 Hfc))) as Hp. rewrite Hl1 in Hp. exact Hp.
Qed.

(** C14: a promise that is not the current session's is never touched
    again: a superseded session's promise is never fulfilled and gets no
    new reaction, whatever happens next. *)
Theorem superseded_promise_frozen (w : world) (i : nat) (evs : list event) :
  reachable w -> (S i < List.length (promises w))%nat ->
  nth_error (promises (run_events evs w)) i = nth_error (promises w) i.
Proof.
  intros Hr. revert w Hr. induction evs as [|ev evs IH]; intros w Hr Hlt; [reflexivity |].
  rewrite run_events_cons.
  destruct (event_keeps_old w ev (reachable_inv w Hr)) as [Hl Hold].
  rewrite IH; [now apply Hold | now constructor | lia].
Qed.

(** The new session starts from the text on screen: the [from]
    characters of the queue spell [el.textContent] at the call. *)
Theorem setText_reads_screen (w : world) (s : jsstring) :
  reachable w ->
  concat (map from (queue (sc (run_event (EvSetText s) w)))) = text_content (el w).
Proof. intros Hr. apply (setText_event w s (reachable_inv w Hr)). Qed.

Lemma run_events_app (evs1 evs2 : list event) (w : world) :
  run_events (evs1 ++ evs2) w = run_events evs2 (run_events evs1 w).
Proof. unfold run_events. apply fold_left_app. Qed.

Lemma reachable_run_events (w : world) (evs : list event) :
  reachable w -> reachable (run_events evs w).
Proof.
  revert w. induction evs as [|ev evs IH]; intros w Hr; [exact Hr |].
  rewrite run_events_cons. apply IH. now constructor.
Qed.

Lemma set_timers_same (w : world) (x : list (nat * Z)) : timers w = x -> set_timers w x = w.
Proof. destruct w; cbn; now intros ->. Qed.

Lemma stop_run (w : world) (r : rotator) :
  inv w -> rot w = Some r ->
  run_event EvStop w =
  match timeoutId r with
  | Some h => set_timers w (filter (fun t => negb (Nat.eqb (fst t) h)) (timers w))
  | None => w
  end.
Proof.
  intros Hi Hr. unfold run_event, callback, stop, run_task, exc_bind, exc_get.
  rewrite Hr. destruct (timeoutId r) as [h|]; cbn -[checkpoint];
    apply checkpoint_idle; apply (inv_jobs w Hi).
Qed.

Lemma filter_all_handle (ts : list (nat * Z)) (h : nat) :
  (forall t, In t ts -> fst t = h) -> filter (fun t => negb (Nat.eqb (fst t) h)) ts = [].
Proof.
  induction ts as [|t ts IH]; intros Hall; [reflexivity |]. simpl.
  rewrite (Hall t (or_introl eq_refl)), Nat.eqb_refl. simpl. apply IH.
  intros t' Hin. apply Hall. now right.
Qed.

Lemma checkpoint_one (w : world) (x : reaction) :
  jobs w = [x] -> checkpoint w = run_task (run_reaction x) (set_jobs w []).
Proof. intros Hj. unfold checkpoint. now rewrite Hj. Qed.

(** ** Properties of the word rotator *)

(** C16: [stop()] while a transition is running does not stop the
    rotation: the running session completes, its reaction arms a new
    timeout that [stop] never saw, and when that timer fires the next
    word's transition starts (a new promise is created). *)
Theorem stop_during_transition_continues (w : world) (r : rotator) (rs : list reaction) :
  reachable w -> rot w = Some r -> words r <> [] ->
  nth_error (promises w) (pred (List.length (promises w))) = Some (mk_promise false rs) ->
  In ReactNext rs ->
  List.length (promises (run_events (EvStop :: repeat EvFrame 78 ++ [EvTimer]) w)) =
  S (List.length (promises w)).
Proof.
  intros Hr Hrot Hw Hp Hin. pose proof (reachable_inv w Hr) as Hi.
  rewrite run_events_cons, run_events_app.
  assert (Hne : frames w <> []).
  { apply (inv_flight w Hi). exists (pred (List.length (promises w))). split; [| exists rs; exact Hp].
    destruct (inv_current w Hi) as [[_ Hn] | [_ Hres]]; [rewrite Hn in Hp; destruct (pred _); discriminate | exact Hres]. }
  pose proof (stop_run w r Hi Hrot) as Hstop.
  assert (Hr1 : reachable (run_event EvStop w)) by now constructor.
  pose proof (reachable_inv _ Hr1) as Hi1.
  revert Hr1 Hi1 Hstop. generalize (run_event EvStop w) as w1. intros w1 Hr1 Hi1 Hstop.
  assert (Hsame : frames w1 = frames w /\ promises w1 = promises w /\ sc w1 = sc w /\ rot w1 = rot w)
    by (rewrite Hstop; destruct (timeoutId r); auto).
  destruct Hsame as (Hf1 & Hp1 & Hs1 & Hrot1).
  assert (Hlt : (max_end (queue (sc w1)) - frame (sc w1) < Z.of_nat 78)%Z).
  { pose proof (inv_frame w1 Hi1). pose proof (max_end_bounded _ (inv_bounds w1 Hi1)).
    rewrite Hf1 in *. specialize (H0 Hne). lia. }
  rewrite <- Hf1 in Hne. rewrite <- Hp1 in Hp |- *.
  pose proof (frames_complete 78 w1 Hi1 Hne Hlt) as Hfc.
  pose proof (frames_complete_timers 78 w1 rs Hi1 Hne Hlt Hp) as [Hrot2 (l & Ht2 & Hl)].
  pose proof (reachable_run_events w1 (repeat EvFrame 78) Hr1) as Hr2.
  revert Hfc Hrot2 Ht2 Hr2. generalize (run_events (repeat EvFrame 78) w1) as w2.
  intros w2 Hfc Hrot2 Ht2 Hr2. pose proof (reachable_inv _ Hr2) as Hi2.
  assert (Htne : timers w2 <> []).
  { rewrite Ht2. intros Hx. apply app_eq_nil in Hx. destruct Hx as [_ Hx].
    revert Hx. apply Hl; [congruence | destruct rs; [contradiction | discriminate]]. }
  rewrite Hrot1, Hrot in Hrot2.
  destruct (rot w2) as [r2|] eqn:Hr2'; [| discriminate]. injection Hrot2 as Hw2 _ Hc2.
  destruct (earliest_some _ Htne) as [[h due] Hh].
  unfold run_events at 1. simpl fold_left. unfold run_event, run_timer. rewrite Hh.
  lazymatch goal with |- context [callback next ?W] => set (Wn := W) end.
  assert (HiW : inv Wn) by (eapply inv_fields; eauto; apply (inv_jobs w2 Hi2)).
  destruct (nth_error (words r2) (currentIndex r2)) as [word|] eqn:Ew.
  - destruct (next_new_session Wn r2 word HiW Hr2' Ew) as [Hl3 _]. rewrite Hl3.
    unfold Wn; cbn. now rewrite (proj1 (proj2 (proj2 Hfc))).
  - exfalso. destruct (inv_index w2 Hi2 r2 Hr2') as [Hx | Hx]; [congruence |].
    apply nth_error_None in Ew. lia.
Qed.

(** [stop()] while no transition runs and the only pending timers
    are the rotator's own cancels every timer, and from then on frames,
    timers and further [stop] calls change nothing. *)
Theorem stop_when_idle_quiesces (w : world) (r : rotator) (evs : list event) :
  reachable w -> rot w = Some r -> frames w = [] ->
  (forall t, In t (timers w) -> timeoutId r = Some (fst t)) ->
  Forall (fun ev => ev = EvFrame \/ ev = EvTimer \/ ev = EvStop) evs ->
  timers (run_event EvStop w) = [] /\ run_events evs (run_event EvStop w) = run_event EvStop w.
Proof.
  intros Hr Hrot Hfr Ht Hevs. pose proof (reachable_inv w Hr) as Hi.
  assert (Hr1 : reachable (run_event EvStop w)) by now constructor.
  assert (Hfacts : timers (run_event EvStop w) = [] /\ rot (run_event EvStop w) = Some r /\
                   frames (run_event EvStop w) = []).
  { rewrite (stop_run w r Hi Hrot). destruct (timeoutId r) as [h|] eqn:Eh; cbn.
    - split; [| split; assumption]. apply filter_all_handle. intros t Hin. specialize (Ht t Hin). congruence.
    - split; [| split; assumption]. destruct (timers w) as [|t ts] eqn:E; [reflexivity |].
      exfalso. specialize (Ht t (or_introl eq_refl)). congruence. }
  revert Hr1 Hfacts. generalize (run_event EvStop w) as w1. intros w1 Hr1 (Ht1 & Hrot1 & Hf1).
  pose proof (reachable_inv w1 Hr1) as Hi1.
  split; [exact Ht1 |].
  induction Hevs as [|ev evs Hev Hevs IH]; [reflexivity |].
  rewrite run_events_cons.
  assert (E : run_event ev w1 = w1).
  { destruct Hev as [-> | [-> | ->]].
    - now apply run_frame_idle.
    - unfold run_event, run_timer. now rewrite Ht1.
    - rewrite (stop_run w1 r Hi1 Hrot1). destruct (timeoutId r); [| reflexivity].
      apply set_timers_same. now rewrite Ht1. }
  rewrite E. exact IH.
Qed.

(** The frame that completes a rotator's transition arms the next
    step: one timeout, due [interval] milliseconds after the completion
    (0 for a negative interval), recorded as [timeoutId]; the clock does
    not move. *)
Theorem completion_schedules_next (w : world) (r : rotator) :
  reachable w -> rot w = Some r -> frames w <> [] ->
  Forall (fun t => (end_ t <= frame (sc w))%Z) (queue (sc w)) ->
  nth_error (promises w) (pred (List.length (promises w))) = Some (mk_promise false [ReactNext]) ->
  timers (run_event EvFrame w) = timers w ++ [(next_handle w, now w + Z.max 0 (interval r))%Z] /\
  now (run_event EvFrame w) = now w /\
  option_map timeoutId (rot (run_event EvFrame w)) = Some (Some (next_handle w)).
Proof.
  intros Hr Hrot Hne Hfz Hp. pose proof (reachable_inv w Hr) as Hi.
  destruct (inv_frames w Hi) as [E | (h & E & _)]; [contradiction |].
  destruct (inv_in_flight w Hi Hne) as [_ (rs & Hres & Hp')].
  rewrite (frame_done_step w h [ReactNext] E Hres Hp Hfz).
  rewrite (checkpoint_one _ ReactNext) by (cbn; now rewrite (inv_jobs w Hi)).
  rewrite (run_reaction_next _ r) by exact Hrot. cbn. auto.
Qed.

(** [next()] (here through [start()]) starts the transition to the
    word at [currentIndex] and advances the index at once, before that
    transition completes; a new promise becomes the session's. *)
Theorem start_advances_index (w : world) (r : rotator) (word : jsstring) :
  reachable w -> rot w = Some r -> nth_error (words r) (currentIndex r) = Some word ->
  concat (map to (queue (sc (run_event EvStart w)))) = word /\
  option_map (fun r => (words r, currentIndex r)) (rot (run_event EvStart w)) =
    Some (words r, Nat.modulo (currentIndex r + 1) (List.length (words r))) /\
  List.length (promises (run_event EvStart w)) = S (List.length (promises w)).
Proof.
  intros Hr Hrot Ew.
  destruct (next_new_session w r word (reachable_inv w Hr) Hrot Ew) as (Hl & _ & Hto & Hrot').
  unfold run_event, start. split; [exact Hto |]. split; [| exact Hl].
  destruct (rot (callback next w)) as [r'|]; [| discriminate].
  cbn in Hrot' |- *. injection Hrot' as -> _ ->. reflexivity.
Qed.

(** C20: [new WordRotator(el, [])] throws: [words[0]] is [undefined] and
    [setText] reads its [length].  The error is reported, the element keeps
    its text, and nothing is scheduled. *)
Theorem WordRotator_empty_words (content : jsstring) (iv : option Z) (g : R) :
  errors (init_rotator content [] iv g) = [ReadLengthOfUndefined] /\
  promises (init_rotator content [] iv g) = [] /\
  frames (init_rotator content [] iv g) = [] /\
  timers (init_rotator content [] iv g) = [] /\
  el (init_rotator content [] iv g) = content.
Proof. repeat split. Qed.

End Host.

(** ** The theorems at concrete inputs

    A rotator over ["Design"; "Develop"] with a 2500 ms interval on an
    element showing "Hi", with the source [park_miller] seeded with 7 and
    [strip_spans] as the HTML reading. *)

Lemma reachable_single_frame_chain_witness :
  reachable strip_spans (init_rotator strip_spans (js "Hi") [js "Design"; js "Develop"] (Some 2500%Z) 7%Z) /\
  (frames (init_rotator strip_spans (js "Hi") [js "Design"; js "Develop"] (Some 2500%Z) 7%Z) = [] \/ exists h, frames (init_rotator strip_spans (js "Hi") [js "Design"; js "Develop"] (Some 2500%Z) 7%Z) = [h] /\ frameRequest (sc (init_rotator strip_spans (js "Hi") [js "Design"; js "Develop"] (Some 2500%Z) 7%Z)) = Some h) /\
  (frames (init_rotator strip_spans (js "Hi") [js "Design"; js "Develop"] (Some 2500%Z) 7%Z) <> [] <-> exists p, resolve (sc (init_rotator strip_spans (js "Hi") [js "Design"; js "Develop"] (Some 2500%Z) 7%Z)) = Some p /\ pending (init_rotator strip_spans (js "Hi") [js "Design"; js "Develop"] (Some 2500%Z) 7%Z) p).
Proof.
  split; [apply reach_rotator |]. apply (reachable_single_frame_chain strip_spans). apply reach_rotator.
Defined.

Lemma reachable_errors_witness :
  reachable strip_spans (init_rotator strip_spans (js "Hi") [js "Design"; js "Develop"] (Some 2500%Z) 7%Z) /\
  Forall (eq ReadLengthOfUndefined) (errors (init_rotator strip_spans (js "Hi") [js "Design"; js "Develop"] (Some 2500%Z) 7%Z)) /\
  (errors (init_rotator strip_spans (js "Hi") [js "Design"; js "Develop"] (Some 2500%Z) 7%Z) <> [] -> exists r, rot (init_rotator strip_spans (js "Hi") [js "Design"; js "Develop"] (Some 2500%Z) 7%Z) = Some r /\ words r = []).
Proof. split; [apply reach_rotator |]. apply (reachable_errors strip_spans). apply reach_rotator. Defined.

Lemma session_completes_witness :
  reachable strip_spans (init_rotator strip_spans (js "Hi") [js "Design"; js "Develop"] (Some 2500%Z) 7%Z) /\ frames (init_rotator strip_spans (js "Hi") [js "Design"; js "Develop"] (Some 2500%Z) 7%Z) <> [] /\
  frames (run_events strip_spans (repeat EvFrame 78) (init_rotator strip_spans (js "Hi") [js "Design"; js "Develop"] (Some 2500%Z) 7%Z)) = [] /\
  el (run_events strip_spans (repeat EvFrame 78) (init_rotator strip_spans (js "Hi") [js "Design"; js "Develop"] (Some 2500%Z) 7%Z)) = concat (map to (queue (sc (init_rotator strip_spans (js "Hi") [js "Design"; js "Develop"] (Some 2500%Z) 7%Z)))) /\
  nth_error (promises (run_events strip_spans (repeat EvFrame 78) (init_rotator strip_spans (js "Hi") [js "Design"; js "Develop"] (Some 2500%Z) 7%Z))) (pred (List.length (promises (init_rotator strip_spans (js "Hi") [js "Design"; js "Develop"] (Some 2500%Z) 7%Z)))) =
    Some (mk_promise true []).
Proof.
  assert (Hne : frames (init_rotator strip_spans (js "Hi") [js "Design"; js "Develop"] (Some 2500%Z) 7%Z) <> []) by (vm_compute; discriminate).
  split; [apply reach_rotator | split; [exact Hne |]].
  apply (session_completes strip_spans); [apply reach_rotator | exact Hne].
Defined.

Lemma setText_completes_witness :
  reachable strip_spans (init_world (js "AB") 7%Z) /\
  el (run_events strip_spans (EvSetText [] :: repeat EvFrame 78) (init_world (js "AB") 7%Z)) = [] /\
  nth_error (promises (run_events strip_spans (EvSetText [] :: repeat EvFrame 78) (init_world (js "AB") 7%Z)))
    (List.length (promises (init_world (js "AB") 7%Z))) = Some (mk_promise true []).
Proof. split; [apply reach_scrambler |]. apply (setText_completes strip_spans). apply reach_scrambler. Defined.

Lemma superseded_promise_frozen_witness :
  reachable strip_spans (run_event strip_spans (EvSetText (js "Go")) (init_rotator strip_spans (js "Hi") [js "Design"; js "Develop"] (Some 2500%Z) 7%Z)) /\
  (1 < List.length (promises (run_event strip_spans (EvSetText (js "Go")) (init_rotator strip_spans (js "Hi") [js "Design"; js "Develop"] (Some 2500%Z) 7%Z))))%nat /\
  nth_error (promises (run_events strip_spans [EvFrame; EvTimer; EvStart]
                         (run_event strip_spans (EvSetText (js "Go")) (init_rotator strip_spans (js "Hi") [js "Design"; js "Develop"] (Some 2500%Z) 7%Z)))) 0 =
  nth_error (promises (run_event strip_spans (EvSetText (js "Go")) (init_rotator strip_spans (js "Hi") [js "Design"; js "Develop"] (Some 2500%Z) 7%Z))) 0.
Proof.
  assert (Hr : reachable strip_spans (run_event strip_spans (EvSetText (js "Go")) (init_rotator strip_spans (js "Hi") [js "Design"; js "Develop"] (Some 2500%Z) 7%Z)))
    by (apply reach_step, reach_rotator).
  assert (Hlt : (1 < List.length (promises (run_event strip_spans (EvSetText (js "Go")) (init_rotator strip_spans (js "Hi") [js "Design"; js "Develop"] (Some 2500%Z) 7%Z))))%nat)
    by (vm_compute; lia).
  split; [exact Hr | split; [exact Hlt | exact (superseded_promise_frozen _ _ 0 _ Hr Hlt)]].
Defined.

Lemma setText_reads_screen_witness :
  reachable strip_spans (init_world (js "AB") 7%Z) /\
  concat (map from (queue (sc (run_event strip_spans (EvSetText (js "C")) (init_world (js "AB") 7%Z))))) =
  strip_spans (el (init_world (js "AB") 7%Z)).
Proof. split; [apply reach_scrambler |]. apply (setText_reads_screen strip_spans). apply reach_scrambler. Defined.

Lemma stop_during_transition_continues_witness :
  reachable strip_spans (init_rotator strip_spans (js "Hi") [js "Design"; js "Develop"] (Some 2500%Z) 7%Z) /\ rot (init_rotator strip_spans (js "Hi") [js "Design"; js "Develop"] (Some 2500%Z) 7%Z) = Some (mk_rotator [js "Design"; js "Develop"] 2500 1%nat None) /\ words (mk_rotator [js "Design"; js "Develop"] 2500 1%nat None) <> [] /\
  nth_error (promises (init_rotator strip_spans (js "Hi") [js "Design"; js "Develop"] (Some 2500%Z) 7%Z)) (pred (List.length (promises (init_rotator strip_spans (js "Hi") [js "Design"; js "Develop"] (Some 2500%Z) 7%Z)))) = Some (mk_promise false [ReactNext]) /\
  In ReactNext [ReactNext] /\
  List.length (promises (run_events strip_spans (EvStop :: repeat EvFrame 78 ++ [EvTimer]) (init_rotator strip_spans (js "Hi") [js "Design"; js "Develop"] (Some 2500%Z) 7%Z))) =
  S (List.length (promises (init_rotator strip_spans (js "Hi") [js "Design"; js "Develop"] (Some 2500%Z) 7%Z))).
Proof.
  assert (Hrot : rot (init_rotator strip_spans (js "Hi") [js "Design"; js "Develop"] (Some 2500%Z) 7%Z) = Some (mk_rotator [js "Design"; js "Develop"] 2500 1%nat None)) by (vm_compute; reflexivity).
  assert (Hw : words (mk_rotator [js "Design"; js "Develop"] 2500 1%nat None) <> []) by (vm_compute; discriminate).
  assert (Hp : nth_error (promises (init_rotator strip_spans (js "Hi") [js "Design"; js "Develop"] (Some 2500%Z) 7%Z)) (pred (List.length (promises (init_rotator strip_spans (js "Hi") [js "Design"; js "Develop"] (Some 2500%Z) 7%Z)))) = Some (mk_promise false [ReactNext]))
    by (vm_compute; reflexivity).
  assert (Hin : In ReactNext [ReactNext]) by (simpl; auto).
  split; [apply reach_rotator |]. split; [exact Hrot |]. split; [exact Hw |]. split; [exact Hp |].
  split; [exact Hin |]. exact (stop_during_transition_continues _ _ _ _ (reach_rotator _ _ _ _ _) Hrot Hw Hp Hin).
Defined.

Lemma stop_when_idle_quiesces_witness :
  reachable strip_spans (run_events strip_spans (repeat EvFrame 78) (init_rotator strip_spans (js "Hi") [js "Design"; js "Develop"] (Some 2500%Z) 7%Z)) /\
  rot (run_events strip_spans (repeat EvFrame 78) (init_rotator strip_spans (js "Hi") [js "Design"; js "Develop"] (Some 2500%Z) 7%Z)) = Some (mk_rotator [js "Design"; js "Develop"] 2500 1%nat (Some 53%nat)) /\
  frames (run_events strip_spans (repeat EvFrame 78) (init_rotator strip_spans (js "Hi") [js "Design"; js "Develop"] (Some 2500%Z) 7%Z)) = [] /\
  timers (run_event strip_spans EvStop (run_events strip_spans (repeat EvFrame 78) (init_rotator strip_spans (js "Hi") [js "Design"; js "Develop"] (Some 2500%Z) 7%Z))) = [] /\
  run_events strip_spans [EvFrame; EvTimer; EvStop] (run_event strip_spans EvStop (run_events strip_spans (repeat EvFrame 78) (init_rotator strip_spans (js "Hi") [js "Design"; js "Develop"] (Some 2500%Z) 7%Z))) =
  run_event strip_spans EvStop (run_events strip_spans (repeat EvFrame 78) (init_rotator strip_spans (js "Hi") [js "Design"; js "Develop"] (Some 2500%Z) 7%Z)).
Proof.
  assert (Hr : reachable strip_spans (run_events strip_spans (repeat EvFrame 78) (init_rotator strip_spans (js "Hi") [js "Design"; js "Develop"] (Some 2500%Z) 7%Z)))
    by (apply reachable_run_events, reach_rotator).
  assert (Hrot : rot (run_events strip_spans (repeat EvFrame 78) (init_rotator strip_spans (js "Hi") [js "Design"; js "Develop"] (Some 2500%Z) 7%Z)) =
                 Some (mk_rotator [js "Design"; js "Develop"] 2500 1%nat (Some 53%nat))) by (vm_compute; reflexivity).
  assert (Hfr : frames (run_events strip_spans (repeat EvFrame 78) (init_rotator strip_spans (js "Hi") [js "Design"; js "Develop"] (Some 2500%Z) 7%Z)) = []) by (vm_compute; reflexivity).
  assert (Ht : forall t, In t (timers (run_events strip_spans (repeat EvFrame 78) (init_rotator strip_spans (js "Hi") [js "Design"; js "Develop"] (Some 2500%Z) 7%Z))) ->
                 timeoutId (mk_rotator [js "Design"; js "Develop"] 2500 1%nat (Some 53%nat)) = Some (fst t)).
  { vm_compute. intros t [<- | []]. reflexivity. }
  assert (Hevs : Forall (fun ev => ev = EvFrame \/ ev = EvTimer \/ ev = EvStop) [EvFrame; EvTimer; EvStop])
    by (repeat constructor; auto).
  split; [exact Hr |]. split; [exact Hrot |]. split; [exact Hfr |].
  exact (stop_when_idle_quiesces _ _ _ _ Hr Hrot Hfr Ht Hevs).
Defined.

Lemma completion_schedules_next_witness :
  reachable strip_spans (run_events strip_spans (repeat EvFrame 51) (init_rotator strip_spans (js "Hi") [js "Design"; js "Develop"] (Some 2500%Z) 7%Z)) /\
  timers (run_event strip_spans EvFrame (run_events strip_spans (repeat EvFrame 51) (init_rotator strip_spans (js "Hi") [js "Design"; js "Develop"] (Some 2500%Z) 7%Z))) =
    timers (run_events strip_spans (repeat EvFrame 51) (init_rotator strip_spans (js "Hi") [js "Design"; js "Develop"] (Some 2500%Z) 7%Z)) ++
    [(next_handle (run_events strip_spans (repeat EvFrame 51) (init_rotator strip_spans (js "Hi") [js "Design"; js "Develop"] (Some 2500%Z) 7%Z)),
      now (run_events strip_spans (repeat EvFrame 51) (init_rotator strip_spans (js "Hi") [js "Design"; js "Develop"] (Some 2500%Z) 7%Z)) + Z.max 0 (interval (mk_rotator [js "Design"; js "Develop"] 2500 1%nat None)))%Z] /\
  now (run_event strip_spans EvFrame (run_events strip_spans (repeat EvFrame 51) (init_rotator strip_spans (js "Hi") [js "Design"; js "Develop"] (Some 2500%Z) 7%Z))) =
    now (run_events strip_spans (repeat EvFrame 51) (init_rotator strip_spans (js "Hi") [js "Design"; js "Develop"] (Some 2500%Z) 7%Z)) /\
  option_map timeoutId (rot (run_event strip_spans EvFrame (run_events strip_spans (repeat EvFrame 51) (init_rotator strip_spans (js "Hi") [js "Design"; js "Develop"] (Some 2500%Z) 7%Z)))) =
    Some (Some (next_handle (run_events strip_spans (repeat EvFrame 51) (init_rotator strip_spans (js "Hi") [js "Design"; js "Develop"] (Some 2500%Z) 7%Z)))).
Proof.
  assert (Hr : reachable strip_spans (run_events strip_spans (repeat EvFrame 51) (init_rotator strip_spans (js "Hi") [js "Design"; js "Develop"] (Some 2500%Z) 7%Z)))
    by (apply reachable_run_events, reach_rotator).
  assert (Hrot : rot (run_events strip_spans (repeat EvFrame 51) (init_rotator strip_spans (js "Hi") [js "Design"; js "Develop"] (Some 2500%Z) 7%Z)) = Some (mk_rotator [js "Design"; js "Develop"] 2500 1%nat None)) by (vm_compute; reflexivity).
  assert (Hne : frames (run_events strip_spans (repeat EvFrame 51) (init_rotator strip_spans (js "Hi") [js "Design"; js "Develop"] (Some 2500%Z) 7%Z)) <> []) by (vm_compute; discriminate).
  assert (Hfz : Forall (fun t => (end_ t <= frame (sc (run_events strip_spans (repeat EvFrame 51) (init_rotator strip_spans (js "Hi") [js "Design"; js "Develop"] (Some 2500%Z) 7%Z))))%Z)
                  (queue (sc (run_events strip_spans (repeat EvFrame 51) (init_rotator strip_spans (js "Hi") [js "Design"; js "Develop"] (Some 2500%Z) 7%Z)))))
    by (vm_compute; repeat constructor; discriminate).
  assert (Hp : nth_error (promises (run_events strip_spans (repeat EvFrame 51) (init_rotator strip_spans (js "Hi") [js "Design"; js "Develop"] (Some 2500%Z) 7%Z)))
                 (pred (List.length (promises (run_events strip_spans (repeat EvFrame 51) (init_rotator strip_spans (js "Hi") [js "Design"; js "Develop"] (Some 2500%Z) 7%Z))))) =
               Some (mk_promise false [ReactNext])) by (vm_compute; reflexivity).
  split; [exact Hr |]. exact (completion_schedules_next _ _ _ Hr Hrot Hne Hfz Hp).
Defined.

Lemma start_advances_index_witness :
  reachable strip_spans (init_rotator strip_spans (js "Hi") [js "Design"; js "Develop"] (Some 2500%Z) 7%Z) /\ rot (init_rotator strip_spans (js "Hi") [js "Design"; js "Develop"] (Some 2500%Z) 7%Z) = Some (mk_rotator [js "Design"; js "Develop"] 2500 1%nat None) /\
  nth_error (words (mk_rotator [js "Design"; js "Develop"] 2500 1%nat None)) (currentIndex (mk_rotator [js "Design"; js "Develop"] 2500 1%nat None)) = Some (js "Develop") /\
  concat (map to (queue (sc (run_event strip_spans EvStart (init_rotator strip_spans (js "Hi") [js "Design"; js "Develop"] (Some 2500%Z) 7%Z))))) = js "Develop" /\
  option_map (fun r => (words r, currentIndex r)) (rot (run_event strip_spans EvStart (init_rotator strip_spans (js "Hi") [js "Design"; js "Develop"] (Some 2500%Z) 7%Z))) =
    Some (words (mk_rotator [js "Design"; js "Develop"] 2500 1%nat None), Nat.modulo (currentIndex (mk_rotator [js "Design"; js "Develop"] 2500 1%nat None) + 1) (List.length (words (mk_rotator [js "Design"; js "Develop"] 2500 1%nat None)))) /\
  List.length (promises (run_event strip_spans EvStart (init_rotator strip_spans (js "Hi") [js "Design"; js "Develop"] (Some 2500%Z) 7%Z))) = S (List.length (promises (init_rotator strip_spans (js "Hi") [js "Design"; js "Develop"] (Some 2500%Z) 7%Z))).
Proof.
  assert (Hrot : rot (init_rotator strip_spans (js "Hi") [js "Design"; js "Develop"] (Some 2500%Z) 7%Z) = Some (mk_rotator [js "Design"; js "Develop"] 2500 1%nat None)) by (vm_compute; reflexivity).
  assert (Ew : nth_error (words (mk_rotator [js "Design"; js "Develop"] 2500 1%nat None)) (currentIndex (mk_rotator [js "Design"; js "Develop"] 2500 1%nat None)) = Some (js "Develop")) by reflexivity.
  split; [apply reach_rotator |]. split; [exact Hrot |]. split; [exact Ew |].
  exact (start_advances_index _ _ _ _ (reach_rotator _ _ _ _ _) Hrot Ew).
Defined.

Lemma WordRotator_empty_words_witness :
  errors (init_rotator strip_spans (js "Hi") [] None 7%Z) = [ReadLengthOfUndefined] /\
  promises (init_rotator strip_spans (js "Hi") [] None 7%Z) = [] /\
  frames (init_rotator strip_spans (js "Hi") [] None 7%Z) = [] /\
  timers (init_rotator strip_spans (js "Hi") [] None 7%Z) = [] /\
  el (init_rotator strip_spans (js "Hi") [] None 7%Z) = js "Hi".
Proof. exact (WordRotator_empty_words strip_spans (js "Hi") None 7%Z). Defined.

End Runtime.
