(* ===== verification/Config.v ===== *)
(** * Word rotators built from markup ([initKineticText], src/unnamed/part_001)

    For an element with [data-kinetic="rotate"]: the word list
    [el.dataset.words?.split(',').map((w) => w.trim()) || []], the
    interval [parseInt(el.dataset.interval, 10) || 3000], and the
    [WordRotator] built when the list is not empty, in the event-loop
    model of [Runtime.v].  [String.prototype.split] and [trim] are
    modelled on code units. *)

From Stdlib Require Import String ZArith QArith Qround List Lia.
From S2P Require Import Prelude JsNum Scramble Runtime.
Import ListNotations JsNum Runtime.

Module Config.

(** [s.split(sep)] for a one-unit separator. *)
Fixpoint split_on (sep : Z) (s : jsstring) : list jsstring :=
  match s with
  | [] => [[]]
  | c :: r =>
      if (c =? sep)%Z then [] :: split_on sep r
      else match split_on sep r with
           | w :: ws => (c :: w) :: ws
           | [] => [[c]]
           end
  end.

(** [words.join(sep)] for a one-unit separator. *)
Fixpoint join (sep : Z) (ws : list jsstring) : jsstring :=
  match ws with
  | [] => []
  | [w] => w
  | w :: r => w ++ sep :: join sep r
  end.

(** [s.trim()]: white space and line terminators removed at both ends. *)
Definition trim (s : jsstring) : jsstring := rev (strip_ws (rev (strip_ws s))).

(** [el.dataset.words?.split(',').map((w) => w.trim()) || []]: an absent
    attribute gives [undefined], hence [[]]; a present one an array,
    which is truthy even when it holds one empty string. *)
Definition words_of (dataWords : option jsstring) : list jsstring :=
  match dataWords with
  | Some s => map trim (split_on 44 s)
  | None => []
  end.

(** The delay [setTimeout] receives: an integer number of milliseconds. *)
Definition num_to_int (n : num) : Z :=
  match n with Fin q => Qfloor q | _ => 0%Z end.

(** [parseInt(el.dataset.interval, 10) || 3000]. *)
Definition interval_of (dataInterval : option jsstring) : Z :=
  num_to_int (or_default (attr_number parseInt10 dataInterval) (Fin 3000)).

Section Build.
Context {R : Type} `{RandomSourceOk R}.
Variable text_content : jsstring -> jsstring.

(** The element showing [content] after the rotation branch of
    [initKineticText]: a [WordRotator] when the list is not empty. *)
Definition kinetic_rotate (content : jsstring) (dataWords dataInterval : option jsstring) (g : R) : world :=
  let ws := words_of dataWords in
  if Nat.ltb 0 (List.length ws)
  then init_rotator text_content content ws (Some (interval_of dataInterval)) g
  else init_world content g.

(** ** Lemmas *)

Lemma split_on_nonempty (sep : Z) (s : jsstring) : split_on sep s <> [].
Proof.
  destruct s as [|c r]; cbn; [discriminate |].
  destruct (c =? sep)%Z; [discriminate |]. destruct (split_on sep r); discriminate.
Qed.

(** Splitting on a separator and joining with it gives the string back. *)
Lemma join_split_on (sep : Z) (s : jsstring) : join sep (split_on sep s) = s.
Proof.
  induction s as [|c r IH]; [reflexivity |]. cbn [split_on].
  destruct (c =? sep)%Z eqn:E.
  - apply Z.eqb_eq in E. subst c. cbn. pose proof (split_on_nonempty sep r) as Hn.
    destruct (split_on sep r) as [|w ws]; [contradiction |]. destruct ws; rewrite <- IH; reflexivity.
  - pose proof (split_on_nonempty sep r) as Hn. destruct (split_on sep r) as [|w ws]; [contradiction |].
    destruct ws; cbn in *; rewrite <- IH; reflexivity.
Qed.

(** A present [data-words] attribute always gives at least one word. *)
Lemma words_of_present (s : jsstring) : words_of (Some s) <> [].
Proof.
  cbn. pose proof (split_on_nonempty 44 s). destruct (split_on 44 s); [contradiction | discriminate].
Qed.

(** The rotation branch of [initKineticText] never throws, whatever
    [data-words] and [data-interval] hold: a rotator is built exactly
    when [data-words] is present, and then with at least one word, so
    the empty-list error of [new WordRotator(el, [])] cannot arise. *)
Theorem kinetic_rotate_safe (content : jsstring) (dataWords dataInterval : option jsstring) (g : R) :
  errors (kinetic_rotate content dataWords dataInterval g) = [] /\
  (rot (kinetic_rotate content dataWords dataInterval g) <> None <-> dataWords <> None).
Proof.
  unfold kinetic_rotate. destruct dataWords as [s|].
  - pose proof (words_of_present s) as Hne.
    destruct (words_of (Some s)) as [|w ws] eqn:E; [contradiction |]. cbn [List.length Nat.ltb Nat.leb].
    rewrite <- E in *.
    pose proof (init_rotator_inv text_content content (words_of (Some s)) (Some (interval_of dataInterval)) g) as Hi.
    pose proof (init_rotator_words text_content content (words_of (Some s)) (Some (interval_of dataInterval)) g Hne) as Hw.
    split.
    + destruct (errors _) as [|e es] eqn:Ee; [reflexivity | exfalso].
      destruct (proj2 (inv_errors _ Hi)) as (r & Hr & Hr0); [rewrite Ee; discriminate |].
      rewrite Hr in Hw. injection Hw as Hw. rewrite Hw in Hr0. exact (Hne Hr0).
    + split; [discriminate | intros _]. destruct (rot _); discriminate.
  - cbn. split; [reflexivity |]. split; intros Hx; now exfalso.
Qed.

End Build.

Lemma kinetic_rotate_safe_witness :
  errors (kinetic_rotate strip_spans (js "Hi") (Some (js "Design, Develop")) None 7%Z) = [] /\
  (rot (kinetic_rotate strip_spans (js "Hi") (Some (js "Design, Develop")) None 7%Z) <> None <->
   Some (js "Design, Develop") <> None).
Proof. exact (kinetic_rotate_safe strip_spans (js "Hi") (Some (js "Design, Develop")) None 7%Z). Defined.

End Config.
