(* ===== verification/Vite.v ===== *)
(** * The build configuration (src/vite.config.js)

    [defineConfig] receives an object literal: the project root, the
    output directory, the multi-page inputs of Rollup (one HTML entry per
    site), and the dev server's port.  [resolve(__dirname, p)] is modelled
    for the relative paths the file uses: the directory, a slash, the
    path.  The theorems check what a multi-page build needs of its inputs:
    distinct entry names and distinct HTML files, each an [index.html]
    inside the project directory. *)

From Stdlib Require Import String ZArith List Lia.
From S2P Require Import Prelude.
Import ListNotations.

Module Vite.

(** [path.resolve(dir, p)] for a relative [p] without [..] segments. *)
Definition resolve (dir p : jsstring) : jsstring := dir ++ js "/" ++ p.

Record config := mk_config {
  root : jsstring;
  outDir : jsstring;
  input : list (jsstring * jsstring);
  port : Z;
  open_browser : bool
}.

(** [defineConfig({...})] with [__dirname] the directory of the file. *)
Definition vite_config (dirname : jsstring) : config :=
  mk_config (js ".") (js "dist")
    [(js "main", resolve dirname (js "index.html"));
     (js "meridian", resolve dirname (js "meridian/index.html"));
     (js "artisan", resolve dirname (js "artisan/index.html"));
     (js "aurora", resolve dirname (js "aurora/index.html"));
     (js "noir", resolve dirname (js "noir/index.html"));
     (js "savor", resolve dirname (js "savor/index.html"))]
    5175%Z true.

(** [s] ends with [suffix]. *)
Definition ends_with (suffix s : jsstring) : bool :=
  js_eqb (skipn (List.length s - List.length suffix) s) suffix.

(** ** Lemmas *)

Lemma resolve_inj (dir p q : jsstring) : resolve dir p = resolve dir q -> p = q.
Proof. unfold resolve. intros H. apply app_inv_head in H. apply app_inv_head in H. exact H. Qed.

Lemma nodup_map_inj {A B} (f : A -> B) (l : list A) :
  (forall x y, f x = f y -> x = y) -> NoDup l -> NoDup (map f l).
Proof.
  intros Hf Hl. induction Hl as [|x l Hx Hl IH]; cbn; constructor; [| exact IH].
  intros Hin. apply in_map_iff in Hin as (y & Hy & Hyl). apply Hf in Hy. subst. contradiction.
Qed.

(** ** Properties *)

(** For every directory the file sits in, the build has six
    entries with distinct names and distinct HTML files, each one an
    [index.html] under that directory, and the dev server listens on
    port 5175. *)
Theorem vite_inputs_distinct (dirname : jsstring) :
  let c := vite_config dirname in
  List.length (input c) = 6%nat /\ NoDup (map fst (input c)) /\ NoDup (map snd (input c)) /\
  Forall (fun e => exists p, snd e = resolve dirname p /\ ends_with (js "index.html") p = true) (input c) /\
  port c = 5175%Z.
Proof.
  cbv zeta. split; [reflexivity | split; [| split; [| split; [| reflexivity]]]].
  - cbn. repeat constructor; cbn; intuition discriminate.
  - change (map snd (input (vite_config dirname))) with
      (map (resolve dirname) [js "index.html"; js "meridian/index.html"; js "artisan/index.html";
                               js "aurora/index.html"; js "noir/index.html"; js "savor/index.html"]).
    apply nodup_map_inj; [exact (resolve_inj dirname) |]. repeat constructor; cbn; intuition discriminate.
  - apply Forall_forall. intros e He. cbn in He.
    repeat (destruct He as [<- | He]; [eexists; split; [reflexivity | vm_compute; reflexivity] |]). contradiction.
Qed.

End Vite.
