(* ===== verification/Cursor.v ===== *)
(** * The custom cursor ([Cursor], src/src/js/cursor.js)

    The fields of a [Cursor], the three elements [createElements] makes,
    the listeners [bindEvents] and [bindHoverTargets] add, the [animate]
    loop on animation frames and the entrance timer, as handlers of a
    [world] in the exception monad of the prelude: a handler that reads a
    property of a null element throws, and the host reports it.
    Coordinates are rationals ([Q]): the model computes the lerp exactly,
    where the browser rounds to doubles. *)

From Stdlib Require Import String ZArith QArith Qabs Lqa List Lia.
From S2P Require Import Prelude Dom.
Import ListNotations.

Module Cursor.

(** ** Data *)

(** The values [setState] writes to [dataset.state]. *)
Inductive cursor_state := Default | Hover | Media | TextState | Hidden | Click.

Definition state_name (s : cursor_state) : jsstring :=
  match s with
  | Default => js "default"
  | Hover => js "hover"
  | Media => js "media"
  | TextState => js "text"
  | Hidden => js "hidden"
  | Click => js "click"
  end.

(** [{ x, y }]. *)
Record point := mk_point { px : Q; py : Q }.

(** The dot, the ring and the text span inside the ring, with the
    properties the module writes ([None]: a style property never set). *)
Record elements := mk_elements {
  dot_state : cursor_state;
  ring_state : cursor_state;
  dot_opacity : option jsstring;
  ring_opacity : option jsstring;
  dot_at : option point;
  ring_at : option point;
  text : jsstring
}.

(** The fields of a [Cursor]: [els] is [None] while [this.dot],
    [this.ring] and [this.text] are [null]. *)
Record cursor := mk_cursor {
  els : option elements;
  pos : point;
  mouse : point;
  visible : bool;
  dotSpeed : Q;
  ringSpeed : Q
}.

(** An element of the page as the selectors of [bindHoverTargets] read it:
    its tag name and the attributes [data-cursor], [data-cursor-text] and
    [type]. *)
Record target := mk_target {
  tag : jsstring;
  data_cursor : option jsstring;
  data_cursor_text : option jsstring;
  input_type : option jsstring
}.

(** The [mouseenter] listeners [bindHoverTargets] adds to an element; each
    comes with a [mouseleave] listener calling [setState('default')]. *)
Inductive enter_action := EnterHover | EnterMedia | EnterText | EnterHidden.

(** [TypeError]: a property of [null] read or written. *)
Inductive cursor_error := NullElement.

(** The page with its cursor: whether it is a touch device, its elements,
    the [Cursor], the listeners added, a pending animation frame, the
    timers with the clock, [document.body.classList], and the reported
    exceptions. *)
Record world := mk_world {
  touch : bool;
  page : list target;
  cur : cursor;
  doc_bound : bool;
  bindings : list (nat * enter_action);
  anim : bool;
  timers : list (Dom.timer unit);
  next_id : nat;
  now : Z;
  body : Dom.class_list;
  errors : list cursor_error
}.

Definition M (A : Type) := Exc world cursor_error A.

(** ** Record updates *)

Definition set_cur (w : world) (c : cursor) : world :=
  mk_world (touch w) (page w) c (doc_bound w) (bindings w) (anim w) (timers w) (next_id w) (now w) (body w) (errors w).
Definition set_doc_bound (w : world) : world :=
  mk_world (touch w) (page w) (cur w) true (bindings w) (anim w) (timers w) (next_id w) (now w) (body w) (errors w).
Definition set_bindings (w : world) (b : list (nat * enter_action)) : world :=
  mk_world (touch w) (page w) (cur w) (doc_bound w) b (anim w) (timers w) (next_id w) (now w) (body w) (errors w).
Definition set_anim (w : world) (a : bool) : world :=
  mk_world (touch w) (page w) (cur w) (doc_bound w) (bindings w) a (timers w) (next_id w) (now w) (body w) (errors w).
Definition set_timers (w : world) (ts : list (Dom.timer unit)) (n : nat) : world :=
  mk_world (touch w) (page w) (cur w) (doc_bound w) (bindings w) (anim w) ts n (now w) (body w) (errors w).
Definition set_clock (w : world) (t : Z) (b : Dom.class_list) : world :=
  mk_world (touch w) (page w) (cur w) (doc_bound w) (bindings w) (anim w) (timers w) (next_id w) t b (errors w).
Definition add_error (w : world) (e : cursor_error) : world :=
  mk_world (touch w) (page w) (cur w) (doc_bound w) (bindings w) (anim w) (timers w) (next_id w) (now w) (body w) (errors w ++ [e]).

Definition with_els (c : cursor) (e : option elements) : cursor :=
  mk_cursor e (pos c) (mouse c) (visible c) (dotSpeed c) (ringSpeed c).
Definition with_pos (c : cursor) (p : point) : cursor :=
  mk_cursor (els c) p (mouse c) (visible c) (dotSpeed c) (ringSpeed c).
Definition with_mouse (c : cursor) (p : point) : cursor :=
  mk_cursor (els c) (pos c) p (visible c) (dotSpeed c) (ringSpeed c).
Definition with_visible (c : cursor) : cursor :=
  mk_cursor (els c) (pos c) (mouse c) true (dotSpeed c) (ringSpeed c).

Definition with_dot_state (e : elements) (s : cursor_state) : elements :=
  mk_elements s (ring_state e) (dot_opacity e) (ring_opacity e) (dot_at e) (ring_at e) (text e).
Definition with_ring_state (e : elements) (s : cursor_state) : elements :=
  mk_elements (dot_state e) s (dot_opacity e) (ring_opacity e) (dot_at e) (ring_at e) (text e).
Definition with_dot_opacity (e : elements) (o : jsstring) : elements :=
  mk_elements (dot_state e) (ring_state e) (Some o) (ring_opacity e) (dot_at e) (ring_at e) (text e).
Definition with_ring_opacity (e : elements) (o : jsstring) : elements :=
  mk_elements (dot_state e) (ring_state e) (dot_opacity e) (Some o) (dot_at e) (ring_at e) (text e).
Definition with_dot_at (e : elements) (p : point) : elements :=
  mk_elements (dot_state e) (ring_state e) (dot_opacity e) (ring_opacity e) (Some p) (ring_at e) (text e).
Definition with_ring_at (e : elements) (p : point) : elements :=
  mk_elements (dot_state e) (ring_state e) (dot_opacity e) (ring_opacity e) (dot_at e) (Some p) (text e).
Definition with_text (e : elements) (t : jsstring) : elements :=
  mk_elements (dot_state e) (ring_state e) (dot_opacity e) (ring_opacity e) (dot_at e) (ring_at e) t.

(** A write to a property of the elements: [TypeError] while they are
    [null]. *)
Definition write_els (f : elements -> elements) : M unit :=
  let* w := exc_get in
  match els (cur w) with
  | None => exc_throw NullElement
  | Some e => exc_put (set_cur w (with_els (cur w) (Some (f e))))
  end.

Definition modify_cur (f : cursor -> cursor) : M unit :=
  exc_modify (fun w => set_cur w (f (cur w))).

(** ** The methods *)

(** [setState(state)]: the dot's, then the ring's [dataset.state]. *)
Definition setState (s : cursor_state) : M unit :=
  write_els (fun e => with_dot_state e s) ;;;
  write_els (fun e => with_ring_state e s).

(** [setText(text)]: [this.text.textContent = text]. *)
Definition setText (t : jsstring) : M unit := write_els (fun e => with_text e t).

(** [onClick()] and [onRelease()] ("Return to previous state"). *)
Definition onClick : M unit := setState Click.
Definition onRelease : M unit := setState Default.

(** The [mousemove] listener of [bindEvents]. *)
Definition on_mousemove (p : point) : M unit :=
  modify_cur (fun c =>
    let c1 := with_mouse c p in
    if visible c1 then c1 else with_pos (with_visible c1) (mouse c1)).

(** The [mouseenter] and [mouseleave] listeners of the document. *)
Definition on_doc_enter : M unit :=
  write_els (fun e => with_dot_opacity e (js "1")) ;;;
  write_els (fun e => with_ring_opacity e (js "1")).

Definition on_doc_leave : M unit :=
  write_els (fun e => with_dot_opacity e (js "0")) ;;;
  write_els (fun e => with_ring_opacity e (js "0")).

(** [pos += (mouse - pos) * ringSpeed] on one coordinate. *)
Definition lerp (p m s : Q) : Q := p + (m - p) * s.

(** [requestAnimationFrame(() => this.animate())]. *)
Definition requestAnimationFrame : M unit := exc_modify (fun w => set_anim w true).

(** [animate()]: move the ring a [ringSpeed] share of the way to the
    mouse, place the dot on the mouse and the ring on [pos], and request
    the next frame. *)
Definition lerp_point (c : cursor) : point :=
  mk_point (lerp (px (pos c)) (px (mouse c)) (ringSpeed c))
           (lerp (py (pos c)) (py (mouse c)) (ringSpeed c)).

Definition animate : M unit :=
  modify_cur (fun c => with_pos c (lerp_point c)) ;;;
  let* w := exc_get in
  write_els (fun e => with_dot_at e (mouse (cur w))) ;;;
  write_els (fun e => with_ring_at e (pos (cur w))) ;;;
  requestAnimationFrame.

(** The selectors of [bindHoverTargets]. *)
Definition opt_is (v : option jsstring) (s : jsstring) : bool :=
  match v with Some x => js_eqb x s | None => false end.

(** ['a, button, [data-cursor="pointer"], input[type="submit"]']. *)
Definition is_hover_target (t : target) : bool :=
  js_eqb (tag t) (js "a") || js_eqb (tag t) (js "button") || opt_is (data_cursor t) (js "pointer")
  || (js_eqb (tag t) (js "input") && opt_is (input_type t) (js "submit")).

(** ['img, video, [data-cursor="media"]']. *)
Definition is_media_target (t : target) : bool :=
  js_eqb (tag t) (js "img") || js_eqb (tag t) (js "video") || opt_is (data_cursor t) (js "media").

(** ['[data-cursor-text]']. *)
Definition is_text_target (t : target) : bool :=
  match data_cursor_text t with Some _ => true | None => false end.

(** ['[data-cursor="hidden"]']. *)
Definition is_hidden_target (t : target) : bool := opt_is (data_cursor t) (js "hidden").

(** The elements [querySelectorAll(sel)] returns, in document order, with
    the listener [forEach] adds to each. *)
Definition select (sel : target -> bool) (a : enter_action) (pg : list target) : list (nat * enter_action) :=
  map (fun it => (fst it, a)) (filter (fun it => sel (snd it)) (combine (seq 0 (List.length pg)) pg)).

(** The listeners [bindHoverTargets] adds, group by group. *)
Definition hover_bindings (pg : list target) : list (nat * enter_action) :=
  select is_hover_target EnterHover pg ++ select is_media_target EnterMedia pg ++
  select is_text_target EnterText pg ++ select is_hidden_target EnterHidden pg.

Definition bindHoverTargets : M unit :=
  exc_modify (fun w => set_bindings w (bindings w ++ hover_bindings (page w))).

(** [bindEvents()]: the document's listeners, then the hover targets. *)
Definition bindEvents : M unit := exc_modify set_doc_bound ;;; bindHoverTargets.

(** [createElements()]. *)
Definition createElements : M unit :=
  modify_cur (fun c => with_els c (Some (mk_elements Default Default None None None None []))).

(** [setTimeout(() => body.classList.add('cursor-ready'), 100)]. *)
Definition setTimeout_ready : M unit :=
  exc_modify (fun w => set_timers w (Dom.schedule (timers w) (next_id w) (now w) 100 tt) (S (next_id w))).

(** [init()]: nothing on a touch device. *)
Definition init : M unit :=
  let* w := exc_get in
  if touch w then exc_ret tt
  else createElements ;;; bindEvents ;;; animate ;;; setTimeout_ready.

(** [new Cursor()]. *)
Definition Cursor_new : M unit :=
  modify_cur (fun _ => mk_cursor None (mk_point 0 0) (mk_point 0 0) false 1 (15 # 100)) ;;;
  init.

(** [refresh()]. *)
Definition refresh : M unit := bindHoverTargets.

(** The [mouseenter] listener for one action. *)
Definition on_enter (i : nat) (a : enter_action) : M unit :=
  match a with
  | EnterHover => setState Hover
  | EnterMedia => setState Media
  | EnterText =>
      let* w := exc_get in
      match nth_error (page w) i with
      | Some t => setText (js_or_empty (data_cursor_text t)) ;;; setState TextState
      | None => exc_ret tt
      end
  | EnterHidden => setState Hidden
  end.

(** The state the [mouseenter] listener of an action leaves. *)
Definition enter_state (a : enter_action) : cursor_state :=
  match a with
  | EnterHover => Hover
  | EnterMedia => Media
  | EnterText => TextState
  | EnterHidden => Hidden
  end.

(** ** The host *)

Definition call (m : M unit) (w : world) : world := report add_error m w.

(** The listeners of element [i], in the order they were added. *)
Definition listeners_of (i : nat) (b : list (nat * enter_action)) : list enter_action :=
  map snd (filter (fun x => Nat.eqb (fst x) i) b).

Inductive event :=
| EvMouseMove (p : point)
| EvDocEnter | EvDocLeave | EvDown | EvUp
| EvEnter (i : nat) | EvLeave (i : nat)
| EvFrame | EvTimer | EvRefresh.

(** A document listener runs only once [bindEvents] added it. *)
Definition doc_event (m : M unit) (w : world) : world :=
  if doc_bound w then call m w else w.

Definition run_event (ev : event) (w : world) : world :=
  match ev with
  | EvMouseMove p => doc_event (on_mousemove p) w
  | EvDocEnter => doc_event on_doc_enter w
  | EvDocLeave => doc_event on_doc_leave w
  | EvDown => doc_event onClick w
  | EvUp => doc_event onRelease w
  | EvEnter i => fold_left (fun w a => call (on_enter i a) w) (listeners_of i (bindings w)) w
  | EvLeave i => fold_left (fun w _ => call (setState Default) w) (listeners_of i (bindings w)) w
  | EvFrame => if anim w then call animate (set_anim w false) else w
  | EvTimer =>
      match Dom.earliest (timers w) with
      | Some t =>
          set_clock (set_timers w (Dom.fired (timers w) t) (next_id w)) (Dom.t_due t)
                    (Dom.add (body w) (js "cursor-ready"))
      | None => w
      end
  | EvRefresh => call refresh w
  end.

Definition run_events (evs : list event) (w : world) : world :=
  fold_left (fun w ev => run_event ev w) evs w.

(** The page once the module ran [export const cursor = new Cursor()]. *)
Definition init_world (is_touch : bool) (pg : list target) : world :=
  call Cursor_new
    (mk_world is_touch pg (mk_cursor None (mk_point 0 0) (mk_point 0 0) false 0 0)
              false [] false [] 1 0 [] []).

Inductive reachable : world -> Prop :=
| reach_init t pg : reachable (init_world t pg)
| reach_step w ev : reachable w -> reachable (run_event ev w).

(** A page with one link carrying [data-cursor-text="View"], used to run
    the model on a concrete input. *)
Definition demo_page : list target := [mk_target (js "a") None (Some (js "View")) None].

(** The demo page on a desktop, and after the pointer came in at
    (100, 40) and moved to (0, 0). *)
Definition demo_desktop : world := init_world false demo_page.
Definition demo_moved : world :=
  run_events [EvMouseMove (mk_point 100 40); EvMouseMove (mk_point 0 0)] demo_desktop.

(** ** Invariant *)

(** The elements exist and the dot and the ring show the same state. *)
Definition ok (w : world) : Prop :=
  exists e, els (cur w) = Some e /\ dot_state e = ring_state e.

(** What a handler keeps. *)
Definition keeps (w w' : world) : Prop :=
  touch w' = touch w /\ page w' = page w /\ anim w' = anim w /\ doc_bound w' = doc_bound w /\
  errors w' = errors w /\ timers w' = timers w /\ ringSpeed (cur w') = ringSpeed (cur w) /\
  bindings w' = bindings w.

(** What every reachable world satisfies: on a desktop the elements
    exist with agreeing states, the listeners are bound, the animation
    loop is alive and nothing was reported; on a touch device there are
    no elements, no document listeners, no animation and no timer.
    Every listener belongs to an element of the page. *)
Record inv (w : world) : Prop := {
  inv_speed : ringSpeed (cur w) = 15 # 100;
  inv_bind : Forall (fun b => (fst b < List.length (page w))%nat) (bindings w);
  inv_mode : if touch w then els (cur w) = None /\ anim w = false /\ doc_bound w = false /\ timers w = []
             else ok w /\ anim w = true /\ doc_bound w = true /\ errors w = []
}.

(** Every handler, on a world whose elements exist, returns normally. *)
Definition handler_ok (m : M unit) : Prop :=
  forall w, ok w -> exists w', m w = Ret tt w' /\ ok w' /\ keeps w w'.

Ltac open_world w :=
  destruct w as [?t ?pg [?ce ?cp ?cm ?cv ?cds ?crs] ?db ?b ?a ?ts ?n ?nw ?bd ?er].

Ltac solve_handler :=
  let w := fresh "w" in
  intros w (e & He & Heq); open_world w; cbn in He; subst;
  eexists; split; [reflexivity |];
  split; [eexists; split; [reflexivity | cbn; try congruence] | repeat split].

Lemma setState_ok (s : cursor_state) : handler_ok (setState s).
Proof. solve_handler. Qed.

Lemma setText_ok (t : jsstring) : handler_ok (setText t).
Proof. solve_handler. Qed.

Lemma mousemove_ok (p : point) : handler_ok (on_mousemove p).
Proof. unfold on_mousemove, modify_cur. intros w (e & He & Heq). open_world w. cbn in He |- *.
  destruct cv; (eexists; split; [reflexivity |]); split; [eexists; eauto | repeat split | eexists; eauto | repeat split].
Qed.

Lemma doc_enter_ok : handler_ok on_doc_enter.
Proof. solve_handler. Qed.

Lemma doc_leave_ok : handler_ok on_doc_leave.
Proof. solve_handler. Qed.

Lemma on_enter_ok (i : nat) (a : enter_action) : handler_ok (on_enter i a).
Proof.
  destruct a; [solve_handler | solve_handler | | solve_handler].
  intros w (e & He & Heq). open_world w. cbn in He. subst. cbn.
  destruct (nth_error pg i); cbn.
  - eexists; split; [reflexivity |]. split; [eexists; split; [reflexivity | reflexivity] | repeat split].
  - eexists; split; [reflexivity |]. split; [exists e; split; [reflexivity | exact Heq] | repeat split].
Qed.

Lemma keeps_refl (w : world) : keeps w w.
Proof. repeat split. Qed.

Lemma keeps_trans (w1 w2 w3 : world) : keeps w1 w2 -> keeps w2 w3 -> keeps w1 w3.
Proof. unfold keeps. intuition congruence. Qed.

#[local] Hint Resolve keeps_refl setState_ok setText_ok mousemove_ok doc_enter_ok doc_leave_ok
  on_enter_ok : lumina.

Lemma call_ok (m : M unit) (w : world) :
  handler_ok m -> ok w -> ok (call m w) /\ keeps w (call m w).
Proof.
  intros Hm Hw. destruct (Hm w Hw) as (w' & E & Hok & Hk). unfold call, report. now rewrite E.
Qed.

(** A listener list run on a world whose elements exist. *)
Lemma calls_ok {X} (f : X -> M unit) (l : list X) (w : world) :
  (forall x, handler_ok (f x)) -> ok w ->
  ok (fold_left (fun w x => call (f x) w) l w) /\ keeps w (fold_left (fun w x => call (f x) w) l w).
Proof.
  intros Hf. revert w. induction l as [|x l IH]; intros w Hw; simpl; [auto with lumina |].
  destruct (call_ok (f x) w (Hf x) Hw) as [H1 H2].
  destruct (IH _ H1) as [H3 H4]. split; [exact H3 | eapply keeps_trans; eauto].
Qed.

Lemma animate_run (w : world) (e : elements) :
  els (cur w) = Some e ->
  animate w =
  Ret tt (set_anim (set_cur w (mk_cursor (Some (with_ring_at (with_dot_at e (mouse (cur w))) (lerp_point (cur w))))
                                          (lerp_point (cur w)) (mouse (cur w)) (visible (cur w))
                                          (dotSpeed (cur w)) (ringSpeed (cur w)))) true).
Proof. open_world w. cbn. intros ->. reflexivity. Qed.

(** The frame callback on a desktop world. *)
Lemma frame_run (w : world) (e : elements) :
  anim w = true -> els (cur w) = Some e ->
  run_event EvFrame w =
  set_anim (set_cur w (mk_cursor (Some (with_ring_at (with_dot_at e (mouse (cur w))) (lerp_point (cur w))))
                                 (lerp_point (cur w)) (mouse (cur w)) (visible (cur w))
                                 (dotSpeed (cur w)) (ringSpeed (cur w)))) true.
Proof.
  intros Ha He. unfold run_event. rewrite Ha. unfold call, report.
  rewrite (animate_run (set_anim w false) e He). open_world w. reflexivity.
Qed.

(** On a touch device every listener of an element throws at its first
    write, or does nothing. *)
Lemma on_enter_null (i : nat) (a : enter_action) (w : world) :
  els (cur w) = None -> call (on_enter i a) w = add_error w NullElement \/ call (on_enter i a) w = w.
Proof.
  open_world w. cbn. intros ->. unfold call, report.
  destruct a; cbn; auto. destruct (nth_error pg i); cbn; auto.
Qed.

Definition touch_inv (w : world) : Prop :=
  els (cur w) = None /\ anim w = false /\ doc_bound w = false /\ timers w = [].

Lemma touch_inv_error (w : world) : touch_inv w -> touch_inv (add_error w NullElement).
Proof. open_world w. auto. Qed.

Lemma touch_calls {X} (f : X -> M unit) (l : list X) (w : world) :
  (forall x w, els (cur w) = None -> call (f x) w = add_error w NullElement \/ call (f x) w = w) ->
  touch_inv w ->
  touch_inv (fold_left (fun w x => call (f x) w) l w) /\
  touch (fold_left (fun w x => call (f x) w) l w) = touch w /\
  ringSpeed (cur (fold_left (fun w x => call (f x) w) l w)) = ringSpeed (cur w) /\
  page (fold_left (fun w x => call (f x) w) l w) = page w /\
  bindings (fold_left (fun w x => call (f x) w) l w) = bindings w.
Proof.
  intros Hf. revert w. induction l as [|x l IH]; intros w Hw; simpl; [auto |].
  destruct (Hf x w (proj1 Hw)) as [E | E]; rewrite E.
  - destruct (IH _ (touch_inv_error w Hw)) as (H1 & H2 & H3 & H4 & H5). open_world w. auto.
  - auto.
Qed.

Lemma select_bounded (sel : target -> bool) (a : enter_action) (pg : list target) :
  Forall (fun b => (fst b < List.length pg)%nat) (select sel a pg).
Proof.
  unfold select. apply Forall_map, Forall_forall. intros [k t] Hin.
  apply filter_In in Hin as [Hin _]. apply in_combine_l, in_seq in Hin. simpl. lia.
Qed.

Lemma hover_bindings_bounded (pg : list target) :
  Forall (fun b => (fst b < List.length pg)%nat) (hover_bindings pg).
Proof. unfold hover_bindings. rewrite !Forall_app. repeat split; apply select_bounded. Qed.

Lemma init_inv (t : bool) (pg : list target) : inv (init_world t pg).
Proof.
  pose proof (hover_bindings_bounded pg).
  destruct t; constructor; cbn; auto; repeat split; eexists; split; reflexivity.
Qed.

Lemma inv_of_keeps (w w' : world) : inv w -> touch w = false -> ok w' -> keeps w w' -> inv w'.
Proof.
  intros [Hs Hb Hm] Ht Hok (Ht' & Hp & Ha & Hd & He & _ & Hsp & Hbd). rewrite Ht in Hm.
  constructor; [congruence | rewrite Hbd, Hp; exact Hb |]. rewrite Ht'. rewrite Ht. destruct Hm as (_ & ? & ? & ?). repeat split; congruence.
Qed.

Lemma desktop_event_inv (w : world) (ev : event) : inv w -> touch w = false -> inv (run_event ev w).
Proof.
  intros Hi Ht. pose proof (inv_mode w Hi) as Hm. rewrite Ht in Hm.
  destruct Hm as (Hok & Ha & Hd & He).
  assert (Hdoc : forall m, handler_ok m -> inv (doc_event m w)).
  { intros m Hm. unfold doc_event. rewrite Hd. destruct (call_ok m w Hm Hok).
    eapply inv_of_keeps; eauto. }
  destruct ev as [p| | | | |i|i| | |]; simpl run_event;
    [apply Hdoc; first [apply mousemove_ok | apply doc_enter_ok | apply doc_leave_ok | apply (setState_ok Click) | apply (setState_ok Default)] ..| | | | |].
  - destruct (calls_ok (on_enter i) (listeners_of i (bindings w)) w (on_enter_ok i) Hok).
    eapply inv_of_keeps; eauto.
  - destruct (calls_ok (fun _ => setState Default) (listeners_of i (bindings w)) w (fun _ => setState_ok Default) Hok).
    eapply inv_of_keeps; eauto.
  - destruct Hok as (e & Hel & Heq). change (inv (run_event EvFrame w)). rewrite (frame_run w e Ha Hel).
    pose proof (inv_speed w Hi). pose proof (inv_bind w Hi). open_world w. cbn in *. subst.
    constructor; [reflexivity | assumption |]. cbn. repeat split. eexists; split; [reflexivity | exact Heq].
  - destruct (Dom.earliest (timers w)); [| exact Hi].
    pose proof (inv_speed w Hi). pose proof (inv_bind w Hi). open_world w. cbn in *. subst.
    constructor; [reflexivity | assumption |]. cbn. auto.
  - pose proof (inv_speed w Hi). pose proof (inv_bind w Hi). pose proof (hover_bindings_bounded (page w)).
    open_world w. cbn in *. subst. constructor; cbn; [reflexivity | apply Forall_app; auto | auto].
Qed.

Lemma touch_event_inv (w : world) (ev : event) : inv w -> touch w = true -> inv (run_event ev w).
Proof.
  intros Hi Ht. pose proof (inv_mode w Hi) as Hm. rewrite Ht in Hm.
  pose proof (inv_speed w Hi) as Hs. pose proof (inv_bind w Hi) as Hb.
  assert (Hback : forall w', touch_inv w' /\ touch w' = touch w /\ ringSpeed (cur w') = ringSpeed (cur w) /\
                             page w' = page w /\ bindings w' = bindings w -> inv w').
  { intros w' (H1 & H2 & H3 & H4 & H5). constructor; [congruence | rewrite H4, H5; exact Hb |].
    rewrite H2, Ht. exact H1. }
  destruct Hm as (Hel & Ha & Hd & Hts).
  destruct ev as [p| | | | |i|i| | |]; simpl run_event; try (unfold doc_event; rewrite Hd; exact Hi).
  - apply Hback, touch_calls; [| repeat split; assumption]. intros; now apply on_enter_null.
  - apply Hback, touch_calls; [| repeat split; assumption].
    intros x w' E. left. open_world w'. cbn in E |- *. now subst.
  - rewrite Ha. exact Hi.
  - rewrite Hts. exact Hi.
  - pose proof (hover_bindings_bounded (page w)). open_world w. cbn in *. subst.
    constructor; cbn; [reflexivity | apply Forall_app; auto | repeat split].
Qed.

Lemma cursor_event_inv (w : world) (ev : event) : inv w -> inv (run_event ev w).
Proof.
  intros Hi. destruct (touch w) eqn:Ht; [now apply touch_event_inv | now apply desktop_event_inv].
Qed.

Lemma cursor_reachable_inv (w : world) : reachable w -> inv w.
Proof. induction 1; [apply init_inv | now apply cursor_event_inv]. Qed.

Lemma cursor_reachable_run_events (w : world) (evs : list event) : reachable w -> reachable (run_events evs w).
Proof. revert w. induction evs as [|ev evs IH]; intros w Hr; [exact Hr |]. apply IH. now constructor. Qed.

(** ** The animation loop *)

Lemma lerp_gap (p m s : Q) : m - lerp p m s == (1 - s) * (m - p).
Proof. unfold lerp. ring. Qed.

Lemma desktop_ok (w : world) : inv w -> touch w = false -> ok w /\ anim w = true /\ doc_bound w = true /\ errors w = [].
Proof. intros Hi Ht. pose proof (inv_mode w Hi) as Hm. now rewrite Ht in Hm. Qed.

(** One frame on a desktop world. *)
Lemma frame_step (w : world) :
  inv w -> touch w = false ->
  inv (run_event EvFrame w) /\ touch (run_event EvFrame w) = false /\
  mouse (cur (run_event EvFrame w)) = mouse (cur w) /\
  pos (cur (run_event EvFrame w)) = lerp_point (cur w) /\
  exists e, els (cur (run_event EvFrame w)) = Some e /\
            dot_at e = Some (mouse (cur w)) /\ ring_at e = Some (lerp_point (cur w)).
Proof.
  intros Hi Ht. pose proof (cursor_event_inv w EvFrame Hi) as Hi'.
  destruct (desktop_ok w Hi Ht) as ((e & He & _) & Ha & _).
  rewrite (frame_run w e Ha He) in Hi' |- *. split; [exact Hi' |].
  open_world w. cbn in *. repeat split; auto. eexists; repeat split.
Qed.

Lemma frames_closed_form (w : world) (n : nat) :
  inv w -> touch w = false ->
  mouse (cur (run_events (repeat EvFrame n) w)) = mouse (cur w) /\
  px (mouse (cur w)) - px (pos (cur (run_events (repeat EvFrame n) w))) ==
    qpow (1 - (15 # 100)) n * (px (mouse (cur w)) - px (pos (cur w))) /\
  py (mouse (cur w)) - py (pos (cur (run_events (repeat EvFrame n) w))) ==
    qpow (1 - (15 # 100)) n * (py (mouse (cur w)) - py (pos (cur w))).
Proof.
  revert w. induction n as [|n IH]; intros w Hi Ht.
  - cbn. repeat split; ring.
  - change (run_events (repeat EvFrame (S n)) w) with (run_events (repeat EvFrame n) (run_event EvFrame w)).
    destruct (frame_step w Hi Ht) as (Hi1 & Ht1 & Hm1 & Hp1 & _).
    destruct (IH _ Hi1 Ht1) as (Hm & Hx & Hy). rewrite Hm1 in Hm, Hx, Hy.
    rewrite Hp1 in Hx, Hy. unfold lerp_point in Hx, Hy. cbn [px py] in Hx, Hy.
    rewrite (inv_speed w Hi) in Hx, Hy. rewrite lerp_gap in Hx, Hy.
    split; [exact Hm |]. cbn [qpow]. split; [rewrite Hx | rewrite Hy]; ring.
Qed.

Lemma setState_run (w : world) (e : elements) (st : cursor_state) :
  els (cur w) = Some e ->
  setState st w = Ret tt (set_cur w (with_els (cur w) (Some (with_ring_state (with_dot_state e st) st)))).
Proof. open_world w. cbn. intros ->. reflexivity. Qed.

Lemma doc_inv (m : M unit) (w : world) :
  handler_ok m -> inv w -> touch w = false ->
  inv (doc_event m w) /\ touch (doc_event m w) = false.
Proof.
  intros Hm Hi Ht. destruct (desktop_ok w Hi Ht) as (Hok & _ & Hd & _).
  unfold doc_event. rewrite Hd. destruct (call_ok m w Hm Hok) as [H1 H2].
  split; [eapply inv_of_keeps; eauto | destruct H2; congruence].
Qed.

(** A document listener that calls [setState] on a desktop world. *)
Lemma doc_setState (w : world) (st : cursor_state) :
  inv w -> touch w = false ->
  inv (doc_event (setState st) w) /\ touch (doc_event (setState st) w) = false /\
  exists e, els (cur (doc_event (setState st) w)) = Some e /\ dot_state e = st /\ ring_state e = st.
Proof.
  intros Hi Ht. destruct (doc_inv (setState st) w (setState_ok st) Hi Ht) as [H1 H2].
  split; [exact H1 | split; [exact H2 |]].
  destruct (desktop_ok w Hi Ht) as ((e & He & _) & _ & Hd & _).
  unfold doc_event, call, report. rewrite Hd, (setState_run w e st He).
  open_world w. cbn. eexists; repeat split.
Qed.

(** ** Hover listeners *)

Lemma listeners_in (i : nat) (a : enter_action) (b : list (nat * enter_action)) :
  In a (listeners_of i b) -> In (i, a) b.
Proof.
  unfold listeners_of. intros H. apply in_map_iff in H as ([k a'] & E & Hin).
  apply filter_In in Hin as [Hin Hk]. apply Nat.eqb_eq in Hk. simpl in *. now subst.
Qed.

Lemma listener_bound (w : world) (i : nat) (a : enter_action) :
  inv w -> In a (listeners_of i (bindings w)) -> (i < List.length (page w))%nat.
Proof.
  intros Hi Ha. apply listeners_in in Ha.
  exact (proj1 (Forall_forall _ _) (inv_bind w Hi) _ Ha).
Qed.

Lemma on_enter_state (w : world) (i : nat) (a : enter_action) :
  ok w -> (i < List.length (page w))%nat ->
  exists e, els (cur (call (on_enter i a) w)) = Some e /\ dot_state e = enter_state a /\ ring_state e = enter_state a.
Proof.
  intros (e & He & _) Hlt. apply nth_error_Some in Hlt.
  open_world w. cbn in He, Hlt. subst. unfold call, report.
  destruct a; cbn; [eexists; repeat split .. | | eexists; repeat split].
  destruct (nth_error pg i); [| contradiction]. cbn. eexists; repeat split.
Qed.

Lemma on_enter_throws (w : world) (i : nat) (a : enter_action) :
  els (cur w) = None -> (i < List.length (page w))%nat ->
  call (on_enter i a) w = add_error w NullElement.
Proof.
  intros He Hlt. apply nth_error_Some in Hlt.
  open_world w. cbn in He, Hlt. subst. unfold call, report.
  destruct a; cbn; try reflexivity. destruct (nth_error pg i); [reflexivity | contradiction].
Qed.

Lemma calls_throw {X} (f : X -> M unit) (l : list X) (w : world) :
  (forall x w', In x l -> els (cur w') = None -> page w' = page w -> call (f x) w' = add_error w' NullElement) ->
  els (cur w) = None ->
  errors (fold_left (fun w x => call (f x) w) l w) = errors w ++ repeat NullElement (List.length l) /\
  els (cur (fold_left (fun w x => call (f x) w) l w)) = None.
Proof.
  revert w. induction l as [|x l IH]; intros w Hf He; simpl; [now rewrite app_nil_r |].
  rewrite (Hf x w (or_introl eq_refl) He eq_refl).
  destruct (IH (add_error w NullElement)) as [H1 H2].
  - intros y w' Hy Hn Hp. apply Hf; [now right | exact Hn | rewrite Hp; now open_world w].
  - now open_world w.
  - split; [| exact H2]. rewrite H1. open_world w. cbn. now rewrite <- app_assoc.
Qed.

(** ** Properties of the cursor *)

(** C21: on a desktop, no listener of the cursor ever throws, the
    animation loop never stops, and the dot and the ring always show the
    same state. *)
Theorem cursor_desktop_safe (w : world) :
  reachable w -> touch w = false ->
  errors w = [] /\ anim w = true /\ exists e, els (cur w) = Some e /\ dot_state e = ring_state e.
Proof.
  intros Hr Ht. destruct (desktop_ok w (cursor_reachable_inv w Hr) Ht) as (Hok & Ha & _ & He). auto.
Qed.

(** One animation frame moves the ring 15% of the way to the mouse
    on each axis, puts the dot on the mouse and the ring on its new
    position; the mouse does not move. *)
Theorem frame_lerps (w : world) :
  reachable w -> touch w = false ->
  mouse (cur (run_event EvFrame w)) = mouse (cur w) /\
  px (mouse (cur w)) - px (pos (cur (run_event EvFrame w))) == (1 - (15 # 100)) * (px (mouse (cur w)) - px (pos (cur w))) /\
  py (mouse (cur w)) - py (pos (cur (run_event EvFrame w))) == (1 - (15 # 100)) * (py (mouse (cur w)) - py (pos (cur w))) /\
  exists e, els (cur (run_event EvFrame w)) = Some e /\
            dot_at e = Some (mouse (cur w)) /\ ring_at e = Some (pos (cur (run_event EvFrame w))).
Proof.
  intros Hr Ht. pose proof (cursor_reachable_inv w Hr) as Hi.
  destruct (frame_step w Hi Ht) as (_ & _ & Hm & Hp & He). rewrite Hp.
  split; [exact Hm |]. split; [| split; [| exact He]];
    unfold lerp_point; cbn [px py]; rewrite (inv_speed w Hi), lerp_gap; reflexivity.
Qed.

(** C23: while the mouse rests, the ring converges to it: after [n]
    frames its distance on each axis is at most the initial distance
    divided by [1 + 0.15 n]. *)
Theorem frames_converge (w : world) (n : nat) :
  reachable w -> touch w = false ->
  mouse (cur (run_events (repeat EvFrame n) w)) = mouse (cur w) /\
  Qabs (px (mouse (cur w)) - px (pos (cur (run_events (repeat EvFrame n) w)))) * (1 + inject_Z (Z.of_nat n) * (15 # 100))
    <= Qabs (px (mouse (cur w)) - px (pos (cur w))) /\
  Qabs (py (mouse (cur w)) - py (pos (cur (run_events (repeat EvFrame n) w)))) * (1 + inject_Z (Z.of_nat n) * (15 # 100))
    <= Qabs (py (mouse (cur w)) - py (pos (cur w))).
Proof.
  intros Hr Ht. destruct (frames_closed_form w n (cursor_reachable_inv w Hr) Ht) as (Hm & Hx & Hy).
  split; [exact Hm |]. split; apply gap_bound with (n := n); auto; unfold Qle; simpl; lia.
Qed.

(** A frame never overshoots: the ring's new position on each axis
    lies between its old position and the mouse. *)
Theorem frame_ring_between (w : world) :
  reachable w -> touch w = false ->
  ((px (pos (cur w)) <= px (pos (cur (run_event EvFrame w))) <= px (mouse (cur w))) \/
   (px (mouse (cur w)) <= px (pos (cur (run_event EvFrame w))) <= px (pos (cur w)))) /\
  ((py (pos (cur w)) <= py (pos (cur (run_event EvFrame w))) <= py (mouse (cur w))) \/
   (py (mouse (cur w)) <= py (pos (cur (run_event EvFrame w))) <= py (pos (cur w)))).
Proof.
  intros Hr Ht. pose proof (cursor_reachable_inv w Hr) as Hi.
  destruct (frame_step w Hi Ht) as (_ & _ & _ & Hp & _). rewrite Hp.
  unfold lerp_point, lerp. cbn [px py]. rewrite (inv_speed w Hi).
  split; [destruct (Qlt_le_dec (px (mouse (cur w))) (px (pos (cur w))))
         | destruct (Qlt_le_dec (py (mouse (cur w))) (py (pos (cur w))))];
    [right | left | right | left]; split; lra.
Qed.

(** C25: the first [mousemove] puts the ring on the pointer at once;
    later ones only move the target the ring follows. *)
Theorem mousemove_snaps_once (w : world) (p : point) :
  reachable w -> touch w = false ->
  mouse (cur (run_event (EvMouseMove p) w)) = p /\
  visible (cur (run_event (EvMouseMove p) w)) = true /\
  pos (cur (run_event (EvMouseMove p) w)) = if visible (cur w) then pos (cur w) else p.
Proof.
  intros Hr Ht. destruct (desktop_ok w (cursor_reachable_inv w Hr) Ht) as (_ & _ & Hd & _).
  simpl run_event. unfold doc_event, call, report. rewrite Hd.
  open_world w. cbn. destruct cv; auto.
Qed.

(** [mouseup] always returns the cursor to ['default'], whatever
    state it was in before the click (a hovered link included), although
    [onRelease] is commented "Return to previous state". *)
Theorem release_resets_default (w : world) :
  reachable w -> touch w = false ->
  (exists e, els (cur (run_event EvDown w)) = Some e /\ dot_state e = Click /\ ring_state e = Click) /\
  (exists e, els (cur (run_events [EvDown; EvUp] w)) = Some e /\ dot_state e = Default /\ ring_state e = Default).
Proof.
  intros Hr Ht. pose proof (cursor_reachable_inv w Hr) as Hi.
  destruct (doc_setState w Click Hi Ht) as (Hi1 & Ht1 & H1). split; [exact H1 |].
  exact (proj2 (proj2 (doc_setState _ Default Hi1 Ht1))).
Qed.

(** C27: on a touch device [init] creates no elements, but [main.js]
    still calls [cursor.refresh()], which binds the hover listeners: each
    of them throws a [TypeError] on [null] when its element is entered. *)
Theorem touch_hover_throws (pg : list target) (i : nat) :
  errors (run_events [EvRefresh; EvEnter i] (init_world true pg)) =
    repeat NullElement (List.length (listeners_of i (hover_bindings pg))) /\
  els (cur (run_events [EvRefresh; EvEnter i] (init_world true pg))) = None.
Proof.
  pose proof (hover_bindings_bounded pg) as Hb. cbn - [hover_bindings].
  apply (calls_throw (on_enter i) (listeners_of i (hover_bindings pg))); [| reflexivity].
  intros a w' Ha He Hp. apply on_enter_throws; [exact He |]. rewrite Hp. cbn.
  apply listeners_in in Ha. exact (proj1 (Forall_forall _ _) Hb _ Ha).
Qed.

(** Entering an element runs its listeners in the order they were
    added; the last one decides the state (so [<a data-cursor-text>]
    shows ['text'], not ['hover']). *)
Theorem enter_last_listener_wins (w : world) (i : nat) (l : list enter_action) (a : enter_action) :
  reachable w -> touch w = false -> listeners_of i (bindings w) = l ++ [a] ->
  exists e, els (cur (run_event (EvEnter i) w)) = Some e /\ dot_state e = enter_state a /\ ring_state e = enter_state a.
Proof.
  intros Hr Ht Hl. pose proof (cursor_reachable_inv w Hr) as Hi.
  assert (Hlt : (i < List.length (page w))%nat)
    by (apply (listener_bound w i a Hi); rewrite Hl; apply in_or_app; right; now left).
  destruct (desktop_ok w Hi Ht) as (Hok & _).
  simpl run_event. rewrite Hl, fold_left_app. simpl fold_left.
  destruct (calls_ok (on_enter i) l w (on_enter_ok i) Hok) as (Hok1 & (_ & Hp & _)).
  apply on_enter_state; [exact Hok1 | now rewrite Hp].
Qed.

(** ** The theorems on the demo page *)

Lemma cursor_desktop_safe_witness :
  reachable demo_desktop /\ touch demo_desktop = false /\
  errors demo_desktop = [] /\ anim demo_desktop = true /\
  exists e, els (cur demo_desktop) = Some e /\ dot_state e = ring_state e.
Proof.
  split; [constructor | split; [reflexivity |]].
  apply cursor_desktop_safe; [constructor | reflexivity].
Defined.

Lemma frame_lerps_witness :
  reachable demo_moved /\ touch demo_moved = false /\
  mouse (cur (run_event EvFrame demo_moved)) = mouse (cur demo_moved) /\
  px (mouse (cur demo_moved)) - px (pos (cur (run_event EvFrame demo_moved))) ==
    (1 - (15 # 100)) * (px (mouse (cur demo_moved)) - px (pos (cur demo_moved))) /\
  py (mouse (cur demo_moved)) - py (pos (cur (run_event EvFrame demo_moved))) ==
    (1 - (15 # 100)) * (py (mouse (cur demo_moved)) - py (pos (cur demo_moved))) /\
  exists e, els (cur (run_event EvFrame demo_moved)) = Some e /\
            dot_at e = Some (mouse (cur demo_moved)) /\ ring_at e = Some (pos (cur (run_event EvFrame demo_moved))).
Proof.
  assert (Hr : reachable demo_moved) by (apply cursor_reachable_run_events; constructor).
  split; [exact Hr | split; [reflexivity |]]. exact (frame_lerps demo_moved Hr eq_refl).
Defined.

Lemma frames_converge_witness :
  reachable demo_moved /\ touch demo_moved = false /\
  mouse (cur (run_events (repeat EvFrame 20) demo_moved)) = mouse (cur demo_moved) /\
  Qabs (px (mouse (cur demo_moved)) - px (pos (cur (run_events (repeat EvFrame 20) demo_moved)))) *
    (1 + inject_Z (Z.of_nat 20) * (15 # 100)) <= Qabs (px (mouse (cur demo_moved)) - px (pos (cur demo_moved))) /\
  Qabs (py (mouse (cur demo_moved)) - py (pos (cur (run_events (repeat EvFrame 20) demo_moved)))) *
    (1 + inject_Z (Z.of_nat 20) * (15 # 100)) <= Qabs (py (mouse (cur demo_moved)) - py (pos (cur demo_moved))).
Proof.
  assert (Hr : reachable demo_moved) by (apply cursor_reachable_run_events; constructor).
  split; [exact Hr | split; [reflexivity |]]. exact (frames_converge demo_moved 20 Hr eq_refl).
Defined.

Lemma frame_ring_between_witness :
  reachable demo_moved /\ touch demo_moved = false /\
  ((px (pos (cur demo_moved)) <= px (pos (cur (run_event EvFrame demo_moved))) <= px (mouse (cur demo_moved))) \/
   (px (mouse (cur demo_moved)) <= px (pos (cur (run_event EvFrame demo_moved))) <= px (pos (cur demo_moved)))) /\
  ((py (pos (cur demo_moved)) <= py (pos (cur (run_event EvFrame demo_moved))) <= py (mouse (cur demo_moved))) \/
   (py (mouse (cur demo_moved)) <= py (pos (cur (run_event EvFrame demo_moved))) <= py (pos (cur demo_moved)))).
Proof.
  assert (Hr : reachable demo_moved) by (apply cursor_reachable_run_events; constructor).
  split; [exact Hr | split; [reflexivity |]]. exact (frame_ring_between demo_moved Hr eq_refl).
Defined.

Lemma mousemove_snaps_once_witness :
  reachable demo_desktop /\ touch demo_desktop = false /\
  mouse (cur (run_event (EvMouseMove (mk_point 100 40)) demo_desktop)) = mk_point 100 40 /\
  visible (cur (run_event (EvMouseMove (mk_point 100 40)) demo_desktop)) = true /\
  pos (cur (run_event (EvMouseMove (mk_point 100 40)) demo_desktop)) = mk_point 100 40.
Proof.
  split; [constructor | split; [reflexivity |]].
  exact (mousemove_snaps_once demo_desktop (mk_point 100 40) (reach_init false demo_page) eq_refl).
Defined.

Lemma release_resets_default_witness :
  reachable (run_event (EvEnter 0) demo_desktop) /\ touch (run_event (EvEnter 0) demo_desktop) = false /\
  (exists e, els (cur (run_event (EvEnter 0) demo_desktop)) = Some e /\ dot_state e = TextState) /\
  (exists e, els (cur (run_event EvDown (run_event (EvEnter 0) demo_desktop))) = Some e /\
             dot_state e = Click /\ ring_state e = Click) /\
  (exists e, els (cur (run_events [EvDown; EvUp] (run_event (EvEnter 0) demo_desktop))) = Some e /\
             dot_state e = Default /\ ring_state e = Default).
Proof.
  assert (Hr : reachable (run_event (EvEnter 0) demo_desktop)) by (constructor; constructor).
  split; [exact Hr | split; [reflexivity | split; [vm_compute; eexists; split; reflexivity |]]].
  exact (release_resets_default _ Hr eq_refl).
Defined.

Lemma touch_hover_throws_witness :
  errors (run_events [EvRefresh; EvEnter 0] (init_world true demo_page)) = [NullElement; NullElement] /\
  els (cur (run_events [EvRefresh; EvEnter 0] (init_world true demo_page))) = None.
Proof. exact (touch_hover_throws demo_page 0). Defined.

Lemma enter_last_listener_wins_witness :
  reachable demo_desktop /\ touch demo_desktop = false /\
  listeners_of 0 (bindings demo_desktop) = [EnterHover] ++ [EnterText] /\
  exists e, els (cur (run_event (EvEnter 0) demo_desktop)) = Some e /\
            dot_state e = TextState /\ ring_state e = TextState.
Proof.
  assert (Hl : listeners_of 0 (bindings demo_desktop) = [EnterHover] ++ [EnterText]) by (vm_compute; reflexivity).
  split; [constructor | split; [reflexivity | split; [exact Hl |]]].
  exact (enter_last_listener_wins demo_desktop 0 [EnterHover] EnterText (reach_init false demo_page) eq_refl Hl).
Defined.

End Cursor.
