(* ===== verification/CursorDoc.v ===== *)
(** * The design document's cursor ([LuminaCursor], section 1.2,
      src/unnamed/part_000)

    The document's cursor finds its three elements with
    [document.querySelector] (each may be [null]), follows the mouse with
    the same 0.15 lerp as the implementation's ring, binds three groups
    of hover targets and starts the [animate] loop from its constructor.
    It runs in the exception monad of the prelude: writing to a [null]
    element throws a [TypeError] and the effects before the throw stay.
    The properties show that its ring follows the implementation's
    ([Cursor.v]) frame by frame, and what a page without the elements
    gets. *)

From Stdlib Require Import String ZArith QArith List Lia.
From S2P Require Import Prelude Dom Cursor.
Import ListNotations.

Module CursorDoc.

(** ** Data *)

(** One of [.cursor-dot], [.cursor-ring], [.cursor-text]: its
    [dataset.state], the point of its [translate(...)] transform, and its
    [textContent]. *)
Record el := mk_el { el_state : option jsstring; el_at : option Cursor.point; el_text : jsstring }.

Definition blank : el := mk_el None None [].

(** The page with its [LuminaCursor]: the hover targets, the three
    elements ([None] where [querySelector] found nothing), [pos], [mouse],
    [speed], the document's [mousemove] listener, the hover listeners, a
    pending animation frame and the reported exceptions. *)
Record world := mk_world {
  page : list Cursor.target;
  dot : option el;
  ring : option el;
  text_el : option el;
  pos : Cursor.point;
  mouse : Cursor.point;
  speed : Q;
  doc_bound : bool;
  bindings : list (nat * Cursor.enter_action);
  anim : bool;
  errors : list Cursor.cursor_error
}.

Definition M (A : Type) := Exc world Cursor.cursor_error A.

Definition set_els (w : world) (d r t : option el) : world :=
  mk_world (page w) d r t (pos w) (mouse w) (speed w) (doc_bound w) (bindings w) (anim w) (errors w).
Definition set_points (w : world) (p m : Cursor.point) : world :=
  mk_world (page w) (dot w) (ring w) (text_el w) p m (speed w) (doc_bound w) (bindings w) (anim w) (errors w).
Definition set_listeners (w : world) (db : bool) (b : list (nat * Cursor.enter_action)) (a : bool) : world :=
  mk_world (page w) (dot w) (ring w) (text_el w) (pos w) (mouse w) (speed w) db b a (errors w).
Definition add_error (w : world) (e : Cursor.cursor_error) : world :=
  mk_world (page w) (dot w) (ring w) (text_el w) (pos w) (mouse w) (speed w) (doc_bound w) (bindings w) (anim w)
           (errors w ++ [e]).

(** A write to [this.cursor.dot], [.ring] or [.text]. *)
Definition write_dot (f : el -> el) : M unit :=
  let* w := exc_get in
  match dot w with
  | Some d => exc_put (set_els w (Some (f d)) (ring w) (text_el w))
  | None => exc_throw Cursor.NullElement
  end.
Definition write_ring (f : el -> el) : M unit :=
  let* w := exc_get in
  match ring w with
  | Some r => exc_put (set_els w (dot w) (Some (f r)) (text_el w))
  | None => exc_throw Cursor.NullElement
  end.
Definition write_text (f : el -> el) : M unit :=
  let* w := exc_get in
  match text_el w with
  | Some t => exc_put (set_els w (dot w) (ring w) (Some (f t)))
  | None => exc_throw Cursor.NullElement
  end.

Definition with_state (s : jsstring) (e : el) : el := mk_el (Some s) (el_at e) (el_text e).
Definition with_at (p : Cursor.point) (e : el) : el := mk_el (el_state e) (Some p) (el_text e).
Definition with_text (t : jsstring) (e : el) : el := mk_el (el_state e) (el_at e) t.

(** ** The methods *)

(** The [mousemove] listener. *)
Definition on_mousemove (p : Cursor.point) : M unit :=
  exc_modify (fun w => set_points w (pos w) p).

(** [animate()]: the lerp, the dot on the mouse, the ring on [pos], the
    next frame. *)
Definition animate : M unit :=
  exc_modify (fun w => set_points w (Cursor.mk_point (Cursor.lerp (Cursor.px (pos w)) (Cursor.px (mouse w)) (speed w))
                                                     (Cursor.lerp (Cursor.py (pos w)) (Cursor.py (mouse w)) (speed w)))
                                    (mouse w)) ;;;
  let* w := exc_get in
  write_dot (with_at (mouse w)) ;;;
  write_ring (with_at (pos w)) ;;;
  exc_modify (fun w => set_listeners w (doc_bound w) (bindings w) true).

(** ['a, button, [data-cursor="pointer"]'] (no submit inputs here). *)
Definition is_hover_target (t : Cursor.target) : bool :=
  js_eqb (Cursor.tag t) (js "a") || js_eqb (Cursor.tag t) (js "button") ||
  Cursor.opt_is (Cursor.data_cursor t) (js "pointer").

(** [bindHoverTargets()]: links and buttons, media, text targets. *)
Definition hover_bindings (pg : list Cursor.target) : list (nat * Cursor.enter_action) :=
  Cursor.select is_hover_target Cursor.EnterHover pg ++ Cursor.select Cursor.is_media_target Cursor.EnterMedia pg ++
  Cursor.select Cursor.is_text_target Cursor.EnterText pg.

Definition bindHoverTargets : M unit :=
  exc_modify (fun w => set_listeners w (doc_bound w) (bindings w ++ hover_bindings (page w)) (anim w)).

(** [setState(state)]: the ring's [dataset.state], then the dot's. *)
Definition setState (s : jsstring) : M unit := write_ring (with_state s) ;;; write_dot (with_state s).

(** [setText(text)]. *)
Definition setText (t : jsstring) : M unit := write_text (with_text t).

(** [init()]: the [mousemove] listener, the hover targets, the loop. *)
Definition init : M unit :=
  exc_modify (fun w => set_listeners w true (bindings w) (anim w)) ;;; bindHoverTargets ;;; animate.

(** [new LuminaCursor()] on a page where [querySelector] finds the dot,
    the ring and the text when the flags say so. *)
Definition LuminaCursor_new (has_dot has_ring has_text : bool) : M unit :=
  exc_modify (fun w => mk_world (page w) (if has_dot then Some blank else None) (if has_ring then Some blank else None)
                                (if has_text then Some blank else None) (Cursor.mk_point 0 0) (Cursor.mk_point 0 0)
                                (15 # 100) (doc_bound w) (bindings w) (anim w) (errors w)) ;;;
  init.

(** The [mouseenter] listener of one group; every group's [mouseleave]
    listener calls [setState('default')]. *)
Definition on_enter (i : nat) (a : Cursor.enter_action) : M unit :=
  match a with
  | Cursor.EnterHover => setState (js "hover")
  | Cursor.EnterMedia => setState (js "media")
  | Cursor.EnterText =>
      let* w := exc_get in
      match nth_error (page w) i with
      | Some t => setText (js_or_empty (Cursor.data_cursor_text t)) ;;; setState (js "text")
      | None => exc_ret tt
      end
  | Cursor.EnterHidden => exc_ret tt
  end.

(** ** The host *)

Definition call (m : M unit) (w : world) : world := report add_error m w.

Inductive event := EvMouseMove (p : Cursor.point) | EvEnter (i : nat) | EvLeave (i : nat) | EvFrame.

Definition run_event (ev : event) (w : world) : world :=
  match ev with
  | EvMouseMove p => if doc_bound w then call (on_mousemove p) w else w
  | EvEnter i => fold_left (fun w a => call (on_enter i a) w) (Cursor.listeners_of i (bindings w)) w
  | EvLeave i => fold_left (fun w _ => call (setState (js "default")) w) (Cursor.listeners_of i (bindings w)) w
  | EvFrame => if anim w then call animate (set_listeners w (doc_bound w) (bindings w) false) else w
  end.

Definition run_events (evs : list event) (w : world) : world :=
  fold_left (fun w ev => run_event ev w) evs w.

(** [const cursor = new LuminaCursor()]. *)
Definition init_world (pg : list Cursor.target) (has_dot has_ring has_text : bool) : world :=
  call (LuminaCursor_new has_dot has_ring has_text)
       (mk_world pg None None None (Cursor.mk_point 0 0) (Cursor.mk_point 0 0) 0 false [] false []).

(** ** Lemmas *)

(** A frame with both elements present moves the ring to the point the
    implementation's [lerp_point] computes for the same [pos], [mouse]
    and speed, puts the dot on the mouse and the ring on that point, and
    requests the next frame. *)
Lemma doc_frame_lerps (w : world) (d r : el) (c : Cursor.cursor) :
  dot w = Some d -> ring w = Some r -> anim w = true ->
  Cursor.pos c = pos w -> Cursor.mouse c = mouse w -> Cursor.ringSpeed c = speed w ->
  let w' := run_event EvFrame w in
  pos w' = Cursor.lerp_point c /\ mouse w' = mouse w /\
  dot w' = Some (with_at (mouse w) d) /\ ring w' = Some (with_at (Cursor.lerp_point c) r) /\
  anim w' = true /\ errors w' = errors w.
Proof.
  intros Hd Hr Ha Hp Hm Hs. destruct w as [pg d0 r0 t0 p m sp db b a es]. cbn in *. subst.
  unfold Cursor.lerp_point. repeat split.
Qed.

(** Without a ring element the constructor throws in its first
    [animate]: the loop never starts, the exception is reported, and the
    listeners bound before it stay. *)
Lemma missing_ring_no_loop (pg : list Cursor.target) (has_dot has_text : bool) :
  let w := init_world pg has_dot false has_text in
  anim w = false /\ errors w = [Cursor.NullElement] /\ doc_bound w = true /\ bindings w = hover_bindings pg.
Proof. destruct has_dot; repeat split. Qed.

End CursorDoc.
