(* ===== verification/CursorCss.v ===== *)
(** * The cursor's stylesheet and markup (design document sections 1.3
      and 1.4, src/unnamed/part_000)

    [cursor_css] is cursor.css as rules of [Css.v]; [dot_node],
    [ring_node] and [text_node] are the three elements of section 1.4
    with what the document's [LuminaCursor] ([CursorDoc.v]) writes on
    them: [dataset.state] as the [data-state] attribute and the
    [translate(...)] of [animate] as the [style] attribute.  The theorems
    follow every event sequence from [new LuminaCursor()] and say what a
    visitor sees: the dot is never scaled away on hover (the inline
    transform outranks the rule), the label shows exactly in the text
    state, and the ring stays centred on its point except in the media
    state.  [centred] compares [top] and [left] with the content box
    ([width], [height]); the ring's 1px border, drawn in every state but
    the media one, puts its border box 1px further out on each side. *)

From Stdlib Require Import String ZArith QArith List Bool Lia.
From S2P Require Import Prelude Dom Cursor CursorDoc Css.
Import ListNotations.
Import Css.

Module CursorCss.

(** ** cursor.css *)

Definition corner (v h : string) : value :=
  Seq [Fn "linear-gradient" [var "--color-accent"; var "--color-accent"]; Kw v; Kw h].

Definition ring_ease : value := Fn "cubic-bezier" [num 0.16; num 1; num 0.3; num 1].

Definition cursor_css : sheet := [
  rule_ [univ None; univ (Some PBefore); univ (Some PAfter)] [di "cursor" (Kw "none")];
  rule_ [cls "cursor-dot"]
    [dn "position" (Kw "fixed"); dn "top" (px (-4)); dn "left" (px (-4));
     dn "width" (px 8); dn "height" (px 8); dn "background" (var "--color-accent");
     dn "border-radius" (pct 50); dn "pointer-events" (Kw "none"); dn "z-index" (num 10001);
     dn "mix-blend-mode" (Kw "difference");
     dn "transition" (Commas [Seq [Kw "transform"; sec 0.1; Kw "ease"];
                              Seq [Kw "width"; sec 0.3; Kw "ease"];
                              Seq [Kw "height"; sec 0.3; Kw "ease"]])];
  rule_ [cls "cursor-ring"]
    [dn "position" (Kw "fixed"); dn "top" (px (-24)); dn "left" (px (-24));
     dn "width" (px 48); dn "height" (px 48);
     dn "border" (Seq [px 1; Kw "solid"; var "--color-accent"]);
     dn "border-radius" (pct 50); dn "pointer-events" (Kw "none"); dn "z-index" (num 10000);
     dn "opacity" (num 0.5);
     dn "transition" (Commas [Seq [Kw "width"; sec 0.4; ring_ease];
                              Seq [Kw "height"; sec 0.4; ring_ease];
                              Seq [Kw "opacity"; sec 0.3; Kw "ease"];
                              Seq [Kw "border-radius"; sec 0.4; Kw "ease"]])];
  rule_ [cls "cursor-text"]
    [dn "position" (Kw "absolute"); dn "top" (pct 50); dn "left" (pct 50);
     dn "transform" (Fn "translate" [pct (-50); pct (-50)]);
     dn "font-size" (px 12); dn "font-weight" (num 500); dn "letter-spacing" (em 0.05);
     dn "text-transform" (Kw "uppercase"); dn "opacity" (num 0);
     dn "transition" (Seq [Kw "opacity"; sec 0.3; Kw "ease"]); dn "white-space" (Kw "nowrap")];
  rule_ [(Sel [SClass "cursor-ring"; SAttrEq "data-state" "hover"], None)]
    [dn "width" (px 80); dn "height" (px 80); dn "top" (px (-40)); dn "left" (px (-40));
     dn "opacity" (num 1); dn "background" (Fn "rgba" [num 255; num 255; num 255; num 0.05])];
  rule_ [(Sel [SClass "cursor-dot"; SAttrEq "data-state" "hover"], None)]
    [dn "transform" (Fn "scale" [num 0])];
  rule_ [(Sel [SClass "cursor-ring"; SAttrEq "data-state" "text"], None)]
    [dn "width" (px 120); dn "height" (px 120); dn "top" (px (-60)); dn "left" (px (-60));
     dn "background" (var "--color-accent"); dn "opacity" (num 1)];
  rule_ [(Desc (Sel [SClass "cursor-ring"; SAttrEq "data-state" "text"]) [SClass "cursor-text"], None)]
    [dn "opacity" (num 1); dn "color" (var "--color-bg")];
  rule_ [(Sel [SClass "cursor-ring"; SAttrEq "data-state" "media"], None)]
    [dn "width" (px 64); dn "height" (px 64); dn "border" (Kw "none"); dn "border-radius" (num 0);
     dn "background" (Commas [corner "top" "left"; corner "top" "right";
                              corner "bottom" "left"; corner "bottom" "right"]);
     dn "background-size" (Commas [Seq [px 12; px 1]; Seq [px 12; px 1]; Seq [px 12; px 1]; Seq [px 12; px 1];
                                   Seq [px 1; px 12]; Seq [px 1; px 12]; Seq [px 1; px 12]; Seq [px 1; px 12]]);
     dn "background-repeat" (Kw "no-repeat")];
  mk_rule MHoverNoneCoarse [univ None; univ (Some PBefore); univ (Some PAfter)] [di "cursor" (Kw "auto")];
  mk_rule MHoverNoneCoarse [cls "cursor-dot"; cls "cursor-ring"] [dn "display" (Kw "none")]
]%string.

(** ** The markup of section 1.4 and what the script writes on it *)

Definition body_node : elem := El (js "body") [] [] [] false false false false None None.

Definition state_attrs (e : CursorDoc.el) : list (jsstring * jsstring) :=
  match CursorDoc.el_state e with Some s => [(js "data-state", s)] | None => [] end.

(** [el.style.transform = `translate(${x}px, ${y}px)`]. *)
Definition translate (p : Cursor.point) : value := Fn "translate" [px (Cursor.px p); px (Cursor.py p)].

Definition at_inline (e : CursorDoc.el) : list (jsstring * value) :=
  match CursorDoc.el_at e with Some p => [(js "transform", translate p)] | None => [] end.

(** [<div class="cursor-dot"></div>] *)
Definition dot_node (d : CursorDoc.el) : elem :=
  El (js "div") [js "cursor-dot"] (state_attrs d) (at_inline d) false false false false (Some body_node) None.

(** [<div class="cursor-ring">], after the dot. *)
Definition ring_node (d r : CursorDoc.el) : elem :=
  El (js "div") [js "cursor-ring"] (state_attrs r) (at_inline r) false false false false
     (Some body_node) (Some (dot_node d)).

(** [<span class="cursor-text"></span>] inside the ring. *)
Definition text_node (d r : CursorDoc.el) : elem :=
  El (js "span") [js "cursor-text"] [] [] false false false false (Some (ring_node d r)) None.

(** The usage lines: a link and a project card with [data-cursor-text]. *)
Definition usage_page : list Cursor.target :=
  [Cursor.mk_target (js "a") None (Some (js "Explore")) None;
   Cursor.mk_target (js "div") None (Some (js "View Case Study")) None].

(** The states [setState] writes. *)
Definition valid_state (s : option jsstring) : bool :=
  match s with
  | Some x => existsb (js_eqb x) [js "default"; js "hover"; js "media"; js "text"]
  | None => true
  end.

Definition state_is (s : option jsstring) (n : string) : bool :=
  match s with Some x => js_eqb x (js n) | None => false end.

(** The ring's box is centred on the point it is translated to. *)
Definition centred (v : env) (e : elem) : bool :=
  match computed v cursor_css e None "top", computed v cursor_css e None "height",
        computed v cursor_css e None "left", computed v cursor_css e None "width" with
  | Some (Dim t UPx), Some (Dim h UPx), Some (Dim l UPx), Some (Dim w UPx) =>
      Qeq_bool t (- h / 2) && Qeq_bool l (- w / 2)
  | _, _, _, _ => false
  end%string.

(** What holds of the document's cursor after [new LuminaCursor()] on a
    page with its three elements. *)
Definition cursor_inv (w : CursorDoc.world) : Prop :=
  exists d r t, CursorDoc.dot w = Some d /\ CursorDoc.ring w = Some r /\ CursorDoc.text_el w = Some t /\
    CursorDoc.el_at d <> None /\ valid_state (CursorDoc.el_state r) = true.

(** ** Lemmas *)

Ltac open_inv :=
  match goal with
  | H : cursor_inv ?w |- _ =>
      let d := fresh "d" in let r := fresh "r" in let t := fresh "t" in
      destruct H as (d & r & t & ? & ? & ? & ? & ?); destruct w; cbn in *; subst
  end.

Ltac close_inv := do 3 eexists; repeat split; first [reflexivity | assumption | discriminate].

Lemma cursor_inv_init (pg : list Cursor.target) : cursor_inv (CursorDoc.init_world pg true true true).
Proof. unfold cursor_inv. cbn. close_inv. Qed.

Lemma cursor_inv_enter (i : nat) (a : Cursor.enter_action) (w : CursorDoc.world) :
  cursor_inv w -> cursor_inv (CursorDoc.call (CursorDoc.on_enter i a) w).
Proof.
  intros H. open_inv. unfold cursor_inv.
  destruct a; unfold CursorDoc.call, report; cbn; [close_inv | close_inv | | close_inv].
  destruct (nth_error page i); cbn; close_inv.
Qed.

Lemma cursor_inv_leave (w : CursorDoc.world) :
  cursor_inv w -> cursor_inv (CursorDoc.call (CursorDoc.setState (js "default")) w).
Proof. intros H. open_inv. unfold cursor_inv. cbn. close_inv. Qed.

Lemma cursor_inv_step (ev : CursorDoc.event) (w : CursorDoc.world) :
  cursor_inv w -> cursor_inv (CursorDoc.run_event ev w).
Proof.
  intros H. destruct ev as [p|i|i|]; cbn.
  - destruct (CursorDoc.doc_bound w); [|exact H]. open_inv. unfold cursor_inv. cbn. close_inv.
  - apply fold_inv; [|exact H]. intros. apply cursor_inv_enter. assumption.
  - apply fold_inv; [|exact H]. intros. apply cursor_inv_leave. assumption.
  - destruct (CursorDoc.anim w); [|exact H]. open_inv. unfold cursor_inv. cbn. close_inv.
Qed.

Lemma cursor_inv_run (pg : list Cursor.target) (evs : list CursorDoc.event) :
  cursor_inv (CursorDoc.run_events evs (CursorDoc.init_world pg true true true)).
Proof.
  unfold CursorDoc.run_events. apply fold_inv; [|apply cursor_inv_init].
  intros. apply cursor_inv_step. assumption.
Qed.

Lemma valid_state_cases (s : option jsstring) :
  valid_state s = true ->
  s = None \/ s = Some (js "default") \/ s = Some (js "hover") \/ s = Some (js "media") \/ s = Some (js "text").
Proof.
  destruct s as [x|]; cbn; [|auto]. rewrite !orb_true_iff, !js_eqb_spec.
  intros [->|[->|[->|[->|H]]]]; auto 6; discriminate.
Qed.

Lemma no_important_transform : no_important "transform" cursor_css = true.
Proof. vm_compute. reflexivity. Qed.

(** Every state the script writes, on every device, by evaluation. *)
Ltac by_state r Hs :=
  destruct r as [sr ar tr]; cbn in Hs;
  destruct (valid_state_cases sr Hs) as [->|[->|[->|[->| ->]]]];
  destruct ar; intros [[] [] [] []]; vm_compute; reflexivity.

(** ** Properties *)

(** C18: the dot always shows at the mouse: after [new LuminaCursor()] and
    any events, the dot carries the [translate] of the last frame in its
    [style] attribute and that is its computed [transform], whatever its
    [data-state]; the rule [.cursor-dot[data-state="hover"]] with
    [scale(0)] never takes effect. *)
Theorem dot_transform_is_inline (pg : list Cursor.target) (evs : list CursorDoc.event) (v : env) :
  let w := CursorDoc.run_events evs (CursorDoc.init_world pg true true true) in
  exists d p, CursorDoc.dot w = Some d /\ CursorDoc.el_at d = Some p /\
    computed v cursor_css (dot_node d) None "transform" = Some (translate p).
Proof.
  destruct (cursor_inv_run pg evs) as (d & r & t & Hd & _ & _ & Hat & _).
  destruct (CursorDoc.el_at d) as [p|] eqn:E; [|contradiction].
  exists d, p. split; [exact Hd|]. split; [exact E|].
  apply computed_inline; [exact no_important_transform | |]; unfold dot_node, at_inline; cbn; rewrite E.
  - discriminate.
  - intros c [<-|[]]. reflexivity.
Qed.

(** C39: the label inside the ring is opaque exactly when the ring is in the
    [text] state, for every event sequence and every device. *)
Theorem text_label_visible_iff_text (pg : list Cursor.target) (evs : list CursorDoc.event) :
  let w := CursorDoc.run_events evs (CursorDoc.init_world pg true true true) in
  exists d r, CursorDoc.dot w = Some d /\ CursorDoc.ring w = Some r /\
    forall v, computed v cursor_css (text_node d r) None "opacity" =
              Some (num (if state_is (CursorDoc.el_state r) "text" then 1 else 0)).
Proof.
  destruct (cursor_inv_run pg evs) as (d & r & t & Hd & Hr & _ & _ & Hs).
  exists d, r. repeat split; [exact Hd | exact Hr |]. by_state r Hs.
Qed.

(** C22: the ring's box is centred on its point (top and left are minus half
    its height and width) in every state but [media], where the 64px box
    keeps the default offsets of -24px. *)
Theorem ring_centred_unless_media (pg : list Cursor.target) (evs : list CursorDoc.event) :
  let w := CursorDoc.run_events evs (CursorDoc.init_world pg true true true) in
  exists d r, CursorDoc.dot w = Some d /\ CursorDoc.ring w = Some r /\
    forall v, centred v (ring_node d r) = negb (state_is (CursorDoc.el_state r) "media").
Proof.
  destruct (cursor_inv_run pg evs) as (d & r & t & Hd & Hr & _ & _ & Hs).
  exists d, r. repeat split; [exact Hd | exact Hr |]. by_state r Hs.
Qed.

(** Entering the usage link [data-cursor-text="Explore"]: its hover and
    text listeners both run, in that order, so the ring ends in the
    [text] state with the label "Explore" shown, 120px wide. *)
Example usage_link_label :
  let w := CursorDoc.run_events [CursorDoc.EvEnter 0] (CursorDoc.init_world usage_page true true true) in
  exists d r t, CursorDoc.dot w = Some d /\ CursorDoc.ring w = Some r /\ CursorDoc.text_el w = Some t /\
    CursorDoc.el_state r = Some (js "text") /\ CursorDoc.el_text t = js "Explore" /\
    computed (mk_env true false false true) cursor_css (text_node d r) None "opacity" = Some (num 1) /\
    computed (mk_env true false false true) cursor_css (ring_node d r) None "width" = Some (px 120).
Proof. vm_compute. do 3 eexists. repeat split. Qed.

(** Over an image the ring is 64px but still offset by -24px: its centre
    sits 8px right of and below the point it follows. *)
Example media_ring_offset :
  let w := CursorDoc.run_events [CursorDoc.EvEnter 0]
             (CursorDoc.init_world [Cursor.mk_target (js "img") None None None] true true true) in
  exists d r, CursorDoc.dot w = Some d /\ CursorDoc.ring w = Some r /\
    computed (mk_env true false false true) cursor_css (ring_node d r) None "top" = Some (px (-24)) /\
    computed (mk_env true false false true) cursor_css (ring_node d r) None "height" = Some (px 64).
Proof. vm_compute. do 2 eexists. repeat split. Qed.

End CursorCss.
