(* ===== verification/Tilt.v ===== *)
(** * The 3D tilt effect ([TiltElement], [initTilt], src/src/js/tilt.js)

    The options of a [TiltElement] merged over their defaults, the style
    properties its handlers write on the element and on the glare layer,
    the [mouseenter]/[mousemove]/[mouseleave] listeners, the timeout that
    [onEnter] sets, and [destroy].  Numbers are [JsNum.num], so a zero
    width or height gives the [NaN] or infinite angles the code computes.
    The transform is kept as the values interpolated into its template
    string; the string formatting of numbers is not modelled. *)

From Stdlib Require Import String ZArith QArith Qabs Lqa List Lia.
From S2P Require Import Prelude Dom JsNum.
Import ListNotations JsNum.

Module Tilt.

(** ** Data *)

(** [this.options]. *)
Record options := mk_options {
  maxTilt : num;
  perspective : num;
  scale : num;
  speed : Z;
  glare : bool;
  maxGlare : num
}.

(** The defaults [{ maxTilt: 15, perspective: 1000, scale: 1.02, speed: 400,
    glare: true, maxGlare: 0.2 }]. *)
Definition default_options : options :=
  mk_options (Fin 15) (Fin 1000) (Fin (102 # 100)) 400 true (Fin (2 # 10)).

(** The own properties of the [options] argument that [initTilt] passes
    ([None]: the property is absent). *)
Record overrides := mk_overrides {
  o_maxTilt : option num;
  o_scale : option num;
  o_glare : option bool
}.

Definition pick {A} (o : option A) (d : A) : A := match o with Some x => x | None => d end.

(** [{ ...defaults, ...options }]. *)
Definition merge (o : overrides) : options :=
  mk_options (pick (o_maxTilt o) (maxTilt default_options)) (perspective default_options)
             (pick (o_scale o) (scale default_options)) (speed default_options)
             (pick (o_glare o) (glare default_options)) (maxGlare default_options).

(** [style.transition]: [`transform ${speed}ms ease`] or ['none']. *)
Inductive transition := TransitionEase (ms : Z) | TransitionNone.

(** [style.transform]: the tilted template with its four interpolated
    values, or the template of [onLeave] (no rotation, scale 1). *)
Inductive transform :=
| Tilted (persp rotateX rotateY sc : num)
| Resting (persp : num).

(** The element's style properties the module writes ([None]: empty). *)
Record style := mk_style {
  transformStyle : option jsstring;
  willChange : option jsstring;
  st_transition : option transition;
  st_transform : option transform
}.

(** The inner glare layer: its [background] (the values interpolated into
    the radial gradient), its [opacity], and whether its wrapper is still
    in the element. *)
Record glare_layer := mk_glare {
  background : option (num * num * num);
  opacity : option jsstring;
  attached : bool
}.

(** [getBoundingClientRect()]. *)
Record rect := mk_rect { left : Q; top : Q; width : Q; height : Q }.

(** The element with its [TiltElement]: touch device or not, the options,
    the style, [this.glareElement], whether the listeners are bound, and
    the timers with the clock. *)
Record world := mk_world {
  touch : bool;
  opts : options;
  st : style;
  glare_el : option glare_layer;
  bound : bool;
  timers : list (Dom.timer unit);
  next_id : nat;
  now : Z
}.

(** ** Record updates *)

Definition set_st (w : world) (s : style) : world :=
  mk_world (touch w) (opts w) s (glare_el w) (bound w) (timers w) (next_id w) (now w).
Definition set_glare (w : world) (g : option glare_layer) : world :=
  mk_world (touch w) (opts w) (st w) g (bound w) (timers w) (next_id w) (now w).
Definition set_bound (w : world) : world :=
  mk_world (touch w) (opts w) (st w) (glare_el w) true (timers w) (next_id w) (now w).
Definition set_timers (w : world) (ts : list (Dom.timer unit)) (n : nat) (t : Z) : world :=
  mk_world (touch w) (opts w) (st w) (glare_el w) (bound w) ts n t.

Definition with_transition (s : style) (t : option transition) : style :=
  mk_style (transformStyle s) (willChange s) t (st_transform s).
Definition with_transform (s : style) (t : option transform) : style :=
  mk_style (transformStyle s) (willChange s) (st_transition s) t.

Definition with_background (g : glare_layer) (b : num * num * num) : glare_layer :=
  mk_glare (Some b) (opacity g) (attached g).
Definition with_opacity (g : glare_layer) (o : jsstring) : glare_layer :=
  mk_glare (background g) (Some o) (attached g).
Definition detached (g : glare_layer) : glare_layer :=
  mk_glare (background g) (opacity g) false.

(** [if (this.glareElement) ...]. *)
Definition on_glare (f : glare_layer -> glare_layer) (w : world) : world :=
  match glare_el w with
  | Some g => set_glare w (Some (f g))
  | None => w
  end.

(** ** The methods *)

(** [addGlare()]. *)
Definition addGlare (w : world) : world := set_glare w (Some (mk_glare None None true)).

(** [init()]: nothing on a touch device. *)
Definition init (w : world) : world :=
  if touch w then w
  else
    let w1 := set_st w (mk_style (Some (js "preserve-3d")) (Some (js "transform"))
                                 (st_transition (st w)) (st_transform (st w))) in
    let w2 := if glare (opts w1) then addGlare w1 else w1 in
    set_bound w2.

(** [new TiltElement(el, options)] on an element with an empty style. *)
Definition TiltElement_new (is_touch : bool) (o : overrides) : world :=
  init (mk_world is_touch (merge o) (mk_style None None None None) None false [] 1 0).

(** [onEnter()]: the scale transition, and a timeout that removes it
    [speed] ms later. *)
Definition onEnter (w : world) : world :=
  let w1 := set_st w (with_transition (st w) (Some (TransitionEase (speed (opts w))))) in
  set_timers w1 (Dom.schedule (timers w1) (next_id w1) (now w1) (speed (opts w1)) tt) (S (next_id w1)) (now w1).

(** The timeout of [onEnter]: [style.transition = 'none']. *)
Definition enter_timeout (w : world) : world :=
  set_st w (with_transition (st w) (Some TransitionNone)).

(** [onMove(e)] for a pointer at [(cx, cy)] over the element's box [r]. *)
Definition onMove (cx cy : Q) (r : rect) (w : world) : world :=
  let x := Fin (cx - left r) in
  let y := Fin (cy - top r) in
  let centerX := div (Fin (width r)) (Fin 2) in
  let centerY := div (Fin (height r)) (Fin 2) in
  let rotateX := mul (div (sub y centerY) centerY) (neg (maxTilt (opts w))) in
  let rotateY := mul (div (sub x centerX) centerX) (maxTilt (opts w)) in
  let w1 := set_st w (with_transform (st w)
              (Some (Tilted (perspective (opts w)) rotateX rotateY (scale (opts w))))) in
  let glareX := mul (div x (Fin (width r))) (Fin 100) in
  let glareY := mul (div y (Fin (height r))) (Fin 100) in
  on_glare (fun g => with_opacity (with_background g (glareX, glareY, maxGlare (opts w))) (js "1")) w1.

(** [onLeave()]. *)
Definition onLeave (w : world) : world :=
  let w1 := set_st w (with_transform (with_transition (st w) (Some (TransitionEase (speed (opts w)))))
                                     (Some (Resting (perspective (opts w))))) in
  on_glare (fun g => with_opacity g (js "0")) w1.

(** [destroy()]: the inline transform and transition cleared, the glare
    wrapper removed; the listeners stay. *)
Definition destroy (w : world) : world :=
  let w1 := set_st w (with_transition (with_transform (st w) None) None) in
  on_glare detached w1.

(** [initTilt()] for one [[data-tilt]] element, from its [data-tilt-max],
    [data-tilt-scale] and [data-tilt-glare] attributes. *)
Definition initTilt_overrides (tiltMax tiltScale tiltGlare : option jsstring) : overrides :=
  mk_overrides (Some (or_default (attr_number parseFloat tiltMax) (Fin 15)))
               (Some (or_default (attr_number parseFloat tiltScale) (Fin (102 # 100))))
               (Some (negb (match tiltGlare with Some v => js_eqb v (js "false") | None => false end))).

Definition initTilt_element (is_touch : bool) (tiltMax tiltScale tiltGlare : option jsstring) : world :=
  TiltElement_new is_touch (initTilt_overrides tiltMax tiltScale tiltGlare).

(** ** The host *)

Inductive event := EvEnter | EvMove (cx cy : Q) (r : rect) | EvLeave | EvTimer | EvDestroy.

Definition run_event (ev : event) (w : world) : world :=
  match ev with
  | EvEnter => if bound w then onEnter w else w
  | EvMove cx cy r => if bound w then onMove cx cy r w else w
  | EvLeave => if bound w then onLeave w else w
  | EvTimer =>
      match Dom.earliest (timers w) with
      | Some t => enter_timeout (set_timers w (Dom.fired (timers w) t) (next_id w) (Dom.t_due t))
      | None => w
      end
  | EvDestroy => destroy w
  end.

Definition run_events (evs : list event) (w : world) : world :=
  fold_left (fun w ev => run_event ev w) evs w.

Inductive reachable : world -> Prop :=
| reach_init t mx sc gl : reachable (initTilt_element t mx sc gl)
| reach_step w ev : reachable w -> reachable (run_event ev w).

(** A card with [data-tilt-max="10"] on a desktop, and its box: 200 by
    100 at (100, 0). *)
Definition demo_tilt : world := initTilt_element false (Some (js "10")) None None.
Definition demo_rect : rect := mk_rect 100 0 200 100.

(** ** Lemmas *)

Lemma two_nonzero : ~ (2 : Q) == 0.
Proof. unfold Qeq. simpl. lia. Qed.

Lemma half_nonzero (h : Q) : 0 < h -> ~ h / 2 == 0.
Proof. intros Hh E. assert (0 < h / 2) by (apply Qlt_shift_div_l; lra). lra. Qed.

(** [(t - c) / c] for [t] in [[0, 2c]] is in [[-1, 1]]. *)
Lemma ratio_bound (t c : Q) : 0 < c -> 0 <= t <= 2 * c -> Qabs ((t + - c) / c) <= 1.
Proof.
  intros Hc Ht. apply (proj2 (Qabs_Qle_condition _ _)). split.
  - apply Qle_shift_div_l; lra.
  - apply Qle_shift_div_r; lra.
Qed.

Lemma scaled_bound (a m : Q) : Qabs a <= 1 -> Qabs (a * m) <= Qabs m.
Proof.
  intros Ha. rewrite Qabs_Qmult. pose proof (Qabs_nonneg m). pose proof (Qabs_nonneg a). nra.
Qed.

(** [(t / w) * 100] for [t] in [[0, w]] is in [[0, 100]]. *)
Lemma share_bound (t w : Q) : 0 < w -> 0 <= t <= w -> 0 <= t / w * 100 <= 100.
Proof.
  intros Hw Ht. assert (0 <= t / w) by (apply Qle_shift_div_l; lra).
  assert (t / w <= 1) by (apply Qle_shift_div_r; lra). lra.
Qed.

(** The angles and glare position [onMove] computes inside a box of
    positive size. *)
Lemma onMove_values (cx cy : Q) (r : rect) (w : world) (m : Q) :
  maxTilt (opts w) = Fin m -> 0 < width r -> 0 < height r ->
  st (onMove cx cy r w) =
    with_transform (st w) (Some (Tilted (perspective (opts w))
      (Fin ((cy - top r + - (height r / 2)) / (height r / 2) * - m))
      (Fin ((cx - left r + - (width r / 2)) / (width r / 2) * m))
      (scale (opts w)))) /\
  glare_el (onMove cx cy r w) =
    option_map (fun g => with_opacity (with_background g
      (Fin ((cx - left r) / width r * 100), Fin ((cy - top r) / height r * 100), maxGlare (opts w))) (js "1"))
      (glare_el w).
Proof.
  intros Hm Hw Hh. unfold onMove. rewrite Hm.
  rewrite !(div_fin _ 2 two_nonzero). cbn [sub add neg].
  rewrite (div_fin _ _ (half_nonzero _ Hh)), (div_fin _ _ (half_nonzero _ Hw)).
  rewrite (div_fin _ _ (Qnot_eq_sym _ _ (Qlt_not_eq _ _ Hw))), (div_fin _ _ (Qnot_eq_sym _ _ (Qlt_not_eq _ _ Hh))).
  cbn [mul neg]. unfold on_glare. destruct w as [t o s g b ts n nw]. cbn. destruct g; split; reflexivity.
Qed.

(** ** Properties of the tilt effect *)

(** C30: a pointer inside the element's box tilts it by at most
    [maxTilt] degrees about each axis, and places the glare inside the
    box (0% to 100% on each axis). *)
Theorem tilt_within_max (w : world) (cx cy m : Q) (r : rect) :
  bound w = true -> maxTilt (opts w) = Fin m -> 0 < width r -> 0 < height r ->
  left r <= cx <= left r + width r -> top r <= cy <= top r + height r ->
  exists rx ry,
    st_transform (st (run_event (EvMove cx cy r) w)) =
      Some (Tilted (perspective (opts w)) (Fin rx) (Fin ry) (scale (opts w))) /\
    Qabs rx <= Qabs m /\ Qabs ry <= Qabs m /\
    forall g, glare_el (run_event (EvMove cx cy r) w) = Some g ->
      exists gx gy, background g = Some (Fin gx, Fin gy, maxGlare (opts w)) /\
                    0 <= gx <= 100 /\ 0 <= gy <= 100.
Proof.
  intros Hb Hm Hw Hh Hx Hy. simpl run_event. rewrite Hb.
  destruct (onMove_values cx cy r w m Hm Hw Hh) as [Est Egl]. rewrite Est, Egl.
  eexists; eexists; split; [reflexivity |].
  split; [| split].
  - rewrite <- (Qabs_opp m). apply scaled_bound, ratio_bound; [apply Qlt_shift_div_l; lra |].
    setoid_replace (2 * (height r / 2)) with (height r) by field. lra.
  - apply scaled_bound, ratio_bound; [apply Qlt_shift_div_l; lra |].
    setoid_replace (2 * (width r / 2)) with (width r) by field. lra.
  - intros g Hg. destruct (glare_el w) as [g0|]; [| discriminate]. injection Hg as <-.
    do 2 eexists. split; [reflexivity |]. split; apply share_bound; lra.
Qed.

(** Over a box of zero height (a collapsed element) the code divides
    by zero: the [rotateX] it writes into the transform is [NaN] or
    infinite, whatever the options. *)
Theorem zero_height_not_finite (w : world) (cx cy : Q) (r : rect) :
  bound w = true -> height r == 0 ->
  exists p rx ry sc, st_transform (st (run_event (EvMove cx cy r) w)) = Some (Tilted p rx ry sc) /\
                     forall q, rx <> Fin q.
Proof.
  intros Hb Hh. simpl run_event. rewrite Hb. unfold onMove. cbv zeta.
  rewrite (div_fin _ 2 two_nonzero).
  assert (Hc : height r / 2 == 0) by (rewrite Hh; reflexivity).
  unfold on_glare. destruct w as [t o s g b ts n nw]. cbn [st glare_el opts].
  exists (perspective o), (mul (div (sub (Fin (cy - top r)) (Fin (height r / 2))) (Fin (height r / 2))) (neg (maxTilt o))).
  eexists; eexists. split; [destruct g; reflexivity |].
  intros q. apply mul_not_fin. intros q'. now apply div_zero_not_fin.
Qed.

(** C32: leaving within [speed] ms of entering loses the ease-back: the
    timeout [onEnter] set still fires and writes [transition: none]
    while the element is returning to rest, so it snaps back. *)
Theorem leave_race_drops_transition (w : world) :
  bound w = true -> timers w = [] ->
  st_transition (st (run_events [EvEnter; EvLeave] w)) = Some (TransitionEase (speed (opts w))) /\
  st_transition (st (run_events [EvEnter; EvLeave; EvTimer] w)) = Some TransitionNone /\
  st_transform (st (run_events [EvEnter; EvLeave; EvTimer] w)) = Some (Resting (perspective (opts w))) /\
  now (run_events [EvEnter; EvLeave; EvTimer] w) = (now w + Z.max 0 (speed (opts w)))%Z.
Proof.
  intros Hb Ht. destruct w as [t o s g b ts n nw]. cbn in Hb, Ht. subst b ts.
  unfold run_events. cbn. destruct g; cbn; repeat split.
Qed.

(** C33: [destroy()] leaves the listeners bound: the next [mousemove]
    tilts the element again (and writes on the removed glare layer). *)
Theorem destroy_keeps_tilting (w : world) (cx cy : Q) (r : rect) :
  bound w = true ->
  st_transform (st (run_event EvDestroy w)) = None /\
  exists p rx ry sc,
    st_transform (st (run_events [EvDestroy; EvMove cx cy r] w)) = Some (Tilted p rx ry sc).
Proof.
  intros Hb. destruct w as [t o s g b ts n nw]. cbn in Hb. subst b.
  unfold run_events. cbn. split; [destruct g; reflexivity |].
  destruct g; cbn; do 4 eexists; reflexivity.
Qed.

(** ** The theorems on the demo card *)

Lemma tilt_within_max_witness :
  (bound demo_tilt = true /\ maxTilt (opts demo_tilt) = Fin 10 /\ 0 < width demo_rect /\ 0 < height demo_rect /\
   left demo_rect <= 150 <= left demo_rect + width demo_rect /\ top demo_rect <= 50 <= top demo_rect + height demo_rect) /\
  exists rx ry,
    st_transform (st (run_event (EvMove 150 50 demo_rect) demo_tilt)) =
      Some (Tilted (perspective (opts demo_tilt)) (Fin rx) (Fin ry) (scale (opts demo_tilt))) /\
    Qabs rx <= Qabs 10 /\ Qabs ry <= Qabs 10 /\
    forall g, glare_el (run_event (EvMove 150 50 demo_rect) demo_tilt) = Some g ->
      exists gx gy, background g = Some (Fin gx, Fin gy, maxGlare (opts demo_tilt)) /\
                    0 <= gx <= 100 /\ 0 <= gy <= 100.
Proof.
  assert (Hb : bound demo_tilt = true) by reflexivity.
  assert (Hm : maxTilt (opts demo_tilt) = Fin 10) by reflexivity.
  assert (Hw : 0 < width demo_rect) by reflexivity.
  assert (Hh : 0 < height demo_rect) by reflexivity.
  assert (Hx : left demo_rect <= 150 <= left demo_rect + width demo_rect) by (split; vm_compute; discriminate).
  assert (Hy : top demo_rect <= 50 <= top demo_rect + height demo_rect) by (split; vm_compute; discriminate).
  split; [exact (conj Hb (conj Hm (conj Hw (conj Hh (conj Hx Hy))))) |].
  exact (tilt_within_max demo_tilt 150 50 10 demo_rect Hb Hm Hw Hh Hx Hy).
Defined.

Lemma zero_height_not_finite_witness :
  (bound demo_tilt = true /\ height (mk_rect 100 0 200 0) == 0) /\
  exists p rx ry sc, st_transform (st (run_event (EvMove 150 50 (mk_rect 100 0 200 0)) demo_tilt)) = Some (Tilted p rx ry sc) /\
                     forall q, rx <> Fin q.
Proof.
  assert (Hb : bound demo_tilt = true) by reflexivity.
  assert (Hh : height (mk_rect 100 0 200 0) == 0) by reflexivity.
  split; [split; assumption |]. exact (zero_height_not_finite demo_tilt 150 50 _ Hb Hh).
Defined.

Lemma leave_race_drops_transition_witness :
  (bound demo_tilt = true /\ timers demo_tilt = []) /\
  st_transition (st (run_events [EvEnter; EvLeave] demo_tilt)) = Some (TransitionEase (speed (opts demo_tilt))) /\
  st_transition (st (run_events [EvEnter; EvLeave; EvTimer] demo_tilt)) = Some TransitionNone /\
  st_transform (st (run_events [EvEnter; EvLeave; EvTimer] demo_tilt)) = Some (Resting (perspective (opts demo_tilt))) /\
  now (run_events [EvEnter; EvLeave; EvTimer] demo_tilt) = (now demo_tilt + Z.max 0 (speed (opts demo_tilt)))%Z.
Proof.
  assert (Hb : bound demo_tilt = true) by reflexivity.
  assert (Ht : timers demo_tilt = []) by reflexivity.
  split; [split; assumption |]. exact (leave_race_drops_transition demo_tilt Hb Ht).
Defined.

Lemma destroy_keeps_tilting_witness :
  bound demo_tilt = true /\
  st_transform (st (run_event EvDestroy demo_tilt)) = None /\
  exists p rx ry sc,
    st_transform (st (run_events [EvDestroy; EvMove 150 50 demo_rect] demo_tilt)) = Some (Tilted p rx ry sc).
Proof.
  assert (Hb : bound demo_tilt = true) by reflexivity.
  split; [exact Hb |]. exact (destroy_keeps_tilting demo_tilt 150 50 demo_rect Hb).
Defined.

End Tilt.
