(* ===== verification/TiltDoc.v ===== *)
(** * The design document's tilt effect (section 6.3, src/unnamed/part_000)

    The document's [TiltElement]: its defaults ([scale: 1.05],
    [maxGlare: 0.3]), an [init] with no touch check that sets the
    transition at once, an [onEnter] that removes it, the same angle
    computation in [onMove] with a 2D [scale], a glare background set to
    ['transparent'] on leave, and no [destroy].  The angles it writes are
    proved to be the implementation's ([Tilt.v]). *)

From Stdlib Require Import String ZArith QArith List.
From S2P Require Import Prelude JsNum Tilt.
Import ListNotations JsNum.

Module TiltDoc.

(** [this.options]. *)
Record options := mk_options {
  maxTilt : num;
  perspective : num;
  scale : num;
  speed : Z;
  glare : bool;
  maxGlare : num
}.

(** [{ maxTilt: 15, perspective: 1000, scale: 1.05, speed: 400,
    glare: true, maxGlare: 0.3 }]. *)
Definition default_options : options :=
  mk_options (Fin 15) (Fin 1000) (Fin (105 # 100)) 400 true (Fin (3 # 10)).

(** [style.transform]: the tilted template ([scale(...)]) or the resting
    one. *)
Inductive transform :=
| Tilted (persp rotateX rotateY sc : num)
| Resting (persp : num).

(** The glare layer's [background]: the radial gradient's values, or
    ['transparent']. *)
Inductive background := Gradient (gx gy alpha : num) | Transparent.

(** The element with its [TiltElement]: the options, the style properties
    written, and [this.glare] (absent without glare) with its
    background. *)
Record world := mk_world {
  opts : options;
  transformStyle : option jsstring;
  transition : option Tilt.transition;
  st_transform : option transform;
  glare_layer : option (option background)
}.

Definition set_transition (w : world) (t : Tilt.transition) : world :=
  mk_world (opts w) (transformStyle w) (Some t) (st_transform w) (glare_layer w).
Definition set_transform (w : world) (t : transform) : world :=
  mk_world (opts w) (transformStyle w) (transition w) (Some t) (glare_layer w).
Definition set_background (w : world) (b : background) : world :=
  match glare_layer w with
  | Some _ => mk_world (opts w) (transformStyle w) (transition w) (st_transform w) (Some (Some b))
  | None => w
  end.

(** [addGlare()]. *)
Definition addGlare (w : world) : world :=
  mk_world (opts w) (transformStyle w) (transition w) (st_transform w) (Some None).

(** [init()]: 3D style, the transition, the glare layer; the listeners
    are always bound. *)
Definition init (w : world) : world :=
  let w1 := mk_world (opts w) (Some (js "preserve-3d")) (Some (Tilt.TransitionEase (speed (opts w))))
                     (st_transform w) (glare_layer w) in
  if glare (opts w1) then addGlare w1 else w1.

(** [new TiltElement(el, options)]. *)
Definition TiltElement_new (o : options) : world := init (mk_world o None None None None).

(** [onEnter()]. *)
Definition onEnter (w : world) : world := set_transition w Tilt.TransitionNone.

(** [onMove(e)] for a pointer at [(cx, cy)] over the box [r]. *)
Definition onMove (cx cy : Q) (r : Tilt.rect) (w : world) : world :=
  let x := Fin (cx - Tilt.left r) in
  let y := Fin (cy - Tilt.top r) in
  let centerX := div (Fin (Tilt.width r)) (Fin 2) in
  let centerY := div (Fin (Tilt.height r)) (Fin 2) in
  let rotateX := mul (div (sub y centerY) centerY) (neg (maxTilt (opts w))) in
  let rotateY := mul (div (sub x centerX) centerX) (maxTilt (opts w)) in
  let w1 := set_transform w (Tilted (perspective (opts w)) rotateX rotateY (scale (opts w))) in
  let glareX := mul (div x (Fin (Tilt.width r))) (Fin 100) in
  let glareY := mul (div y (Fin (Tilt.height r))) (Fin 100) in
  set_background w1 (Gradient glareX glareY (maxGlare (opts w))).

(** [onLeave()]. *)
Definition onLeave (w : world) : world :=
  let w1 := set_transform (set_transition w (Tilt.TransitionEase (speed (opts w)))) (Resting (perspective (opts w))) in
  set_background w1 Transparent.

(** The initialisation: every [[data-tilt]] element with the defaults. *)
Definition init_element : world := TiltElement_new default_options.

Inductive event := EvEnter | EvMove (cx cy : Q) (r : Tilt.rect) | EvLeave.

Definition run_event (ev : event) (w : world) : world :=
  match ev with
  | EvEnter => onEnter w
  | EvMove cx cy r => onMove cx cy r w
  | EvLeave => onLeave w
  end.

(** ** Lemmas *)

(** For the same [maxTilt], the document's [onMove] writes the angles the
    implementation's writes, for every pointer and box. *)
Lemma doc_angles_agree (cx cy : Q) (r : Tilt.rect) (w : Tilt.world) (d : world) :
  Tilt.maxTilt (Tilt.opts w) = maxTilt (opts d) ->
  match Tilt.st_transform (Tilt.st (Tilt.onMove cx cy r w)), st_transform (onMove cx cy r d) with
  | Some (Tilt.Tilted _ rx ry _), Some (Tilted _ rx' ry' _) => rx = rx' /\ ry = ry'
  | _, _ => False
  end.
Proof.
  intros Hm. unfold Tilt.onMove, onMove, Tilt.on_glare, set_background.
  destruct w as [t o s g b ts n nw], d as [o' ts' tr' tf' gl']. cbn in Hm |- *.
  rewrite Hm. destruct g, gl'; cbn; split; reflexivity.
Qed.

(** On entering, the document drops the transition at once, where the
    implementation keeps the eased transition for [speed] ms. *)
Example enter_transitions_differ :
  transition (run_event EvEnter init_element) = Some Tilt.TransitionNone /\
  Tilt.st_transition (Tilt.st (Tilt.run_event Tilt.EvEnter (Tilt.initTilt_element false None None None))) =
    Some (Tilt.TransitionEase 400).
Proof. split; reflexivity. Qed.

End TiltDoc.
