(* ===== verification/Magnetic.v ===== *)
(** * Magnetic hover ([MagneticElement], [initMagnetic], src/unnamed/part_002)

    The options merged over their defaults, the fields [pos], [target],
    [rect], [center] and [isHovered], the listeners [init] adds (window
    [resize], the element's [mouseenter]/[mouseleave], the document's
    [mousemove]), the [animate] loop on animation frames and [destroy].
    Numbers are [JsNum.num]; pointer coordinates and boxes are finite.
    Finite values are exact rationals: the rounding of doubles, and their
    overflow to [Infinity] (a [data-magnetic-strength] of [1e308] times a
    100px offset), are not modelled, so no theorem here says the
    coordinates stay finite.
    [Math.hypot] is an interface with the laws the proofs use, as
    [Math.random] is in the prelude. *)

From Stdlib Require Import String ZArith QArith Qabs Qminmax Lqa List Lia.
From S2P Require Import Prelude JsNum.
Import ListNotations JsNum.

Module Magnetic.

(** ** [Math.hypot] *)

Class Hypot := { math_hypot : Q -> Q -> Q }.

(** What the proofs use of [Math.hypot(a, b)]: it is at least [|a|] and
    at least [|b|]. *)
Class HypotOk `{Hypot} := {
  hypot_ge_l : forall a b, Qabs a <= math_hypot a b;
  hypot_ge_r : forall a b, Qabs b <= math_hypot a b
}.

(** A source satisfying the laws (the larger of [|a|] and [|b|], below
    the true value by a factor at most [sqrt 2]), used to run the model
    on concrete inputs. *)
#[export] Instance hypot_max : Hypot := { math_hypot a b := Qmax (Qabs a) (Qabs b) }.

#[export] Instance hypot_max_ok : HypotOk.
Proof. split; intros a b; cbn; [apply Q.le_max_l | apply Q.le_max_r]. Qed.

(** ** Data *)

(** [this.options]. *)
Record options := mk_options { strength : num; triggerArea : num; lerp : num }.

(** [{ strength: 0.4, triggerArea: 200, lerp: 0.1, ...options }] with the
    [strength] and [triggerArea] [initMagnetic] passes. *)
Definition merge (s t : num) : options := mk_options s t (Fin (1 # 10)).

(** [getBoundingClientRect()]. *)
Record box := mk_box { left : Q; top : Q; width : Q; height : Q }.

(** An element with its [MagneticElement]: the options, [pos], [target],
    [rect], [center], [isHovered], a pending animation frame, and the
    element's [style.transform] (the two numbers of its template, [None]
    when empty). *)
Record world := mk_world {
  opts : options;
  pos : num * num;
  target : num * num;
  rect : option box;
  center : num * num;
  isHovered : bool;
  frame_pending : bool;
  transform : option (num * num)
}.

Definition set_pos (w : world) (p : num * num) : world :=
  mk_world (opts w) p (target w) (rect w) (center w) (isHovered w) (frame_pending w) (transform w).
Definition set_target (w : world) (t : num * num) : world :=
  mk_world (opts w) (pos w) t (rect w) (center w) (isHovered w) (frame_pending w) (transform w).
Definition set_bounds (w : world) (b : box) (c : num * num) : world :=
  mk_world (opts w) (pos w) (target w) (Some b) c (isHovered w) (frame_pending w) (transform w).
Definition set_hovered (w : world) (h : bool) : world :=
  mk_world (opts w) (pos w) (target w) (rect w) (center w) h (frame_pending w) (transform w).
Definition set_frame (w : world) (f : bool) (tr : option (num * num)) : world :=
  mk_world (opts w) (pos w) (target w) (rect w) (center w) (isHovered w) f tr.

(** [a < b] on numbers ([NaN] compares false). *)
Definition num_lt (a b : num) : bool :=
  match a, b with
  | Fin x, Fin y => if Qlt_le_dec x y then true else false
  | Fin _, Inf true | Inf false, Fin _ | Inf false, Inf true => true
  | _, _ => false
  end.

(** ** The methods *)

(** The centre of a box: [rect.left + rect.width / 2] and the same for
    [top]. *)
Definition box_center (b : box) : num * num :=
  (add (Fin (left b)) (div (Fin (width b)) (Fin 2)), add (Fin (top b)) (div (Fin (height b)) (Fin 2))).

(** [calculateBounds()] with the element's current box. *)
Definition calculateBounds (b : box) (w : world) : world := set_bounds w b (box_center b).

Section WithHypot.
Context `{Hypot}.

(** [onMouseMove(e)] for a pointer at [(cx, cy)], the element's box being
    [b] at that moment. *)
Definition onMouseMove (cx cy : Q) (b : box) (w : world) : world :=
  let w1 := calculateBounds b w in
  let dx := sub (Fin cx) (fst (center w1)) in
  let dy := sub (Fin cy) (snd (center w1)) in
  let distance := match dx, dy with Fin a, Fin c => Fin (math_hypot a c) | _, _ => NaN end in
  if num_lt distance (triggerArea (opts w1)) then
    let pull := sub (Fin 1) (div distance (triggerArea (opts w1))) in
    set_target w1 (mul (mul dx (strength (opts w1))) pull, mul (mul dy (strength (opts w1))) pull)
  else if negb (isHovered w1) then set_target w1 (Fin 0, Fin 0)
  else w1.

End WithHypot.

(** [pos += (target - pos) * lerp] on one coordinate. *)
Definition step (p t l : num) : num := add p (mul (sub t p) l).

(** [animate()]: move [pos], write the transform, request the next
    frame. *)
Definition animate (w : world) : world :=
  let p := (step (fst (pos w)) (fst (target w)) (lerp (opts w)),
            step (snd (pos w)) (snd (target w)) (lerp (opts w))) in
  set_frame (set_pos w p) true (Some p).

(** [destroy()]: the pending frame cancelled, the transform cleared; the
    listeners stay. *)
Definition destroy (w : world) : world := set_frame w false None.

(** [new MagneticElement(el, options)] on an element whose box is [b]:
    the fields, then [init()] ([calculateBounds], listeners, first
    [animate]). *)
Definition MagneticElement_new (o : options) (b : box) : world :=
  animate (calculateBounds b (mk_world o (Fin 0, Fin 0) (Fin 0, Fin 0) None (Fin 0, Fin 0) false false None)).

(** [initMagnetic()] for one [[data-magnetic]] element. *)
Definition initMagnetic_element (magneticStrength magneticTrigger : option jsstring) (b : box) : world :=
  MagneticElement_new
    (merge (or_default (attr_number parseFloat magneticStrength) (Fin (4 # 10)))
           (or_default (attr_number parseFloat magneticTrigger) (Fin 200))) b.

(** ** The host *)

Inductive event :=
| EvResize (b : box)
| EvEnter
| EvLeave
| EvMouseMove (cx cy : Q) (b : box)
| EvFrame
| EvDestroy.

Section Host.
Context `{Hypot}.

Definition run_event (ev : event) (w : world) : world :=
  match ev with
  | EvResize b => calculateBounds b w
  | EvEnter => set_hovered w true
  | EvLeave => set_target (set_hovered w false) (Fin 0, Fin 0)
  | EvMouseMove cx cy b => onMouseMove cx cy b w
  | EvFrame => if frame_pending w then animate (set_frame w false (transform w)) else w
  | EvDestroy => destroy w
  end.

Definition run_events (evs : list event) (w : world) : world :=
  fold_left (fun w ev => run_event ev w) evs w.

Inductive reachable : world -> Prop :=
| reach_init s t b : reachable (initMagnetic_element s t b)
| reach_step w ev : reachable w -> reachable (run_event ev w).

End Host.

(** ** The design document's version (src/unnamed/part_000, section 2.2)

    The same class without [rect], [center], the [resize] listener, the
    frame handle and [destroy]; the smoothing option is [interpolation];
    the defaults are [strength: 0.5, triggerArea: 150], and the
    initialisation passes only [strength]. *)

Module Doc.

Record options := mk_options { strength : num; triggerArea : num; interpolation : num }.

(** The element and its [MagneticElement]: every [animate] requests the
    next frame, so a frame is always pending. *)
Record world := mk_world {
  opts : options;
  pos : num * num;
  target : num * num;
  isHovered : bool;
  transform : option (num * num)
}.

Definition set_target (w : world) (t : num * num) : world :=
  mk_world (opts w) (pos w) t (isHovered w) (transform w).
Definition set_hovered (w : world) (h : bool) : world :=
  mk_world (opts w) (pos w) (target w) h (transform w).

Section WithHypot.
Context `{Hypot}.

(** [onMouseMove(e)], the element's box being [b]. *)
Definition onMouseMove (cx cy : Q) (b : box) (w : world) : world :=
  let center := box_center b in
  let dx := sub (Fin cx) (fst center) in
  let dy := sub (Fin cy) (snd center) in
  let distance := match dx, dy with Fin a, Fin c => Fin (math_hypot a c) | _, _ => NaN end in
  if num_lt distance (triggerArea (opts w)) then
    let pull := sub (Fin 1) (div distance (triggerArea (opts w))) in
    set_target w (mul (mul dx (strength (opts w))) pull, mul (mul dy (strength (opts w))) pull)
  else if negb (isHovered w) then set_target w (Fin 0, Fin 0)
  else w.

End WithHypot.

(** [animate()]. *)
Definition animate (w : world) : world :=
  let p := (step (fst (pos w)) (fst (target w)) (interpolation (opts w)),
            step (snd (pos w)) (snd (target w)) (interpolation (opts w))) in
  mk_world (opts w) p (target w) (isHovered w) (Some p).

(** [new MagneticElement(el, options)]: the fields, then [init()]. *)
Definition MagneticElement_new (o : options) : world :=
  animate (mk_world o (Fin 0, Fin 0) (Fin 0, Fin 0) false None).

(** The initialisation loop for one [[data-magnetic]] element. *)
Definition init_element (magneticStrength : option jsstring) : world :=
  MagneticElement_new
    (mk_options (or_default (attr_number parseFloat magneticStrength) (Fin (1 # 2))) (Fin 150) (Fin (1 # 10))).

(** The usage markup of section 2.3: the [data-magnetic-strength] of
    each [[data-magnetic]] element in document order (a button, a link
    at 0.8, a button and the span inside it at 0.3), and the elements
    the initialisation loop creates for them. *)
Definition usage_strengths : list (option jsstring) := [None; Some (js "0.8"); None; Some (js "0.3")].

Definition usage_init : list world := map init_element usage_strengths.

Inductive event := DEnter | DLeave | DMouseMove (cx cy : Q) (b : box) | DFrame.

Section Host.
Context `{Hypot}.

Definition run_event (ev : event) (w : world) : world :=
  match ev with
  | DEnter => set_hovered w true
  | DLeave => set_target (set_hovered w false) (Fin 0, Fin 0)
  | DMouseMove cx cy b => onMouseMove cx cy b w
  | DFrame => animate w
  end.

Definition run_events (evs : list event) (w : world) : world :=
  fold_left (fun w ev => run_event ev w) evs w.

End Host.

End Doc.

(** The events of the implementation as the document's element sees
    them: [resize] has no listener there, and [destroy] does not exist. *)
Definition to_doc (ev : event) : option Doc.event :=
  match ev with
  | EvResize _ => None
  | EvEnter => Some Doc.DEnter
  | EvLeave => Some Doc.DLeave
  | EvMouseMove cx cy b => Some (Doc.DMouseMove cx cy b)
  | EvFrame => Some Doc.DFrame
  | EvDestroy => None
  end.

Definition is_destroy (ev : event) : bool := match ev with EvDestroy => true | _ => false end.

(** The trace the document's element receives. *)
Definition doc_trace (evs : list event) : list Doc.event :=
  flat_map (fun ev => match to_doc ev with Some e => [e] | None => [] end) evs.

(** The document's options for the implementation's. *)
Definition doc_options (o : options) : Doc.options :=
  Doc.mk_options (strength o) (triggerArea o) (lerp o).

(** The two elements agree: same options, [pos], [target], hover flag and
    transform, and the implementation's loop is running. *)
Record agree (w : world) (d : Doc.world) : Prop := {
  agree_strength : strength (opts w) = Doc.strength (Doc.opts d);
  agree_trigger : triggerArea (opts w) = Doc.triggerArea (Doc.opts d);
  agree_lerp : lerp (opts w) = Doc.interpolation (Doc.opts d);
  agree_pos : pos w = Doc.pos d;
  agree_target : target w = Doc.target d;
  agree_hovered : isHovered w = Doc.isHovered d;
  agree_transform : transform w = Doc.transform d;
  agree_pending : frame_pending w = true
}.

(** Both coordinates finite and at most [m] in absolute value. *)
Definition within (m : Q) (p : num * num) : Prop :=
  exists x y, p = (Fin x, Fin y) /\ Qabs x <= m /\ Qabs y <= m.

(** ** Lemmas *)

Section Hypot_laws.
Context `{HypotOk}.

Lemma hypot_nonneg (a b : Q) : 0 <= math_hypot a b.
Proof. eapply Qle_trans; [apply Qabs_nonneg | apply hypot_ge_l]. Qed.

End Hypot_laws.

(** [x * s * (1 - D / t)] for [|x| <= D < t] is at most [|s| t / 4]: the
    pull peaks half-way to the edge of the trigger area. *)
Lemma pull_bound (x s D t : Q) :
  Qabs x <= D -> 0 <= D -> D < t -> Qabs (x * s * (1 - D / t)) <= Qabs s * t / 4.
Proof.
  intros Hx HD Ht.
  assert (Hu : D / t * t == D) by (field; lra).
  assert (Hu0 : 0 <= D / t) by (apply Qle_shift_div_l; lra).
  assert (Hu1 : D / t < 1) by (apply Qlt_shift_div_r; lra).
  set (u := D / t) in *. rewrite !Qabs_Qmult, (Qabs_pos (1 - u)) by lra.
  pose proof (Qabs_nonneg s) as Hs. set (a := Qabs s) in *. set (y := Qabs x) in *.
  assert (H1 : 0 <= (D - y) * a * (1 - u)) by (apply Qmult_le_0_compat; [apply Qmult_le_0_compat|]; lra).
  assert (H2 : 0 <= t * a * ((2 * u - 1) * (2 * u - 1))).
  { apply Qmult_le_0_compat; [apply Qmult_le_0_compat; lra|].
    destruct (Qlt_le_dec (2 * u - 1) 0); [| apply Qmult_le_0_compat; lra].
    setoid_replace ((2 * u - 1) * (2 * u - 1)) with ((1 - 2 * u) * (1 - 2 * u)) by ring.
    apply Qmult_le_0_compat; lra. }
  rewrite <- Hu in H1. clearbody u a y. apply Qle_minus_iff.
  setoid_replace (a * t / 4 + - (y * a * (1 - u)))
    with ((u * t - y) * a * (1 - u) + t * a * ((2 * u - 1) * (2 * u - 1)) * (1 # 4)) by field.
  set (A := (u * t - y) * a * (1 - u)) in *. set (B := t * a * ((2 * u - 1) * (2 * u - 1))) in *.
  clearbody A B. lra.
Qed.

(** One step of [pos += (target - pos) * 0.1] stays within a bound both
    ends respect. *)
Lemma step_within (m x y : Q) :
  Qabs x <= m -> Qabs y <= m -> Qabs (x + (y - x) * (1 # 10)) <= m.
Proof.
  intros Hx Hy. apply Qabs_Qle_condition in Hx, Hy. apply Qabs_Qle_condition. lra.
Qed.

Lemma box_center_fin (b : box) :
  box_center b = (Fin (left b + width b / 2), Fin (top b + height b / 2)).
Proof. unfold box_center. rewrite !div_fin by discriminate. reflexivity. Qed.

Section Moves.
Context `{HypotOk}.

(** What [onMouseMove] leaves in [target], with the box's centre and the
    distance computed. *)
Lemma onMouseMove_target (cx cy : Q) (b : box) (w : world) :
  let dx := cx + - (left b + width b / 2) in
  let dy := cy + - (top b + height b / 2) in
  let D := math_hypot dx dy in
  target (onMouseMove cx cy b w) =
  if num_lt (Fin D) (triggerArea (opts w)) then
    (mul (mul (Fin dx) (strength (opts w))) (sub (Fin 1) (div (Fin D) (triggerArea (opts w)))),
     mul (mul (Fin dy) (strength (opts w))) (sub (Fin 1) (div (Fin D) (triggerArea (opts w)))))
  else if negb (isHovered w) then (Fin 0, Fin 0) else target w.
Proof.
  cbv zeta. unfold onMouseMove, calculateBounds. rewrite box_center_fin. destruct w as [o p t r c h f tr].
  cbn -[num_lt]. match goal with |- context [num_lt ?a ?b] => destruct (num_lt a b) end; destruct h; reflexivity.
Qed.

Lemma onMouseMove_opts (cx cy : Q) (b : box) (w : world) :
  opts (onMouseMove cx cy b w) = opts w /\ isHovered (onMouseMove cx cy b w) = isHovered w /\
  pos (onMouseMove cx cy b w) = pos w /\ transform (onMouseMove cx cy b w) = transform w /\
  frame_pending (onMouseMove cx cy b w) = frame_pending w.
Proof.
  unfold onMouseMove. match goal with |- context [num_lt ?a ?b] => destruct (num_lt a b) end;
    [|destruct (negb _)]; repeat split.
Qed.

(** With a finite [strength] [s] and a positive finite [triggerArea] [t],
    a mouse move leaves a target within [|s| t / 4] on each axis. *)
Lemma move_within (cx cy : Q) (b : box) (w : world) (s t : Q) :
  strength (opts w) = Fin s -> triggerArea (opts w) = Fin t -> 0 < t ->
  within (Qabs s * t / 4) (target w) -> within (Qabs s * t / 4) (target (onMouseMove cx cy b w)).
Proof.
  intros Hs Ht Ht0 Hw. rewrite onMouseMove_target. cbv zeta. rewrite Hs, Ht.
  set (dx := cx + - (left b + width b / 2)). set (dy := cy + - (top b + height b / 2)).
  pose proof (hypot_nonneg dx dy) as HD. pose proof (hypot_ge_l dx dy). pose proof (hypot_ge_r dx dy).
  assert (Hm : 0 <= Qabs s * t / 4)
    by (apply Qle_shift_div_l; [reflexivity|]; rewrite Qmult_0_l; apply Qmult_le_0_compat; [apply Qabs_nonneg | lra]).
  cbn [num_lt]. destruct (Qlt_le_dec (math_hypot dx dy) t).
  - rewrite div_fin by (intros E; rewrite E in *; lra). cbn.
    exists (dx * s * (1 + - (math_hypot dx dy / t))), (dy * s * (1 + - (math_hypot dx dy / t))).
    split; [reflexivity | split; apply pull_bound; assumption].
  - destruct (negb _); [| exact Hw]. exists 0, 0. split; [reflexivity | split; exact Hm].
Qed.

End Moves.

Section Invariant.
Context `{HypotOk}.

(** A property of a coordinate pair under the element's options, kept by
    the three ways a pair is made: zeros, a smoothing step and a mouse
    move. *)
Variable P : options -> num * num -> Prop.
Hypothesis P_zero : forall o, P o (Fin 0, Fin 0).
Hypothesis P_step : forall o p t, P o p -> P o t ->
  P o (step (fst p) (fst t) (Fin (1 # 10)), step (snd p) (snd t) (Fin (1 # 10))).
Hypothesis P_move : forall cx cy b w, P (opts w) (target w) -> P (opts w) (target (onMouseMove cx cy b w)).

Definition minv (w : world) : Prop :=
  lerp (opts w) = Fin (1 # 10) /\ P (opts w) (pos w) /\ P (opts w) (target w) /\
  (transform w = None \/ transform w = Some (pos w)).

Lemma minv_animate (w : world) : minv w -> minv (animate w).
Proof.
  unfold minv. intros (Hl & Hp & Ht & _). unfold animate. cbn. rewrite Hl.
  repeat split; auto.
Qed.

Lemma minv_init (s t : option jsstring) (b : box) : minv (initMagnetic_element s t b).
Proof. apply minv_animate. unfold minv. repeat split; auto. Qed.

Lemma minv_event (ev : event) (w : world) : minv w -> minv (run_event ev w).
Proof.
  intros Hi. pose proof Hi as (Hl & Hp & Ht & Htr). unfold minv in Hi |- *. destruct ev as [b| | |cx cy b| |]; cbn [run_event].
  - exact Hi.
  - exact Hi.
  - repeat split; auto.
  - destruct (onMouseMove_opts cx cy b w) as (Ho & _ & Hpos & Htr' & _).
    repeat split; rewrite ?Ho, ?Hpos, ?Htr'; auto.
  - destruct (frame_pending w); [apply minv_animate; repeat split; auto | exact Hi].
  - repeat split; auto.
Qed.

Lemma minv_reachable (w : world) : reachable w -> minv w.
Proof. induction 1; [apply minv_init | now apply minv_event]. Qed.

End Invariant.

(** ** The implementation against the design document *)

Section Agreement.
Context `{Hypot}.

Lemma agree_event (w : world) (d : Doc.world) (ev : event) :
  agree w d -> is_destroy ev = false ->
  agree (run_event ev w) (match to_doc ev with Some e => Doc.run_event e d | None => d end).
Proof.
  destruct w as [o p t r c h f tr], d as [[ds dt di] dp dtg dh dtr].
  intros [Hs Ht Hl Hp Htg Hh Htr Hf] Hd; cbn in *; subst.
  destruct ev as [b| | |cx cy b| |]; cbn -[num_lt]; try discriminate;
    try (constructor; reflexivity).
  unfold onMouseMove, Doc.onMouseMove, calculateBounds. cbn -[num_lt].
  match goal with |- context [num_lt ?a ?b] => destruct (num_lt a b) end;
    [| destruct dh]; constructor; reflexivity.
Qed.

Lemma agree_events (w : world) (d : Doc.world) (evs : list event) :
  agree w d -> forallb (fun ev => negb (is_destroy ev)) evs = true ->
  agree (run_events evs w) (Doc.run_events (doc_trace evs) d).
Proof.
  revert w d. induction evs as [|ev evs IH]; intros w d Ha Hn; [exact Ha |].
  cbn in Hn. apply andb_prop in Hn as [Hd Hn]. apply negb_true_iff in Hd.
  pose proof (agree_event w d ev Ha Hd) as He.
  unfold run_events, doc_trace. cbn [fold_left flat_map].
  destruct (to_doc ev) eqn:E; cbn [app fold_left]; apply IH; assumption.
Qed.

Lemma agree_new (o : options) (b : box) :
  agree (MagneticElement_new o b) (Doc.MagneticElement_new (doc_options o)).
Proof. destruct o; constructor; reflexivity. Qed.

End Agreement.

(** ** [destroy] *)

Section Destroy.
Context `{Hypot}.

(** The part of the state the listeners read and write. *)
Definition ctl (w : world) : options * (num * num) * bool := (opts w, target w, isHovered w).

Lemma ctl_event (ev : event) (w1 w2 : world) : ctl w1 = ctl w2 -> ctl (run_event ev w1) = ctl (run_event ev w2).
Proof.
  destruct w1 as [o p t r c h f tr], w2 as [o' p' t' r' c' h' f' tr']. unfold ctl. cbn.
  intros E. injection E as -> -> ->.
  destruct ev as [b| | |cx cy b| |]; cbn -[num_lt]; try reflexivity.
  - unfold onMouseMove, calculateBounds. cbn -[num_lt].
    match goal with |- context [num_lt ?a ?b] => destruct (num_lt a b) end; [| destruct h']; reflexivity.
  - destruct f, f'; reflexivity.
Qed.

Lemma ctl_events (evs : list event) (w1 w2 : world) :
  ctl w1 = ctl w2 -> ctl (run_events evs w1) = ctl (run_events evs w2).
Proof.
  revert w1 w2. induction evs as [|ev evs IH]; intros w1 w2 E; [exact E |].
  apply IH, ctl_event, E.
Qed.

(** With no frame pending and no transform, an event leaves [pos] alone
    and requests no frame. *)
Lemma stopped_event (ev : event) (w : world) :
  frame_pending w = false -> transform w = None ->
  pos (run_event ev w) = pos w /\ frame_pending (run_event ev w) = false /\ transform (run_event ev w) = None.
Proof.
  intros Hf Ht. destruct ev as [b| | |cx cy b| |]; cbn [run_event].
  - auto.
  - auto.
  - auto.
  - destruct (onMouseMove_opts cx cy b w) as (_ & _ & -> & -> & ->). auto.
  - rewrite Hf. auto.
  - auto.
Qed.

Lemma stopped_events (evs : list event) (w : world) :
  frame_pending w = false -> transform w = None ->
  pos (run_events evs w) = pos w /\ frame_pending (run_events evs w) = false /\ transform (run_events evs w) = None.
Proof.
  revert w. induction evs as [|ev evs IH]; intros w Hf Ht; [auto |].
  destruct (stopped_event ev w Hf Ht) as (Hp & Hf' & Ht').
  destruct (IH _ Hf' Ht') as (Hp'' & ?). cbn [run_events fold_left]. fold (run_events evs (run_event ev w)).
  rewrite Hp'', Hp. auto.
Qed.

End Destroy.

Lemma magnetic_reachable_run_events `{Hypot} (evs : list event) (w : world) :
  reachable w -> reachable (run_events evs w).
Proof.
  revert w. induction evs as [|ev evs IH]; intros w Hw; [exact Hw | apply IH, reach_step, Hw].
Qed.

(** ** Properties *)

Section Properties.
Context `{HypotOk}.

(** C8: whatever [data-magnetic-strength] and [data-magnetic-trigger]
    hold, when they give a finite strength [s] and a positive finite
    trigger radius [t] the element is never pulled more than [|s| t / 4]
    pixels on either axis: its [pos], its [target] and the transform it
    writes stay in that square. *)
Theorem magnetic_offset_bound (w : world) (s t : Q) :
  reachable w -> strength (opts w) = Fin s -> triggerArea (opts w) = Fin t -> 0 < t ->
  within (Qabs s * t / 4) (pos w) /\ within (Qabs s * t / 4) (target w) /\
  (transform w = None \/ transform w = Some (pos w)).
Proof.
  intros Hr Hs Ht Ht0.
  assert (Hm : minv (fun o p => forall s t, strength o = Fin s -> triggerArea o = Fin t -> 0 < t ->
                                  within (Qabs s * t / 4) p) w); [apply minv_reachable; [| | | exact Hr] |].
  - intros o s' t' _ _ Ht'. exists 0, 0. split; [reflexivity|].
    assert (0 <= Qabs s' * t' / 4) by (apply Qle_shift_div_l; [reflexivity|]; rewrite Qmult_0_l;
                                       apply Qmult_le_0_compat; [apply Qabs_nonneg | lra]).
    split; assumption.
  - intros o p0 t0 Hp Htg s' t' Hs' Ht' Ht0'.
    destruct (Hp s' t' Hs' Ht' Ht0') as (x & y & -> & Hx & Hy).
    destruct (Htg s' t' Hs' Ht' Ht0') as (x' & y' & -> & Hx' & Hy').
    exists (x + (x' + - x) * (1 # 10)), (y + (y' + - y) * (1 # 10)). cbn.
    split; [reflexivity | split; apply step_within; assumption].
  - intros cx cy b w0 Hw s' t' Hs' Ht' Ht0'. apply (move_within cx cy b w0 s' t' Hs' Ht' Ht0'), Hw; assumption.
  - destruct Hm as (_ & Hp & Htg & Htr). auto.
Qed.

(** C15: the implementation refines the class of the design document:
    started with the same options and fed the same mouse, hover and frame
    events (resizes included, [destroy] excluded), the element of
    part_002 and the element of the design document hold the same
    [pos], [target] and hover state and write the same transform after
    every event. *)
Theorem magnetic_matches_design (o : options) (b : box) (evs : list event) :
  forallb (fun ev => negb (is_destroy ev)) evs = true ->
  let w := run_events evs (MagneticElement_new o b) in
  let d := Doc.run_events (doc_trace evs) (Doc.MagneticElement_new (doc_options o)) in
  pos w = Doc.pos d /\ target w = Doc.target d /\ isHovered w = Doc.isHovered d /\
  transform w = Doc.transform d.
Proof.
  intros Hn. cbv zeta. destruct (agree_events _ _ evs (agree_new o b) Hn) as [_ _ _ Hp Ht Hh Htr _].
  auto.
Qed.

End Properties.

(** C24: [destroy()] stops the loop but leaves the listeners: after it,
    whatever events follow, [pos] never moves again, no frame is pending
    and the transform stays cleared, while [target] and the hover state
    keep changing exactly as they would had [destroy] not been called. *)
Theorem destroy_leaves_listeners `{Hypot} (w : world) (evs : list event) :
  let w' := run_events evs (destroy w) in
  pos w' = pos w /\ frame_pending w' = false /\ transform w' = None /\
  target w' = target (run_events evs w) /\ isHovered w' = isHovered (run_events evs w).
Proof.
  cbv zeta. destruct (stopped_events evs (destroy w) eq_refl eq_refl) as (Hp & Hf & Ht).
  assert (E : ctl (run_events evs (destroy w)) = ctl (run_events evs w)) by (apply ctl_events; reflexivity).
  unfold ctl in E. injection E as _ Htg Hh. auto.
Qed.

(** ** The theorems at concrete inputs *)

Definition demo_box : box := mk_box 100 40 120 48.

Lemma magnetic_offset_bound_witness :
  let w := run_events [EvEnter; EvMouseMove 170 70 demo_box; EvFrame; EvFrame]
             (initMagnetic_element (Some (js "0.5")) (Some (js "120")) demo_box) in
  (reachable w /\ strength (opts w) = Fin (5 # 10) /\ triggerArea (opts w) = Fin 120 /\ 0 < 120) /\
  within (Qabs (5 # 10) * 120 / 4) (pos w) /\ within (Qabs (5 # 10) * 120 / 4) (target w) /\
  (transform w = None \/ transform w = Some (pos w)).
Proof.
  cbv zeta.
  assert (Hr : forall evs, reachable (run_events evs (initMagnetic_element (Some (js "0.5")) (Some (js "120")) demo_box)))
    by (intros; apply magnetic_reachable_run_events, reach_init).
  assert (Hs : strength (opts (run_events [EvEnter; EvMouseMove 170 70 demo_box; EvFrame; EvFrame]
             (initMagnetic_element (Some (js "0.5")) (Some (js "120")) demo_box))) = Fin (5 # 10)) by (vm_compute; reflexivity).
  assert (Ht : triggerArea (opts (run_events [EvEnter; EvMouseMove 170 70 demo_box; EvFrame; EvFrame]
             (initMagnetic_element (Some (js "0.5")) (Some (js "120")) demo_box))) = Fin 120) by (vm_compute; reflexivity).
  assert (H0 : 0 < 120) by reflexivity.
  split; [exact (conj (Hr _) (conj Hs (conj Ht H0))) | exact (magnetic_offset_bound _ _ _ (Hr _) Hs Ht H0)].
Defined.

Lemma magnetic_matches_design_witness :
  let evs := [EvEnter; EvMouseMove 170 70 demo_box; EvResize demo_box; EvFrame; EvLeave; EvFrame] in
  forallb (fun ev => negb (is_destroy ev)) evs = true /\
  (let w := run_events evs (MagneticElement_new (merge (Fin (4 # 10)) (Fin 200)) demo_box) in
   let d := Doc.run_events (doc_trace evs) (Doc.MagneticElement_new (doc_options (merge (Fin (4 # 10)) (Fin 200)))) in
   pos w = Doc.pos d /\ target w = Doc.target d /\ isHovered w = Doc.isHovered d /\ transform w = Doc.transform d).
Proof.
  cbv zeta. split; [reflexivity | exact (magnetic_matches_design _ demo_box [EvEnter; EvMouseMove 170 70 demo_box; EvResize demo_box; EvFrame; EvLeave; EvFrame] eq_refl)].
Defined.

(** The defaults differ from the design document's: an element with
    neither attribute gets strength 0.4 and a 200px trigger radius in the
    implementation, 0.5 and 150px in the document. *)
Example magnetic_defaults_differ (b : box) :
  strength (opts (initMagnetic_element None None b)) = Fin (4 # 10) /\
  triggerArea (opts (initMagnetic_element None None b)) = Fin 200 /\
  Doc.strength (Doc.opts (Doc.init_element None)) = Fin (1 # 2) /\
  Doc.triggerArea (Doc.opts (Doc.init_element None)) = Fin 150.
Proof. repeat split. Qed.

(** The usage markup of section 2.3 reads its strengths as written: 0.5
    for the two buttons without the attribute, 0.8 for the link and 0.3
    for the span inside the third button. *)
Example usage_strengths_read :
  map (fun w => Doc.strength (Doc.opts w)) Doc.usage_init = [Fin (1 # 2); Fin (8 # 10); Fin (1 # 2); Fin (3 # 10)].
Proof. vm_compute. reflexivity. Qed.

End Magnetic.
