(* ===== verification/LazyInit.v ===== *)
(** * Reduced motion and deferred initialisation (design document
      section 9, src/unnamed/part_000)

    The [prefers-reduced-motion] check, which speeds GSAP's global
    timeline up 1000 times, and the [IntersectionObserver] that creates a
    [TiltElement] or a [ParticleBackground] for a [[data-defer-init]]
    element when it first becomes visible, then stops observing it.  The
    page is a list of elements with the attributes the code reads; the
    observer's state is the list of observed elements; the effects are
    the elements handed to each constructor, in order.  The browser
    queues an entry each time an observed element crosses the threshold
    and delivers the queued entries in one batch when the callback's task
    runs: a batch may hold several entries for one element, and
    [unobserve] does not withdraw the entries already delivered. *)

From Stdlib Require Import String ZArith QArith List Lia.
From S2P Require Import Prelude.
Import ListNotations.

Module LazyInit.

(** ** Reduced motion *)

(** [gsap.globalTimeline.timeScale] after the check, from the value of
    [window.matchMedia('(prefers-reduced-motion: reduce)').matches]. *)
Definition reduced_motion_timeScale (matches : bool) (timeScale : Q) : Q :=
  if matches then 1000 else timeScale.

(** ** Deferred initialisation *)

(** An element: [dataset.tilt], [dataset.particles] ([None] when the
    attribute is absent) and whether it carries [data-defer-init]. *)
Record target := mk_target {
  tilt : option jsstring;
  particles : option jsstring;
  defer_init : bool
}.

(** The page, the elements the observer watches, and the elements passed
    to [new TiltElement] and [new ParticleBackground] so far (indices in
    document order). *)
Record world := mk_world {
  page : list target;
  observed : list nat;
  tilt_inits : list nat;
  particle_inits : list nat
}.

(** [if (el.dataset.tilt)]: a present, non-empty attribute. *)
Definition truthy (v : option jsstring) : bool := negb (js_falsy v).

(** [document.querySelectorAll('[data-defer-init]').forEach(el =>
    observer.observe(el))]. *)
Fixpoint deferred_from (i : nat) (pg : list target) : list nat :=
  match pg with
  | [] => []
  | el :: r => if defer_init el then i :: deferred_from (S i) r else deferred_from (S i) r
  end.

Definition observe_all (pg : list target) : list nat := deferred_from 0 pg.

Definition setup (pg : list target) : world := mk_world pg (observe_all pg) [] [].

(** [observer.unobserve(el)]. *)
Definition unobserve (w : world) (i : nat) : world :=
  mk_world (page w) (filter (fun j => negb (Nat.eqb j i)) (observed w)) (tilt_inits w) (particle_inits w).

Definition new_tilt (w : world) (i : nat) : world :=
  mk_world (page w) (observed w) (tilt_inits w ++ [i]) (particle_inits w).
Definition new_particles (w : world) (i : nat) : world :=
  mk_world (page w) (observed w) (tilt_inits w) (particle_inits w ++ [i]).

(** The callback's body for one entry: its target [i] and
    [isIntersecting]. *)
Definition on_entry (w : world) (e : nat * bool) : world :=
  let (i, isIntersecting) := e in
  if isIntersecting then
    match nth_error (page w) i with
    | Some el =>
        let w1 := if truthy (tilt el) then new_tilt w i else w in
        let w2 := if truthy (particles el) then new_particles w1 i else w1 in
        unobserve w2 i
    | None => w
    end
  else w.

(** [entries.forEach(...)]. *)
Definition callback (entries : list (nat * bool)) (w : world) : world := fold_left on_entry entries w.

(** A batch the browser may deliver: entries for elements observed when
    the callback's task starts. *)
Definition valid_batch (w : world) (entries : list (nat * bool)) : Prop :=
  Forall (fun e => In (fst e) (observed w)) entries.

Inductive reachable : world -> Prop :=
| reach_setup pg : reachable (setup pg)
| reach_batch w entries : reachable w -> valid_batch w entries -> reachable (callback entries w).

(** ** Invariant *)

(** The observer watches only deferred elements; an element is handed
    to a constructor only when it is deferred and its attribute is
    truthy. *)
Record inv (w : world) : Prop := {
  inv_obs_deferred : forall i, In i (observed w) -> exists el, nth_error (page w) i = Some el /\ defer_init el = true;
  inv_tilt_ok : forall i, In i (tilt_inits w) ->
    exists el, nth_error (page w) i = Some el /\ defer_init el = true /\ truthy (tilt el) = true;
  inv_part_ok : forall i, In i (particle_inits w) ->
    exists el, nth_error (page w) i = Some el /\ defer_init el = true /\ truthy (particles el) = true
}.

(** Element [i] of the page carries [data-defer-init]. *)
Definition deferred (w : world) (i : nat) : Prop := exists el, nth_error (page w) i = Some el /\ defer_init el = true.

(** The three entries of an element that becomes visible, leaves the
    viewport and comes back before the callback's task runs. *)
Definition in_out_in (i : nat) : list (nat * bool) := [(i, true); (i, false); (i, true)].

(** ** Lemmas *)

Lemma in_unobserved (l : list nat) (i j : nat) :
  In j (filter (fun k => negb (Nat.eqb k i)) l) <-> In j l /\ j <> i.
Proof.
  rewrite filter_In. destruct (Nat.eqb j i) eqn:E; cbn.
  - apply Nat.eqb_eq in E. split; intros [_ H]; [discriminate | contradiction].
  - apply Nat.eqb_neq in E. tauto.
Qed.

Lemma deferred_from_spec (pg : list target) (i j : nat) :
  In j (deferred_from i pg) -> (i <= j)%nat /\ exists el, nth_error pg (j - i) = Some el /\ defer_init el = true.
Proof.
  revert i. induction pg as [|el r IH]; intros i Hj; [destruct Hj |]. cbn in Hj.
  assert (Hr : In j (deferred_from (S i) r) -> (i <= j)%nat /\ exists el', nth_error (el :: r) (j - i) = Some el' /\ defer_init el' = true).
  { intros Hin. destruct (IH (S i) Hin) as (Hle & el' & Hn & Hd). split; [lia |].
    exists el'. replace (j - i)%nat with (S (j - S i)) by lia. split; assumption. }
  destruct (defer_init el) eqn:E; [destruct Hj as [<- | Hj] |]; auto.
  split; [lia |]. exists el. rewrite Nat.sub_diag. split; [reflexivity | exact E].
Qed.

Lemma setup_inv (pg : list target) : inv (setup pg).
Proof.
  constructor; cbn; [| intros i [] | intros i []].
  intros i Hi. destruct (deferred_from_spec pg 0 i Hi) as (_ & el & Hn & Hd). rewrite Nat.sub_0_r in Hn. eauto.
Qed.

Lemma entry_page (w : world) (e : nat * bool) : page (on_entry w e) = page w.
Proof.
  destruct e as [i []]; cbn; [| reflexivity]. destruct (nth_error (page w) i) as [el|]; [| reflexivity].
  destruct (truthy (tilt el)), (truthy (particles el)); reflexivity.
Qed.

(** An intersecting entry for element [i]: [new TiltElement] when its
    [data-tilt] is truthy, then [unobserve]. *)
Lemma on_entry_true (w : world) (i : nat) (el : target) :
  nth_error (page w) i = Some el ->
  page (on_entry w (i, true)) = page w /\
  tilt_inits (on_entry w (i, true)) = tilt_inits w ++ (if truthy (tilt el) then [i] else []) /\
  observed (on_entry w (i, true)) = filter (fun j => negb (Nat.eqb j i)) (observed w).
Proof.
  intros Hel. unfold on_entry. rewrite Hel.
  destruct (truthy (tilt el)), (truthy (particles el)); cbn; rewrite ?app_nil_r; auto.
Qed.

(** One entry for a deferred element keeps the invariant, whether or not
    the element is still observed. *)
Lemma entry_inv (w : world) (e : nat * bool) : inv w -> deferred w (fst e) -> inv (on_entry w e).
Proof.
  destruct e as [i b]. cbn [fst]. intros [Hod Hto Hpo] (el' & Hel' & Hd). unfold on_entry.
  destruct b; [| now constructor]. destruct (nth_error (page w) i) as [el|] eqn:Hel; [| now constructor].
  injection Hel' as Heq. subst el'.
  assert (Hu : forall w0 : world, inv w0 -> inv (unobserve w0 i)).
  { intros w0 [H1 H2 H3]. constructor; auto. intros j Hj. apply filter_In in Hj. exact (H1 j (proj1 Hj)). }
  apply Hu. constructor; cbn; destruct (truthy (tilt el)) eqn:Et, (truthy (particles el)) eqn:Ep; cbn; auto;
    intros j Hj; rewrite ?in_app_iff in Hj; cbn in Hj;
    repeat match goal with
    | H : _ \/ _ |- _ => destruct H as [H | H]
    | H : False |- _ => destruct H
    | H : _ = j |- _ => subst j; exists el; auto
    end; auto.
Qed.

Lemma callback_inv (entries : list (nat * bool)) (w : world) :
  inv w -> Forall (fun e => deferred w (fst e)) entries -> inv (callback entries w).
Proof.
  revert w. induction entries as [|e r IH]; intros w Hinv Hall; [exact Hinv |].
  inversion Hall as [|e' r' He Hr]; subst. cbn [callback fold_left]. apply IH; [now apply entry_inv |].
  unfold deferred. rewrite entry_page. exact Hr.
Qed.

Lemma lazy_reachable_inv (w : world) : reachable w -> inv w.
Proof.
  induction 1 as [pg | w entries Hr IH Hb]; [apply setup_inv |]. apply callback_inv; [exact IH |].
  eapply Forall_impl; [| exact Hb]. intros e He. exact (inv_obs_deferred w IH _ He).
Qed.

(** ** Properties *)

(** C28: the deferred initialisation can build two [TiltElement]s for one
    element: in every reachable state, when an observed element with a
    non-empty [data-tilt] becomes visible, leaves the viewport and comes
    back before the callback runs, the batch of its three entries is one
    the browser delivers, and the callback calls [new TiltElement] with
    that element twice ([unobserve] after the first entry does not
    withdraw the third) and leaves it unobserved. *)
Theorem deferred_init_twice (w : world) (i : nat) (el : target) :
  reachable w -> In i (observed w) -> nth_error (page w) i = Some el -> truthy (tilt el) = true ->
  valid_batch w (in_out_in i) /\ reachable (callback (in_out_in i) w) /\
  tilt_inits (callback (in_out_in i) w) = tilt_inits w ++ [i; i] /\
  ~ In i (observed (callback (in_out_in i) w)).
Proof.
  intros Hr Hi Hel Ht.
  assert (Hb : valid_batch w (in_out_in i)) by (repeat constructor; exact Hi).
  split; [exact Hb | split; [exact (reach_batch w _ Hr Hb) |]].
  unfold callback, in_out_in. cbn [fold_left].
  destruct (on_entry_true w i el Hel) as (Hp1 & Ht1 & Ho1). rewrite Ht in Ht1.
  change (on_entry (on_entry w (i, true)) (i, false)) with (on_entry w (i, true)).
  destruct (on_entry_true (on_entry w (i, true)) i el) as (_ & Ht3 & Ho3); [now rewrite Hp1 |].
  rewrite Ht3, Ho3, Ht, Ht1, Ho1, <- app_assoc.
  split; [reflexivity | rewrite !in_unobserved; intuition].
Qed.

(** A TiltElement or ParticleBackground is only ever built for an element
    that carries [data-defer-init] and a non-empty [data-tilt] (resp.
    [data-particles]). *)
Lemma deferred_init_sound (w : world) :
  reachable w ->
  (forall i, In i (tilt_inits w) ->
     exists el, nth_error (page w) i = Some el /\ defer_init el = true /\ truthy (tilt el) = true) /\
  (forall i, In i (particle_inits w) ->
     exists el, nth_error (page w) i = Some el /\ defer_init el = true /\ truthy (particles el) = true).
Proof. intros Hr. destruct (lazy_reachable_inv w Hr) as [_ Ht Hp]. auto. Qed.

(** ** The theorems at concrete inputs *)

(** A page with a deferred card ([data-tilt="1"]), a deferred hero with
    particles, and a card marked with the bare attribute [data-tilt]. *)
Definition demo_page : list target :=
  [mk_target (Some (js "1")) None true; mk_target None (Some (js "1")) true; mk_target (Some []) None true].

Lemma deferred_init_twice_witness :
  let w := setup demo_page in
  (reachable w /\ In 0%nat (observed w) /\ nth_error (page w) 0 = Some (mk_target (Some (js "1")) None true) /\
   truthy (tilt (mk_target (Some (js "1")) None true)) = true) /\
  valid_batch w (in_out_in 0) /\ reachable (callback (in_out_in 0) w) /\
  tilt_inits (callback (in_out_in 0) w) = tilt_inits w ++ [0; 0]%nat /\
  ~ In 0%nat (observed (callback (in_out_in 0) w)).
Proof.
  cbv zeta.
  assert (Hr : reachable (setup demo_page)) by apply reach_setup.
  assert (Hi : In 0%nat (observed (setup demo_page))) by (left; reflexivity).
  split; [exact (conj Hr (conj Hi (conj eq_refl eq_refl))) |].
  exact (deferred_init_twice (setup demo_page) 0 _ Hr Hi eq_refl eq_refl).
Defined.

(** An element marked with the bare attribute [data-tilt] (an empty
    string, hence falsy) is unwatched at its first intersection without
    a [TiltElement]: it never gets one. *)
Example bare_data_tilt_never_initialised :
  let w := callback [(2%nat, true)] (setup demo_page) in
  tilt_inits w = [] /\ ~ In 2%nat (observed w).
Proof. cbv zeta. split; [reflexivity | cbn; intuition discriminate]. Qed.

End LazyInit.
