(* ===== verification/Kinetic.v ===== *)
(** * Text splitting and the effects built on it (src/unnamed/part_001)

    [splitText] (the element's children replaced by one span per code
    unit or per word), [glitchText], and the GSAP calls of [charCascade]
    and [elasticWave] as the tween each one asks for (GSAP's timing is the
    library's), with the design document's [splitText] (part_000, section
    4.2), which keeps the text untrimmed and has a ['lines'] branch.
    An element is its list of child nodes, its classes and the two
    attributes these functions write. *)

From Stdlib Require Import String ZArith QArith List Lia.
From S2P Require Import Prelude Dom JsNum Config.
Import ListNotations JsNum Config.

Module Kinetic.

(** ** Elements *)

(** The nodes [splitText] appends: a span with its class, the custom
    property set on it ([--char-index] or [--word-index]) and its text; a
    text node; the design document's [div.line-wrapper] holding one
    [span.line]. *)
Inductive node :=
| Span (className indexVar : jsstring) (index : nat) (text : jsstring)
| Text (text : jsstring)
| LineWrapper (index : nat) (text : jsstring).

Record element := mk_element {
  children : list node;
  classes : Dom.class_list;
  ariaLabel : option jsstring;
  dataText : option jsstring
}.

Definition node_text (n : node) : jsstring :=
  match n with Span _ _ _ t | Text t | LineWrapper _ t => t end.

(** [element.textContent]: the text of the nodes in order. *)
Definition textContent (e : element) : jsstring := concat (map node_text (children e)).

(** [element.textContent = s]: the children are replaced by one text node,
    or by nothing for the empty string. *)
Definition set_textContent (e : element) (s : jsstring) : element :=
  mk_element (match s with [] => [] | _ => [Text s] end) (classes e) (ariaLabel e) (dataText e).

(** [element.appendChild(...)] for each node in turn. *)
Definition append (e : element) (ns : list node) : element :=
  mk_element (children e ++ ns) (classes e) (ariaLabel e) (dataText e).

(** [element.setAttribute('aria-label', s)]. *)
Definition set_ariaLabel (e : element) (s : jsstring) : element :=
  mk_element (children e) (classes e) (Some s) (dataText e).

(** [array.forEach((x, i) => ...)], each call appending its nodes. *)
Fixpoint each {A} (f : nat -> A -> list node) (i : nat) (l : list A) : list node :=
  match l with
  | [] => []
  | x :: r => f i x ++ each f (S i) r
  end.

(** ** [splitText] *)

Definition nbsp : Z := 160.

(** The span made for character [c] at index [i]: a space is shown as a
    no-break space. *)
Definition char_span (i : nat) (c : Z) : list node :=
  [Span (js "char") (js "--char-index") i [if (c =? 32)%Z then nbsp else c]].

(** The span made for word [w] at index [i] of [n] words, and the space
    text node after every word but the last. *)
Definition word_span (n : nat) (i : nat) (w : jsstring) : list node :=
  Span (js "word") (js "--word-index") i w :: (if Nat.ltb i (n - 1) then [Text (js " ")] else []).

(** [splitText(element, type)]. *)
Definition splitText (e : element) (type : jsstring) : element :=
  let text := trim (textContent e) in
  let e1 := set_ariaLabel (set_textContent e []) text in
  let e2 := if js_eqb type (js "chars") then append e1 (each char_span 0 text) else e1 in
  if js_eqb type (js "words") then
    let words := split_on 32 text in append e2 (each (word_span (List.length words)) 0 words)
  else e2.

(** The design document's [splitText]: the text is not trimmed, and
    ['lines'] wraps the whole text in one line. *)
Definition splitText_doc (e : element) (type : jsstring) : element :=
  let text := textContent e in
  let e1 := set_ariaLabel (set_textContent e []) text in
  let e2 := if js_eqb type (js "chars") then append e1 (each char_span 0 text) else e1 in
  let e3 := if js_eqb type (js "words") then
              let words := split_on 32 text in append e2 (each (word_span (List.length words)) 0 words)
            else e2 in
  if js_eqb type (js "lines") then
    let lines := [text] in append e3 (each (fun i line => [LineWrapper i line]) 0 lines)
  else e3.

(** ** Effects *)

(** [glitchText(element)]. *)
Definition glitchText (e : element) : element :=
  mk_element (children e) (Dom.add (classes e) (js "glitch")) (ariaLabel e) (Some (textContent e)).

(** [element.querySelectorAll('.char')] after a split: the char spans. *)
Definition is_char (n : node) : bool :=
  match n with Span c _ _ _ => js_eqb c (js "char") | _ => false end.

Definition query_chars (e : element) : list node := filter is_char (children e).

(** The start values of a [gsap.from] tween. *)
Record from_vars := mk_from { from_y : Q; from_opacity : Q; from_rotateX : option Q }.

(** The tween [gsap.from(targets, vars)] is asked for. *)
Record tween := mk_tween {
  targets : list node;
  vars : from_vars;
  duration : Q;
  stagger : Q;
  ease : jsstring
}.

(** The [options] a caller may pass to [charCascade] or [elasticWave]. *)
Record effect_options := mk_effect_options {
  o_duration : option Q;
  o_stagger : option Q;
  o_ease : option jsstring;
  o_from : option from_vars
}.

Definition no_options : effect_options := mk_effect_options None None None None.

Definition pick {A} (o : option A) (d : A) : A := match o with Some x => x | None => d end.

(** [charCascade(element, options)]: the split element and its tween. *)
Definition charCascade (e : element) (o : effect_options) : element * tween :=
  let settings_from := pick (o_from o) (mk_from 50 0 (Some (-90))) in
  let e1 := splitText e (js "chars") in
  (e1, mk_tween (query_chars e1) settings_from (pick (o_duration o) (8 # 10)) (pick (o_stagger o) (3 # 100))
                (pick (o_ease o) (js "back.out(1.7)"))).

(** [elasticWave(element, options)]. *)
Definition elasticWave (e : element) (o : effect_options) : element * tween :=
  let e1 := splitText e (js "chars") in
  (e1, mk_tween (query_chars e1) (mk_from (-100) 0 None) (pick (o_duration o) (12 # 10)) (pick (o_stagger o) (5 # 100))
                (pick (o_ease o) (js "elastic.out(1, 0.3)"))).

(** The design document's [charCascade(element)] and
    [elasticWave(element)] (section 4.3): no options, the document's
    [splitText], the same tween values. *)
Definition charCascade_doc (e : element) : element * tween :=
  let e1 := splitText_doc e (js "chars") in
  (e1, mk_tween (query_chars e1) (mk_from 50 0 (Some (-90))) (8 # 10) (3 # 100) (js "back.out(1.7)")).

Definition elasticWave_doc (e : element) : element * tween :=
  let e1 := splitText_doc e (js "chars") in
  (e1, mk_tween (query_chars e1) (mk_from (-100) 0 None) (12 # 10) (5 # 100) (js "elastic.out(1, 0.3)")).

(** The three [data-kinetic] branches of [initKineticText] other than
    rotation, for one element. *)
Inductive kinetic_result := Animated (e : element) (t : tween) | Glitched (e : element) | Untouched.

Definition initKineticText_effect (kinetic : option jsstring) (e : element) : kinetic_result :=
  match kinetic with
  | Some k =>
      if js_eqb k (js "cascade") then let (e1, t) := charCascade e no_options in Animated e1 t
      else if js_eqb k (js "elastic") then let (e1, t) := elasticWave e no_options in Animated e1 t
      else if js_eqb k (js "glitch") then Glitched (glitchText e)
      else Untouched
  | None => Untouched
  end.

(** ** Lemmas *)

Lemma textContent_set (e : element) (s : jsstring) : textContent (set_textContent e s) = s.
Proof. destruct s; cbn; [reflexivity | now rewrite app_nil_r]. Qed.

Lemma children_set_empty (e : element) : children (set_textContent e []) = [].
Proof. reflexivity. Qed.

Lemma textContent_append (e : element) (ns : list node) :
  textContent (append e ns) = textContent e ++ concat (map node_text ns).
Proof. unfold textContent, append. cbn. now rewrite map_app, concat_app. Qed.

Lemma each_app {A} (f : nat -> A -> list node) (i : nat) (l : list A) (x : A) :
  each f i (l ++ [x]) = each f i l ++ f (i + List.length l)%nat x.
Proof.
  revert i. induction l as [|y l IH]; intros i; cbn; [now rewrite Nat.add_0_r, app_nil_r |].
  rewrite IH, app_assoc. now rewrite Nat.add_succ_r.
Qed.

(** The char spans spell the text, spaces shown as no-break spaces. *)
Lemma each_char_text (i : nat) (s : jsstring) :
  concat (map node_text (each char_span i s)) = map (fun c => if (c =? 32)%Z then nbsp else c) s.
Proof. revert i. induction s as [|c r IH]; intros i; cbn; [reflexivity | now rewrite IH]. Qed.

(** The word spans and the spaces between them spell the words joined
    by spaces. *)
Lemma each_word_text (n i : nat) (ws : list jsstring) :
  n = (i + List.length ws)%nat -> concat (map node_text (each (word_span n) i ws)) = join 32 ws.
Proof.
  revert i. induction ws as [|w ws IH]; intros i Hn; [reflexivity |].
  cbn [each]. unfold word_span at 1. cbn [List.length] in Hn. destruct ws as [|w' ws].
  - rewrite (proj2 (Nat.ltb_ge i (n - 1))) by (cbn in Hn; lia). cbn. now rewrite !app_nil_r.
  - rewrite (proj2 (Nat.ltb_lt i (n - 1))) by (cbn in Hn; lia).
    cbn [app map concat node_text]. rewrite (IH (S i)) by lia. reflexivity.
Qed.

Lemma each_char_all (i : nat) (s : jsstring) : filter is_char (each char_span i s) = each char_span i s.
Proof. revert i. induction s as [|c r IH]; intros i; cbn; [reflexivity | now rewrite IH]. Qed.

Lemma js_type_cases : js_eqb (js "chars") (js "words") = false /\ js_eqb (js "words") (js "chars") = false /\
  js_eqb (js "chars") (js "lines") = false /\ js_eqb (js "words") (js "lines") = false.
Proof. repeat split. Qed.

(** [splitText] on [chars]: the element holds exactly the char spans. *)
Lemma splitText_chars (e : element) :
  children (splitText e (js "chars")) = each char_span 0 (trim (textContent e)) /\
  ariaLabel (splitText e (js "chars")) = Some (trim (textContent e)).
Proof. unfold splitText. rewrite js_eqb_refl. cbn. auto. Qed.

(** [splitText] on [words]. *)
Lemma splitText_words (e : element) :
  let ws := split_on 32 (trim (textContent e)) in
  children (splitText e (js "words")) = each (word_span (List.length ws)) 0 ws /\
  ariaLabel (splitText e (js "words")) = Some (trim (textContent e)).
Proof. unfold splitText. rewrite js_eqb_refl. cbn. auto. Qed.

(** ** Properties *)

(** C7: [splitText] keeps the text: split into words, the element's
    [textContent] is its trimmed text again; split into characters, it is
    the trimmed text with every space shown as a no-break space; either
    way [aria-label] holds the trimmed text. *)
Theorem splitText_roundtrip (e : element) :
  let t := trim (textContent e) in
  textContent (splitText e (js "words")) = t /\ ariaLabel (splitText e (js "words")) = Some t /\
  textContent (splitText e (js "chars")) = map (fun c => if (c =? 32)%Z then nbsp else c) t /\
  ariaLabel (splitText e (js "chars")) = Some t.
Proof.
  cbv zeta. destruct (splitText_words e) as [Hw Hwa]. destruct (splitText_chars e) as [Hc Hca].
  change (textContent (splitText e (js "words"))) with (concat (map node_text (children (splitText e (js "words"))))).
  change (textContent (splitText e (js "chars"))) with (concat (map node_text (children (splitText e (js "chars"))))).
  rewrite Hw, Hc, each_char_text, (each_word_text _ 0) by reflexivity.
  rewrite join_split_on. auto.
Qed.

(** The implementation's [splitText] is the design document's
    applied to the trimmed text, for every [type] but ['lines']: same
    children, same [aria-label]. *)
Theorem splitText_refines_doc (e : element) (type : jsstring) :
  js_eqb type (js "lines") = false ->
  splitText e type = splitText_doc (set_textContent e (trim (textContent e))) type.
Proof.
  intros Hl. unfold splitText, splitText_doc. rewrite textContent_set, Hl. reflexivity.
Qed.

(** Without options, the shipped effects ask for the tweens of the
    document's, on the element with its text trimmed. *)
Lemma effects_refine_doc (e : element) :
  charCascade e no_options = charCascade_doc (set_textContent e (trim (textContent e))) /\
  elasticWave e no_options = elasticWave_doc (set_textContent e (trim (textContent e))).
Proof.
  unfold charCascade, elasticWave, charCascade_doc, elasticWave_doc. cbn [pick o_from o_duration o_stagger o_ease no_options].
  rewrite splitText_refines_doc by reflexivity. split; reflexivity.
Qed.

(** A [type] other than ['chars'] and ['words'] (the design
    document's ['lines'] among them) leaves the element with no children
    and its text only in [aria-label]; the design document's version
    keeps the text in one line. *)
Theorem splitText_other_type_empties (e : element) (type : jsstring) :
  js_eqb type (js "chars") = false -> js_eqb type (js "words") = false ->
  children (splitText e type) = [] /\ textContent (splitText e type) = [] /\
  ariaLabel (splitText e type) = Some (trim (textContent e)) /\
  (type = js "lines" -> textContent (splitText_doc e type) = textContent e).
Proof.
  intros Hc Hw. unfold splitText. rewrite Hc, Hw. cbn. repeat split.
  intros ->. unfold splitText_doc. cbn. rewrite app_nil_r. reflexivity.
Qed.

(** ** The theorems at concrete inputs *)

Definition demo_el : element := mk_element [Text (js "  Hello world ")] [] None None.

Lemma splitText_refines_doc_witness :
  js_eqb (js "words") (js "lines") = false /\
  splitText demo_el (js "words") = splitText_doc (set_textContent demo_el (trim (textContent demo_el))) (js "words").
Proof. split; [reflexivity | apply splitText_refines_doc; reflexivity]. Defined.

Lemma splitText_other_type_empties_witness :
  (js_eqb (js "lines") (js "chars") = false /\ js_eqb (js "lines") (js "words") = false) /\
  children (splitText demo_el (js "lines")) = [] /\ textContent (splitText demo_el (js "lines")) = [] /\
  ariaLabel (splitText demo_el (js "lines")) = Some (trim (textContent demo_el)) /\
  (js "lines" = js "lines" -> textContent (splitText_doc demo_el (js "lines")) = textContent demo_el).
Proof.
  assert (H1 : js_eqb (js "lines") (js "chars") = false) by reflexivity.
  assert (H2 : js_eqb (js "lines") (js "words") = false) by reflexivity.
  split; [exact (conj H1 H2) | exact (splitText_other_type_empties demo_el _ H1 H2)].
Defined.

End Kinetic.
