(* ===== verification/KineticCss.v ===== *)
(** * kinetic-text.css and the elements the text effects create (design
      document sections 4.4 and 4.5, src/unnamed/part_000)

    [kinetic_css] is the stylesheet as rules of [Css.v] and
    [glitch_1]/[glitch_2] its keyframes.  [span_node], [wrapper_node] and
    [line_node] are the elements [splitText] appends ([Kinetic.v]), with
    the custom property it sets in their [style] attribute; [host_node]
    is the split or glitched element.  The theorems: every element a
    split creates is an [inline-block] box (so the transforms GSAP
    tweens take effect) and a line wrapper clips its line; the glitch
    layers print the text [glitchText] stored, in two bands that do not
    overlap, moving in opposite directions. *)

From Stdlib Require Import String ZArith QArith List Bool Lia.
From S2P Require Import Prelude Dom Css Kinetic.
Import ListNotations.
Import Css.

Module KineticCss.

(** ** kinetic-text.css *)

Definition band (top bottom : value) : value :=
  Fn "polygon" [Seq [num 0; top]; Seq [pct 100; top]; Seq [pct 100; bottom]; Seq [num 0; bottom]].

Definition kinetic_css : sheet := [
  rule_ [(Sel [SAttr "data-kinetic"], None)] [dn "display" (Kw "inline-block")];
  rule_ [cls "char"; cls "word"; cls "line"]
    [dn "display" (Kw "inline-block"); dn "will-change" (Commas [Kw "transform"; Kw "opacity"])];
  rule_ [cls "line-wrapper"] [dn "overflow" (Kw "hidden")];
  rule_ [cls "scramble-char"] [dn "color" (var "--color-accent"); dn "opacity" (num 0.7)];
  rule_ [cls "glitch"] [dn "position" (Kw "relative")];
  rule_ [cls_pe "glitch" PBefore; cls_pe "glitch" PAfter]
    [dn "content" (Fn "attr" [Kw "data-text"]); dn "position" (Kw "absolute");
     dn "top" (num 0); dn "left" (num 0); dn "width" (pct 100); dn "height" (pct 100);
     dn "opacity" (num 0.8)];
  rule_ [cls_pe "glitch" PBefore]
    [dn "animation" (Seq [Kw "glitch-1"; sec 0.3; Kw "infinite"; Kw "linear"; Kw "alternate-reverse"]);
     dn "clip-path" (band (num 0) (pct 35)); dn "color" (Kw "cyan")];
  rule_ [cls_pe "glitch" PAfter]
    [dn "animation" (Seq [Kw "glitch-2"; sec 0.3; Kw "infinite"; Kw "linear"; Kw "alternate-reverse"]);
     dn "clip-path" (band (pct 65) (pct 100)); dn "color" (Kw "magenta")];
  rule_ [cls "text-reveal-underline"] [dn "position" (Kw "relative"); dn "display" (Kw "inline-block")];
  rule_ [cls_pe "text-reveal-underline" PAfter]
    [dn "content" (Str EmptyString); dn "position" (Kw "absolute"); dn "bottom" (px (-2));
     dn "left" (num 0); dn "width" (pct 100); dn "height" (px 1);
     dn "background" (Kw "currentColor"); dn "transform" (Fn "scaleX" [num 0]);
     dn "transform-origin" (Kw "right");
     dn "transition" (Seq [Kw "transform"; sec 0.4; Fn "cubic-bezier" [num 0.65; num 0; num 0.35; num 1]])];
  rule_ [(Sel [SClass "text-reveal-underline"; SHover], Some PAfter)]
    [dn "transform" (Fn "scaleX" [num 1]); dn "transform-origin" (Kw "left")]
]%string.

(** [@keyframes name { offset% { transform: translate(x, 0) } ... }],
    the horizontal offsets in px. *)
Record keyframes := mk_keyframes { kf_name : string; kf_frames : list (Q * Q) }.

Definition glitch_1 : keyframes := mk_keyframes "glitch-1" [(0, 2); (100, -2)].
Definition glitch_2 : keyframes := mk_keyframes "glitch-2" [(0, -2); (100, 2)].

(** The offset of a linear animation at progress [t] in [0,1] between its
    first and last keyframes. *)
Definition offset_at (k : keyframes) (t : Q) : Q :=
  match kf_frames k with
  | (_, a) :: rest => match rev rest with (_, b) :: _ => a + (b - a) * t | [] => a end
  | [] => 0
  end.

(** ** The elements a split creates *)

(** The split or glitched element itself, with its [data-kinetic]
    attribute and the [data-text] [glitchText] sets. *)
Definition host_node (tag : jsstring) (kinetic : option jsstring) (e : Kinetic.element) : elem :=
  El tag (Kinetic.classes e)
     (match kinetic with Some k => [(js "data-kinetic", k)] | None => [] end ++
      match Kinetic.dataText e with Some t => [(js "data-text", t)] | None => [] end)
     [] false false false false None None.

(** [span.className = c; span.style.setProperty(var, i);
    span.setAttribute('aria-hidden', 'true')]. *)
Definition span_node (h : elem) (c var : jsstring) (i : nat) : elem :=
  El (js "span") [c] [(js "aria-hidden", js "true")] [(var, num (inject_Z (Z.of_nat i)))]
     false false false false (Some h) None.

(** [div.line-wrapper] and the [span.line] inside it. *)
Definition wrapper_node (h : elem) : elem :=
  El (js "div") [js "line-wrapper"] [] [] false false false false (Some h) None.

Definition line_node (h : elem) (i : nat) : elem :=
  El (js "span") [js "line"] [] [(js "--line-index", num (inject_Z (Z.of_nat i)))]
     false false false false (Some (wrapper_node h)) None.

(** What the stylesheet gives a child node of a split element: a span
    and a line are [inline-block]; a wrapper clips. *)
Definition child_styled (v : env) (h : elem) (n : Kinetic.node) : Prop :=
  match n with
  | Kinetic.Span c var i _ => computed v kinetic_css (span_node h c var i) None "display" = Some (Kw "inline-block")
  | Kinetic.LineWrapper i _ =>
      computed v kinetic_css (wrapper_node h) None "overflow" = Some (Kw "hidden") /\
      computed v kinetic_css (line_node h i) None "display" = Some (Kw "inline-block")
  | Kinetic.Text _ => True
  end%string.

(** [<span data-kinetic="glitch">INNOVATION</span>] of section 4.5. *)
Definition usage_glitch : Kinetic.element := Kinetic.mk_element [Kinetic.Text (js "INNOVATION")] [] None None.

(** [<h1 data-kinetic="cascade">Lumina Digital</h1>] and
    [<a href="/work" class="text-reveal-underline">View Our Work</a>]
    of section 4.5, the link hovered or not. *)
Definition usage_cascade : Kinetic.element :=
  Kinetic.mk_element [Kinetic.Text (js "Lumina Digital")] [] None None.

Definition usage_underline (hover : bool) : elem :=
  El (js "a") [js "text-reveal-underline"] [(js "href", js "/work")] [] hover false false false None None.

(** The text a pseudo-element prints: its [content], an [attr(...)] read
    on the element. *)
Definition content_text (v : env) (x : elem) (pe : pseudo_el) : option jsstring :=
  match computed v kinetic_css x (Some pe) "content" with
  | Some (Fn f [Kw a]) => if String.eqb f "attr" then get_attr x a else None
  | _ => None
  end%string.

(** ** Lemmas *)

Lemma forall_each {A} (P : Kinetic.node -> Prop) (f : nat -> A -> list Kinetic.node) (i : nat) (l : list A) :
  (forall j x, Forall P (f j x)) -> Forall P (Kinetic.each f i l).
Proof. revert i. induction l as [|x l IH]; intros i H; cbn; [constructor|]. apply Forall_app. auto. Qed.

Lemma char_spans_styled (v : env) (h : elem) (j : nat) (c : Z) :
  Forall (child_styled v h) (Kinetic.char_span j c).
Proof. constructor; [vm_compute; reflexivity | constructor]. Qed.

Lemma word_spans_styled (v : env) (h : elem) (n j : nat) (w : jsstring) :
  Forall (child_styled v h) (Kinetic.word_span n j w).
Proof.
  unfold Kinetic.word_span. constructor; [vm_compute; reflexivity|].
  destruct (Nat.ltb j (n - 1)); repeat constructor.
Qed.

Lemma line_wrappers_styled (v : env) (h : elem) (j : nat) (l : jsstring) :
  Forall (child_styled v h) [Kinetic.LineWrapper j l].
Proof. constructor; [split; vm_compute; reflexivity | constructor]. Qed.

(** The two glitch layers move in opposite directions at every moment. *)
Lemma glitch_offsets_opposite (t : Q) : offset_at glitch_1 t == - offset_at glitch_2 t.
Proof. unfold offset_at. cbn. ring. Qed.

(** ** Properties *)

(** C3: whatever the split element and type, every element [splitText]
    creates gets the stylesheet's [display: inline-block] (a [.char],
    [.word] or [.line] span), and every line wrapper [overflow: hidden],
    on every device: the [y], [rotateX] and [yPercent] tweens of the
    effects and of the text reveal move boxes that can be transformed,
    and a line moves out of sight inside its wrapper. *)
Theorem split_children_styled (e : Kinetic.element) (type : jsstring) (h : elem) (v : env) :
  Forall (child_styled v h) (Kinetic.children (Kinetic.splitText_doc e type)).
Proof.
  unfold Kinetic.splitText_doc.
  destruct (js_eqb type (js "chars")), (js_eqb type (js "words")), (js_eqb type (js "lines"));
    cbn [Kinetic.children Kinetic.append Kinetic.set_ariaLabel Kinetic.set_textContent];
    repeat rewrite Forall_app; repeat split;
    first [apply Forall_nil | apply forall_each; auto using char_spans_styled, word_spans_styled, line_wrappers_styled].
Qed.

(** The usage line [<span data-kinetic="glitch">INNOVATION</span>]:
    [initKineticText] glitches it, and both layers print "INNOVATION",
    the cyan one clipped to the top 35%, the magenta one to the bottom
    35%. *)
Example usage_glitch_layers :
  exists g, Kinetic.initKineticText_effect (Some (js "glitch")) usage_glitch = Kinetic.Glitched g /\
    let x := host_node (js "span") (Some (js "glitch")) g in
    let v := mk_env true false false true in
    content_text v x PBefore = Some (js "INNOVATION") /\ content_text v x PAfter = Some (js "INNOVATION") /\
    computed v kinetic_css x (Some PBefore) "clip-path" = Some (band (num 0) (pct 35)) /\
    computed v kinetic_css x (Some PAfter) "clip-path" = Some (band (pct 65) (pct 100)).
Proof. eexists. split; [reflexivity|]. vm_compute. repeat split. Qed.

(** The cascade heading of section 4.5 is split into its 14 characters,
    all of which the tween animates. *)
Example usage_cascade_chars :
  match Kinetic.initKineticText_effect (Some (js "cascade")) usage_cascade with
  | Kinetic.Animated e t => List.length (Kinetic.targets t) = 14%nat /\ Kinetic.targets t = Kinetic.children e
  | _ => False
  end.
Proof. vm_compute. split; reflexivity. Qed.

(** The underline of the usage link: collapsed towards the right edge at
    rest, full width growing from the left edge on hover. *)
Example usage_underline_reveal (v : env) :
  computed v kinetic_css (usage_underline false) (Some PAfter) "transform" = Some (Fn "scaleX" [num 0]) /\
  computed v kinetic_css (usage_underline false) (Some PAfter) "transform-origin" = Some (Kw "right") /\
  computed v kinetic_css (usage_underline true) (Some PAfter) "transform" = Some (Fn "scaleX" [num 1]) /\
  computed v kinetic_css (usage_underline true) (Some PAfter) "transform-origin" = Some (Kw "left").
Proof. repeat split; vm_compute; reflexivity. Qed.

End KineticCss.
