(* ===== verification/Typewriter.v ===== *)
(** * The typewriter effect ([Typewriter], src/unnamed/part_001)

    The constructor (options merged over [speed: 50, delay: 0,
    cursor: true], the text taken from the element, which is emptied,
    and the cursor class) and [type()]: a [setTimeout] of [delay] whose
    callback starts a [setInterval] of [speed] that appends one code unit
    per tick and, once past the end, clears itself and resolves the
    promise.  Timers are the queue of [Dom.v]; the interval's closure
    (its counter [i] and the promise it resolves) is the timer's action,
    and the element's [textContent] is shared by every loop, as it is in
    the code.  A timer's action also carries the timer nesting level of
    the HTML standard's timer initialisation steps: a timeout below 4ms
    armed from a task nested more than 5 deep is raised to 4ms, which
    slows every tick of a fast interval from the sixth on. *)

From Stdlib Require Import String ZArith List Lia.
From S2P Require Import Prelude Dom.
Import ListNotations.

Module Typewriter.

(** ** Data *)

Record options := mk_options { speed : Z; delay : Z; cursor : bool }.

(** The [options] argument: the fields a caller sets. *)
Record overrides := mk_overrides { o_speed : option Z; o_delay : option Z; o_cursor : option bool }.

Definition pick {A} (o : option A) (d : A) : A := match o with Some x => x | None => d end.

(** [{ speed: 50, delay: 0, cursor: true, ...options }]. *)
Definition merge (o : overrides) : options :=
  mk_options (pick (o_speed o) 50%Z) (pick (o_delay o) 0%Z) (pick (o_cursor o) true).

(** The timer callbacks: the [setTimeout] of the [type()] call that
    returned promise [p], and a tick of its [setInterval] with the loop's
    counter [i]; [lvl] is the nesting level the callback's task runs at. *)
Inductive job := StartTyping (p : nat) (lvl : nat) | Tick (p : nat) (i : nat) (lvl : nat).

(** The timeout a timer armed by a task of nesting level [lvl] (0
    outside timer tasks) gets: below 4ms it is raised to 4ms when
    [lvl > 5]; [Dom.schedule] then counts a negative timeout as 0.  The
    task it arms runs at level [lvl + 1]. *)
Definition clamp (lvl : nat) (timeout : Z) : Z := if Nat.ltb 5 lvl then Z.max 4 timeout else timeout.

(** The element ([textContent], classes), the instance ([text],
    [options]), the timers, the clock and the promises [type()] returned
    (numbered from 0) with those already resolved. *)
Record world := mk_world {
  shown : jsstring;
  classes : Dom.class_list;
  text : jsstring;
  opts : options;
  timers : list (Dom.timer job);
  next_id : nat;
  now : Z;
  next_promise : nat;
  resolved : list nat
}.

Definition set_timers (w : world) (ts : list (Dom.timer job)) (nid : nat) : world :=
  mk_world (shown w) (classes w) (text w) (opts w) ts nid (now w) (next_promise w) (resolved w).
Definition set_now (w : world) (t : Z) : world :=
  mk_world (shown w) (classes w) (text w) (opts w) (timers w) (next_id w) t (next_promise w) (resolved w).
Definition set_shown (w : world) (s : jsstring) : world :=
  mk_world s (classes w) (text w) (opts w) (timers w) (next_id w) (now w) (next_promise w) (resolved w).
Definition resolve (w : world) (p : nat) : world :=
  mk_world (shown w) (classes w) (text w) (opts w) (timers w) (next_id w) (now w) (next_promise w) (resolved w ++ [p]).

(** [s.charAt(i)]: the code unit at [i], or [''] past the end. *)
Definition charAt (s : jsstring) (i : nat) : jsstring :=
  match nth_error s i with Some c => [c] | None => [] end.

(** ** The methods *)

(** [new Typewriter(element, options)] on an element showing [content]
    with classes [cls]. *)
Definition Typewriter_new (content : jsstring) (cls : Dom.class_list) (o : overrides) : world :=
  let opts := merge o in
  mk_world [] (if cursor opts then Dom.add cls (js "typewriter-cursor") else cls) content opts [] 0 0%Z 0 [].

(** [type()], called outside timer tasks: the world with its
    [setTimeout] armed, and the promise. *)
Definition type (w : world) : world * nat :=
  let p := next_promise w in
  (mk_world (shown w) (classes w) (text w) (opts w)
            (Dom.schedule (timers w) (next_id w) (now w) (clamp 0 (delay (opts w))) (StartTyping p 1))
            (S (next_id w)) (now w) (S p) (resolved w), p).

(** A timer callback [t] runs: the [setTimeout] callback starts the
    interval; a tick appends [text.charAt(i)] while [i < text.length]
    and stays armed (same handle, next period), and otherwise clears the
    interval and resolves. *)
Definition run_job (t : Dom.timer job) (w : world) : world :=
  match Dom.t_act t with
  | StartTyping p lvl =>
      set_timers w (Dom.schedule (timers w) (next_id w) (now w) (clamp lvl (speed (opts w))) (Tick p 0 (S lvl)))
                 (S (next_id w))
  | Tick p i lvl =>
      if Nat.ltb i (List.length (text w)) then
        let w1 := set_shown w (shown w ++ charAt (text w) i) in
        set_timers w1 (Dom.schedule (timers w1) (Dom.t_id t) (now w1) (clamp lvl (speed (opts w1)))
                                    (Tick p (S i) (S lvl))) (next_id w1)
      else resolve w p
  end.

(** The next timer fires: the clock moves to its due time and it leaves
    the queue before its callback runs. *)
Definition fire (w : world) : world :=
  match Dom.earliest (timers w) with
  | None => w
  | Some t => run_job t (set_now (set_timers w (Dom.fired (timers w) t) (next_id w)) (Dom.t_due t))
  end.

(** [n] timer firings. *)
Definition fire_n (n : nat) (w : world) : world := Nat.iter n fire w.


(** ** Lemmas *)



Lemma fire_empty (w : world) : timers w = [] -> fire w = w.
Proof. intros Ht. unfold fire. now rewrite Ht. Qed.







(** ** Properties *)


(** With [speed: 1] the eleven ticks of a ten-character text take
    [5 * 1 + 6 * 4] ms, not 11 ms. *)
Example fast_interval_clamped :
  let w1 := fst (type (Typewriter_new (js "abcdefghij") [] (mk_overrides (Some 1%Z) None None))) in
  now (fire_n 12 w1) = 29%Z.
Proof. vm_compute. reflexivity. Qed.

(** Two [type()] calls on one element share its [textContent]: their
    intervals tick in turn and the text comes out doubled letter by
    letter. *)
Example type_twice_interleaves :
  let w := fst (type (fst (type (Typewriter_new (js "ab") [] (mk_overrides None None None))))) in
  shown (fire_n 8 w) = js "aabb" /\ resolved (fire_n 8 w) = [0; 1]%nat.
Proof. vm_compute. split; reflexivity. Qed.

End Typewriter.
