(* ===== verification/Audio.v ===== *)
(** * Sound feedback ([AudioFeedback], design document section 8.1,
      src/unnamed/part_000)

    The constructor reading [localStorage], [init] (an [AudioContext]
    created by the first click on the document), [play] (the oscillators
    it schedules, the unused pair it creates first included) and
    [toggle] (the flag written back to [localStorage]), with the
    listeners bound to buttons and links.  The keys [sounds] inherits
    from [Object.prototype] are not modelled: [play] is only called with
    the four names of the table.  [localStorage] is an
    association list of strings; the audio graph is the list of
    oscillators created, with the times they are told to start and
    stop. *)

From Stdlib Require Import String ZArith QArith List Lia.
From S2P Require Import Prelude.
Import ListNotations.

Module Audio.

(** ** [localStorage] *)

Definition storage := list (jsstring * jsstring).

(** [localStorage.getItem(k)]: [None] is [null]. *)
Fixpoint getItem (st : storage) (k : jsstring) : option jsstring :=
  match st with
  | [] => None
  | (k', v) :: r => if js_eqb k k' then Some v else getItem r k
  end.

(** [localStorage.setItem(k, v)]. *)
Definition setItem (st : storage) (k v : jsstring) : storage :=
  (k, v) :: filter (fun kv => negb (js_eqb (fst kv) k)) st.

(** [String(b)] for a boolean. *)
Definition bool_to_string (b : bool) : jsstring := if b then js "true" else js "false".

(** ** Data *)

(** [sound.frequency]: a number or an array of numbers. *)
Inductive frequency := One (f : Z) | Many (fs : list Z).

Record sound := mk_sound { freq : frequency; duration : Q; volume : Q }.

(** [this.sounds[type]]. *)
Definition sounds (type : jsstring) : option sound :=
  if js_eqb type (js "hover") then Some (mk_sound (One 800) (5 # 100) (1 # 10))
  else if js_eqb type (js "click") then Some (mk_sound (One 600) (1 # 10) (15 # 100))
  else if js_eqb type (js "success") then Some (mk_sound (Many [523; 659; 784]%Z) (15 # 100) (12 # 100))
  else if js_eqb type (js "transition") then Some (mk_sound (One 400) (2 # 10) (8 # 100))
  else None.

(** An oscillator of the audio graph: its frequency (never set on the
    pair [play] creates first), its gain at the start and the time the
    gain ramps to 0.001, and the times it is told to start and stop. *)
Record oscillator := mk_osc {
  o_freq : option Z;
  o_volume : option Q;
  o_ramp_end : option Q;
  o_start : option Q;
  o_stop : option Q
}.

(** The instance, the page's [localStorage], whether the audio context
    exists, the oscillators created so far, and whether the
    [{ once: true }] click listener of [init] is still attached. *)
Record world := mk_world {
  enabled : bool;
  storage_of : storage;
  audioContext : bool;
  oscillators : list oscillator;
  click_pending : bool
}.

(** ** The methods *)

(** [new AudioFeedback()]: [enabled] unless the stored flag is
    ['false']. *)
Definition AudioFeedback_new (st : storage) : world :=
  mk_world (negb (match getItem st (js "soundEnabled") with
                  | Some v => js_eqb v (js "false")
                  | None => false
                  end)) st false [] false.

(** [init()]: the once-only click listener. *)
Definition init (w : world) : world :=
  mk_world (enabled w) (storage_of w) (audioContext w) (oscillators w) true.

(** That listener, on the first click: create the context if there is
    none; the listener is then removed. *)
Definition on_document_click (w : world) : world :=
  if click_pending w then mk_world (enabled w) (storage_of w) true (oscillators w) false else w.

(** [Array.isArray(f) ? f : [f]]. *)
Definition frequencies (f : frequency) : list Z := match f with One x => [x] | Many xs => xs end.

(** The oscillator of [frequencies.forEach((freq, i) => ...)] at context
    time [now]. *)
Definition tone (now : Q) (s : sound) (i : nat) (f : Z) : oscillator :=
  let offset := inject_Z (Z.of_nat i) * (5 # 100) in
  mk_osc (Some f) (Some (volume s)) (Some (now + duration s)) (Some (now + offset)) (Some (now + duration s + offset)).

Fixpoint tones (now : Q) (s : sound) (i : nat) (fs : list Z) : list oscillator :=
  match fs with
  | [] => []
  | f :: r => tone now s i f :: tones now s (S i) r
  end.

(** [play(type)], the context's [currentTime] being [now]. *)
Definition play (type : jsstring) (now : Q) (w : world) : world :=
  match enabled w, audioContext w with
  | true, true =>
      match sounds type with
      | None => w
      | Some s =>
          let unused := mk_osc None None None None None in
          mk_world (enabled w) (storage_of w) (audioContext w)
                   (oscillators w ++ unused :: tones now s 0 (frequencies (freq s))) (click_pending w)
      end
  | _, _ => w
  end.

(** [toggle()]: the new flag, stored as ['true'] or ['false']. *)
Definition toggle (w : world) : world * bool :=
  let e := negb (enabled w) in
  (mk_world e (setItem (storage_of w) (js "soundEnabled") (bool_to_string e)) (audioContext w) (oscillators w)
            (click_pending w), e).

(** ** The page *)

(** The events the bindings react to: the pointer entering a button or
    link, a click on a button or link (at context time [t]), a click
    elsewhere, and a call of [toggle()]. *)
Inductive event := EvEnterControl (t : Q) | EvClickControl (t : Q) | EvClickElsewhere | EvToggle.

(** A click on a control reaches the control's listener before it
    bubbles up to the document's. *)
Definition run_event (ev : event) (w : world) : world :=
  match ev with
  | EvEnterControl t => play (js "hover") t w
  | EvClickControl t => on_document_click (play (js "click") t w)
  | EvClickElsewhere => on_document_click w
  | EvToggle => fst (toggle w)
  end.

Definition run_events (evs : list event) (w : world) : world :=
  fold_left (fun w ev => run_event ev w) evs w.

(** The page's script: construct, [init]. *)
Definition page (st : storage) : world := init (AudioFeedback_new st).

(** Events that involve no click. *)
Definition no_click (ev : event) : bool :=
  match ev with EvEnterControl _ | EvToggle => true | _ => false end.

(** ** Lemmas *)

Lemma getItem_setItem (st : storage) (k v : jsstring) : getItem (setItem st k v) k = Some v.
Proof. cbn. now rewrite js_eqb_refl. Qed.

Lemma read_flag (b : bool) : js_eqb (bool_to_string b) (js "false") = negb b.
Proof. destruct b; reflexivity. Qed.

(** The flag a new instance would read from the storage. *)
Definition stored_flag (w : world) : bool := enabled (AudioFeedback_new (storage_of w)).

Lemma play_keeps (type : jsstring) (t : Q) (w : world) :
  storage_of (play type t w) = storage_of w /\ enabled (play type t w) = enabled w.
Proof.
  destruct w as [e st c os cp]. unfold play. cbn. destruct e, c; [destruct (sounds type) | ..]; split; reflexivity.
Qed.

Lemma click_keeps (w : world) :
  storage_of (on_document_click w) = storage_of w /\ enabled (on_document_click w) = enabled w.
Proof. unfold on_document_click. destruct (click_pending w); split; reflexivity. Qed.

Lemma stored_flag_event (ev : event) (w : world) :
  stored_flag w = enabled w -> stored_flag (run_event ev w) = enabled (run_event ev w).
Proof.
  unfold stored_flag. intros Hs. destruct ev as [t|t| |]; cbn [run_event].
  - destruct (play_keeps (js "hover") t w) as [-> ->]. exact Hs.
  - destruct (click_keeps (play (js "click") t w)) as [-> ->].
    destruct (play_keeps (js "click") t w) as [-> ->]. exact Hs.
  - destruct (click_keeps w) as [-> ->]. exact Hs.
  - unfold AudioFeedback_new, toggle. cbn [fst storage_of enabled].
    rewrite getItem_setItem, read_flag. apply negb_involutive.
Qed.

(** Before the first click there is no context: nothing plays. *)
Lemma silent_before_click (evs : list event) (w : world) :
  forallb no_click evs = true -> audioContext w = false -> oscillators w = [] -> click_pending w = true ->
  audioContext (run_events evs w) = false /\ oscillators (run_events evs w) = [] /\
  click_pending (run_events evs w) = true.
Proof.
  revert w. induction evs as [|ev evs IH]; intros w Hn Hc Ho Hp; [auto |].
  cbn in Hn. apply andb_prop in Hn as [He Hn]. cbn [run_events fold_left]. apply IH; [exact Hn |..];
    destruct ev as [t|t| |]; try discriminate; cbn [run_event];
    unfold play; destruct w as [e st c os cp]; cbn in *; subst; destruct e; reflexivity.
Qed.

(** ** Properties *)

(** C37: the sound setting survives a reload: on a page that started
    from any [localStorage], after any sequence of hovers, clicks and
    [toggle()] calls, a new [AudioFeedback] reading the storage gets the
    current setting, and [toggle()] returns the value it stored. *)
Theorem sound_setting_persists (st : storage) (evs : list event) :
  let w := run_events evs (page st) in
  enabled (AudioFeedback_new (storage_of w)) = enabled w /\
  snd (toggle w) = enabled (AudioFeedback_new (storage_of (fst (toggle w)))).
Proof.
  cbv zeta. split.
  - assert (H0 : stored_flag (page st) = enabled (page st)) by reflexivity.
    revert H0. generalize (page st). induction evs as [|ev evs IH]; intros w Hw; [exact Hw |].
    apply IH, stored_flag_event, Hw.
  - unfold AudioFeedback_new, toggle. cbn [fst snd storage_of enabled].
    now rewrite getItem_setItem, read_flag, negb_involutive.
Qed.

(** C31: the first click on a button or link is silent: its own
    listener runs before the document's [{ once: true }] listener that
    creates the [AudioContext], so however many hovers and toggles came
    before, that click schedules no oscillator (it only creates the
    context); with sound enabled, the next click plays. *)
Theorem first_click_silent (st : storage) (evs : list event) (t t' : Q) :
  forallb no_click evs = true ->
  let w := run_events (evs ++ [EvClickControl t]) (page st) in
  oscillators w = [] /\ audioContext w = true /\
  (enabled w = true -> oscillators (run_event (EvClickControl t') w) <> []).
Proof.
  intros Hn. cbv zeta. unfold run_events. rewrite fold_left_app. fold (run_events evs (page st)).
  destruct (silent_before_click evs (page st) Hn eq_refl eq_refl eq_refl) as (Hc & Ho & Hp).
  destruct (run_events evs (page st)) as [e st' c os cp]. cbn in Hc, Ho, Hp. subst.
  cbn [fold_left run_event]. unfold play, on_document_click. cbn. destruct e; cbn.
  - repeat split. intros _. discriminate.
  - repeat split. discriminate.
Qed.

(** ** The theorems at concrete inputs *)

Lemma first_click_silent_witness :
  forallb no_click [EvEnterControl 1; EvToggle; EvToggle] = true /\
  (let w := run_events ([EvEnterControl 1; EvToggle; EvToggle] ++ [EvClickControl 2]) (page []) in
   oscillators w = [] /\ audioContext w = true /\
   (enabled w = true -> oscillators (run_event (EvClickControl 3) w) <> [])).
Proof.
  split; [reflexivity | exact (first_click_silent [] [EvEnterControl 1; EvToggle; EvToggle] 2 3 eq_refl)].
Defined.

End Audio.
