(* ===== verification/Nav.v ===== *)
(** * Navigation and page glue of the entry point (src/src/js/main.js)

    [initMobileNav]: the hamburger [toggle], the [mobileMenu] and
    [document.body] with the classes and the [aria-expanded] attribute
    [openMenu] and [closeMenu] write, and the four listeners that open
    and close the menu.  [initSmoothScroll]: what a click on an
    [a[href^="#"]] does.  [initPreloader]: the [load] listener and its
    timeout.  The class lists are [Dom.class_list]. *)

From Stdlib Require Import String ZArith QArith List Lia.
From S2P Require Import Prelude Dom.
Import ListNotations.

Module Nav.

(** ** Mobile navigation *)

(** The toggle button: its classes and its [aria-expanded] attribute. *)
Record toggle_el := mk_toggle { t_classes : Dom.class_list; aria_expanded : option jsstring }.

(** The page as [initMobileNav] finds it ([None]: [querySelector] found
    nothing), and whether its listeners were added. *)
Record world := mk_world {
  toggle : option toggle_el;
  menu : option Dom.class_list;
  body : Dom.class_list;
  bound : bool
}.

Definition is_active := js "is-active".
Definition is_open := js "is-open".
Definition menu_open := js "menu-open".

(** [openMenu()]. *)
Definition openMenu (t : toggle_el) (m b : Dom.class_list) : toggle_el * Dom.class_list * Dom.class_list :=
  (mk_toggle (Dom.add (t_classes t) is_active) (Some (js "true")), Dom.add m is_open, Dom.add b menu_open).

(** [closeMenu()]. *)
Definition closeMenu (t : toggle_el) (m b : Dom.class_list) : toggle_el * Dom.class_list * Dom.class_list :=
  (mk_toggle (Dom.remove (t_classes t) is_active) (Some (js "false")), Dom.remove m is_open, Dom.remove b menu_open).

(** Apply [openMenu] or [closeMenu] to the page. *)
Definition apply_menu (f : toggle_el -> Dom.class_list -> Dom.class_list -> toggle_el * Dom.class_list * Dom.class_list)
  (w : world) : world :=
  match toggle w, menu w with
  | Some t, Some m =>
      let '(t', m', b') := f t m (body w) in mk_world (Some t') (Some m') b' (bound w)
  | _, _ => w
  end.

(** [mobileMenu.classList.contains('is-open')]. *)
Definition menu_is_open (w : world) : bool :=
  match menu w with Some m => Dom.contains m is_open | None => false end.

(** The click listener of the toggle. *)
Definition on_toggle_click (w : world) : world :=
  if menu_is_open w then apply_menu closeMenu w else apply_menu openMenu w.

(** The click listener of every mobile link. *)
Definition on_link_click (w : world) : world := apply_menu closeMenu w.

(** The [keydown] listener of the document. *)
Definition on_keydown (key : jsstring) (w : world) : world :=
  if js_eqb key (js "Escape") && menu_is_open w then apply_menu closeMenu w else w.

(** The [resize] listener of the window, for the new [innerWidth]. *)
Definition on_resize (innerWidth : Q) (w : world) : world :=
  if Qlt_le_dec 768 innerWidth then (if menu_is_open w then apply_menu closeMenu w else w) else w.

(** [initMobileNav()]: the listeners are added only when both the toggle
    and the menu exist. *)
Definition initMobileNav (w : world) : world :=
  match toggle w, menu w with
  | Some _, Some _ => mk_world (toggle w) (menu w) (body w) true
  | _, _ => w
  end.

Inductive event := EvToggleClick | EvLinkClick | EvKeydown (key : jsstring) | EvResize (innerWidth : Q).

Definition run_event (ev : event) (w : world) : world :=
  if bound w then
    match ev with
    | EvToggleClick => on_toggle_click w
    | EvLinkClick => on_link_click w
    | EvKeydown k => on_keydown k w
    | EvResize x => on_resize x w
    end
  else w.

Definition run_events (evs : list event) (w : world) : world :=
  fold_left (fun w ev => run_event ev w) evs w.

(** ** Smooth scrolling of in-page links *)

(** What [document.querySelector(targetId)] does: an element, none, or a
    [SyntaxError] for a string that is not a selector. *)
Inductive query_result := Found | NotFound | InvalidSelector.

(** The characters of a CSS identifier (ASCII letters, digits, [-], [_],
    and any non-ASCII code unit). *)
Definition ident_char (c : Z) : bool :=
  (((97 <=? c) && (c <=? 122)) || ((65 <=? c) && (c <=? 90)) || ((48 <=? c) && (c <=? 57))
   || (c =? 45) || (c =? 95) || (128 <=? c))%Z.

Definition is_digit (c : Z) : bool := ((48 <=? c) && (c <=? 57))%Z.

(** The page as [document.querySelector] sees it: the ids of its
    elements, and what a selector that goes on after [#ident] (a class,
    an attribute, a pseudo-class, a combinator, a list, an escape)
    selects or whether it is invalid, which depends on the rest of the
    Selectors grammar and on the page's other attributes. *)
Record page := mk_page { ids : list jsstring; query_compound : jsstring -> query_result }.

(** The identifier characters at the front of a string, and the rest. *)
Fixpoint ident_prefix (s : jsstring) : jsstring * jsstring :=
  match s with
  | c :: r => if ident_char c then let (p, q) := ident_prefix r in (c :: p, q) else ([], s)
  | [] => ([], [])
  end.

(** [querySelector('#' + name)]: [#] and the identifier characters after
    it are one hash token, which makes an id selector only when they
    start an identifier: not with a digit, not with [-] followed by a
    digit or by nothing, and not empty unless an escape follows.  A
    plain [#ident] looks the id up; a longer selector is
    [query_compound]. *)
Definition query_id (pg : page) (name : jsstring) : query_result :=
  let (p, rest) := ident_prefix name in
  let escape := match rest with 92%Z :: _ => true | _ => false end in
  let id_hash :=
    match p with
    | [] => escape
    | c :: r =>
        negb (is_digit c) &&
        negb ((c =? 45)%Z && match r with d :: _ => is_digit d | [] => negb escape end)
    end in
  if negb id_hash then InvalidSelector
  else match rest with
       | [] => if existsb (js_eqb name) (ids pg) then Found else NotFound
       | _ => query_compound pg name
       end.

(** What a click on the anchor ends in. *)
Inductive click_outcome :=
| DefaultAction            (* the listener returned without [preventDefault] *)
| SmoothScroll             (* [preventDefault()] and [scrollIntoView] *)
| Thrown.                  (* the listener threw; the default action runs *)

(** The click listener of [initSmoothScroll] for [href] (every anchor it
    binds has an [href] starting with [#]). *)
Definition on_anchor_click (pg : page) (href : jsstring) : click_outcome :=
  if js_eqb href (js "#") then DefaultAction
  else
    match href with
    | 35%Z :: name =>
        match query_id pg name with
        | Found => SmoothScroll
        | NotFound => DefaultAction
        | InvalidSelector => Thrown
        end
    | _ => DefaultAction
    end.

(** The markup of a closed menu with its listeners bound. *)
Definition demo_nav : world :=
  initMobileNav (mk_world (Some (mk_toggle [js "nav__menu"] (Some (js "false")))) (Some [js "nav__mobile-menu"]) [] false).

(** ** Preloader *)

(** [initPreloader()] followed by [load] and the 500 ms timeout: the
    classes of the preloader and of the body. *)
Definition preloader_done (preloader : option Dom.class_list) (b : Dom.class_list)
  : option Dom.class_list * Dom.class_list :=
  match preloader with
  | Some p => (Some (Dom.add p (js "is-hidden")), Dom.add b (js "is-loaded"))
  | None => (None, b)
  end.

(** ** The menu's classes agree *)

(** The toggle is active, [aria-expanded] is ["true"] and the body has
    [menu-open] exactly when the menu is open. *)
Definition consistent (w : world) : Prop :=
  match toggle w, menu w with
  | Some t, Some m =>
      Dom.contains (t_classes t) is_active = Dom.contains m is_open /\
      Dom.contains (body w) menu_open = Dom.contains m is_open /\
      aria_expanded t = Some (if Dom.contains m is_open then js "true" else js "false")
  | _, _ => True
  end.

Lemma open_consistent (w : world) : consistent (apply_menu openMenu w).
Proof.
  destruct w as [[t|] [m|] b bd]; cbn -[Dom.contains Dom.add js]; auto.
  rewrite !Dom.contains_add. repeat split.
Qed.

Lemma close_consistent (w : world) : consistent (apply_menu closeMenu w).
Proof.
  destruct w as [[t|] [m|] b bd]; cbn -[Dom.contains Dom.remove js]; auto.
  rewrite !Dom.contains_remove. repeat split.
Qed.

Lemma apply_menu_open (w : world) :
  toggle w <> None -> menu w <> None -> menu_is_open (apply_menu openMenu w) = true.
Proof.
  destruct w as [[t|] [m|] b bd]; cbn -[Dom.contains Dom.add js]; try congruence.
  intros _ _. apply Dom.contains_add.
Qed.

Lemma apply_menu_close (w : world) : toggle w <> None -> menu_is_open (apply_menu closeMenu w) = false.
Proof.
  destruct w as [[t|] [m|] b bd]; cbn -[Dom.contains Dom.remove js]; try congruence.
  intros _. apply Dom.contains_remove.
Qed.

#[local] Hint Resolve open_consistent close_consistent : lumina.

Lemma event_consistent (w : world) (ev : event) : consistent w -> consistent (run_event ev w).
Proof.
  intros Hc. unfold run_event. destruct (bound w); [| exact Hc].
  destruct ev as [| |k|x]; unfold on_toggle_click, on_link_click, on_keydown, on_resize;
    repeat match goal with |- context [if ?b then _ else _] => destruct b end; auto with lumina.
Qed.

(** ** Properties of the navigation *)

(** C34: once the toggle, the menu and the body agree (closed markup, or
    after any open or close), every listener keeps them in agreement:
    the toggle is active, [aria-expanded] is ["true"] and the body has
    [menu-open] exactly when the menu is open. *)
Theorem nav_consistent (w : world) (evs : list event) :
  consistent w -> consistent (run_events evs w).
Proof.
  revert w. induction evs as [|ev evs IH]; intros w Hc; [exact Hc |].
  apply IH, event_consistent, Hc.
Qed.

(** The four listeners of [initMobileNav]: the toggle flips the
    menu, a link closes it, [Escape] closes it and other keys do not,
    and a resize closes it exactly when the window is wider than 768. *)
Theorem nav_listeners (w : world) (k : jsstring) (x : Q) :
  bound w = true -> toggle w <> None -> menu w <> None ->
  menu_is_open (run_event EvToggleClick w) = negb (menu_is_open w) /\
  menu_is_open (run_event EvLinkClick w) = false /\
  menu_is_open (run_event (EvKeydown k) w) = menu_is_open w && negb (js_eqb k (js "Escape")) /\
  menu_is_open (run_event (EvResize x) w) = if Qlt_le_dec 768 x then false else menu_is_open w.
Proof.
  intros Hb Ht Hm. unfold run_event. rewrite Hb.
  unfold on_toggle_click, on_link_click, on_keydown, on_resize.
  split; [| split; [| split]].
  - destruct (menu_is_open w); [now apply apply_menu_close | now apply apply_menu_open].
  - now apply apply_menu_close.
  - destruct (js_eqb k (js "Escape")), (menu_is_open w) eqn:E; cbn; rewrite ?E; auto; now apply apply_menu_close.
  - destruct (Qlt_le_dec 768 x); [| reflexivity].
    destruct (menu_is_open w) eqn:E; [now apply apply_menu_close | exact E].
Qed.

(** C36: a link to an id that starts with a digit ([href="#2024"]) makes
    [querySelector] throw a [SyntaxError] on every page, also one with an
    element of that id: the listener throws before [preventDefault], so
    the browser jumps instead of scrolling smoothly. *)
Theorem anchor_digit_id_throws (pg : page) (d : Z) (r : jsstring) :
  is_digit d = true -> on_anchor_click pg (35%Z :: d :: r) = Thrown.
Proof.
  intros Hd. unfold on_anchor_click, query_id. cbn [js_eqb].
  replace (if list_eq_dec Z.eq_dec (35%Z :: d :: r) (js "#") then true else false) with false.
  - assert (Hi : ident_char d = true)
      by (unfold is_digit in Hd; unfold ident_char; rewrite Hd, Bool.orb_true_r, !Bool.orb_true_l; reflexivity).
    cbn [ident_prefix]. rewrite Hi. destruct (ident_prefix r). cbn. now rewrite Hd.
  - destruct (list_eq_dec Z.eq_dec (35%Z :: d :: r) (js "#")) as [E|]; [inversion E | reflexivity].
Qed.

Lemma nav_consistent_witness :
  consistent demo_nav /\ consistent (run_events [EvToggleClick; EvKeydown (js "Enter"); EvResize 1024] demo_nav).
Proof.
  assert (Hc : consistent demo_nav) by (vm_compute; repeat split).
  split; [exact Hc | exact (nav_consistent demo_nav _ Hc)].
Defined.

Lemma nav_listeners_witness :
  (bound demo_nav = true /\ toggle demo_nav <> None /\ menu demo_nav <> None) /\
  menu_is_open (run_event EvToggleClick demo_nav) = negb (menu_is_open demo_nav) /\
  menu_is_open (run_event EvLinkClick demo_nav) = false /\
  menu_is_open (run_event (EvKeydown (js "Escape")) demo_nav) = menu_is_open demo_nav && negb (js_eqb (js "Escape") (js "Escape")) /\
  menu_is_open (run_event (EvResize 500) demo_nav) = if Qlt_le_dec 768 500 then false else menu_is_open demo_nav.
Proof.
  assert (Hb : bound demo_nav = true) by reflexivity.
  assert (Ht : toggle demo_nav <> None) by discriminate.
  assert (Hm : menu demo_nav <> None) by discriminate.
  split; [exact (conj Hb (conj Ht Hm)) |]. exact (nav_listeners demo_nav (js "Escape") 500 Hb Ht Hm).
Defined.

Lemma anchor_digit_id_throws_witness :
  is_digit 50 = true /\ on_anchor_click (mk_page [js "2024"] (fun _ => NotFound)) (js "#2024") = Thrown.
Proof.
  assert (Hd : is_digit 50 = true) by reflexivity.
  split; [exact Hd |]. exact (anchor_digit_id_throws (mk_page [js "2024"] (fun _ => NotFound)) 50 (js "024") Hd).
Defined.

(** [#about] looks the id up; [#a.b] is a valid compound selector whose
    result is the page's ([query_compound]); [#-] and [#-1] are not id
    selectors. *)
Example query_id_cases :
  query_id (mk_page [js "about"] (fun _ => NotFound)) (js "about") = Found /\
  query_id (mk_page [] (fun _ => Found)) (js "a.b") = Found /\
  query_id (mk_page [js "-"] (fun _ => Found)) (js "-") = InvalidSelector /\
  query_id (mk_page [] (fun _ => Found)) (js "-1") = InvalidSelector.
Proof. vm_compute. repeat split. Qed.

End Nav.
