(* ===== verification/Main.v ===== *)
(** * Start-up and the shared [document.body] (src/src/js/main.js)

    [init()] (the [init*] calls in their order, then [cursor.refresh()]),
    the [DOMContentLoaded] branch that runs it, and [initPreloader]'s
    [load] listener with its 500 ms timeout, over a page whose cursor
    ([Cursor.v]) and mobile navigation ([Nav.v]) share one
    [document.body.classList]: the cursor adds [cursor-ready], the
    navigation adds and removes [menu-open], the preloader adds
    [is-loaded].  Each module's step sees the shared list and writes it
    back.  [initMagnetic], [initTilt], [initScrollAnimations],
    [initKineticText] and [initSmoothScroll] write only their own
    elements (their models are in their files) and leave this state
    unchanged. *)

From Stdlib Require Import String ZArith QArith List Lia.
From S2P Require Import Prelude Dom Cursor Nav.
Import ListNotations.

Module Main.

(** ** The page *)

Record world := mk_world {
  cur : Cursor.world;
  nav : Nav.world;
  preloader : option Dom.class_list;
  load_bound : bool;
  preload_timer : bool;
  init_pending : bool;
  body : Dom.class_list
}.

(** The cursor's and the navigation's view of the page: their own state
    with the shared body. *)
Definition cursor_view (w : world) : Cursor.world := Cursor.set_clock (cur w) (Cursor.now (cur w)) (body w).
Definition nav_view (w : world) : Nav.world :=
  Nav.mk_world (Nav.toggle (nav w)) (Nav.menu (nav w)) (body w) (Nav.bound (nav w)).

Definition with_cursor (w : world) (c : Cursor.world) : world :=
  mk_world c (nav w) (preloader w) (load_bound w) (preload_timer w) (init_pending w) (Cursor.body c).
Definition with_nav (w : world) (n : Nav.world) : world :=
  mk_world (cur w) n (preloader w) (load_bound w) (preload_timer w) (init_pending w) (Nav.body n).

(** [initPreloader()]: the [load] listener, when there is a preloader. *)
Definition initPreloader (w : world) : world :=
  match preloader w with
  | Some _ => mk_world (cur w) (nav w) (preloader w) true (preload_timer w) (init_pending w) (body w)
  | None => w
  end.

(** [init()]: [initMagnetic()], [initTilt()], [initScrollAnimations()],
    [initKineticText()] and [initSmoothScroll()] (no effect here), then
    [initPreloader()], [initMobileNav()] and [cursor.refresh()]. *)
Definition init (w : world) : world :=
  let w1 := initPreloader w in
  let w2 := with_nav w1 (Nav.initMobileNav (nav_view w1)) in
  with_cursor w2 (Cursor.run_event Cursor.EvRefresh (cursor_view w2)).

(** The module's last statements: [init] now, or on [DOMContentLoaded]
    while the document is still loading.  The cursor was created when
    [cursor.js] was evaluated. *)
Definition start (loading : bool) (c : Cursor.world) (n : Nav.world) (p : option Dom.class_list)
  (b : Dom.class_list) : world :=
  let w := mk_world c n p false false loading b in
  if loading then w else init w.

Inductive event :=
| ECursor (e : Cursor.event)
| ENav (e : Nav.event)
| EDOMContentLoaded
| ELoad
| EPreloaderTimeout.

Definition run_event (ev : event) (w : world) : world :=
  match ev with
  | ECursor e => with_cursor w (Cursor.run_event e (cursor_view w))
  | ENav e => with_nav w (Nav.run_event e (nav_view w))
  | EDOMContentLoaded =>
      if init_pending w
      then init (mk_world (cur w) (nav w) (preloader w) (load_bound w) (preload_timer w) false (body w))
      else w
  | ELoad => if load_bound w then mk_world (cur w) (nav w) (preloader w) (load_bound w) true (init_pending w) (body w) else w
  | EPreloaderTimeout =>
      if preload_timer w then
        let (p, b) := Nav.preloader_done (preloader w) (body w) in
        mk_world (cur w) (nav w) p (load_bound w) false (init_pending w) b
      else w
  end.

Definition run_events (evs : list event) (w : world) : world :=
  fold_left (fun w ev => run_event ev w) evs w.

Inductive reachable : world -> Prop :=
| reach_start loading c n p b : reachable (start loading c n p b)
| reach_step w ev : reachable w -> reachable (run_event ev w).

(** ** The cursor writes only [cursor-ready] to the body *)

Definition state_of {S E A} (o : outcome S E A) : S := match o with Ret _ s => s | Throw _ s => s end.

(** A cursor method that leaves [document.body.classList] alone. *)
Definition keeps_body {A} (m : Cursor.M A) : Prop := forall w, Cursor.body (state_of (m w)) = Cursor.body w.

Lemma kb_bind {A B} (m : Cursor.M A) (k : A -> Cursor.M B) :
  keeps_body m -> (forall a, keeps_body (k a)) -> keeps_body (exc_bind m k).
Proof.
  intros Hm Hk w. specialize (Hm w). unfold exc_bind. destruct (m w) as [a s|e s]; cbn in *; [| exact Hm].
  rewrite Hk. exact Hm.
Qed.

Lemma kb_get : keeps_body (@exc_get Cursor.world Cursor.cursor_error).
Proof. intros w. reflexivity. Qed.

Lemma kb_ret {A} (a : A) : keeps_body (exc_ret a).
Proof. intros w. reflexivity. Qed.

Lemma kb_write_els (f : Cursor.elements -> Cursor.elements) : keeps_body (Cursor.write_els f).
Proof. intros w. unfold Cursor.write_els, exc_bind, exc_get. destruct (Cursor.els (Cursor.cur w)); reflexivity. Qed.

Lemma kb_modify (f : Cursor.world -> Cursor.world) :
  (forall w, Cursor.body (f w) = Cursor.body w) -> keeps_body (exc_modify f).
Proof. intros Hf w. apply Hf. Qed.

Ltac solve_kb :=
  repeat first
    [ apply kb_write_els
    | apply kb_bind; [| intros ?]
    | apply kb_get
    | apply kb_ret
    | apply kb_modify; intros ?; reflexivity ].

Lemma kb_on_enter (i : nat) (a : Cursor.enter_action) : keeps_body (Cursor.on_enter i a).
Proof.
  destruct a; unfold Cursor.on_enter, Cursor.setState, Cursor.setText; solve_kb;
    try (match goal with |- keeps_body (match ?x with _ => _ end) => destruct x end; solve_kb).
Qed.

Lemma call_body (m : Cursor.M unit) (w : Cursor.world) :
  keeps_body m -> Cursor.body (Cursor.call m w) = Cursor.body w.
Proof.
  intros Hm. unfold Cursor.call, report. specialize (Hm w). destruct (m w); exact Hm.
Qed.

Lemma calls_body {X} (f : X -> Cursor.M unit) (l : list X) (w : Cursor.world) :
  (forall x, keeps_body (f x)) -> Cursor.body (fold_left (fun w x => Cursor.call (f x) w) l w) = Cursor.body w.
Proof.
  intros Hf. revert w. induction l as [|x l IH]; intros w; [reflexivity |]. cbn. rewrite IH. apply call_body, Hf.
Qed.

(** Every cursor event leaves the body's classes as they are, except the
    entrance timer, which adds [cursor-ready]. *)
Lemma cursor_event_body (ev : Cursor.event) (c : Cursor.world) :
  Cursor.body (Cursor.run_event ev c) = Cursor.body c \/
  Cursor.body (Cursor.run_event ev c) = Dom.add (Cursor.body c) (js "cursor-ready").
Proof.
  destruct ev as [p| | | | |i|i| | |]; cbn [Cursor.run_event]; try (left; unfold Cursor.doc_event;
    match goal with |- context [if ?b then _ else _] => destruct b end; [apply call_body | reflexivity];
    unfold Cursor.on_mousemove, Cursor.on_doc_enter, Cursor.on_doc_leave, Cursor.onClick, Cursor.onRelease,
      Cursor.setState, Cursor.modify_cur; solve_kb; fail).
  - left. apply calls_body, kb_on_enter.
  - left. apply calls_body. intros _. unfold Cursor.setState. solve_kb.
  - left. destruct (Cursor.anim c); [| reflexivity]. rewrite call_body; [reflexivity |].
    unfold Cursor.animate, Cursor.modify_cur, Cursor.requestAnimationFrame. solve_kb.
  - destruct (Dom.earliest (Cursor.timers c)); [right | left]; reflexivity.
  - left. apply call_body. unfold Cursor.refresh, Cursor.bindHoverTargets. solve_kb.
Qed.

(** ** The navigation on the shared body *)

Lemma consistent_body (n : Nav.world) (b : Dom.class_list) :
  Dom.contains b Nav.menu_open = Dom.contains (Nav.body n) Nav.menu_open -> Nav.consistent n ->
  Nav.consistent (Nav.mk_world (Nav.toggle n) (Nav.menu n) b (Nav.bound n)).
Proof.
  intros Hb. unfold Nav.consistent. destruct n as [[t|] [m|] b0 bd]; cbn [Nav.toggle Nav.menu Nav.body] in *; auto.
  now rewrite Hb.
Qed.

(** What a navigation event does to the body: nothing, or [menu-open]
    added or removed. *)
Lemma nav_event_body (ev : Nav.event) (n : Nav.world) :
  Nav.body (Nav.run_event ev n) = Nav.body n \/
  Nav.body (Nav.run_event ev n) = Dom.add (Nav.body n) Nav.menu_open \/
  Nav.body (Nav.run_event ev n) = Dom.remove (Nav.body n) Nav.menu_open.
Proof.
  destruct n as [t m b bd]. unfold Nav.run_event. cbn [Nav.bound]. destruct bd; [| auto].
  assert (Ho : Nav.body (Nav.apply_menu Nav.openMenu (Nav.mk_world t m b true)) = b \/
               Nav.body (Nav.apply_menu Nav.openMenu (Nav.mk_world t m b true)) = Dom.add b Nav.menu_open)
    by (destruct t, m; cbn; auto).
  assert (Hc : Nav.body (Nav.apply_menu Nav.closeMenu (Nav.mk_world t m b true)) = b \/
               Nav.body (Nav.apply_menu Nav.closeMenu (Nav.mk_world t m b true)) = Dom.remove b Nav.menu_open)
    by (destruct t, m; cbn; auto).
  destruct ev as [| |k|x]; unfold Nav.on_toggle_click, Nav.on_link_click, Nav.on_keydown, Nav.on_resize;
    repeat match goal with |- context [if ?c then _ else _] => destruct c end; cbn [Nav.body]; tauto.
Qed.

Definition cursor_ready := js "cursor-ready".
Definition is_loaded := js "is-loaded".

(** The classes of the body the modules add: they stay once added. *)
Definition keeps_class (b b' : Dom.class_list) (x : jsstring) : Prop :=
  Dom.contains b x = true -> Dom.contains b' x = true.

Lemma add_keeps (b : Dom.class_list) (x y : jsstring) : keeps_class b (Dom.add b y) x.
Proof.
  intros H. destruct (list_eq_dec Z.eq_dec y x) as [<- | Hne]; [apply Dom.contains_add |].
  rewrite Dom.contains_add_other; assumption.
Qed.

Lemma remove_keeps (b : Dom.class_list) (x y : jsstring) : y <> x -> keeps_class b (Dom.remove b y) x.
Proof. intros Hne H. rewrite Dom.contains_remove_other; assumption. Qed.

Lemma cursor_ready_other : cursor_ready <> Nav.menu_open.
Proof. cbv. discriminate. Qed.

Lemma is_loaded_other : is_loaded <> Nav.menu_open.
Proof. cbv. discriminate. Qed.

Lemma menu_open_cursor_ready : Nav.menu_open <> cursor_ready.
Proof. cbv. discriminate. Qed.

Lemma menu_open_is_loaded : Nav.menu_open <> is_loaded.
Proof. cbv. discriminate. Qed.

(** What the page promises about its body: the navigation agrees with
    it, and the classes [cursor-ready] and [is-loaded] stay once there. *)
Definition step_ok (w w' : world) : Prop :=
  (Nav.consistent (nav_view w) -> Nav.consistent (nav_view w')) /\
  keeps_class (body w) (body w') cursor_ready /\ keeps_class (body w) (body w') is_loaded.

(** A step that leaves the navigation alone and at most adds a class
    other than [menu-open] to the body. *)
Lemma side_step_ok (w w' : world) :
  Nav.toggle (nav w') = Nav.toggle (nav w) -> Nav.menu (nav w') = Nav.menu (nav w) ->
  (body w' = body w \/ exists x, x <> Nav.menu_open /\ body w' = Dom.add (body w) x) -> step_ok w w'.
Proof.
  intros Ht Hm Hb. unfold step_ok, nav_view. rewrite Ht, Hm.
  destruct Hb as [-> | (x & Hx & ->)].
  - split; [| split; intros H; exact H].
    intros Hc. apply (consistent_body (Nav.mk_world _ _ (body w) (Nav.bound (nav w)))); [reflexivity |].
    destruct (nav w); exact Hc.
  - split; [| split; apply add_keeps].
    intros Hc. apply (consistent_body (Nav.mk_world _ _ (body w) (Nav.bound (nav w)))); [| exact Hc].
    cbn [Nav.body]. apply Dom.contains_add_other. exact Hx.
Qed.

Lemma nav_view_with_nav (w : world) (n : Nav.world) : nav_view (with_nav w n) = n.
Proof. destruct n; reflexivity. Qed.

Lemma cursor_step_ok (w : world) (e : Cursor.event) :
  step_ok w (with_cursor w (Cursor.run_event e (cursor_view w))).
Proof.
  apply side_step_ok; [reflexivity | reflexivity |]. cbn [with_cursor body].
  destruct (cursor_event_body e (cursor_view w)) as [-> | ->]; [left; reflexivity | right].
  exists cursor_ready. split; [exact cursor_ready_other | reflexivity].
Qed.

Lemma nav_step_ok (w : world) (e : Nav.event) : step_ok w (with_nav w (Nav.run_event e (nav_view w))).
Proof.
  unfold step_ok. rewrite nav_view_with_nav. split; [apply Nav.event_consistent |].
  cbn [with_nav body]. destruct (nav_event_body e (nav_view w)) as [-> | [-> | ->]]; cbn [nav_view Nav.body].
  - split; intros H; exact H.
  - split; apply add_keeps.
  - split; apply remove_keeps; [exact menu_open_cursor_ready | exact menu_open_is_loaded].
Qed.

Lemma init_step_ok (w : world) : step_ok w (init w).
Proof.
  unfold init. set (w1 := initPreloader w).
  assert (H1 : nav w1 = nav w /\ body w1 = body w) by (unfold w1, initPreloader; destruct (preloader w); auto).
  destruct H1 as [Hn1 Hb1].
  set (w2 := with_nav w1 (Nav.initMobileNav (nav_view w1))).
  assert (H2 : Nav.toggle (nav w2) = Nav.toggle (nav w) /\ Nav.menu (nav w2) = Nav.menu (nav w) /\ body w2 = body w).
  { unfold w2, with_nav, Nav.initMobileNav, nav_view. cbn [nav body]. rewrite Hn1, Hb1.
    destruct (Nav.toggle (nav w)), (Nav.menu (nav w)); auto. }
  destruct H2 as (Ht2 & Hm2 & Hb2).
  apply side_step_ok; [exact Ht2 | exact Hm2 |]. left. cbn [with_cursor body Cursor.run_event].
  rewrite call_body; [exact Hb2 |]. unfold Cursor.refresh, Cursor.bindHoverTargets. solve_kb.
Qed.

Lemma step_ok_refl (w : world) : step_ok w w.
Proof. repeat split; intros H; exact H. Qed.

Lemma step_ok_trans (w1 w2 w3 : world) : step_ok w1 w2 -> step_ok w2 w3 -> step_ok w1 w3.
Proof. unfold step_ok, keeps_class. intros (A1 & B1 & C1) (A2 & B2 & C2). repeat split; auto. Qed.

Lemma event_step_ok (ev : event) (w : world) : step_ok w (run_event ev w).
Proof.
  destruct ev as [e|e| | |]; cbn [run_event].
  - apply cursor_step_ok.
  - apply nav_step_ok.
  - destruct (init_pending w); [| apply step_ok_refl].
    eapply step_ok_trans; [| apply init_step_ok]. apply side_step_ok; auto.
  - destruct (load_bound w); [apply side_step_ok; auto | apply step_ok_refl].
  - destruct (preload_timer w); [| apply step_ok_refl]. unfold Nav.preloader_done.
    destruct (preloader w); apply side_step_ok; auto.
    right. exists is_loaded. split; [exact is_loaded_other | reflexivity].
Qed.

Lemma events_step_ok (evs : list event) (w : world) : step_ok w (run_events evs w).
Proof.
  revert w. induction evs as [|ev evs IH]; intros w; [apply step_ok_refl |].
  eapply step_ok_trans; [apply event_step_ok | apply IH].
Qed.

(** ** Properties *)

(** C4: the modules share [document.body.classList] without
    interfering: from any page whose navigation agrees with the body,
    whatever cursor, navigation, start-up and preloader events follow,
    the navigation still agrees with the shared body ([menu-open] exactly
    when the menu is open), and the [cursor-ready] and [is-loaded]
    classes, once added, are never removed. *)
Theorem shared_body_composes (w : world) (evs : list event) :
  Nav.consistent (nav_view w) ->
  Nav.consistent (nav_view (run_events evs w)) /\
  keeps_class (body w) (body (run_events evs w)) cursor_ready /\
  keeps_class (body w) (body (run_events evs w)) is_loaded.
Proof.
  intros Hc. destruct (events_step_ok evs w) as (A & B & C). auto.
Qed.

(** ** The theorem at a concrete input *)

(** The cursor's demo page on a desktop, the closed menu of [Nav.v], a
    preloader, the module run after parsing. *)
Definition demo_start : world :=
  start false (Cursor.init_world false Cursor.demo_page) Nav.demo_nav (Some []) [].

Definition demo_events : list event :=
  [ECursor Cursor.EvTimer; ENav Nav.EvToggleClick; ELoad; EPreloaderTimeout;
   ECursor (Cursor.EvEnter 0); ENav (Nav.EvKeydown (js "Escape"))].

Lemma shared_body_composes_witness :
  Nav.consistent (nav_view demo_start) /\
  Nav.consistent (nav_view (run_events demo_events demo_start)) /\
  keeps_class (body demo_start) (body (run_events demo_events demo_start)) cursor_ready /\
  keeps_class (body demo_start) (body (run_events demo_events demo_start)) is_loaded.
Proof.
  assert (H : Nav.consistent (nav_view demo_start)) by (vm_compute; repeat split).
  split; [exact H | exact (shared_body_composes demo_start demo_events H)].
Defined.

(** After those events the body carries [cursor-ready] and [is-loaded]
    and no longer [menu-open]. *)
Example demo_body :
  Dom.contains (body (run_events demo_events demo_start)) cursor_ready = true /\
  Dom.contains (body (run_events demo_events demo_start)) is_loaded = true /\
  Dom.contains (body (run_events demo_events demo_start)) Nav.menu_open = false.
Proof. vm_compute. repeat split. Qed.

End Main.
