(* ===== verification/ScrollFx.v ===== *)
(** * Scroll-driven effects (src/src/js/scroll-animations.js)

    [initScrollProgress]'s [updateProgress] (the [scaleX] of the progress
    bar), the [onUpdate] callback of [initNavScroll] (the [is-scrolled]
    class of the navigation bar), the text a counter of [initCounters]
    shows, the hero timeline of [initHeroAnimations] (where GSAP places
    each tween), the tween each [data-animate] value of
    [initScrollReveals] asks for, and [initParallax]'s tween.  The values
    the GSAP tweens and ScrollTrigger hand to the callbacks are inputs of
    the model; the interpolation is the library's. *)

From Stdlib Require Import String ZArith QArith Qround Qminmax Lqa List Lia.
From S2P Require Import Prelude Dom JsNum.
Import ListNotations JsNum.

Module ScrollFx.

(** ** Scroll progress bar *)

(** [window.pageYOffset || document.documentElement.scrollTop]. *)
Definition scroll_top (pageYOffset docScrollTop : Q) : Q :=
  if Qeq_bool pageYOffset 0 then docScrollTop else pageYOffset.

(** [updateProgress()]: the factor of [scaleX(...)]. *)
Definition updateProgress (pageYOffset docScrollTop docScrollHeight innerHeight : Q) : Q :=
  let scrollTop := scroll_top pageYOffset docScrollTop in
  let scrollHeight := docScrollHeight - innerHeight in
  if Qlt_le_dec 0 scrollHeight then scrollTop / scrollHeight else 0.

(** ** Navigation bar state *)

(** The [onUpdate] callback of [initNavScroll] for ScrollTrigger's
    [direction] and [scroll()]. *)
Definition nav_onUpdate (cls : Dom.class_list) (direction : Z) (scroll : Q) : Dom.class_list :=
  if (direction =? 1)%Z && (if Qlt_le_dec 80 scroll then true else false)
  then Dom.add cls (js "is-scrolled")
  else if Qlt_le_dec scroll 80 then Dom.remove cls (js "is-scrolled")
  else cls.

(** A run of updates. *)
Definition nav_updates (cls : Dom.class_list) (ups : list (Z * Q)) : Dom.class_list :=
  fold_left (fun c u => nav_onUpdate c (fst u) (snd u)) ups cls.

(** ** Counters *)

(** [String(x)] for the values [Math.round] returns. *)
Definition num_to_string (n : num) : jsstring :=
  match n with
  | Fin q => z_to_string (Qfloor q)
  | NaN => js "NaN"
  | Inf true => js "Infinity"
  | Inf false => js "-Infinity"
  end.

(** The counter's [onUpdate]: [Math.round(obj.value) + suffix], with the
    suffix [el.dataset.counterSuffix || '']. *)
Definition counter_text (value : num) (counterSuffix : option jsstring) : jsstring :=
  num_to_string (round value) ++ js_or_empty counterSuffix.

(** [parseInt(el.dataset.counter, 10)]: the value the tween runs to. *)
Definition counter_target (counter : option jsstring) : num := attr_number parseInt10 counter.

(** ** Parallax *)

(** [yPercent: -30 * (parseFloat(el.dataset.parallax) || 0.5)]. *)
Definition parallax_yPercent (parallax : option jsstring) : num :=
  mul (Fin (-30)) (or_default (attr_number parseFloat parallax) (Fin (1 # 2))).

(** ** Hero timeline

    [gsap.timeline()] places each [tl.to(...)] at the end of the
    timeline, shifted by its position parameter (['-=0.4'] is 0.4 s
    before the end); a tween over [k] targets with [stagger] lasts
    [duration + stagger * (k - 1)].  These are GSAP's placement rules; the
    interpolation itself is the library's. *)

(** A tween of the timeline: its selector, start and length. *)
Record placed := mk_placed { p_target : jsstring; p_start : Q; p_length : Q }.

Definition tl_end (tl : list placed) : Q :=
  fold_left (fun m p => Qmax m (p_start p + p_length p)) tl 0.

(** [tl.to(target, { duration, stagger }, '-=offset')] over [k] matches. *)
Definition tl_to (tl : list placed) (target : jsstring) (k : nat) (duration stagger offset : Q) : list placed :=
  tl ++ [mk_placed target (tl_end tl - offset) (duration + stagger * inject_Z (Z.of_nat k - 1))].

(** [initHeroAnimations()] on a page with or without [.hero] and with [k]
    title lines ([.hero__title-text]). *)
Definition initHeroAnimations (hero : bool) (k : nat) : option (list placed) :=
  if negb hero then None
  else
    let tl := tl_to [] (js ".hero__eyebrow") 1 (8 # 10) 0 0 in
    let tl := tl_to tl (js ".hero__title-text") k 1 (15 # 100) (4 # 10) in
    let tl := tl_to tl (js ".hero__subtitle") 1 (8 # 10) 0 (6 # 10) in
    let tl := tl_to tl (js ".hero__cta") 1 (8 # 10) 0 (5 # 10) in
    Some (tl_to tl (js ".hero__scroll") 1 (6 # 10) 0 (3 # 10)).

(** ** Scroll-triggered reveals *)

(** The tween [initScrollReveals] asks for on an element: the
    ScrollTrigger [start], the end values, [duration], [ease] and
    [stagger] (over the element's children for ['stagger']). *)
Record reveal := mk_reveal {
  r_start : jsstring;
  r_opacity : option Q;
  r_x : option Q;
  r_y : option Q;
  r_scale : option Q;
  r_clipPath : option jsstring;
  r_duration : Q;
  r_ease : jsstring;
  r_stagger : option Q;
  r_children : bool
}.

(** The branch of [initScrollReveals] an element's [data-animate] selects
    ([None]: no selector matches). *)
Definition reveal_of (animate : option jsstring) : option reveal :=
  match animate with
  | None => None
  | Some a =>
      if js_eqb a (js "fade-up") then
        Some (mk_reveal (js "top 85%") (Some 1) None (Some 0) None None (8 # 10) (js "power3.out") None false)
      else if js_eqb a (js "fade-in") then
        Some (mk_reveal (js "top 85%") (Some 1) None None None None 1 (js "power2.out") None false)
      else if js_eqb a (js "scale-up") then
        Some (mk_reveal (js "top 85%") (Some 1) None None (Some 1) None (8 # 10) (js "power3.out") None false)
      else if js_eqb a (js "slide-left") || js_eqb a (js "slide-right") then
        Some (mk_reveal (js "top 85%") (Some 1) (Some 0) None None None (8 # 10) (js "power3.out") None false)
      else if js_eqb a (js "reveal") then
        Some (mk_reveal (js "top 80%") None None None None (Some (js "inset(0 0 0 0)")) (12 # 10) (js "power4.inOut") None false)
      else if js_eqb a (js "stagger") then
        Some (mk_reveal (js "top 80%") (Some 1) None (Some 0) None None (6 # 10) (js "power3.out") (Some (1 # 10)) true)
      else None
  end.

(** [initParallax()]'s tween for one element: trigger on the parent when
    there is one, scrubbed from [top bottom] to [bottom top]. *)
Record parallax_tween := mk_parallax { px_trigger_parent : bool; px_yPercent : num }.

Definition initParallax_element (has_parent : bool) (parallax : option jsstring) : parallax_tween :=
  mk_parallax has_parent (parallax_yPercent parallax).

(** ** Lemmas *)

Lemma qfloor_half (n : Z) : Qfloor (inject_Z n + (1 # 2)) = n.
Proof.
  unfold Qfloor, inject_Z, Qplus. cbn [Qnum Qden]. rewrite Z.mul_1_r, Pos.mul_1_l.
  change (Z.pos 2) with 2%Z. rewrite Z.div_add_l by lia. change (1 / 2)%Z with 0%Z. apply Z.add_0_r.
Qed.

(** The integer [Math.round] picks for a value in [[0, n]] is in [[0, n]]. *)
Lemma round_between (v : Q) (n : Z) :
  0 <= v <= inject_Z n -> (0 <= Qfloor (v + (1 # 2)) <= n)%Z.
Proof.
  intros Hv. pose proof (Qfloor_le (v + (1 # 2))) as H1. pose proof (Qlt_floor (v + (1 # 2))) as H2.
  rewrite inject_Z_plus in H2. change (inject_Z 1) with 1 in H2. split.
  - assert (inject_Z (-1) < inject_Z (Qfloor (v + (1 # 2)))) by (change (inject_Z (-1)) with (-1); lra).
    rewrite <- Zlt_Qlt in H. lia.
  - assert (inject_Z (Qfloor (v + (1 # 2))) < inject_Z (n + 1)) by (rewrite inject_Z_plus; change (inject_Z 1) with 1; lra).
    rewrite <- Zlt_Qlt in H. lia.
Qed.

Lemma num_to_string_int (k : Z) : num_to_string (Fin (inject_Z k)) = z_to_string k.
Proof. unfold num_to_string. now rewrite Qfloor_Z. Qed.

Lemma nav_onUpdate_last (c : Dom.class_list) (ups : list (Z * Q)) (u : Z * Q) :
  nav_updates c (ups ++ [u]) = nav_onUpdate (nav_updates c ups) (fst u) (snd u).
Proof. unfold nav_updates. now rewrite fold_left_app. Qed.

Lemma tl_end_snoc (tl : list placed) (p : placed) :
  tl_end (tl ++ [p]) = Qmax (tl_end tl) (p_start p + p_length p).
Proof. unfold tl_end. now rewrite fold_left_app. Qed.

(** A tween placed [offset] before the end and lasting at least
    [offset] moves the end of the timeline to its own end. *)
Lemma tl_to_end (tl : list placed) (target : jsstring) (k : nat) (d s o : Q) :
  o <= d + s * inject_Z (Z.of_nat k - 1) ->
  tl_end (tl_to tl target k d s o) == tl_end tl - o + (d + s * inject_Z (Z.of_nat k - 1)).
Proof. intros H. unfold tl_to. rewrite tl_end_snoc. cbn [p_start p_length]. apply Q.max_r. lra. Qed.

(** With [k >= 1] title lines the hero timeline lasts
    [2.2 + 0.15 (k - 1)] seconds. *)
Lemma hero_timeline_length (k : nat) :
  (1 <= k)%nat ->
  exists tl, initHeroAnimations true k = Some tl /\
             tl_end tl == (22 # 10) + (15 # 100) * inject_Z (Z.of_nat k - 1).
Proof.
  intros Hk. eexists. split; [reflexivity |].
  assert (Hs : 0 <= (15 # 100) * inject_Z (Z.of_nat k - 1)).
  { apply Qmult_le_0_compat; [discriminate |]. change 0 with (inject_Z 0). rewrite <- Zle_Qle. lia. }
  rewrite !tl_to_end; try (rewrite ?tl_to_end; cbn [inject_Z Z.of_nat]; lra).
  change (tl_end []) with 0. cbn [Z.of_nat]. change (inject_Z (1 - 1)) with 0. lra.
Qed.

(** With three title lines the tweens start at 0, 0.4, 1.1, 1.4 and
    1.9 s: each starts before the previous one ends. *)
Example hero_starts_three_lines :
  option_map (map (fun p => Qred (p_start p))) (initHeroAnimations true 3) = Some [0; 2 # 5; 11 # 10; 7 # 5; 19 # 10] /\
  initHeroAnimations false 3 = None.
Proof. split; vm_compute; reflexivity. Qed.

(** ** Properties *)

(** The progress bar's [scaleX] factor is 0 on a page that does not
    scroll, and lies in [[0, 1]] while the scroll offset is within the
    scrollable range. *)
Theorem progress_bounds (pageYOffset docScrollTop docScrollHeight innerHeight : Q) :
  (docScrollHeight - innerHeight <= 0 ->
     updateProgress pageYOffset docScrollTop docScrollHeight innerHeight == 0) /\
  (0 < docScrollHeight - innerHeight ->
     0 <= scroll_top pageYOffset docScrollTop <= docScrollHeight - innerHeight ->
     0 <= updateProgress pageYOffset docScrollTop docScrollHeight innerHeight <= 1).
Proof.
  unfold updateProgress. split.
  - intros H. destruct (Qlt_le_dec 0 (docScrollHeight - innerHeight)); [lra | reflexivity].
  - intros H Ht. destruct (Qlt_le_dec 0 (docScrollHeight - innerHeight)); [| lra].
    split; [apply Qle_shift_div_l | apply Qle_shift_div_r]; lra.
Qed.

(** The navigation bar is marked [is-scrolled] only if the last
    update was at 80px or below the top; an update scrolling down past
    80px always marks it. *)
Theorem nav_scrolled_needs_80 (cls : Dom.class_list) (ups : list (Z * Q)) (dir : Z) (s : Q) :
  (Dom.contains (nav_updates cls (ups ++ [(dir, s)])) (js "is-scrolled") = true -> 80 <= s) /\
  (dir = 1%Z -> 80 < s -> Dom.contains (nav_updates cls (ups ++ [(dir, s)])) (js "is-scrolled") = true).
Proof.
  rewrite nav_onUpdate_last. cbn [fst snd]. unfold nav_onUpdate.
  split.
  - destruct ((dir =? 1)%Z && (if Qlt_le_dec 80 s then true else false)) eqn:E.
    + intros _. apply andb_prop in E as [_ E]. destruct (Qlt_le_dec 80 s); [lra | discriminate].
    + destruct (Qlt_le_dec s 80); [now rewrite Dom.contains_remove | intros _; exact q].
  - intros -> Hs. destruct (Qlt_le_dec 80 s); [| lra]. apply Dom.contains_add.
Qed.

(** A counter whose [data-counter] reads as the integer [n] shows,
    for every tween value in [[0, n]], an integer between 0 and [n]
    followed by its suffix, and at the end of the tween (the value is the
    target) exactly [n] and the suffix. *)
Theorem counter_display (counter suffix : option jsstring) (n : Z) (v : Q) :
  counter_target counter = Fin (inject_Z n) -> 0 <= v <= inject_Z n ->
  (exists k, counter_text (Fin v) suffix = z_to_string k ++ js_or_empty suffix /\ (0 <= k <= n)%Z) /\
  counter_text (counter_target counter) suffix = z_to_string n ++ js_or_empty suffix.
Proof.
  intros Ht Hv. rewrite Ht. unfold counter_text, round. split.
  - exists (Qfloor (v + (1 # 2))). rewrite num_to_string_int. split; [reflexivity |]. now apply round_between.
  - now rewrite qfloor_half, num_to_string_int.
Qed.

(** ** The theorems at concrete inputs *)

Lemma progress_bounds_witness :
  (0 < 2000 - 800 /\ 0 <= scroll_top 300 0 <= 2000 - 800) /\
  (2000 - 800 <= 0 -> updateProgress 300 0 2000 800 == 0) /\
  (0 < 2000 - 800 -> 0 <= scroll_top 300 0 <= 2000 - 800 -> 0 <= updateProgress 300 0 2000 800 <= 1).
Proof.
  assert (H1 : 0 < 2000 - 800) by (vm_compute; reflexivity).
  assert (H2 : 0 <= scroll_top 300 0 <= 2000 - 800) by (split; vm_compute; discriminate).
  split; [exact (conj H1 H2) | exact (progress_bounds 300 0 2000 800)].
Defined.

Lemma nav_scrolled_needs_80_witness :
  (Dom.contains (nav_updates [] ([(1%Z, 120)] ++ [((-1)%Z, 85)])) (js "is-scrolled") = true -> 80 <= 85) /\
  ((-1)%Z = 1%Z -> 80 < 85 -> Dom.contains (nav_updates [] ([(1%Z, 120)] ++ [((-1)%Z, 85)])) (js "is-scrolled") = true).
Proof. exact (nav_scrolled_needs_80 [] [(1%Z, 120)] (-1)%Z 85). Defined.

Lemma counter_display_witness :
  (counter_target (Some (js "1200")) = Fin (inject_Z 1200) /\ 0 <= 5997 # 10 <= inject_Z 1200) /\
  (exists k, counter_text (Fin (5997 # 10)) (Some (js "+")) = z_to_string k ++ js_or_empty (Some (js "+")) /\
             (0 <= k <= 1200)%Z) /\
  counter_text (counter_target (Some (js "1200"))) (Some (js "+")) = z_to_string 1200 ++ js_or_empty (Some (js "+")).
Proof.
  assert (H1 : counter_target (Some (js "1200")) = Fin (inject_Z 1200)) by (vm_compute; reflexivity).
  assert (H2 : 0 <= 5997 # 10 <= inject_Z 1200) by (split; vm_compute; discriminate).
  split; [exact (conj H1 H2) | exact (counter_display _ _ 1200 _ H1 H2)].
Defined.

End ScrollFx.
