(* ===== verification/ScrollDoc.v ===== *)
(** * The design document's scroll animations (section 3.2,
      src/unnamed/part_000)

    The document's [scroll-animations.js] registers one GSAP tween per
    matching element: fade-up, staggered children, line reveals, parallax,
    counters, a pinned horizontal section, SVG path drawing, clip-path
    reveals and the progress indicator.  Each [init*] function is a
    function from the page to the list of tweens it registers, in document
    order, and [initScrollAnimations] is their concatenation in the order
    of its calls.  What GSAP and ScrollTrigger then do with a tween (the
    interpolation) is the library's; the values the code computes for the
    tweens (the parallax speed, the counter target, the horizontal
    [xPercent] and [snap], the [end] string) are JavaScript numbers
    ([JsNum.v]). *)

From Stdlib Require Import String ZArith QArith Lqa List Lia.
From S2P Require Import Prelude JsNum ScrollFx.
Import ListNotations JsNum.

Module ScrollDoc.

(** ** The page *)

(** An element as the selectors of the section see it: its
    [data-animate], [data-parallax], [data-counter] and
    [data-counter-suffix] attributes, whether it is the
    [[data-horizontal-scroll]] container or the [.scroll-progress] bar,
    its [parentElement], [children], [.line] and [.panel] descendants,
    its [path]s with their [getTotalLength()], and its [offsetWidth].
    Other nodes are referred to by their position in document order. *)
Record el := mk_el {
  animate : option jsstring;
  parallax : option jsstring;
  counter : option jsstring;
  counterSuffix : option jsstring;
  horizontal : bool;
  progress : bool;
  parent : option nat;
  children : list nat;
  lines : list nat;
  panels : list nat;
  paths : list (nat * Q);
  offsetWidth : Z
}.

Definition page := list el.

(** [gsap.utils.toArray(selector)] / [querySelectorAll]: the matching
    elements with their positions, in document order. *)
Definition query (p : el -> bool) (pg : page) : list (nat * el) :=
  filter (fun ie => p (snd ie)) (combine (seq 0 (length pg)) pg).

(** [querySelector]: the first match. *)
Definition query_first (p : el -> bool) (pg : page) : option (nat * el) := hd_error (query p pg).

Definition animate_is (a : string) (e : el) : bool :=
  match animate e with Some v => js_eqb v (js a) | None => false end.

Definition has_attr (v : option jsstring) : bool := match v with Some _ => true | None => false end.

(** ** Tweens *)

Inductive method := From | To | SetNow.

(** A [trigger]: an element, [document.body], or [null]. *)
Inductive node := Node (i : nat) | Body | Null.

Inductive value := VNum (n : num) | VStr (s : jsstring) | VBool (b : bool).

(** The [scrollTrigger] object. *)
Record scroll_trigger := mk_st {
  st_trigger : node;
  st_start : option jsstring;
  st_end : option jsstring;
  st_toggleActions : option jsstring;
  st_scrub : option value;
  st_pin : bool;
  st_snap : option num
}.

(** A call [gsap.from], [gsap.to] or [gsap.set]: its targets, the
    animated properties, [duration], [stagger], [ease], the
    [scrollTrigger], and for a counter the suffix its [onUpdate] writes
    after [Math.round(innerText)]. *)
Record tween := mk_tween {
  tw_method : method;
  tw_targets : list nat;
  tw_vars : list (jsstring * value);
  tw_duration : option Q;
  tw_stagger : option Q;
  tw_ease : option jsstring;
  tw_trigger : option scroll_trigger;
  tw_onUpdate : option jsstring
}.

Definition trig (t : node) (start : string) : option scroll_trigger :=
  Some (mk_st t (Some (js start)) None None None false None).

Definition var (k : string) (n : num) : jsstring * value := (js k, VNum n).

(** ** The [init*] functions *)

Definition fade_up_tween (i : nat) : tween :=
  mk_tween From [i] [var "y" (Fin 60); var "opacity" (Fin 0)] (Some 1) None (Some (js "power3.out"))
    (Some (mk_st (Node i) (Some (js "top 85%")) None (Some (js "play none none reverse")) None false None)) None.

Definition initFadeUp (pg : page) : list tween :=
  map (fun ie => fade_up_tween (fst ie)) (query (animate_is "fade-up") pg).

Definition stagger_tween (i : nat) (e : el) : tween :=
  mk_tween From (children e) [var "y" (Fin 40); var "opacity" (Fin 0)] (Some (8 # 10)) (Some (1 # 10))
    (Some (js "power2.out")) (trig (Node i) "top 80%") None.

Definition initStagger (pg : page) : list tween :=
  map (fun ie => stagger_tween (fst ie) (snd ie)) (query (animate_is "stagger") pg).

Definition text_reveal_tween (i : nat) (e : el) : tween :=
  mk_tween From (lines e) [var "yPercent" (Fin 100); var "opacity" (Fin 0)] (Some 1) (Some (15 # 100))
    (Some (js "power4.out")) (trig (Node i) "top 80%") None.

Definition initTextReveal (pg : page) : list tween :=
  map (fun ie => text_reveal_tween (fst ie) (snd ie)) (query (animate_is "text-reveal") pg).

(** [parseFloat(el.dataset.parallax) || 0.5]. *)
Definition parallax_speed (e : el) : num := or_default (attr_number parseFloat (parallax e)) (Fin (1 # 2)).

(** [trigger: el.parentElement]: [null] for an element without a parent. *)
Definition parent_node (e : el) : node := match parent e with Some p => Node p | None => Null end.

Definition parallax_tween (i : nat) (e : el) : tween :=
  mk_tween To [i] [var "yPercent" (mul (Fin (-30)) (parallax_speed e))] None None (Some (js "none"))
    (Some (mk_st (parent_node e) (Some (js "top bottom")) (Some (js "bottom top")) None (Some (VBool true)) false None))
    None.

Definition initParallax (pg : page) : list tween :=
  map (fun ie => parallax_tween (fst ie) (snd ie)) (query (fun e => has_attr (parallax e)) pg).

(** [parseInt(el.dataset.counter)], with no radix. *)
Definition counter_target (e : el) : num := attr_number parseInt (counter e).

Definition counter_tween (i : nat) (e : el) : tween :=
  mk_tween To [i] [var "innerText" (counter_target e); var "snap.innerText" (Fin 1)] (Some 2) None
    (Some (js "power2.out")) (trig (Node i) "top 80%") (Some (js_or_empty (counterSuffix e))).

Definition initCounters (pg : page) : list tween :=
  map (fun ie => counter_tween (fst ie) (snd ie)) (query (fun e => has_attr (counter e)) pg).

(** The counter's [onUpdate]: [Math.round(innerText) + suffix]. *)
Definition counter_text (innerText : num) (suffix : jsstring) : jsstring :=
  ScrollFx.num_to_string (round innerText) ++ suffix.

(** [sections.length - 1]. *)
Definition last_index (n : nat) : num := Fin (inject_Z (Z.of_nat n - 1)).

Definition horizontal_tween (i : nat) (e : el) : tween :=
  mk_tween To (panels e) [var "xPercent" (mul (Fin (-100)) (last_index (length (panels e))))] None None
    (Some (js "none"))
    (Some (mk_st (Node i) None (Some (js "+=" ++ z_to_string (offsetWidth e))) None (Some (VNum (Fin 1))) true
                 (Some (div (Fin 1) (last_index (length (panels e))))))) None.

Definition initHorizontalScroll (pg : page) : list tween :=
  match query_first horizontal pg with
  | None => []
  | Some (i, e) => [horizontal_tween i e]
  end.

(** [gsap.set] then [gsap.to] for one path of the SVG [i]. *)
Definition draw_tweens (i : nat) (p : nat * Q) : list tween :=
  [mk_tween SetNow [fst p] [var "strokeDasharray" (Fin (snd p)); var "strokeDashoffset" (Fin (snd p))]
            None None None None None;
   mk_tween To [fst p] [var "strokeDashoffset" (Fin 0)] (Some 2) None (Some (js "power2.inOut"))
            (trig (Node i) "top 70%") None].

Definition initSVGDraw (pg : page) : list tween :=
  flat_map (fun ie => flat_map (draw_tweens (fst ie)) (paths (snd ie))) (query (animate_is "draw") pg).

Definition image_reveal_tween (i : nat) : tween :=
  mk_tween From [i] [(js "clipPath", VStr (js "inset(100% 0% 0% 0%)"))] (Some (12 # 10)) None
    (Some (js "power4.inOut")) (trig (Node i) "top 75%") None.

Definition initImageReveal (pg : page) : list tween :=
  map (fun ie => image_reveal_tween (fst ie)) (query (animate_is "reveal") pg).

Definition progress_tween (i : nat) : tween :=
  mk_tween To [i] [var "scaleX" (Fin 1)] None None (Some (js "none"))
    (Some (mk_st Body (Some (js "top top")) (Some (js "bottom bottom")) None (Some (VNum (Fin (3 # 10)))) false None))
    None.

Definition initScrollProgress (pg : page) : list tween :=
  match query_first progress pg with
  | None => []
  | Some (i, _) => [progress_tween i]
  end.

(** [initScrollAnimations()]: the nine functions in the order it calls
    them. *)
Definition initScrollAnimations (pg : page) : list tween :=
  initFadeUp pg ++ initStagger pg ++ initTextReveal pg ++ initParallax pg ++ initCounters pg ++
  initHorizontalScroll pg ++ initSVGDraw pg ++ initImageReveal pg ++ initScrollProgress pg.

(** The [snap] of a tween's ScrollTrigger and the value of one of its
    animated properties. *)
Definition snap_of (t : tween) : option num :=
  match tw_trigger t with Some st => st_snap st | None => None end.

Definition var_of (k : string) (t : tween) : option value :=
  option_map snd (find (fun kv => js_eqb (fst kv) (js k)) (tw_vars t)).

Definition demo_container : el := mk_el None None None None true false None [] [] [3; 4; 5]%nat [] 2400.

Definition demo_counter (v : string) : el := mk_el None None (Some (js v)) (Some (js "+")) false false None [] [] [] [] 0.

(** The usage markup of section 3.3 in document order: a fade-up
    heading (0), a staggered grid (1) of three cards (2-4), an image
    container (5) with a parallax image (6), a counter (7), a
    text-reveal heading (8) with two lines (9, 10), and an image wrapper
    to reveal (11) with its image (12). *)
Definition usage_page : page :=
  let a s := Some (js s) in [
  mk_el (a "fade-up") None None None false false None [] [] [] [] 0;
  mk_el (a "stagger") None None None false false None [2; 3; 4]%nat [] [] [] 0;
  mk_el None None None None false false (Some 1%nat) [] [] [] [] 0;
  mk_el None None None None false false (Some 1%nat) [] [] [] [] 0;
  mk_el None None None None false false (Some 1%nat) [] [] [] [] 0;
  mk_el None None None None false false None [6%nat] [] [] [] 0;
  mk_el None (a "0.3") None None false false (Some 5%nat) [] [] [] [] 0;
  mk_el None None (a "98") (a "%") false false None [] [] [] [] 0;
  mk_el (a "text-reveal") None None None false false None [9; 10]%nat [9; 10]%nat [] [] 0;
  mk_el None None None None false false (Some 8%nat) [] [] [] [] 0;
  mk_el None None None None false false (Some 8%nat) [] [] [] [] 0;
  mk_el (a "reveal") None None None false false None [12%nat] [] [] [] 0;
  mk_el None None None None false false (Some 11%nat) [] [] [] [] 0]%string.

(** ** Lemmas *)

Lemma length_flat_map_const {A B} (f : A -> list B) (k : nat) (l : list A) :
  (forall a, length (f a) = k) -> length (flat_map f l) = (k * length l)%nat.
Proof. intros Hf. induction l as [|a l IH]; cbn; [lia |]. rewrite length_app, Hf, IH. lia. Qed.

Lemma query_first_length (p : el -> bool) (pg : page) :
  length (match query_first p pg with None => [] | Some _ => [tt] end) = Nat.min 1 (length (query p pg)).
Proof. unfold query_first. destruct (query p pg); reflexivity. Qed.

(** The document's parallax asks for the implementation's [yPercent];
    its trigger is the parent, or [null] where the implementation falls
    back to the element itself. *)
Lemma parallax_vs_implementation (i : nat) (e : el) :
  var_of "yPercent" (parallax_tween i e) = Some (VNum (ScrollFx.parallax_yPercent (parallax e))) /\
  option_map st_trigger (tw_trigger (parallax_tween i e)) =
    Some (match parent e with Some p => Node p | None => Null end).
Proof. split; reflexivity. Qed.

(** ** Properties *)

(** C13: the snap step of the horizontal section: with [n >= 2] panels it
    is [1 / (n - 1)], a step in [(0, 1]] that lands on each panel; with a
    single panel [1 / 0] makes it [Infinity]; with none the tween moves
    the panels by [+100%] and snaps by [-1]. *)
Theorem horizontal_snap (i : nat) (e : el) :
  ((2 <= length (panels e))%nat ->
     exists s, snap_of (horizontal_tween i e) = Some (Fin s) /\ 0 < s <= 1 /\
               s * inject_Z (Z.of_nat (length (panels e)) - 1) == 1) /\
  (length (panels e) = 1%nat -> snap_of (horizontal_tween i e) = Some (Inf true)) /\
  (length (panels e) = 0%nat ->
     snap_of (horizontal_tween i e) = Some (Fin (-1)) /\ var_of "xPercent" (horizontal_tween i e) = Some (VNum (Fin 100))).
Proof.
  unfold snap_of, horizontal_tween, last_index. cbn [tw_trigger st_snap]. split; [| split].
  - intros Hn. set (q := inject_Z (Z.of_nat (length (panels e)) - 1)).
    assert (Hq : 1 <= q) by (unfold q; change 1 with (inject_Z 1); rewrite <- Zle_Qle; lia).
    exists (1 / q). rewrite div_fin by lra. split; [reflexivity |]. split; [split |].
    + apply Qlt_shift_div_l; lra.
    + apply Qle_shift_div_r; lra.
    + field. lra.
  - intros ->. reflexivity.
  - intros Hn. unfold var_of. cbn [tw_vars]. rewrite Hn. split; reflexivity.
Qed.

(** C17: the document's counter reads [data-counter] with [parseInt] and
    no radix: on every value without a [0x] prefix it runs to the target
    of the implementation's [parseInt(..., 10)], but ["0x10"] runs to 16
    where the implementation's runs to 0. *)
Theorem counter_target_vs_implementation (e : el) :
  (hex_prefixed (snd (parse_sign (strip_ws (js_interp (counter e))))) = None ->
     counter_target e = ScrollFx.counter_target (counter e)) /\
  (counter e = Some (js "0x10") ->
     counter_target e = Fin 16 /\ ScrollFx.counter_target (counter e) = Fin 0).
Proof.
  unfold counter_target, ScrollFx.counter_target, attr_number. split.
  - apply parseInt_decimal.
  - intros ->. split; reflexivity.
Qed.

(** [initScrollAnimations] registers one tween per fade-up,
    stagger, text-reveal, parallax, counter and clip-reveal element, one
    for the first horizontal container and for the first progress bar if
    there is one, and two ([gsap.set] then [gsap.to]) per path of each
    SVG to draw. *)
Theorem scroll_tween_count (pg : page) :
  length (initScrollAnimations pg) =
    (length (query (animate_is "fade-up") pg) + length (query (animate_is "stagger") pg) +
     length (query (animate_is "text-reveal") pg) + length (query (fun e => has_attr (parallax e)) pg) +
     length (query (fun e => has_attr (counter e)) pg) + Nat.min 1 (length (query horizontal pg)) +
     2 * list_sum (map (fun ie => length (paths (snd ie))) (query (animate_is "draw") pg)) +
     length (query (animate_is "reveal") pg) + Nat.min 1 (length (query progress pg)))%nat.
Proof.
  unfold initScrollAnimations, initFadeUp, initStagger, initTextReveal, initParallax, initCounters,
    initImageReveal, initSVGDraw.
  rewrite !length_app, !length_map, <- (query_first_length horizontal), <- (query_first_length progress).
  unfold initHorizontalScroll, initScrollProgress.
  replace (length (flat_map _ (query (animate_is "draw") pg))) with
    (2 * list_sum (map (fun ie => length (paths (snd ie))) (query (animate_is "draw") pg)))%nat.
  - destruct (query_first horizontal pg) as [[]|], (query_first progress pg) as [[]|]; cbn [length]; lia.
  - induction (query (animate_is "draw") pg) as [|ie l IH]; [reflexivity |].
    cbn [flat_map map]. rewrite length_app, <- IH, (length_flat_map_const _ 2); [change (list_sum (?a :: ?r)) with (a + list_sum r)%nat; lia |]. reflexivity.
Qed.

(** ** The theorems at concrete inputs *)

Lemma horizontal_snap_witness :
  (2 <= length (panels demo_container))%nat /\
  exists s, snap_of (horizontal_tween 2 demo_container) = Some (Fin s) /\ 0 < s <= 1 /\
            s * inject_Z (Z.of_nat (length (panels demo_container)) - 1) == 1.
Proof.
  assert (H : (2 <= length (panels demo_container))%nat) by (cbn; lia).
  split; [exact H | exact (proj1 (horizontal_snap 2 demo_container) H)].
Defined.

Lemma counter_target_vs_implementation_witness :
  (counter_target (demo_counter "1200") = ScrollFx.counter_target (counter (demo_counter "1200"))) /\
  (counter_target (demo_counter "0x10") = Fin 16 /\ ScrollFx.counter_target (counter (demo_counter "0x10")) = Fin 0).
Proof.
  assert (H1 : hex_prefixed (snd (parse_sign (strip_ws (js_interp (counter (demo_counter "1200")))))) = None)
    by reflexivity.
  assert (H2 : counter (demo_counter "0x10") = Some (js "0x10")) by reflexivity.
  split; [exact (proj1 (counter_target_vs_implementation _) H1) |
          exact (proj2 (counter_target_vs_implementation _) H2)].
Defined.

(** The usage markup of section 3.3 gets six tweens, in the order of
    [initScrollAnimations]: the heading, the three cards, the two lines,
    the parallax image moved by [yPercent] -30 * 0.3, the counter
    running to 98, and the image wrapper. *)
Example usage_page_tweens :
  map (fun t => (tw_method t, tw_targets t)) (initScrollAnimations usage_page) =
    [(From, [0%nat]); (From, [2; 3; 4]%nat); (From, [9; 10]%nat); (To, [6%nat]); (To, [7%nat]); (From, [11%nat])] /\
  map (var_of "yPercent") (initParallax usage_page) = [Some (VNum (Fin (-9.0)))] /\
  map (var_of "innerText") (initCounters usage_page) = [Some (VNum (Fin 98))].
Proof. vm_compute. repeat split. Qed.

End ScrollDoc.
