(* ===== verification/Transitions.v ===== *)
(** * Page transitions of the design document (section 5.2,
      src/unnamed/part_000)

    [transitions.js] gives Barba three transitions: a wipe and a clip on
    the fixed [.page-transition-overlay], and a slide of the two
    containers.  Each [leave] and [enter] hook returns the GSAP tween
    Barba waits for; the view of the next namespace and the global
    [after] hook then re-run page scripts.  The model keeps the styles the
    hooks write (the overlay's [scaleY], [transform-origin], the
    [--clip-*] variables and [opacity], the containers' [x]), starting
    from the overlay's CSS of section 5.3 ([scaleY(0)], [--clip-radius: 0]).
    A tween in flight is a sequence of ticks, each writing an arbitrary
    value (the library's interpolation) to the property it animates; its
    completion writes the end value and runs [onComplete].  Hooks run in
    the exception monad of the prelude: [overlay.style] on a [null]
    overlay and [trigger.getBoundingClientRect] on a string trigger throw
    a [TypeError], a name that [transitions.js] neither declares nor
    imports throws a [ReferenceError].  Which transition Barba picks among
    those whose rules match is the library's choice and an input of a
    navigation; Barba's recovery from an exception is not modelled (the
    navigation stops). *)

From Stdlib Require Import String ZArith QArith Lqa List Lia.
From S2P Require Import Prelude Dom JsNum Tilt ScrollDoc.
Import ListNotations.

Module Transitions.

(** ** Data *)

(** A CSS length as the overlay's variables hold it. *)
Inductive css_length := Pct (q : Q) | Px (q : Q).

(** The styles the transitions write on an element: [scaleY],
    [transform-origin], [--clip-x], [--clip-y], [--clip-radius] (in
    [vmax]), [opacity] and [x] (in percent). *)
Record style := mk_style {
  scaleY : Q;
  origin : jsstring;
  clip_x : css_length;
  clip_y : css_length;
  clip_radius : Q;
  opacity : Q;
  x_pct : Q
}.

(** The overlay's CSS: [transform: scaleY(0)], [--clip-x: 50%],
    [--clip-y: 50%], [--clip-radius: 0]. *)
Definition overlay_css : style := mk_style 0 (js "50% 50%") (Pct 50) (Pct 50) 0 1 0.

Definition container_css : style := mk_style 1 (js "50% 50%") (Pct 50) (Pct 50) 0 1 0.

Inductive prop := ScaleY | ClipRadius | Opacity | X.

Definition write_prop (p : prop) (v : Q) (s : style) : style :=
  match p with
  | ScaleY => mk_style v (origin s) (clip_x s) (clip_y s) (clip_radius s) (opacity s) (x_pct s)
  | ClipRadius => mk_style (scaleY s) (origin s) (clip_x s) (clip_y s) v (opacity s) (x_pct s)
  | Opacity => mk_style (scaleY s) (origin s) (clip_x s) (clip_y s) (clip_radius s) v (x_pct s)
  | X => mk_style (scaleY s) (origin s) (clip_x s) (clip_y s) (clip_radius s) (opacity s) v
  end.

Definition write_origin (o : jsstring) (s : style) : style :=
  mk_style (scaleY s) o (clip_x s) (clip_y s) (clip_radius s) (opacity s) (x_pct s).

Definition write_clip (cx cy : css_length) (s : style) : style :=
  mk_style (scaleY s) (origin s) cx cy (clip_radius s) (opacity s) (x_pct s).

Inductive target := Overlay | Current | Next.

(** A [gsap.to] a hook returns: target, animated property and end value,
    [duration], [ease], [delay], the [transformOrigin] it sets, and the
    values its [onComplete] sets. *)
Record tween := mk_tween {
  tw_target : target;
  tw_prop : prop;
  tw_end : Q;
  tw_duration : Q;
  tw_ease : jsstring;
  tw_delay : Q;
  tw_origin : option jsstring;
  tw_onComplete : list (prop * Q)
}.

(** [data.trigger]: the clicked element (its bounding box and classes) or
    a string (['barba'], ['back'], ['forward']). *)
Inductive trigger := TElement (r : Tilt.rect) (classes : Dom.class_list) | TString (s : jsstring).

(** Barba's [data]: the trigger, the namespaces, and the document as it
    is once the next container has replaced the current one (what the
    scroll animations' selectors then see). *)
Record data := mk_data { trig : trigger; from_ns : jsstring; to_ns : jsstring; next_doc : ScrollDoc.page }.

Inductive transition := Wipe | Clip | Slide.

Inductive stage := Idle | Leaving (t : transition) (d : data) (tw : tween) | Entering (t : transition) (d : data) (tw : tween).

Inductive error := TypeError | ReferenceError (name : jsstring).

(** The page: the overlay ([None] when [querySelector] found none), the
    two containers, the window size, the names bound in the scope of
    [transitions.js], the calls of the page scripts, the tweens the
    scroll animations registered, the stage of Barba's lifecycle, and the
    exceptions. *)
Record world := mk_world {
  overlay : option style;
  current : style;
  next : style;
  innerWidth : Q;
  innerHeight : Q;
  scope : list jsstring;
  hero_inits : nat;
  project_inits : nat;
  refreshes : nat;
  scroll_tweens : list ScrollDoc.tween;
  stg : stage;
  errors : list error
}.

Definition M (A : Type) := Exc world error A.

Definition set_target (t : target) (f : style -> style) (w : world) : world :=
  match t with
  | Overlay => mk_world (option_map f (overlay w)) (current w) (next w) (innerWidth w) (innerHeight w) (scope w)
                        (hero_inits w) (project_inits w) (refreshes w) (scroll_tweens w) (stg w) (errors w)
  | Current => mk_world (overlay w) (f (current w)) (next w) (innerWidth w) (innerHeight w) (scope w)
                        (hero_inits w) (project_inits w) (refreshes w) (scroll_tweens w) (stg w) (errors w)
  | Next => mk_world (overlay w) (current w) (f (next w)) (innerWidth w) (innerHeight w) (scope w)
                     (hero_inits w) (project_inits w) (refreshes w) (scroll_tweens w) (stg w) (errors w)
  end.

Definition set_stage (s : stage) (w : world) : world :=
  mk_world (overlay w) (current w) (next w) (innerWidth w) (innerHeight w) (scope w)
           (hero_inits w) (project_inits w) (refreshes w) (scroll_tweens w) s (errors w).

Definition add_error (w : world) (e : error) : world :=
  mk_world (overlay w) (current w) (next w) (innerWidth w) (innerHeight w) (scope w)
           (hero_inits w) (project_inits w) (refreshes w) (scroll_tweens w) (stg w) (errors w ++ [e]).

Definition set_scripts (h p r : nat) (ts : list ScrollDoc.tween) (w : world) : world :=
  mk_world (overlay w) (current w) (next w) (innerWidth w) (innerHeight w) (scope w) h p r ts (stg w) (errors w).

(** ** The hooks *)

Definition wipe_out : tween := mk_tween Overlay ScaleY 1 (6 # 10) (js "power4.inOut") 0 (Some (js "bottom")) [].
Definition wipe_in : tween := mk_tween Overlay ScaleY 0 (6 # 10) (js "power4.inOut") (1 # 10) None [].
Definition clip_out : tween := mk_tween Overlay ClipRadius 150 (8 # 10) (js "power3.inOut") 0 None [].
Definition clip_in : tween :=
  mk_tween Overlay Opacity 0 (4 # 10) (js "power2.out") 0 None [(ClipRadius, 0); (Opacity, 1)].
Definition slide_out : tween := mk_tween Current X (-100) (6 # 10) (js "power3.inOut") 0 None [].
Definition slide_in : tween := mk_tween Next X 0 (6 # 10) (js "power3.inOut") 0 None [].

(** [wipeTransition.leave]. *)
Definition wipe_leave : M tween := exc_ret wipe_out.

(** [wipeTransition.enter]: [gsap.set(overlay, { transformOrigin: 'top' })]
    (nothing on a [null] overlay), then the tween. *)
Definition wipe_enter : M tween :=
  exc_modify (set_target Overlay (write_origin (js "top"))) ;;; exc_ret wipe_in.

(** The clip origin of [clipTransition.leave]: the window's center, or the
    center of the trigger's bounding box when [trigger && trigger !==
    'barba'] (a string other than ['barba'] has no
    [getBoundingClientRect]). *)
Definition clip_origin (d : data) : M (Q * Q) :=
  let* w := exc_get in
  match trig d with
  | TString s =>
      if (js_eqb s [] || js_eqb s (js "barba"))%bool then exc_ret (innerWidth w / 2, innerHeight w / 2)
      else exc_throw TypeError
  | TElement r _ => exc_ret (Tilt.left r + Tilt.width r / 2, Tilt.top r + Tilt.height r / 2)
  end.

(** [overlay.style.setProperty(...)]. *)
Definition set_property (f : style -> style) : M unit :=
  let* w := exc_get in
  match overlay w with
  | Some _ => exc_put (set_target Overlay f w)
  | None => exc_throw TypeError
  end.

(** [clipTransition.leave]. *)
Definition clip_leave (d : data) : M tween :=
  let* c := clip_origin d in
  set_property (fun s => write_clip (Px (fst c)) (clip_y s) s) ;;;
  set_property (fun s => write_clip (clip_x s) (Px (snd c)) s) ;;;
  exc_ret clip_out.

(** [clipTransition.enter]. *)
Definition clip_enter : M tween := exc_ret clip_in.

(** [slideTransition.leave] and [.enter]. *)
Definition slide_leave : M tween := exc_ret slide_out.
Definition slide_enter : M tween := exc_modify (set_target Next (write_prop X 100)) ;;; exc_ret slide_in.

Definition leave (t : transition) (d : data) : M tween :=
  match t with Wipe => wipe_leave | Clip => clip_leave d | Slide => slide_leave end.

Definition enter (t : transition) : M tween :=
  match t with Wipe => wipe_enter | Clip => clip_enter | Slide => slide_enter end.

(** ** [barba.init] *)

Definition in_ns (ns : jsstring) (l : list string) : bool := existsb (fun n => js_eqb ns (js n)) l.

(** The rules of the three entries: none for the default, the
    namespaces for ['project'], [trigger.classList?.contains('nav-link')]
    for ['navigation'] (a string trigger has no [classList]). *)
Definition rule (t : transition) (d : data) : bool :=
  match t with
  | Wipe => true
  | Clip => in_ns (from_ns d) ["home"; "work"]%string && in_ns (to_ns d) ["project"]%string
  | Slide => match trig d with TElement _ cls => Dom.contains cls (js "nav-link") | TString _ => false end
  end.

(** [{ name: 'default', ...wipeTransition }]: a key of the spread object
    overrides the literal one before it. *)
Definition spread_name (literal : jsstring) (spread : option jsstring) : jsstring :=
  match spread with Some n => n | None => literal end.

Definition entry_name (t : transition) : jsstring :=
  match t with
  | Wipe => spread_name (js "default") (Some (js "wipe"))
  | Clip => spread_name (js "project") (Some (js "clip"))
  | Slide => spread_name (js "navigation") (Some (js "slide"))
  end.

(** A call of a name of the module's scope. *)
Definition call_global (n : string) (f : world -> world) : M unit :=
  let* w := exc_get in
  if existsb (js_eqb (js n)) (scope w) then exc_put (f w) else exc_throw (ReferenceError (js n)).

(** The [afterEnter] of the next namespace's view. *)
Definition after_enter (d : data) : M unit :=
  if js_eqb (to_ns d) (js "home") then
    call_global "initHeroAnimations"
      (fun w => set_scripts (S (hero_inits w)) (project_inits w) (refreshes w) (scroll_tweens w) w)
  else if js_eqb (to_ns d) (js "project") then
    call_global "initProjectAnimations"
      (fun w => set_scripts (hero_inits w) (S (project_inits w)) (refreshes w) (scroll_tweens w) w)
  else exc_ret tt.

(** [barba.hooks.after]: [ScrollTrigger.refresh()], then
    [initScrollAnimations()] on the new document. *)
Definition hooks_after (d : data) : M unit :=
  call_global "ScrollTrigger"
    (fun w => set_scripts (hero_inits w) (project_inits w) (S (refreshes w)) (scroll_tweens w) w) ;;;
  call_global "initScrollAnimations"
    (fun w => set_scripts (hero_inits w) (project_inits w) (refreshes w)
                          (scroll_tweens w ++ ScrollDoc.initScrollAnimations (next_doc d)) w).

(** ** Barba's lifecycle *)

(** A tween starts (its [transformOrigin] is applied), ticks (the
    animated property takes a value GSAP computes), and completes (the end
    value, then [onComplete]). *)
Definition start_tween (tw : tween) (w : world) : world :=
  match tw_origin tw with Some o => set_target (tw_target tw) (write_origin o) w | None => w end.

Definition tick (tw : tween) (v : Q) (w : world) : world := set_target (tw_target tw) (write_prop (tw_prop tw) v) w.

Definition finish (tw : tween) (w : world) : world :=
  fold_left (fun w pv => set_target (tw_target tw) (write_prop (fst pv) (snd pv)) w) (tw_onComplete tw)
            (tick tw (tw_end tw) w).

(** A hook's outcome: its value is handed on, an exception stops the
    navigation and is reported. *)
Definition run_hook {A} (m : M A) (k : A -> world -> world) (w : world) : world :=
  match m w with Ret a w' => k a w' | Throw e w' => set_stage Idle (add_error w' e) end.

Inductive event := EvNavigate (t : transition) (d : data) | EvTick (v : Q) | EvTweenDone.

(** A link click (Barba runs a transition whose rules match), a tick of
    the running tween, or its completion: [leave], then [enter], then the
    view's [afterEnter] and the global [after] hook. *)
Definition run_event (ev : event) (w : world) : world :=
  match ev, stg w with
  | EvNavigate t d, Idle =>
      if rule t d then run_hook (leave t d) (fun tw w' => start_tween tw (set_stage (Leaving t d tw) w')) w else w
  | EvTick v, Leaving _ _ tw => tick tw v w
  | EvTick v, Entering _ _ tw => tick tw v w
  | EvTweenDone, Leaving t d tw =>
      run_hook (enter t) (fun tw' w' => start_tween tw' (set_stage (Entering t d tw') w')) (finish tw w)
  | EvTweenDone, Entering t d tw => run_hook (after_enter d ;;; hooks_after d) (fun _ w' => set_stage Idle w') (finish tw w)
  | _, _ => w
  end.

Definition run_events (evs : list event) (w : world) : world := fold_left (fun w ev => run_event ev w) evs w.

(** The page as loaded: the overlay (if [querySelector] found it) and
    the containers with their CSS, nothing running. *)
Definition init_world (has_overlay : bool) (iw ih : Q) (sc : list jsstring) : world :=
  mk_world (if has_overlay then Some overlay_css else None) container_css container_css iw ih sc 0 0 0 [] Idle [].

Inductive reachable : world -> Prop :=
| reach_init b iw ih sc : reachable (init_world b iw ih sc)
| reach_step w ev : reachable w -> reachable (run_event ev w).

(** The overlay is seen where it is neither collapsed ([scaleY] 0) nor
    clipped to nothing ([--clip-radius] 0) nor transparent. *)
Definition visible (o : style) : Prop := ~ scaleY o == 0 /\ ~ clip_radius o == 0 /\ ~ opacity o == 0.

Definition demo_rect : Tilt.rect := Tilt.mk_rect 100 40 120 48.

Definition demo_data : data := mk_data (TElement demo_rect [js "nav-link"]) (js "home") (js "work") [].

Definition back_data : data := mk_data (TString (js "back")) (js "home") (js "project") [].

Definition demo_init : world := init_world true 1280 800 [].

(** Half-way through the wipe's [enter]: [scaleY] 0.5 under a zero
    radius. *)
Definition demo_world : world := run_events [EvNavigate Wipe demo_data; EvTweenDone; EvTick (1 # 2)] demo_init.

Definition demo_overlay : style := mk_style (1 # 2) (js "top") (Pct 50) (Pct 50) 0 1 0.

(** ** Invariant *)

(** The tween of each stage is the one the stage's hook returns. *)
Definition stage_tween_ok (st : stage) : Prop :=
  match st with
  | Idle => True
  | Leaving Wipe _ tw => tw = wipe_out
  | Entering Wipe _ tw => tw = wipe_in
  | Leaving Clip _ tw => tw = clip_out
  | Entering Clip _ tw => tw = clip_in
  | Leaving Slide _ tw => tw = slide_out
  | Entering Slide _ tw => tw = slide_in
  end.

(** What holds of the overlay at each stage: at rest it is collapsed and
    unclipped; the wipe animates [scaleY] while the radius is 0, the clip
    animates the radius and the opacity while [scaleY] is 0, the slide
    leaves it at rest. *)
Definition stage_ok (st : stage) (o : style) : Prop :=
  match st with
  | Idle | Leaving Slide _ _ | Entering Slide _ _ => scaleY o == 0 /\ clip_radius o == 0
  | Leaving Wipe _ _ | Entering Wipe _ _ => clip_radius o == 0
  | Leaving Clip _ _ | Entering Clip _ _ => scaleY o == 0
  end.

Definition ov_inv (w : world) : Prop :=
  stage_tween_ok (stg w) /\ match overlay w with Some o => stage_ok (stg w) o | None => True end.

(** ** Lemmas *)

Ltac split_ifs :=
  repeat (cbn in *; match goal with |- context [if ?b then _ else _] => destruct b end).

Lemma ov_inv_step (ev : event) (w : world) : ov_inv w -> ov_inv (run_event ev w).
Proof.
  destruct w as [[o|] cur nx iw ih sc h p r ts st es]; unfold ov_inv; cbn [overlay stg];
    destruct ev as [[] [[r0 cls|s0] f0 t0 nd]| v |], st as [|[] d tw|[] d tw]; intros [Ht Hi];
    cbn [stage_tween_ok] in Ht; subst;
    unfold run_event, run_hook, leave, enter, clip_leave, clip_origin, set_property, wipe_leave, wipe_enter,
      clip_enter, slide_leave, slide_enter, after_enter, hooks_after, call_global, exc_bind, exc_get, exc_ret,
      exc_put, exc_modify, exc_throw, tick, finish, start_tween, stage_ok, stage_tween_ok in *;
    split_ifs; intuition (subst; cbn in *; repeat split; try first [reflexivity | assumption]).
Qed.

Lemma overlay_init_inv (b : bool) (iw ih : Q) (sc : list jsstring) : ov_inv (init_world b iw ih sc).
Proof. split; [exact I |]. destruct b; cbn; [split; reflexivity | exact I]. Qed.

Lemma overlay_reachable_inv (w : world) : reachable w -> ov_inv w.
Proof. induction 1; [apply overlay_init_inv | now apply ov_inv_step]. Qed.

Lemma transitions_reachable_run_events (evs : list event) (w : world) : reachable w -> reachable (run_events evs w).
Proof. revert w. induction evs as [|ev evs IH]; intros w Hw; [exact Hw |]. apply IH. now constructor. Qed.

Lemma stage_ok_hidden (st : stage) (o : style) : stage_ok st o -> scaleY o == 0 \/ clip_radius o == 0.
Proof. destruct st as [|[] d tw|[] d tw]; cbn; tauto. Qed.

Lemma in_scope (n : jsstring) (sc : list jsstring) : existsb (js_eqb n) sc = true <-> In n sc.
Proof.
  rewrite existsb_exists. split.
  - intros (y & Hy & E). apply js_eqb_spec in E. now subst.
  - intros H. exists n. split; [exact H | apply js_eqb_refl].
Qed.

Lemma not_in_scope (n : jsstring) (sc : list jsstring) : ~ In n sc -> existsb (js_eqb n) sc = false.
Proof. intros H. destruct (existsb (js_eqb n) sc) eqn:E; [apply in_scope in E; contradiction | reflexivity]. Qed.

(** A wipe navigation to a namespace without a view, with the names of
    the [after] hook in scope, ends at rest after the two tweens: the
    overlay back to [scaleY] 0 with its origin at the top, ScrollTrigger
    refreshed once, the new document's scroll tweens appended, and no
    exception. *)
Lemma wipe_navigation_completes (w : world) (d : data) (o : style) :
  stg w = Idle -> overlay w = Some o ->
  In (js "ScrollTrigger") (scope w) -> In (js "initScrollAnimations") (scope w) ->
  js_eqb (to_ns d) (js "home") = false -> js_eqb (to_ns d) (js "project") = false ->
  let w' := run_events [EvNavigate Wipe d; EvTweenDone; EvTweenDone] w in
  stg w' = Idle /\ errors w' = errors w /\ refreshes w' = S (refreshes w) /\
  scroll_tweens w' = scroll_tweens w ++ ScrollDoc.initScrollAnimations (next_doc d) /\
  overlay w' = Some (write_prop ScaleY 0 (write_origin (js "top") (write_prop ScaleY 1 (write_origin (js "bottom") o)))).
Proof.
  intros Hs Ho H1 H2 Hh Hp. apply in_scope in H1, H2.
  destruct w as [ov cur nx iw ih sc h p r ts st es]. cbn [stg overlay scope] in Hs, Ho, H1, H2. subst.
  unfold run_events, run_event, run_hook, after_enter, hooks_after, call_global, exc_bind, exc_get, exc_put, exc_ret.
  cbn -[ScrollDoc.initScrollAnimations js_eqb existsb js]. rewrite Hh, Hp.
  cbn -[ScrollDoc.initScrollAnimations js_eqb existsb js]. rewrite H1.
  cbn -[ScrollDoc.initScrollAnimations js_eqb existsb js]. rewrite H2. cbn -[ScrollDoc.initScrollAnimations js].
  repeat split.
Qed.

(** ** Properties *)

(** C1: in every state the page reaches through navigations, ticks and
    completions of the transitions' tweens, the overlay is either
    collapsed ([scaleY] 0) or clipped to a circle of radius 0: the wipe
    animates [scaleY] under [--clip-radius: 0], the clip animates the
    radius under [scaleY(0)], so the overlay is never seen. *)
Theorem overlay_never_visible (w : world) (o : style) :
  reachable w -> overlay w = Some o -> ~ visible o.
Proof.
  intros Hr Ho (Hs & Hc & _). destruct (overlay_reachable_inv w Hr) as [_ Hi]. rewrite Ho in Hi.
  destruct (stage_ok_hidden _ _ Hi); contradiction.
Qed.

(** C2: [clipTransition.leave] throws a [TypeError] before writing
    anything when Barba's trigger is a string other than ['barba'] (a
    history navigation); for a clicked element it centres the clip on the
    element's box and returns the radius tween. *)
Theorem clip_leave_trigger (d : data) (w : world) :
  (forall s, trig d = TString s -> s <> [] -> s <> js "barba" -> clip_leave d w = Throw TypeError w) /\
  (forall r cls o, trig d = TElement r cls -> overlay w = Some o ->
     clip_leave d w =
       Ret clip_out (set_target Overlay (write_clip (Px (Tilt.left r + Tilt.width r / 2))
                                                    (Px (Tilt.top r + Tilt.height r / 2))) w)).
Proof.
  split.
  - intros s Hs Hn Hb. unfold clip_leave, clip_origin, exc_bind, exc_get. rewrite Hs.
    destruct (js_eqb s []) eqn:E1; [apply js_eqb_spec in E1; contradiction |].
    destruct (js_eqb s (js "barba")) eqn:E2; [apply js_eqb_spec in E2; contradiction |]. reflexivity.
  - intros r cls o Hr Ho. unfold clip_leave, clip_origin, set_property, exc_bind, exc_get, exc_put, exc_ret.
    rewrite Hr. destruct w as [ov cur nx iw ih sc h p rf ts st es]. cbn in Ho |- *. now subst.
Qed.

(** C6: after a navigation to a [project] page the view's [afterEnter]
    throws a [ReferenceError] unless [initProjectAnimations] is in scope;
    Barba's [after] hook throws before registering anything unless
    [ScrollTrigger] is in scope; with both names in scope it refreshes
    ScrollTrigger and appends the tweens of [initScrollAnimations] on the
    new document to those already registered, none of which is removed. *)
Theorem page_scripts_after_navigation (d : data) (w : world) :
  (to_ns d = js "project" -> ~ In (js "initProjectAnimations") (scope w) ->
     (after_enter d ;;; hooks_after d) w = Throw (ReferenceError (js "initProjectAnimations")) w) /\
  (~ In (js "ScrollTrigger") (scope w) -> hooks_after d w = Throw (ReferenceError (js "ScrollTrigger")) w) /\
  (In (js "ScrollTrigger") (scope w) -> In (js "initScrollAnimations") (scope w) ->
     exists w', hooks_after d w = Ret tt w' /\ refreshes w' = S (refreshes w) /\
                scroll_tweens w' = scroll_tweens w ++ ScrollDoc.initScrollAnimations (next_doc d)).
Proof.
  unfold after_enter, hooks_after, call_global, exc_bind, exc_get, exc_put, exc_throw. split; [| split].
  - intros Hp Hn. rewrite Hp. change (js_eqb (js "project") (js "home")) with false.
    rewrite js_eqb_refl. cbv beta iota. now rewrite (not_in_scope _ _ Hn).
  - intros Hn. now rewrite (not_in_scope _ _ Hn).
  - intros H1 H2. apply in_scope in H1, H2. rewrite H1. cbn [scope set_scripts]. rewrite H2.
    eexists. split; [reflexivity | split; reflexivity].
Qed.

(** The names the page gives its three transitions are those of the
    spread objects: ['wipe'], ['clip'], ['slide']. *)
Example entry_names_overridden :
  map entry_name [Wipe; Clip; Slide] = [js "wipe"; js "clip"; js "slide"].
Proof. reflexivity. Qed.

(** ** The theorems at concrete inputs *)

Lemma overlay_never_visible_witness :
  reachable demo_world /\ overlay demo_world = Some demo_overlay /\ ~ visible demo_overlay.
Proof.
  assert (Hr : reachable demo_world) by (apply transitions_reachable_run_events; constructor).
  assert (Ho : overlay demo_world = Some demo_overlay) by (vm_compute; reflexivity).
  split; [exact Hr | split; [exact Ho | exact (overlay_never_visible demo_world demo_overlay Hr Ho)]].
Defined.

Lemma clip_leave_trigger_witness :
  (trig back_data = TString (js "back") /\ js "back" <> [] /\ js "back" <> js "barba") /\
  clip_leave back_data demo_init = Throw TypeError demo_init.
Proof.
  assert (H1 : trig back_data = TString (js "back")) by reflexivity.
  assert (H2 : js "back" <> []) by discriminate.
  assert (H3 : js "back" <> js "barba") by (vm_compute; congruence).
  split; [exact (conj H1 (conj H2 H3)) | exact (proj1 (clip_leave_trigger back_data demo_init) _ H1 H2 H3)].
Defined.

Lemma page_scripts_after_navigation_witness :
  (to_ns back_data = js "project" /\ ~ In (js "initProjectAnimations") (scope demo_init)) /\
  (after_enter back_data ;;; hooks_after back_data) demo_init =
    Throw (ReferenceError (js "initProjectAnimations")) demo_init.
Proof.
  assert (H1 : to_ns back_data = js "project") by reflexivity.
  assert (H2 : ~ In (js "initProjectAnimations") (scope demo_init)) by (intros []).
  split; [exact (conj H1 H2) | exact (proj1 (page_scripts_after_navigation back_data demo_init) H1 H2)].
Defined.

End Transitions.
