(* ===== verification/TransitionCss.v ===== *)
(** * transitions.css, 3d-card.css and the Spline style (design document
      sections 5.3, 5.4, 6.2 and 6.4, src/unnamed/part_000)

    [transitions_css], [card_css] and [spline_css] are the stylesheets as
    rules of [Css.v]; [overlay_node] and [container_node] the markup of
    section 5.4; [card_node] and [face_node] a flip card of section 6.2.
    The theorems: the overlay's style the transitions start from
    ([Transitions.overlay_css]) is the one the stylesheet computes; a
    flip card shows exactly one face, the back one while hovered. *)

From Stdlib Require Import String ZArith QArith Qround Qabs List Bool Lia.
From S2P Require Import Prelude Css Transitions.
Import ListNotations.
Import Css.

Module TransitionCss.

(** ** transitions.css *)

Definition transitions_css : sheet := [
  rule_ [cls "page-transition-overlay"]
    [dn "position" (Kw "fixed"); dn "top" (num 0); dn "left" (num 0);
     dn "width" (pct 100); dn "height" (pct 100); dn "background" (var "--color-bg");
     dn "z-index" (num 9999); dn "pointer-events" (Kw "none");
     dn "transform" (Fn "scaleY" [num 0]);
     dn "--clip-x" (pct 50); dn "--clip-y" (pct 50); dn "--clip-radius" (num 0);
     dn "clip-path" (Fn "circle" [Seq [var "--clip-radius"; Kw "at"; var "--clip-x"; var "--clip-y"]])];
  rule_ [(Sel [SAttrEq "data-barba" "container"], None)] [dn "width" (pct 100)];
  rule_ [(Sel [SType "html"; SClass "is-transitioning"], None)]
    [dn "overflow" (Kw "hidden"); dn "pointer-events" (Kw "none")];
  rule_ [cls "shared-element"] [dn "view-transition-name" (Kw "shared-hero")];
  mk_rule MSupportsVT [(Sel [], Some (PVtOld "shared-hero")); (Sel [], Some (PVtNew "shared-hero"))]
    [dn "animation-duration" (sec 0.5);
     dn "animation-timing-function" (Fn "cubic-bezier" [num 0.4; num 0; num 0.2; num 1])]
]%string.

(** ** The markup of section 5.4 *)

Definition body_node : elem := El (js "body") [] [] [] false false false false None None.

(** [<div class="page-transition-overlay"></div>] *)
Definition overlay_node : elem :=
  El (js "div") [js "page-transition-overlay"] [] [] false false false false (Some body_node) None.

(** [<main data-barba="container" data-barba-namespace="home">] inside
    the wrapper. *)
Definition container_node : elem :=
  El (js "main") [] [(js "data-barba", js "container"); (js "data-barba-namespace", js "home")] []
     false false false false
     (Some (El (js "div") [] [(js "data-barba", js "wrapper")] [] false false false false (Some body_node) None))
     None.

(** The style record [Transitions.v] works with, read off the computed
    values: [scaleY] of the transform, the three clip variables, the
    opacity; [transform-origin] and [opacity] keep their initial values
    ([50% 50%], 1) where nothing is declared. *)
Definition length_of (x : option value) : option Transitions.css_length :=
  match x with
  | Some (Dim q UPct) => Some (Transitions.Pct q)
  | Some (Dim q UPx) => Some (Transitions.Px q)
  | _ => None
  end.

Definition number_of (x : option value) (d : Q) : option Q :=
  match x with Some (Dim q UNum) => Some q | None => Some d | _ => None end.

Definition scaleY_of (x : option value) : option Q :=
  match x with
  | Some (Fn f [Dim q UNum]) => if String.eqb f "scaleY" then Some q else None
  | None => Some 1
  | _ => None
  end%string.

Definition style_of (v : env) (sh : sheet) (x : elem) : option Transitions.style :=
  match scaleY_of (computed v sh x None "transform"), length_of (computed v sh x None "--clip-x"),
        length_of (computed v sh x None "--clip-y"), number_of (computed v sh x None "--clip-radius") 0,
        number_of (computed v sh x None "opacity") 1 with
  | Some s, Some cx, Some cy, Some r, Some o => Some (Transitions.mk_style s (js "50% 50%") cx cy r o 0)
  | _, _, _, _, _ => None
  end%string.

(** ** 3d-card.css *)

Definition card_css : sheet := [
  rule_ [cls "card-3d-container"] [dn "perspective" (px 1000); dn "width" (px 300); dn "height" (px 400)];
  rule_ [cls "card-3d"]
    [dn "width" (pct 100); dn "height" (pct 100); dn "position" (Kw "relative");
     dn "transform-style" (Kw "preserve-3d");
     dn "transition" (Seq [Kw "transform"; sec 0.8; Fn "cubic-bezier" [num 0.4; num 0; num 0.2; num 1]])];
  rule_ [(Sel [SClass "card-3d"; SHover], None)] [dn "transform" (Fn "rotateY" [deg 180])];
  rule_ [cls "card-3d-face"]
    [dn "position" (Kw "absolute"); dn "width" (pct 100); dn "height" (pct 100);
     dn "backface-visibility" (Kw "hidden"); dn "border-radius" (px 16); dn "overflow" (Kw "hidden")];
  rule_ [cls "card-3d-front"] [dn "background" (var "--color-surface")];
  rule_ [cls "card-3d-back"] [dn "background" (var "--color-accent"); dn "transform" (Fn "rotateY" [deg 180])]
]%string.

(** [.card-3d-container > .card-3d > .card-3d-face.card-3d-front] and
    the back face after it; [hover] is whether the pointer is over the
    card. *)
Definition container3d_node : elem :=
  El (js "div") [js "card-3d-container"] [] [] false false false false (Some body_node) None.

Definition card_node (hover : bool) : elem :=
  El (js "div") [js "card-3d"] [] [] hover false false false (Some container3d_node) None.

Definition front_node (hover : bool) : elem :=
  El (js "div") [js "card-3d-face"; js "card-3d-front"] [] [] hover false false false (Some (card_node hover)) None.

Definition back_node (hover : bool) : elem :=
  El (js "div") [js "card-3d-face"; js "card-3d-back"] [] [] hover false false false
     (Some (card_node hover)) (Some (front_node hover)).

(** The [rotateY] angle of a transform, 0 for none. *)
Definition rotation_of (x : option value) : Q :=
  match x with
  | Some (Fn f [Dim q UDeg]) => if String.eqb f "rotateY" then q else 0
  | _ => 0
  end%string.

(** An angle in degrees faces the viewer when it is within 90 degrees of
    a whole turn. *)
Definition facing (a : Q) : bool :=
  let r := a - 360 * inject_Z (Qfloor ((a + 180) / 360)) in negb (Qle_bool 90 (Qabs r)).

(** A face is seen when it faces the viewer (its rotation composed with
    the card's) or its back face is not hidden. *)
Definition face_visible (v : env) (card face : elem) : bool :=
  facing (rotation_of (computed v card_css card None "transform") +
          rotation_of (computed v card_css face None "transform")) ||
  negb (match computed v card_css face None "backface-visibility" with
        | Some (Kw k) => String.eqb k "hidden"
        | _ => false
        end)%string.

(** ** The Spline embed's style (section 6.4) *)

Definition spline_css : sheet := [
  rule_ [(Sel [SType "spline-viewer"], None)]
    [dn "width" (pct 100); dn "height" (vh 100); dn "position" (Kw "absolute");
     dn "top" (num 0); dn "left" (num 0); dn "z-index" (num (-1))]
]%string.

(** ** Properties *)

(** The style the transitions' model starts the overlay from is the one
    transitions.css computes for the overlay of section 5.4, on every
    device. *)
Lemma overlay_style_from_sheet (v : env) :
  style_of v transitions_css overlay_node = Some Transitions.overlay_css.
Proof. destruct v as [[] [] [] []]; vm_compute; reflexivity. Qed.

(** A flip card shows exactly one face: the front while the pointer is
    off the card, the back (turned by the card's and its own 180 degrees)
    while it is on it. *)
Theorem card_shows_one_face (hover : bool) (v : env) :
  face_visible v (card_node hover) (front_node hover) = negb hover /\
  face_visible v (card_node hover) (back_node hover) = hover.
Proof. destruct hover; split; vm_compute; reflexivity. Qed.

End TransitionCss.
