(* ===== verification/MicroCss.v ===== *)
(** * micro-interactions.css (design document section 7,
      src/unnamed/part_000)

    The micro-interaction library is pure CSS: buttons (7.1), links
    (7.2), cards (7.3), form fields (7.4) and loading states (7.5), each
    a [sheet] of [Css.v], with the keyframes of 7.5.  The theorems follow
    each interaction through the states that drive it ([:hover],
    [:active], [:focus], [:placeholder-shown]): the floating label rises
    exactly when the field is focused or filled and the underline draws
    exactly while it is focused; the border-draw button outlines all four
    sides on hover; the ripple shows at once on press and fades on
    release; the growing underline stays centred. *)

From Stdlib Require Import String ZArith QArith Qreduction List Bool Lia.
From S2P Require Import Prelude Css.
Import ListNotations.
Import Css.

Module MicroCss.
Local Open Scope string_scope.

Definition accent : value := var "--color-accent".

Definition ease_out_quint : value := Fn "cubic-bezier" [num 0.65; num 0; num 0.35; num 1].

Definition hover_pe (c : string) (pe : pseudo_el) : selector := (Sel [SClass c; SHover], Some pe).

Definition gradient (args : list value) : value := Fn "linear-gradient" args.

(** ** 7.1 Button interactions *)

Definition buttons_css : sheet := [
  rule_ [cls "btn-ripple"] [dn "position" (Kw "relative"); dn "overflow" (Kw "hidden")];
  rule_ [cls_pe "btn-ripple" PAfter]
    [dn "content" (Str EmptyString); dn "position" (Kw "absolute"); dn "width" (pct 100);
     dn "height" (pct 100); dn "top" (num 0); dn "left" (num 0); dn "pointer-events" (Kw "none");
     dn "background-image" (Fn "radial-gradient" [Kw "circle"; Seq [Hash "fff"; pct 10];
                                                  Seq [Kw "transparent"; pct 10.01]]);
     dn "background-repeat" (Kw "no-repeat"); dn "background-position" (pct 50);
     dn "transform" (Fn "scale" [num 10; num 10]); dn "opacity" (num 0);
     dn "transition" (Commas [Seq [Kw "transform"; sec 0.5]; Seq [Kw "opacity"; sec 1]])];
  rule_ [(Sel [SClass "btn-ripple"; SActive], Some PAfter)]
    [dn "transform" (Fn "scale" [num 0; num 0]); dn "opacity" (num 0.3); dn "transition" (sec 0)];
  rule_ [cls "btn-shine"] [dn "position" (Kw "relative"); dn "overflow" (Kw "hidden")];
  rule_ [cls_pe "btn-shine" PBefore]
    [dn "content" (Str EmptyString); dn "position" (Kw "absolute"); dn "top" (num 0);
     dn "left" (pct (-100)); dn "width" (pct 100); dn "height" (pct 100);
     dn "background" (gradient [deg 90; Kw "transparent"; Fn "rgba" [num 255; num 255; num 255; num 0.2];
                                Kw "transparent"]);
     dn "transition" (Seq [Kw "left"; sec 0.5])];
  rule_ [hover_pe "btn-shine" PBefore] [dn "left" (pct 100)];
  rule_ [cls "btn-border-draw"]
    [dn "position" (Kw "relative"); dn "background" (Kw "transparent"); dn "border" (Kw "none");
     dn "padding" (Seq [px 12; px 24]); dn "color" (var "--color-text")];
  rule_ [cls_pe "btn-border-draw" PBefore; cls_pe "btn-border-draw" PAfter]
    [dn "content" (Str EmptyString); dn "position" (Kw "absolute"); dn "width" (num 0); dn "height" (num 0);
     dn "border" (Seq [px 1; Kw "solid"; Kw "transparent"]);
     dn "transition" (Seq [Kw "all"; sec 0.3; Kw "ease"])];
  rule_ [cls_pe "btn-border-draw" PBefore] [dn "top" (num 0); dn "left" (num 0)];
  rule_ [cls_pe "btn-border-draw" PAfter] [dn "bottom" (num 0); dn "right" (num 0)];
  rule_ [hover_pe "btn-border-draw" PBefore]
    [dn "width" (pct 100); dn "height" (pct 100); dn "border-top-color" accent; dn "border-right-color" accent];
  rule_ [hover_pe "btn-border-draw" PAfter]
    [dn "width" (pct 100); dn "height" (pct 100); dn "border-bottom-color" accent; dn "border-left-color" accent];
  rule_ [cls "btn-fill-slide"] [dn "position" (Kw "relative"); dn "overflow" (Kw "hidden"); dn "z-index" (num 1)];
  rule_ [cls_pe "btn-fill-slide" PBefore]
    [dn "content" (Str EmptyString); dn "position" (Kw "absolute"); dn "top" (num 0); dn "left" (num 0);
     dn "width" (pct 100); dn "height" (pct 100); dn "background" accent;
     dn "transform" (Fn "translateX" [pct (-101)]);
     dn "transition" (Seq [Kw "transform"; sec 0.4; ease_out_quint]); dn "z-index" (num (-1))];
  rule_ [hover_pe "btn-fill-slide" PBefore] [dn "transform" (Fn "translateX" [num 0])]
]%string.

(** ** 7.2 Link interactions *)

Definition links_css : sheet := [
  rule_ [cls "link-underline-grow"] [dn "position" (Kw "relative")];
  rule_ [cls_pe "link-underline-grow" PAfter]
    [dn "content" (Str EmptyString); dn "position" (Kw "absolute"); dn "bottom" (px (-2));
     dn "left" (pct 50); dn "width" (num 0); dn "height" (px 1); dn "background" (Kw "currentColor");
     dn "transition" (Commas [Seq [Kw "width"; sec 0.3; Kw "ease"]; Seq [Kw "left"; sec 0.3; Kw "ease"]])];
  rule_ [hover_pe "link-underline-grow" PAfter] [dn "width" (pct 100); dn "left" (num 0)];
  rule_ [cls_pe "link-brackets" PBefore; cls_pe "link-brackets" PAfter]
    [dn "display" (Kw "inline-block"); dn "opacity" (num 0);
     dn "transition" (Commas [Seq [Kw "transform"; sec 0.3]; Seq [Kw "opacity"; sec 0.2]])];
  rule_ [cls_pe "link-brackets" PBefore]
    [dn "content" (Str "["); dn "margin-right" (em 0.2); dn "transform" (Fn "translateX" [px 10])];
  rule_ [cls_pe "link-brackets" PAfter]
    [dn "content" (Str "]"); dn "margin-left" (em 0.2); dn "transform" (Fn "translateX" [px (-10)])];
  rule_ [hover_pe "link-brackets" PBefore; hover_pe "link-brackets" PAfter]
    [dn "opacity" (num 1); dn "transform" (Fn "translateX" [num 0])];
  rule_ [cls "link-highlight"]
    [dn "background" (gradient [Seq [Kw "to"; Kw "right"]; Seq [accent; pct 50]; Seq [Kw "transparent"; pct 50]]);
     dn "background-size" (Seq [pct 200; pct 100]); dn "background-position" (Kw "right");
     dn "transition" (Seq [Kw "background-position"; sec 0.3; Kw "ease"])];
  rule_ [(Sel [SClass "link-highlight"; SHover], None)]
    [dn "background-position" (Kw "left"); dn "color" (var "--color-bg")]
]%string.

(** ** 7.3 Card interactions *)

Definition cards_css : sheet := [
  rule_ [cls "card-lift"]
    [dn "transition" (Commas [Seq [Kw "transform"; sec 0.3; Kw "ease"]; Seq [Kw "box-shadow"; sec 0.3; Kw "ease"]])];
  rule_ [(Sel [SClass "card-lift"; SHover], None)]
    [dn "transform" (Fn "translateY" [px (-8)]);
     dn "box-shadow" (Commas [Seq [num 0; px 20; px 40; Fn "rgba" [num 0; num 0; num 0; num 0.3]];
                              Seq [num 0; num 0; num 0; px 1; Fn "rgba" [num 255; num 255; num 255; num 0.1]]])];
  rule_ [cls "card-glow"] [dn "position" (Kw "relative")];
  rule_ [cls_pe "card-glow" PBefore]
    [dn "content" (Str EmptyString); dn "position" (Kw "absolute"); dn "inset" (px (-1));
     dn "background" (gradient [deg 135; accent; Seq [Kw "transparent"; pct 50]; accent]);
     dn "border-radius" (Kw "inherit"); dn "z-index" (num (-1)); dn "opacity" (num 0);
     dn "transition" (Seq [Kw "opacity"; sec 0.3; Kw "ease"])];
  rule_ [hover_pe "card-glow" PBefore] [dn "opacity" (num 1)];
  rule_ [cls "card-reveal"] [dn "overflow" (Kw "hidden")];
  rule_ [(Desc (Sel [SClass "card-reveal"]) [SClass "card-overlay"], None)]
    [dn "position" (Kw "absolute"); dn "inset" (num 0);
     dn "background" (gradient [Seq [Kw "to"; Kw "top"]; Seq [Fn "rgba" [num 0; num 0; num 0; num 0.9]; pct 0];
                                Seq [Kw "transparent"; pct 100]]);
     dn "display" (Kw "flex"); dn "flex-direction" (Kw "column"); dn "justify-content" (Kw "flex-end");
     dn "padding" (px 24); dn "transform" (Fn "translateY" [pct 60]);
     dn "transition" (Seq [Kw "transform"; sec 0.4; Fn "cubic-bezier" [num 0.4; num 0; num 0.2; num 1]])];
  rule_ [(Desc (Sel [SClass "card-reveal"; SHover]) [SClass "card-overlay"], None)]
    [dn "transform" (Fn "translateY" [num 0])];
  rule_ [(Desc (Sel [SClass "card-reveal"]) [SClass "card-title"], None)]
    [dn "transform" (Fn "translateY" [num 0]); dn "transition" (Seq [Kw "transform"; sec 0.4])];
  rule_ [(Desc (Sel [SClass "card-reveal"; SHover]) [SClass "card-title"], None)]
    [dn "transform" (Fn "translateY" [px (-10)])];
  rule_ [(Desc (Sel [SClass "card-reveal"]) [SClass "card-description"], None)]
    [dn "opacity" (num 0); dn "transform" (Fn "translateY" [px 20]);
     dn "transition" (Commas [Seq [Kw "opacity"; sec 0.3]; Seq [Kw "transform"; sec 0.4]]);
     dn "transition-delay" (sec 0.1)];
  rule_ [(Desc (Sel [SClass "card-reveal"; SHover]) [SClass "card-description"], None)]
    [dn "opacity" (num 1); dn "transform" (Fn "translateY" [num 0])]
]%string.

(** ** 7.4 Form interactions *)

Definition input_sel (extra : list simple) : complex := Sel (SClass "input-animated" :: extra).

Definition forms_css : sheet := [
  rule_ [cls "input-animated"]
    [dn "position" (Kw "relative"); dn "background" (Kw "transparent"); dn "border" (Kw "none");
     dn "border-bottom" (Seq [px 1; Kw "solid"; var "--color-border"]); dn "padding" (Seq [px 12; num 0]);
     dn "width" (pct 100); dn "color" (var "--color-text"); dn "transition" (Seq [Kw "border-color"; sec 0.3])];
  rule_ [(Sel [SClass "input-animated"; SFocus], None)]
    [dn "outline" (Kw "none"); dn "border-color" accent];
  rule_ [(Adj (input_sel []) [SClass "input-label"], None)]
    [dn "position" (Kw "absolute"); dn "left" (num 0); dn "top" (px 12); dn "color" (var "--color-muted");
     dn "pointer-events" (Kw "none");
     dn "transition" (Commas [Seq [Kw "transform"; sec 0.3; Kw "ease"]; Seq [Kw "font-size"; sec 0.3; Kw "ease"];
                              Seq [Kw "color"; sec 0.3; Kw "ease"]])];
  rule_ [(Adj (input_sel [SFocus]) [SClass "input-label"], None);
         (Adj (input_sel [SNot SPlaceholderShown]) [SClass "input-label"], None)]
    [dn "transform" (Fn "translateY" [px (-24)]); dn "font-size" (px 12); dn "color" accent];
  rule_ [(Adj (Adj (input_sel []) [SClass "input-label"]) [SClass "input-line"], None)]
    [dn "position" (Kw "absolute"); dn "bottom" (num 0); dn "left" (num 0); dn "width" (pct 100);
     dn "height" (px 2); dn "background" accent; dn "transform" (Fn "scaleX" [num 0]);
     dn "transition" (Seq [Kw "transform"; sec 0.3; Kw "ease"])];
  rule_ [(Adj (Adj (input_sel [SFocus]) [SClass "input-label"]) [SClass "input-line"], None)]
    [dn "transform" (Fn "scaleX" [num 1])]
]%string.

(** ** 7.5 Loading states *)

Definition loading_css : sheet := [
  rule_ [cls "skeleton"]
    [dn "background" (gradient [deg 90; Seq [var "--color-surface"; pct 25];
                                Seq [var "--color-surface-light"; pct 50]; Seq [var "--color-surface"; pct 75]]);
     dn "background-size" (Seq [pct 200; pct 100]);
     dn "animation" (Seq [Kw "skeleton-loading"; sec 1.5; Kw "infinite"])];
  rule_ [cls "loading-dot"]
    [dn "width" (px 8); dn "height" (px 8); dn "background" accent; dn "border-radius" (pct 50);
     dn "animation" (Seq [Kw "pulse"; sec 1.4; Kw "ease-in-out"; Kw "infinite"; Kw "both"])];
  rule_ [cls "loading-dots"] [dn "display" (Kw "flex"); dn "gap" (px 6)];
  rule_ [(Desc (Sel [SClass "loading-dots"]) [SClass "loading-dot"; SNthChild 1], None)]
    [dn "animation-delay" (sec (-0.32))];
  rule_ [(Desc (Sel [SClass "loading-dots"]) [SClass "loading-dot"; SNthChild 2], None)]
    [dn "animation-delay" (sec (-0.16))];
  rule_ [cls "spinner"]
    [dn "width" (px 40); dn "height" (px 40); dn "border" (Seq [px 3; Kw "solid"; var "--color-surface"]);
     dn "border-top-color" accent; dn "border-radius" (pct 50);
     dn "animation" (Seq [Kw "spin"; sec 0.8; Kw "linear"; Kw "infinite"])]
]%string.

(** The keyframes of 7.5: each frame's offsets (in percent) and
    declarations; [spin] has only its [to] frame. *)
Record keyframes := mk_keyframes { kf_name : string; kf_frames : list (list Q * list (string * value)) }.

Definition skeleton_loading : keyframes :=
  mk_keyframes "skeleton-loading"
    [([0], [("background-position", Seq [pct 200; num 0])]);
     ([100], [("background-position", Seq [pct (-200); num 0])])]%string.

Definition pulse : keyframes :=
  mk_keyframes "pulse"
    [([0; 80; 100], [("transform", Fn "scale" [num 0]); ("opacity", num 0.5)]);
     ([40], [("transform", Fn "scale" [num 1]); ("opacity", num 1)])]%string.

Definition spin : keyframes := mk_keyframes "spin" [([100], [("transform", Fn "rotate" [deg 360])])]%string.

(** ** Elements *)

Definition body_node : elem := El (js "body") [] [] [] false false false false None None.

(** A button or link with one class, hovered and pressed or not. *)
Definition control (tag c : string) (hover active : bool) : elem :=
  El (js tag) [js c] [] [] hover false active false (Some body_node) None.

(** The field of 7.4: [input.input-animated], then [.input-label], then
    [.input-line], in one wrapper.  [:placeholder-shown] holds of an
    empty field that has a [placeholder] attribute. *)
Definition field_node : elem := El (js "div") [js "field"] [] [] false false false false (Some body_node) None.

Definition input_node (focus filled has_placeholder : bool) : elem :=
  El (js "input") [js "input-animated"] [] [] false focus false (has_placeholder && negb filled)
     (Some field_node) None.

Definition label_node (focus filled has_placeholder : bool) : elem :=
  El (js "label") [js "input-label"] [] [] false false false false
     (Some field_node) (Some (input_node focus filled has_placeholder)).

Definition line_node (focus filled has_placeholder : bool) : elem :=
  El (js "span") [js "input-line"] [] [] false false false false
     (Some field_node) (Some (label_node focus filled has_placeholder)).

(** A length as a percentage of the containing block; the unitless
    [0] is a length. *)
Definition pct_of (x : option value) : option Q :=
  match x with
  | Some (Dim q UPct) => Some q
  | Some (Dim q UNum) => if Qeq_bool q 0 then Some 0 else None
  | _ => None
  end.

(** The horizontal centre of [.link-underline-grow::after], in percent. *)
Definition underline_centre (v : env) (hover : bool) : option Q :=
  let x := control "a" "link-underline-grow" hover false in
  match pct_of (computed v links_css x (Some PAfter) "left"), pct_of (computed v links_css x (Some PAfter) "width") with
  | Some l, Some w => Some (Qred (l + w / 2))
  | _, _ => None
  end%string.

(** [.loading-dots] with three [.loading-dot] children; [dot i] is the
    i-th (from 1). *)
Definition dots_node : elem := El (js "div") [js "loading-dots"] [] [] false false false false (Some body_node) None.

Fixpoint dot (i : nat) : elem :=
  El (js "span") [js "loading-dot"] [] [] false false false false (Some dots_node)
     (match i with O | S O => None | S j => Some (dot j) end).

(** The offset of a background of [size]% of its box positioned at
    [pos]%, in percent of the box. *)
Definition bg_offset (size pos : Q) : Q := pos / 100 * (100 - size).

(** ** Properties *)

(** C38: the floating label of a form field rises (translated 24px up, at
    12px, in the accent colour) exactly when the field is focused or
    filled, and the line under it draws exactly while it is focused; a
    field without a [placeholder] attribute never matches
    [:placeholder-shown], so its label is always up. *)
Theorem floating_label (focus filled has_placeholder : bool) (v : env) :
  computed v forms_css (label_node focus filled has_placeholder) None "transform" =
    (if focus || filled || negb has_placeholder then Some (Fn "translateY" [px (-24)]) else None) /\
  computed v forms_css (label_node focus filled has_placeholder) None "font-size" =
    (if focus || filled || negb has_placeholder then Some (px 12) else None) /\
  computed v forms_css (line_node focus filled has_placeholder) None "transform" =
    Some (Fn "scaleX" [num (if focus then 1 else 0)]).
Proof. destruct focus, filled, has_placeholder; repeat split; vm_compute; reflexivity. Qed.

(** The border-draw button: on hover its [::before] colours the top and
    right borders and its [::after] the bottom and left ones, so all four
    sides are drawn in the accent colour; off hover all four are
    transparent. *)
Theorem border_draw_outline (hover active : bool) (v : env) :
  let b := control "button" "btn-border-draw" hover active in
  let side pe s := computed v buttons_css b (Some pe) ("border-" ++ s ++ "-color") in
  let c := Some (if hover then accent else Kw "transparent") in
  side PBefore "top" = c /\ side PBefore "right" = c /\ side PAfter "bottom" = c /\ side PAfter "left" = c /\
  side PBefore "bottom" = Some (Kw "transparent") /\ side PAfter "top" = Some (Kw "transparent").
Proof. destruct hover, active; repeat split; vm_compute; reflexivity. Qed.

(** The ripple: pressed, its [::after] jumps (transition of 0s) to a dot
    at 30% opacity; released, it grows back over 0.5s and fades over 1s. *)
Lemma ripple_press_release (hover : bool) (v : env) :
  let r a := control "button" "btn-ripple" hover a in
  computed v buttons_css (r true) (Some PAfter) "transition-duration" = Some (sec 0) /\
  computed v buttons_css (r true) (Some PAfter) "opacity" = Some (num 0.3) /\
  computed v buttons_css (r false) (Some PAfter) "transition-duration" = Some (Commas [sec 0.5; sec 1]) /\
  computed v buttons_css (r false) (Some PAfter) "opacity" = Some (num 0).
Proof. destruct hover; repeat split; vm_compute; reflexivity. Qed.

(** The growing underline stays centred: from zero width at 50% to full
    width at 0, its centre is at 50% in both states. *)
Lemma underline_grows_from_centre (hover : bool) (v : env) : underline_centre v hover = Some 50.
Proof. destruct hover; vm_compute; reflexivity. Qed.

(** The three loading dots pulse 0.32s, 0.16s and 0s into the 1.4s
    cycle. *)
Example dots_staggered (v : env) :
  computed v loading_css (dot 1) None "animation-delay" = Some (sec (-0.32)) /\
  computed v loading_css (dot 2) None "animation-delay" = Some (sec (-0.16)) /\
  computed v loading_css (dot 3) None "animation-delay" = Some (sec 0) /\
  computed v loading_css (dot 3) None "animation-duration" = Some (sec 1.4).
Proof. repeat split; vm_compute; reflexivity. Qed.

(** The skeleton's gradient (200% wide) moves from 200% to -200%: by
    400% of the box, two whole widths of the repeated image, so the loop
    restarts where it ended. *)
Example skeleton_loop_seamless : bg_offset 200 (-200) - bg_offset 200 200 == 2 * 200.
Proof. reflexivity. Qed.

End MicroCss.
