(* ===== verification/Particles.v ===== *)
(** * The particle background of the design document (section 6.5,
      src/unnamed/part_000)

    [ParticleBackground] fills a buffer of [2000 * 3] coordinates with
    [(Math.random() - 0.5) * 10], maps the mouse to [[-1, 1]], and turns
    the particle cloud a little on every animation frame, more with the
    mouse.  The Three.js objects are reduced to what the class writes to
    them: the renderer's size and pixel ratio, the camera's aspect and
    [z], the cloud's rotation, the number of renders.  The window's
    numbers go through the JavaScript arithmetic of [JsNum.v] (a window of
    width or height 0 gives [Infinity] or [NaN]).  A coordinate is
    computed as an exact rational and stored with [JsNum.fround], the
    rounding of a [Float32Array] element, so it can land on [5] itself.
    [Math.random] is the prelude's [RandomSource]. *)

From Stdlib Require Import String ZArith QArith Qminmax Lqa List Lia.
From S2P Require Import Prelude JsNum.
Import ListNotations JsNum.

Module Particles.

(** [const count = 2000]. *)
Definition count : nat := 2000.

Section WithRandom.

Context {R : Type} `{RandomSource R}.

(** The page with its [ParticleBackground]: the window's size and
    [devicePixelRatio], the canvases appended to the container, the
    renderer's size and pixel ratio, the coordinates, the cloud's
    rotation, [this.mouse], the camera's aspect and [z], the window
    listeners, a pending animation frame, the renders, and the state of
    [Math.random]. *)
Record world := mk_world {
  innerWidth : Q;
  innerHeight : Q;
  devicePixelRatio : Q;
  canvases : nat;
  size : Q * Q;
  pixelRatio : Q;
  positions : list num;
  rotation_x : num;
  rotation_y : num;
  mouse_x : num;
  mouse_y : num;
  aspect : num;
  camera_z : Q;
  listeners : list string;
  frame_pending : bool;
  renders : nat;
  rng : R
}.

(** [for (let i = 0; i < n; i++) positions[i] = (Math.random() - 0.5) * 10],
    [positions] a [Float32Array]. *)
Fixpoint fill (n : nat) : St R (list num) :=
  match n with
  | O => ret []
  | S k => r <- math_random ;; ps <- fill k ;; ret (fround (Fin ((r - (1 # 2)) * 10)) :: ps)
  end.

(** [animate()]: the next frame is requested first, then the two turns,
    then the render. *)
Definition animate (w : world) : world :=
  let rx := add (rotation_x w) (Fin (3 # 10000)) in
  let ry := add (rotation_y w) (Fin (5 # 10000)) in
  let rx := add rx (mul (mouse_y w) (Fin (5 # 10000))) in
  let ry := add ry (mul (mouse_x w) (Fin (5 # 10000))) in
  mk_world (innerWidth w) (innerHeight w) (devicePixelRatio w) (canvases w) (size w) (pixelRatio w) (positions w)
           rx ry (mouse_x w) (mouse_y w) (aspect w) (camera_z w) (listeners w) true (S (renders w)) (rng w).

(** [new ParticleBackground(container)]: the camera with the window's
    aspect, [init()] (size, [Math.min(devicePixelRatio, 2)], the canvas,
    the coordinates, [camera.position.z = 3], the two listeners), then the
    first [animate()]. *)
Definition ParticleBackground_new (iw ih dpr : Q) (g : R) : world :=
  let (ps, g') := fill (count * 3) g in
  animate (mk_world iw ih dpr 1 (iw, ih) (Qmin dpr 2) ps (Fin 0) (Fin 0) (Fin 0) (Fin 0)
                    (div (Fin iw) (Fin ih)) 3 ["resize"; "mousemove"]%string false 0 g').

(** [onResize()] after the window took the size [(iw, ih)]. *)
Definition onResize (iw ih : Q) (w : world) : world :=
  mk_world iw ih (devicePixelRatio w) (canvases w) (iw, ih) (pixelRatio w) (positions w) (rotation_x w)
           (rotation_y w) (mouse_x w) (mouse_y w) (div (Fin iw) (Fin ih)) (camera_z w) (listeners w)
           (frame_pending w) (renders w) (rng w).

(** [onMouseMove(e)]: [x = (clientX / innerWidth) * 2 - 1],
    [y = -(clientY / innerHeight) * 2 + 1]. *)
Definition mouse_of (c extent : Q) : num := sub (mul (div (Fin c) (Fin extent)) (Fin 2)) (Fin 1).

Definition mouse_y_of (c extent : Q) : num := add (mul (neg (div (Fin c) (Fin extent))) (Fin 2)) (Fin 1).

Definition onMouseMove (cx cy : Q) (w : world) : world :=
  mk_world (innerWidth w) (innerHeight w) (devicePixelRatio w) (canvases w) (size w) (pixelRatio w) (positions w)
           (rotation_x w) (rotation_y w) (mouse_of cx (innerWidth w)) (mouse_y_of cy (innerHeight w))
           (aspect w) (camera_z w) (listeners w) (frame_pending w) (renders w) (rng w).

Inductive event := EvResize (iw ih : Q) | EvMouseMove (cx cy : Q) | EvFrame.

Definition run_event (ev : event) (w : world) : world :=
  match ev with
  | EvResize iw ih => onResize iw ih w
  | EvMouseMove cx cy => onMouseMove cx cy w
  | EvFrame =>
      if frame_pending w then
        animate (mk_world (innerWidth w) (innerHeight w) (devicePixelRatio w) (canvases w) (size w) (pixelRatio w)
                          (positions w) (rotation_x w) (rotation_y w) (mouse_x w) (mouse_y w) (aspect w)
                          (camera_z w) (listeners w) false (renders w) (rng w))
      else w
  end.

Definition run_events (evs : list event) (w : world) : world := fold_left (fun w ev => run_event ev w) evs w.

End WithRandom.

Arguments world R : clear implicits.

(** [if (particleContainer) new ParticleBackground(particleContainer)]. *)
Definition init_page {R} `{RandomSource R} (has_container : bool) (iw ih dpr : Q) (g : R) : option (world R) :=
  if has_container then Some (ParticleBackground_new iw ih dpr g) else None.

(** A window of 1280 x 800 at pixel ratio 2, the mouse half-way up. *)
Definition demo_world : world Z :=
  mk_world 1280 800 2 1 (1280, 800) 2 [] (Fin 0) (Fin 0) (Fin 0) (Fin (1 # 2)) (Fin (16 # 10)) 3
           ["resize"; "mousemove"]%string true 1 42%Z.

(** A stored coordinate: a single between [-5] and [5]. *)
Definition in_cube (p : num) : Prop := exists v, p = Fin v /\ -5 <= v <= 5.

(** ** Lemmas *)

Section Lemmas.

Context {R : Type} `{RandomSourceOk R}.

Lemma fill_spec (n : nat) (g : R) :
  length (fst (fill n g)) = n /\ Forall in_cube (fst (fill n g)).
Proof.
  revert g. induction n as [|n IH]; intros g; [split; [reflexivity | constructor] |].
  cbn [fill]. st_unfold. pose proof (math_random_range g) as [Hr0 Hr1].
  destruct (math_random g) as [r g1]. cbn [fst] in Hr0, Hr1. destruct (IH g1) as [Hl Hf].
  destruct (fill n g1) as [ps g2]. cbn [fst length] in *. split; [now rewrite Hl |].
  constructor; [| exact Hf].
  apply (fround_bound _ 5); [split; [reflexivity | discriminate] |]. unfold inject_Z. split; lra.
Qed.

Lemma particle_frame_step (w : world R) (rx ry mx my : Q) :
  frame_pending w = true -> rotation_x w = Fin rx -> rotation_y w = Fin ry -> mouse_x w = Fin mx -> mouse_y w = Fin my ->
  let w' := run_event EvFrame w in
  frame_pending w' = true /\ renders w' = S (renders w) /\ mouse_x w' = Fin mx /\ mouse_y w' = Fin my /\
  rotation_x w' = Fin (rx + (3 # 10000) + my * (5 # 10000)) /\ rotation_y w' = Fin (ry + (5 # 10000) + mx * (5 # 10000)).
Proof.
  intros Hp Hx Hy Hmx Hmy. cbn [run_event]. rewrite Hp. unfold animate. cbn [rotation_x rotation_y mouse_x mouse_y].
  rewrite Hx, Hy, Hmx, Hmy. repeat split.
Qed.

Lemma run_events_frames (n : nat) (w : world R) :
  run_events (repeat EvFrame (S n)) w = run_events (repeat EvFrame n) (run_event EvFrame w).
Proof. reflexivity. Qed.

Lemma unit_ratio (c e : Q) : 0 < e -> 0 <= c <= e -> 0 <= c / e <= 1.
Proof. intros He Hc. split; [apply Qle_shift_div_l | apply Qle_shift_div_r]; lra. Qed.

(** ** Properties *)

(** C26: a new [ParticleBackground] holds [2000 * 3] coordinates, each
    a finite number in [[-5, 5]] once stored in the [Float32Array]
    (closed: a draw just below [5] is stored as [5]), renders at a pixel ratio of at most 2 into the one
    canvas it appended, and has already requested its next frame. *)
Theorem positions_bounds (iw ih dpr : Q) (g : R) :
  let w := ParticleBackground_new iw ih dpr g in
  length (positions w) = (count * 3)%nat /\ Forall in_cube (positions w) /\
  pixelRatio w <= 2 /\ canvases w = 1%nat /\ frame_pending w = true.
Proof.
  unfold ParticleBackground_new. pose proof (fill_spec (count * 3) g) as [Hl Hf].
  destruct (fill (count * 3) g) as [ps g']. cbn [fst] in Hl, Hf. cbn.
  split; [exact Hl | split; [exact Hf | split; [apply Q.le_min_r | split; reflexivity]]].
Qed.

(** Inside a window of positive size, [onMouseMove] maps the
    pointer to [[-1, 1] x [-1, 1]], [x] growing to the right and [y]
    growing upwards. *)
Theorem mouse_normalised (cx cy iw ih : Q) :
  0 < iw -> 0 < ih -> 0 <= cx <= iw -> 0 <= cy <= ih ->
  exists mx my, mouse_of cx iw = Fin mx /\ mouse_y_of cy ih = Fin my /\
                -1 <= mx <= 1 /\ -1 <= my <= 1 /\ mx == 2 * (cx / iw) - 1 /\ my == 1 - 2 * (cy / ih).
Proof.
  intros Hw Hh Hx Hy. unfold mouse_of, mouse_y_of. rewrite !div_fin by lra.
  pose proof (unit_ratio cx iw Hw Hx). pose proof (unit_ratio cy ih Hh Hy).
  eexists. eexists. split; [reflexivity | split; [reflexivity |]]. cbn [sub add neg mul]. repeat split; lra.
Qed.

(** C40: the animation loop never stops: after [n] frames with the mouse
    at rest another frame is pending, [n] more renders happened, and each
    axis turned by [n] times its constant step plus the mouse's
    contribution. *)
Theorem frames_turn (n : nat) (w : world R) (rx ry mx my : Q) :
  frame_pending w = true -> rotation_x w = Fin rx -> rotation_y w = Fin ry -> mouse_x w = Fin mx -> mouse_y w = Fin my ->
  let w' := run_events (repeat EvFrame n) w in
  frame_pending w' = true /\ renders w' = (renders w + n)%nat /\
  exists qx qy, rotation_x w' = Fin qx /\ rotation_y w' = Fin qy /\
    qx == rx + inject_Z (Z.of_nat n) * ((3 # 10000) + my * (5 # 10000)) /\
    qy == ry + inject_Z (Z.of_nat n) * ((5 # 10000) + mx * (5 # 10000)).
Proof.
  revert w rx ry. induction n as [|n IH]; intros w rx ry Hp Hx Hy Hmx Hmy.
  - cbn [repeat run_events fold_left]. split; [exact Hp | split; [lia |]]. exists rx, ry.
    cbn [Z.of_nat inject_Z]. repeat split; [exact Hx | exact Hy | ring | ring].
  - destruct (particle_frame_step w rx ry mx my Hp Hx Hy Hmx Hmy) as (Hp' & Hr' & Hmx' & Hmy' & Hx' & Hy').
    cbv zeta. rewrite run_events_frames.
    destruct (IH _ _ _ Hp' Hx' Hy' Hmx' Hmy') as (Hp2 & Hr2 & qx & qy & Ex & Ey & Qx & Qy).
    split; [exact Hp2 | split; [rewrite Hr2, Hr'; lia |]]. exists qx, qy.
    split; [exact Ex | split; [exact Ey |]]. rewrite Nat2Z.inj_succ, <- Z.add_1_r, inject_Z_plus. change (inject_Z 1) with 1.
    split; [rewrite Qx | rewrite Qy]; ring.
Qed.

End Lemmas.

(** A window of height 0 gives the camera an infinite aspect, and a
    mousemove in a window of width 0 a [NaN] or infinite [mouse.x]. *)
Example zero_sized_window :
  aspect (onResize 1280 0 (ParticleBackground_new (R := Z) 1280 800 2 42%Z)) = Inf true /\
  mouse_of 0 0 = NaN /\ mouse_of 10 0 = Inf true.
Proof. split; [| split]; reflexivity. Qed.

(** A draw of [Math.random()] just below [1] gives a coordinate just
    below [5] that the [Float32Array] stores as [5]: the bound of C26 is
    reached. *)
Example store_reaches_5 :
  (1 - (1 # 167772160) - (1 # 2)) * 10 < 5 /\
  exists v, fround (Fin ((1 - (1 # 167772160) - (1 # 2)) * 10)) = Fin v /\ v == 5.
Proof. split; [reflexivity | eexists; split; [vm_compute; reflexivity | reflexivity]]. Qed.

(** ** The theorems at concrete inputs *)

Lemma positions_bounds_witness :
  let w := ParticleBackground_new (R := Z) 1280 800 2 42%Z in
  length (positions w) = (count * 3)%nat /\ Forall in_cube (positions w) /\
  pixelRatio w <= 2 /\ canvases w = 1%nat /\ frame_pending w = true.
Proof. exact (positions_bounds 1280 800 2 42%Z). Defined.

Lemma mouse_normalised_witness :
  (0 < 1280 /\ 0 < 800 /\ 0 <= 640 <= 1280 /\ 0 <= 200 <= 800) /\
  exists mx my, mouse_of 640 1280 = Fin mx /\ mouse_y_of 200 800 = Fin my /\
                -1 <= mx <= 1 /\ -1 <= my <= 1 /\ mx == 2 * (640 / 1280) - 1 /\ my == 1 - 2 * (200 / 800).
Proof.
  assert (H1 : 0 < 1280) by reflexivity. assert (H2 : 0 < 800) by reflexivity.
  assert (H3 : 0 <= 640 <= 1280) by (split; discriminate). assert (H4 : 0 <= 200 <= 800) by (split; discriminate).
  split; [exact (conj H1 (conj H2 (conj H3 H4))) | exact (mouse_normalised 640 200 1280 800 H1 H2 H3 H4)].
Defined.

Lemma frames_turn_witness :
  let w' := run_events (repeat EvFrame 60) demo_world in
  frame_pending w' = true /\ renders w' = (renders demo_world + 60)%nat /\
  exists qx qy, rotation_x w' = Fin qx /\ rotation_y w' = Fin qy /\
    qx == 0 + inject_Z (Z.of_nat 60) * ((3 # 10000) + (1 # 2) * (5 # 10000)) /\
    qy == 0 + inject_Z (Z.of_nat 60) * ((5 # 10000) + 0 * (5 # 10000)).
Proof. exact (frames_turn 60 demo_world 0 0 0 (1 # 2) eq_refl eq_refl eq_refl eq_refl eq_refl). Defined.

End Particles.
