(* ===== verification/PageCss.v ===== *)
(** * The page's stylesheets together and the reduced-motion block
      (design document section 9.2, src/unnamed/part_000)

    [reduced_motion_css] is the [@media (prefers-reduced-motion: reduce)]
    block; [page_css] the stylesheets of the document in the order of its
    file structure (cursor, kinetic text, transitions, the 3D card and
    the Spline embed, micro-interactions) followed by that block.  The
    theorems quantify over every element of every page: under the
    reduced-motion preference every element and its [::before] and
    [::after] transition and animate for 0.01ms, once; on a device whose
    pointer cannot hover and is coarse the default cursor is back on
    every element, and hidden everywhere on the others.  They rest on
    [Css.computed_important_uniform]: only universal rules declare these
    properties [!important], so one element stands for all. *)

From Stdlib Require Import String ZArith QArith List Bool Lia.
From S2P Require Import Prelude Css CursorCss KineticCss TransitionCss MicroCss.
Import ListNotations.
Import Css.

Module PageCss.

Definition reduced_motion_css : sheet := [
  mk_rule MReducedMotion [univ None; univ (Some PBefore); univ (Some PAfter)]
    [di "animation-duration" (ms 0.01); di "animation-iteration-count" (num 1);
     di "transition-duration" (ms 0.01); di "scroll-behavior" (Kw "auto")]
]%string.

Definition page_css : sheet :=
  CursorCss.cursor_css ++ KineticCss.kinetic_css ++ TransitionCss.transitions_css ++
  TransitionCss.card_css ++ TransitionCss.spline_css ++
  MicroCss.buttons_css ++ MicroCss.links_css ++ MicroCss.cards_css ++ MicroCss.forms_css ++
  MicroCss.loading_css ++ reduced_motion_css.

(** An element none of the page's selectors name. *)
Definition plain : elem := El (js "div") [] [] [] false false false false None None.

(** The element itself or one of the two pseudo-elements every element
    has. *)
Definition own_box (pe : option pseudo_el) : bool :=
  match pe with None | Some PBefore | Some PAfter => true | _ => false end.

(** ** Lemmas *)

Lemma page_important_universal :
  important_universal "transition-duration" page_css = true /\
  important_universal "animation-duration" page_css = true /\
  important_universal "animation-iteration-count" page_css = true /\
  important_universal "cursor" page_css = true.
Proof. vm_compute. repeat split. Qed.

(** What holds of [plain] holds of every element, for a property only
    universal rules declare [!important], once one of them applies. *)
Lemma like_plain (v : env) (e : elem) (pe : option pseudo_el) (p : string) :
  important_universal p page_css = true ->
  filter is_important (candidates v page_css plain pe p) <> [] ->
  computed v page_css e pe p = computed v page_css plain pe p.
Proof. apply computed_important_uniform. Qed.

(** Every device with the preference and each of the element's own
    boxes. *)
Ltac plain_cases :=
  intros [[] [] [] []] [[| | n | n]|] Hv Hpe; cbn in Hv, Hpe; try discriminate.

Lemma plain_reduced (v : env) (pe : option pseudo_el) :
  reduced_motion v = true -> own_box pe = true ->
  filter is_important (candidates v page_css plain pe "transition-duration") <> [] /\
  filter is_important (candidates v page_css plain pe "animation-duration") <> [] /\
  filter is_important (candidates v page_css plain pe "animation-iteration-count") <> [] /\
  computed v page_css plain pe "transition-duration" = Some (ms 0.01) /\
  computed v page_css plain pe "animation-duration" = Some (ms 0.01) /\
  computed v page_css plain pe "animation-iteration-count" = Some (num 1).
Proof. revert v pe. plain_cases; repeat split; vm_compute; congruence. Qed.

Lemma plain_cursor (v : env) (pe : option pseudo_el) :
  own_box pe = true ->
  filter is_important (candidates v page_css plain pe "cursor") <> [] /\
  computed v page_css plain pe "cursor" =
    Some (Kw (if negb (can_hover v) && coarse_pointer v then "auto" else "none")).
Proof.
  revert v pe. intros [[] [] [] []] [[| | n | n]|] Hpe; cbn in Hpe; try discriminate;
    split; vm_compute; congruence.
Qed.

(** ** Properties *)

(** C29: under the reduced-motion preference, every element of the page and
    its [::before] and [::after] transition in 0.01ms and run each
    animation once for 0.01ms, whatever its classes, attributes, state
    and [style] attribute. *)
Theorem reduced_motion_everywhere (v : env) (e : elem) (pe : option pseudo_el) :
  reduced_motion v = true -> own_box pe = true ->
  computed v page_css e pe "transition-duration" = Some (ms 0.01) /\
  computed v page_css e pe "animation-duration" = Some (ms 0.01) /\
  computed v page_css e pe "animation-iteration-count" = Some (num 1).
Proof.
  intros Hv Hpe. destruct (plain_reduced v pe Hv Hpe) as (H1 & H2 & H3 & E1 & E2 & E3).
  destruct page_important_universal as (U1 & U2 & U3 & _).
  rewrite !(like_plain v e pe) by assumption. auto.
Qed.

(** The view transition of section 5.3 is not reached by that block:
    [*::before] and [*::after] do not select [::view-transition-old], so
    with the preference set the shared element still animates for 0.5s. *)
Example view_transition_not_reduced :
  computed (mk_env true false true true) page_css plain (Some (PVtOld "shared-hero")) "animation-duration"
    = Some (sec 0.5).
Proof. vm_compute. reflexivity. Qed.

(** C35: every element and its two pseudo-elements show the default cursor
    on a device whose pointer cannot hover and is coarse, and no cursor
    (the custom one replaces it) on every other device. *)
Theorem cursor_by_device (v : env) (e : elem) (pe : option pseudo_el) :
  own_box pe = true ->
  computed v page_css e pe "cursor" =
    Some (Kw (if negb (can_hover v) && coarse_pointer v then "auto" else "none")).
Proof.
  intros Hpe. destruct (plain_cursor v pe Hpe) as [Hne E].
  destruct page_important_universal as (_ & _ & _ & U).
  rewrite (like_plain v e pe "cursor" U Hne). exact E.
Qed.

(** Witness: a pressed ripple button's [::after] on a desktop asking
    for reduced motion. *)
Lemma reduced_motion_everywhere_witness :
  let v := mk_env true false true true in
  let e := MicroCss.control "button" "btn-ripple" true true in
  reduced_motion v = true /\ own_box (Some PAfter) = true /\
  (computed v page_css e (Some PAfter) "transition-duration" = Some (ms 0.01) /\
   computed v page_css e (Some PAfter) "animation-duration" = Some (ms 0.01) /\
   computed v page_css e (Some PAfter) "animation-iteration-count" = Some (num 1)).
Proof.
  split; [reflexivity|]. split; [reflexivity|].
  exact (reduced_motion_everywhere (mk_env true false true true) (MicroCss.control "button" "btn-ripple" true true)
           (Some PAfter) eq_refl eq_refl).
Defined.

Lemma cursor_by_device_witness :
  own_box None = true /\
  computed (mk_env false true false false) page_css (MicroCss.control "a" "link-highlight" false false)
    None "cursor" = Some (Kw "auto").
Proof.
  split; [reflexivity|].
  exact (cursor_by_device (mk_env false true false false) (MicroCss.control "a" "link-highlight" false false)
           None eq_refl).
Defined.

End PageCss.
